(** * mod_audio_stream: the streaming engine, embedded and verified

    A shallow embedding of the running core of mod_audio_stream
    (the ring [Buffer] and [generate_json_data_event] of stream_utils,
    the [AudioPipe] transport state machine, and the playback and capture
    glue of lws_glue.cpp), followed by the properties the specification
    states about it.

    Conventions.
    - C integers are [Z]; an unsigned field of width [w] is stored through
      [wrap w], a signed [int] is kept unwrapped (signed overflow is
      undefined in C and never reached by the inputs considered).
    - Bytes are [Byte.byte]; C strings are [string].
    - A callback of the transport is a function from the object's state to
      its next state together with the list of effects it performed, in
      program order ([effect]).
    - The host platform (switch_buffer_*, the clock, libwebsockets) is not
      part of the repository; its few operations used here are modelled by
      their documented contracts and marked as such. *)

From Stdlib Require Import ZArith NArith List String Ascii Bool Lia DecimalString.
From Stdlib Require Import Sorted.
From Stdlib Require Import Floats Uint63.
From Stdlib.Strings Require Import Byte.
Import ListNotations.

Unset Lia Cache.
Unset Nia Cache.

Open Scope string_scope.
Open Scope list_scope.
Open Scope Z_scope.

(** ** Machine integers *)

Definition wrap (w x : Z) : Z := x mod 2 ^ w.
Definition uint8 : Z -> Z := wrap 8.
Definition uint32 : Z -> Z := wrap 32.
Definition size_t : Z -> Z := wrap 64.

Definition len {A} (l : list A) : Z := Z.of_nat (List.length l).

(** ** stream_utils.hpp: constants and enumerations *)

Definition L16_FRAME_SIZE_8KHZ_20MS : Z := 320.
Definition ULAW_FRAME_SIZE_8KHZ_20MS : Z := 160.
Definition MAX_CONNECTION_ATTEMPTS : Z := 3.
Definition RECONNECTION_DELAY_SECONDS : Z := 1.
Definition LWS_US_PER_SEC : Z := 1000000.

Inductive streaming_codec_t := L16 | ULAW.

Inductive client_event_type_t :=
  CLIENT_EVENT_START | CLIENT_EVENT_MEDIA | CLIENT_EVENT_STOP.

Definition codec_eqb (a b : streaming_codec_t) : bool :=
  match a, b with
  | L16, L16 | ULAW, ULAW => true
  | _, _ => false
  end.

(** ** The host's dynamic byte buffer

    [switch_buffer_t] belongs to the telephony platform.  Its contract, as
    the module uses it: a FIFO of bytes created with a maximum length
    ([0] means unbounded); [switch_buffer_write] appends the whole block and
    returns the new fill, or stores nothing and returns [0] when the block
    does not fit; [switch_buffer_read] removes and returns up to the
    requested number of bytes from the front; [switch_buffer_zero] empties
    the buffer. *)

Module switch_buffer.

Record t := mk { data : list byte; max_len : Z }.

Definition create_dynamic (max : Z) : t := mk [] max.

Definition inuse (b : t) : Z := len (data b).

Definition write (b : t) (block : list byte) : t * Z :=
  if (len block =? 0) then (b, inuse b)
  else if (max_len b =? 0) || (inuse b + len block <=? max_len b)
  then (mk (data b ++ block) (max_len b), inuse b + len block)
  else (b, 0).

Definition read (b : t) (datalen : Z) : t * list byte :=
  let n := Z.to_nat datalen in
  (mk (skipn n (data b)) (max_len b), firstn n (data b)).

Definition zero (b : t) : t := mk [] (max_len b).

End switch_buffer.

(** ** Buffer (stream_utils.hpp and its implementation) *)

Record Buffer := mkBuffer {
  freeswitch_buffer_ : switch_buffer.t;
  time_step_increment_ : Z;
  start_time_ : Z;
  generated_time_ : Z;
  generated_chunk_count_ : Z;
  chunk_size_bytes_ : Z;
  current_usage_bytes_ : Z;
  maximum_capacity_bytes_ : Z;
  degradation_notification_sent_ : Z;
  last_send_time_ : Z;
  transmitted_chunk_count_ : Z
}.

(** [Buffer::Buffer]; [now] is the value of [switch_micro_time_now ()]. *)
Definition Buffer_new (now : Z) (max_len step_buffer_len step_time_increase : Z)
  : Buffer :=
  {| freeswitch_buffer_ := switch_buffer.create_dynamic max_len;
     time_step_increment_ := step_time_increase * 1000;
     start_time_ := now;
     generated_time_ := now;
     generated_chunk_count_ := 0;
     chunk_size_bytes_ := uint32 step_buffer_len;
     current_usage_bytes_ := 0;
     maximum_capacity_bytes_ := uint32 max_len;
     degradation_notification_sent_ := 1;
     last_send_time_ := now;
     transmitted_chunk_count_ := 0 |}.

(** [Buffer::read]: [Some chunk] stands for [true] with [*data], [None] for
    [false] with [*datalen = 0].  A short read has already consumed what the
    host buffer held. *)
Definition Buffer_read (b : Buffer) : Buffer * option (list byte) :=
  let '(fb, buffer_copy) :=
    switch_buffer.read (freeswitch_buffer_ b) (chunk_size_bytes_ b) in
  let actual_read := len buffer_copy in
  if negb (actual_read =? chunk_size_bytes_ b) then
    (mkBuffer fb (time_step_increment_ b) (start_time_ b) (generated_time_ b)
       (generated_chunk_count_ b) (chunk_size_bytes_ b)
       (current_usage_bytes_ b) (maximum_capacity_bytes_ b)
       (degradation_notification_sent_ b) (last_send_time_ b)
       (transmitted_chunk_count_ b),
     None)
  else
    (mkBuffer fb (time_step_increment_ b) (start_time_ b) (generated_time_ b)
       (generated_chunk_count_ b) (chunk_size_bytes_ b)
       (uint32 (switch_buffer.inuse fb)) (maximum_capacity_bytes_ b)
       (degradation_notification_sent_ b)
       (last_send_time_ b + time_step_increment_ b)
       (uint32 (transmitted_chunk_count_ b + 1)),
     Some buffer_copy).

(** The [chunk_size_bytes_] bytes found at a [void *]: the frame's bytes,
    followed by whatever memory lies behind them (rendered as zero bytes)
    when the frame is shorter than a chunk. *)
Definition bytes_at (data : list byte) (n : Z) : list byte :=
  firstn (Z.to_nat n) (data ++ repeat x00 (Z.to_nat n - List.length data)).

(** [Buffer::write] *)
Definition Buffer_write (b : Buffer) (data : list byte) : Buffer * bool :=
  let '(fb, w) :=
    switch_buffer.write (freeswitch_buffer_ b)
      (bytes_at data (chunk_size_bytes_ b)) in
  if w =? 0 then (b, false)
  else
    (mkBuffer fb (time_step_increment_ b) (start_time_ b)
       (generated_time_ b + time_step_increment_ b)
       (uint32 (generated_chunk_count_ b + 1)) (chunk_size_bytes_ b)
       (uint32 (switch_buffer.inuse fb)) (maximum_capacity_bytes_ b)
       (degradation_notification_sent_ b) (last_send_time_ b)
       (transmitted_chunk_count_ b),
     true).

Definition is_data_available (b : Buffer) : bool :=
  0 <? current_usage_bytes_ b.

Definition set_degradation (b : Buffer) (n : Z) : Buffer :=
  mkBuffer (freeswitch_buffer_ b) (time_step_increment_ b) (start_time_ b)
    (generated_time_ b) (generated_chunk_count_ b) (chunk_size_bytes_ b)
    (current_usage_bytes_ b) (maximum_capacity_bytes_ b) n
    (last_send_time_ b) (transmitted_chunk_count_ b).

(** ** base64.hpp *)

(** Modelled from the spec: the third-party header base64.hpp
    ([base64::base64_encode], [base64::base64_decode]) is not among the
    sources.  The specification fixes it as the standard alphabet with
    padding: three bytes become four characters, a final group of one or two
    bytes is completed with [=]. *)

Module base64.

Definition alphabet : list ascii :=
  list_ascii_of_string
    "ABCDEFGHIJKLMNOPQRSTUVWXYZabcdefghijklmnopqrstuvwxyz0123456789+/".

Definition pad : ascii := "="%char.

Definition enc (n : N) : ascii := nth (N.to_nat n) alphabet pad.

Fixpoint index_of (c : ascii) (l : list ascii) (i : N) : option N :=
  match l with
  | [] => None
  | x :: r => if Ascii.eqb c x then Some i else index_of c r (N.succ i)
  end.

Definition dec (c : ascii) : option N := index_of c alphabet 0%N.

Fixpoint encode_list (l : list byte) : list ascii :=
  match l with
  | [] => []
  | [a] =>
      let x := Byte.to_N a in
      [enc (x / 4); enc ((x mod 4) * 16); pad; pad]
  | [a; b] =>
      let x := Byte.to_N a in
      let y := Byte.to_N b in
      [enc (x / 4); enc ((x mod 4) * 16 + y / 16); enc ((y mod 16) * 4); pad]
  | a :: b :: c :: rest =>
      let x := Byte.to_N a in
      let y := Byte.to_N b in
      let z := Byte.to_N c in
      enc (x / 4) :: enc ((x mod 4) * 16 + y / 16)
        :: enc ((y mod 16) * 4 + z / 64) :: enc (z mod 64)
        :: encode_list rest
  end%N.

(** Modelled from the spec: [base64::base64_encode]. *)
Definition base64_encode (l : list byte) : string :=
  string_of_list_ascii (encode_list l).

Definition byte_of (n : N) : option byte := Byte.of_N n.

Definition bind {A B} (o : option A) (f : A -> option B) : option B :=
  match o with Some a => f a | None => None end.

Fixpoint decode_list (l : list ascii) : option (list byte) :=
  match l with
  | [] => Some []
  | c1 :: c2 :: c3 :: c4 :: rest =>
      bind (dec c1) (fun s1 =>
      bind (dec c2) (fun s2 =>
      bind (byte_of (s1 * 4 + s2 / 16)) (fun b1 =>
      if Ascii.eqb c4 pad then
        match rest with
        | [] =>
            if Ascii.eqb c3 pad then Some [b1]
            else
              bind (dec c3) (fun s3 =>
              bind (byte_of ((s2 mod 16) * 16 + s3 / 4)) (fun b2 =>
              Some [b1; b2]))
        | _ :: _ => None
        end
      else
        bind (dec c3) (fun s3 =>
        bind (dec c4) (fun s4 =>
        bind (byte_of ((s2 mod 16) * 16 + s3 / 4)) (fun b2 =>
        bind (byte_of ((s3 mod 4) * 64 + s4)) (fun b3 =>
        bind (decode_list rest) (fun tl =>
        Some (b1 :: b2 :: b3 :: tl)))))))))
  | _ => None
  end%N.

(** Modelled from the spec: [base64::base64_decode]; [None] for a text
    that is not the encoding of any bytes. *)
Definition base64_decode (s : string) : option (list byte) :=
  decode_list (list_ascii_of_string s).

End base64.

(** ** Wire messages

    One JSON object per text frame.  The objects are kept structured (the
    printer cJSON_Print is the host's); [JText] is a text queued as it is
    ([stream_session_send_text], and the empty text queued on
    CONNECT_SUCCESS). *)

Inductive json_msg :=
| JStart (sequenceNumber : Z) (callId stream_id : string)
         (tracks : list string) (encoding : string) (sampleRate : Z)
         (extra_headers : option string)
| JMedia (sequenceNumber : Z) (stream_id track timestamp : string)
         (chunk : Z) (payload : string) (extra_headers : option string)
| JStop (sequenceNumber : Z) (stream_id callId : string)
        (extra_headers : option string)
| JPlayedStream (sequenceNumber : Z) (stream_id name : string)
| JIncorrectPayload (stream_id payload : string) (sequenceNumber : Z)
| JMediaCleared (sequenceNumber : Z) (streamId : string)
| JText (text : string).

(** [data != ""]: no printed object is the empty string. *)
Definition is_empty_text (m : json_msg) : bool :=
  match m with
  | JText s => String.eqb s ""
  | _ => false
  end.

Definition extra_headers_member (extraHeaders : string) : option string :=
  if 0 <? Z.of_nat (String.length extraHeaders) then Some extraHeaders
  else None.

(** [snprintf (time_str, 14, "%ld", t)]: at most 13 characters are kept. *)
Definition time_str (t : Z) : string :=
  String.substring 0 13 (NilZero.string_of_int (Z.to_int t)).

(** [generate_json_data_event]: the buffer after the call (a media event
    reads it) and the message, [None] for a [NULL] result. *)
Definition generate_json_data_event (event : client_event_type_t)
    (sequenceNumber : Z) (uuid streamid track : string)
    (buffer : option Buffer) (extraHeaders : string)
    (codec : streaming_codec_t) (sampling : Z)
  : option Buffer * option json_msg :=
  match event with
  | CLIENT_EVENT_START =>
      (buffer,
       Some (JStart sequenceNumber uuid streamid
               (if String.eqb track "both" then ["inbound"; "outbound"]
                else [track])
               (match codec with
                | L16 => "audio/x-l16"
                | ULAW => "audio/x-mulaw"
                end)
               sampling (extra_headers_member extraHeaders)))
  | CLIENT_EVENT_MEDIA =>
      match buffer with
      | None => (None, None)
      | Some b =>
          let '(b', r) := Buffer_read b in
          match r with
          | None => (Some b', None)
          | Some payload =>
              if len payload =? 0 then (Some b', None)
              else
                (Some b',
                 Some (JMedia sequenceNumber streamid track
                         (time_str (last_send_time_ b'))
                         (transmitted_chunk_count_ b')
                         (base64.base64_encode payload)
                         (extra_headers_member extraHeaders)))
          end
      end
  | CLIENT_EVENT_STOP =>
      (buffer,
       Some (JStop sequenceNumber streamid uuid
               (extra_headers_member extraHeaders)))
  end.

(** ** AudioPipe (audio_pipe.hpp and its implementation) *)

Inductive LwsState_t :=
| LWS_CLIENT_IDLE
| LWS_CLIENT_CONNECTING
| LWS_CLIENT_CONNECTED
| LWS_CLIENT_FAILED
| LWS_CLIENT_DISCONNECTING
| LWS_CLIENT_DISCONNECTED
| LWS_CLIENT_RECONNECTING.

Inductive NotifyEvent_t :=
| CONNECT_SUCCESS
| CONNECT_FAIL
| CONNECTION_DROPPED
| CONNECTION_CLOSED_GRACEFULLY
| CONNECTION_TIMEOUT
| CONNECTION_DEGRADED
| MESSAGE.

Definition state_eqb (a b : LwsState_t) : bool :=
  match a, b with
  | LWS_CLIENT_IDLE, LWS_CLIENT_IDLE
  | LWS_CLIENT_CONNECTING, LWS_CLIENT_CONNECTING
  | LWS_CLIENT_CONNECTED, LWS_CLIENT_CONNECTED
  | LWS_CLIENT_FAILED, LWS_CLIENT_FAILED
  | LWS_CLIENT_DISCONNECTING, LWS_CLIENT_DISCONNECTING
  | LWS_CLIENT_DISCONNECTED, LWS_CLIENT_DISCONNECTED
  | LWS_CLIENT_RECONNECTING, LWS_CLIENT_RECONNECTING => true
  | _, _ => false
  end.

Inductive switch_log_level_t :=
| SWITCH_LOG_DEBUG
| SWITCH_LOG_INFO
| SWITCH_LOG_NOTICE
| SWITCH_LOG_WARNING
| SWITCH_LOG_ERROR.

(** The payload of an event fired on the host's bus: the members of a JSON
    object, or a text passed through. *)
Inductive host_payload :=
| members (l : list (string * string))
| verbatim (text : string).

(** What a call of the transport does to the outside, in program order:
    frames handed to the socket, notifications to the session
    ([m_callback]), timers and wake-ups asked from libwebsockets, the
    object deleting itself, and (for the session's code further down) the
    events fired on the host's bus and the lines logged by the two message
    handlers whose specification speaks of a warning.  The static lists [pendingConnects],
    [pendingReconnects], [pendingDisconnects] and [pendingWrites] are
    represented per object, by the membership of the object in each. *)
Inductive effect :=
| lws_write (m : json_msg)
| notify (e : NotifyEvent_t) (message : string)
| lws_sul_schedule (delay_us : Z)
| lws_callback_on_writable
| lws_close_reason
| lws_cancel_service
| lws_client_connect_via_info
| delete_ap
| response_handler (event_name : string) (json_payload : host_payload)
| switch_log_printf (level : switch_log_level_t) (line : string).

Record AudioPipe := mkAudioPipe {
  m_audio_buffer : option Buffer;
  m_ob_audio_buffer : option Buffer;
  m_switch : bool;
  m_is_bidirectional : Z;
  m_uuid : string;
  m_streamid : string;
  m_codec : streaming_codec_t;
  m_connection_attempts : Z;
  m_events : list json_msg;
  m_state : LwsState_t;
  m_sampling : Z;
  m_track : string;
  m_extra_headers : string;
  m_wsi : option Z;
  m_vhd : bool;
  m_sequenceNumber : Z;
  m_audio_buffer_max_len : Z;
  m_gracefulShutdown : bool;
  m_gracefulShutdown_at : Z;
  m_firstMsgSent : bool;
  m_lastMsgSent : bool;
  m_bothTracks : bool;
  m_stream_started : bool;
  pendingConnects : bool;
  pendingReconnects : bool;
  pendingDisconnects : bool;
  pendingWrites : bool
}.

(** Field updates (the fields assigned after construction). *)

Definition set_m_audio_buffer (v : option Buffer) (r : AudioPipe) : AudioPipe :=
  mkAudioPipe v (m_ob_audio_buffer r) (m_switch r) (m_is_bidirectional r)
    (m_uuid r) (m_streamid r) (m_codec r) (m_connection_attempts r)
    (m_events r) (m_state r) (m_sampling r) (m_track r) (m_extra_headers r)
    (m_wsi r) (m_vhd r) (m_sequenceNumber r) (m_audio_buffer_max_len r)
    (m_gracefulShutdown r) (m_gracefulShutdown_at r) (m_firstMsgSent r)
    (m_lastMsgSent r) (m_bothTracks r) (m_stream_started r)
    (pendingConnects r) (pendingReconnects r) (pendingDisconnects r)
    (pendingWrites r).
Definition set_m_ob_audio_buffer (v : option Buffer) (r : AudioPipe) : AudioPipe :=
  mkAudioPipe (m_audio_buffer r) v (m_switch r) (m_is_bidirectional r)
    (m_uuid r) (m_streamid r) (m_codec r) (m_connection_attempts r)
    (m_events r) (m_state r) (m_sampling r) (m_track r) (m_extra_headers r)
    (m_wsi r) (m_vhd r) (m_sequenceNumber r) (m_audio_buffer_max_len r)
    (m_gracefulShutdown r) (m_gracefulShutdown_at r) (m_firstMsgSent r)
    (m_lastMsgSent r) (m_bothTracks r) (m_stream_started r)
    (pendingConnects r) (pendingReconnects r) (pendingDisconnects r)
    (pendingWrites r).
Definition set_m_switch (v : bool) (r : AudioPipe) : AudioPipe :=
  mkAudioPipe (m_audio_buffer r) (m_ob_audio_buffer r) v
    (m_is_bidirectional r) (m_uuid r) (m_streamid r) (m_codec r)
    (m_connection_attempts r) (m_events r) (m_state r) (m_sampling r)
    (m_track r) (m_extra_headers r) (m_wsi r) (m_vhd r) (m_sequenceNumber r)
    (m_audio_buffer_max_len r) (m_gracefulShutdown r)
    (m_gracefulShutdown_at r) (m_firstMsgSent r) (m_lastMsgSent r)
    (m_bothTracks r) (m_stream_started r) (pendingConnects r)
    (pendingReconnects r) (pendingDisconnects r) (pendingWrites r).
Definition set_m_connection_attempts (v : Z) (r : AudioPipe) : AudioPipe :=
  mkAudioPipe (m_audio_buffer r) (m_ob_audio_buffer r) (m_switch r)
    (m_is_bidirectional r) (m_uuid r) (m_streamid r) (m_codec r) v
    (m_events r) (m_state r) (m_sampling r) (m_track r) (m_extra_headers r)
    (m_wsi r) (m_vhd r) (m_sequenceNumber r) (m_audio_buffer_max_len r)
    (m_gracefulShutdown r) (m_gracefulShutdown_at r) (m_firstMsgSent r)
    (m_lastMsgSent r) (m_bothTracks r) (m_stream_started r)
    (pendingConnects r) (pendingReconnects r) (pendingDisconnects r)
    (pendingWrites r).
Definition set_m_events (v : list json_msg) (r : AudioPipe) : AudioPipe :=
  mkAudioPipe (m_audio_buffer r) (m_ob_audio_buffer r) (m_switch r)
    (m_is_bidirectional r) (m_uuid r) (m_streamid r) (m_codec r)
    (m_connection_attempts r) v (m_state r) (m_sampling r) (m_track r)
    (m_extra_headers r) (m_wsi r) (m_vhd r) (m_sequenceNumber r)
    (m_audio_buffer_max_len r) (m_gracefulShutdown r)
    (m_gracefulShutdown_at r) (m_firstMsgSent r) (m_lastMsgSent r)
    (m_bothTracks r) (m_stream_started r) (pendingConnects r)
    (pendingReconnects r) (pendingDisconnects r) (pendingWrites r).
Definition set_m_state (v : LwsState_t) (r : AudioPipe) : AudioPipe :=
  mkAudioPipe (m_audio_buffer r) (m_ob_audio_buffer r) (m_switch r)
    (m_is_bidirectional r) (m_uuid r) (m_streamid r) (m_codec r)
    (m_connection_attempts r) (m_events r) v (m_sampling r) (m_track r)
    (m_extra_headers r) (m_wsi r) (m_vhd r) (m_sequenceNumber r)
    (m_audio_buffer_max_len r) (m_gracefulShutdown r)
    (m_gracefulShutdown_at r) (m_firstMsgSent r) (m_lastMsgSent r)
    (m_bothTracks r) (m_stream_started r) (pendingConnects r)
    (pendingReconnects r) (pendingDisconnects r) (pendingWrites r).
Definition set_m_wsi (v : option Z) (r : AudioPipe) : AudioPipe :=
  mkAudioPipe (m_audio_buffer r) (m_ob_audio_buffer r) (m_switch r)
    (m_is_bidirectional r) (m_uuid r) (m_streamid r) (m_codec r)
    (m_connection_attempts r) (m_events r) (m_state r) (m_sampling r)
    (m_track r) (m_extra_headers r) v (m_vhd r) (m_sequenceNumber r)
    (m_audio_buffer_max_len r) (m_gracefulShutdown r)
    (m_gracefulShutdown_at r) (m_firstMsgSent r) (m_lastMsgSent r)
    (m_bothTracks r) (m_stream_started r) (pendingConnects r)
    (pendingReconnects r) (pendingDisconnects r) (pendingWrites r).
Definition set_m_vhd (v : bool) (r : AudioPipe) : AudioPipe :=
  mkAudioPipe (m_audio_buffer r) (m_ob_audio_buffer r) (m_switch r)
    (m_is_bidirectional r) (m_uuid r) (m_streamid r) (m_codec r)
    (m_connection_attempts r) (m_events r) (m_state r) (m_sampling r)
    (m_track r) (m_extra_headers r) (m_wsi r) v (m_sequenceNumber r)
    (m_audio_buffer_max_len r) (m_gracefulShutdown r)
    (m_gracefulShutdown_at r) (m_firstMsgSent r) (m_lastMsgSent r)
    (m_bothTracks r) (m_stream_started r) (pendingConnects r)
    (pendingReconnects r) (pendingDisconnects r) (pendingWrites r).
Definition set_m_sequenceNumber (v : Z) (r : AudioPipe) : AudioPipe :=
  mkAudioPipe (m_audio_buffer r) (m_ob_audio_buffer r) (m_switch r)
    (m_is_bidirectional r) (m_uuid r) (m_streamid r) (m_codec r)
    (m_connection_attempts r) (m_events r) (m_state r) (m_sampling r)
    (m_track r) (m_extra_headers r) (m_wsi r) (m_vhd r) v
    (m_audio_buffer_max_len r) (m_gracefulShutdown r)
    (m_gracefulShutdown_at r) (m_firstMsgSent r) (m_lastMsgSent r)
    (m_bothTracks r) (m_stream_started r) (pendingConnects r)
    (pendingReconnects r) (pendingDisconnects r) (pendingWrites r).
Definition set_m_gracefulShutdown (v : bool) (r : AudioPipe) : AudioPipe :=
  mkAudioPipe (m_audio_buffer r) (m_ob_audio_buffer r) (m_switch r)
    (m_is_bidirectional r) (m_uuid r) (m_streamid r) (m_codec r)
    (m_connection_attempts r) (m_events r) (m_state r) (m_sampling r)
    (m_track r) (m_extra_headers r) (m_wsi r) (m_vhd r) (m_sequenceNumber r)
    (m_audio_buffer_max_len r) v (m_gracefulShutdown_at r) (m_firstMsgSent r)
    (m_lastMsgSent r) (m_bothTracks r) (m_stream_started r)
    (pendingConnects r) (pendingReconnects r) (pendingDisconnects r)
    (pendingWrites r).
Definition set_m_gracefulShutdown_at (v : Z) (r : AudioPipe) : AudioPipe :=
  mkAudioPipe (m_audio_buffer r) (m_ob_audio_buffer r) (m_switch r)
    (m_is_bidirectional r) (m_uuid r) (m_streamid r) (m_codec r)
    (m_connection_attempts r) (m_events r) (m_state r) (m_sampling r)
    (m_track r) (m_extra_headers r) (m_wsi r) (m_vhd r) (m_sequenceNumber r)
    (m_audio_buffer_max_len r) (m_gracefulShutdown r) v (m_firstMsgSent r)
    (m_lastMsgSent r) (m_bothTracks r) (m_stream_started r)
    (pendingConnects r) (pendingReconnects r) (pendingDisconnects r)
    (pendingWrites r).
Definition set_m_firstMsgSent (v : bool) (r : AudioPipe) : AudioPipe :=
  mkAudioPipe (m_audio_buffer r) (m_ob_audio_buffer r) (m_switch r)
    (m_is_bidirectional r) (m_uuid r) (m_streamid r) (m_codec r)
    (m_connection_attempts r) (m_events r) (m_state r) (m_sampling r)
    (m_track r) (m_extra_headers r) (m_wsi r) (m_vhd r) (m_sequenceNumber r)
    (m_audio_buffer_max_len r) (m_gracefulShutdown r)
    (m_gracefulShutdown_at r) v (m_lastMsgSent r) (m_bothTracks r)
    (m_stream_started r) (pendingConnects r) (pendingReconnects r)
    (pendingDisconnects r) (pendingWrites r).
Definition set_m_lastMsgSent (v : bool) (r : AudioPipe) : AudioPipe :=
  mkAudioPipe (m_audio_buffer r) (m_ob_audio_buffer r) (m_switch r)
    (m_is_bidirectional r) (m_uuid r) (m_streamid r) (m_codec r)
    (m_connection_attempts r) (m_events r) (m_state r) (m_sampling r)
    (m_track r) (m_extra_headers r) (m_wsi r) (m_vhd r) (m_sequenceNumber r)
    (m_audio_buffer_max_len r) (m_gracefulShutdown r)
    (m_gracefulShutdown_at r) (m_firstMsgSent r) v (m_bothTracks r)
    (m_stream_started r) (pendingConnects r) (pendingReconnects r)
    (pendingDisconnects r) (pendingWrites r).
Definition set_m_stream_started (v : bool) (r : AudioPipe) : AudioPipe :=
  mkAudioPipe (m_audio_buffer r) (m_ob_audio_buffer r) (m_switch r)
    (m_is_bidirectional r) (m_uuid r) (m_streamid r) (m_codec r)
    (m_connection_attempts r) (m_events r) (m_state r) (m_sampling r)
    (m_track r) (m_extra_headers r) (m_wsi r) (m_vhd r) (m_sequenceNumber r)
    (m_audio_buffer_max_len r) (m_gracefulShutdown r)
    (m_gracefulShutdown_at r) (m_firstMsgSent r) (m_lastMsgSent r)
    (m_bothTracks r) v (pendingConnects r) (pendingReconnects r)
    (pendingDisconnects r) (pendingWrites r).
Definition set_pendingConnects (v : bool) (r : AudioPipe) : AudioPipe :=
  mkAudioPipe (m_audio_buffer r) (m_ob_audio_buffer r) (m_switch r)
    (m_is_bidirectional r) (m_uuid r) (m_streamid r) (m_codec r)
    (m_connection_attempts r) (m_events r) (m_state r) (m_sampling r)
    (m_track r) (m_extra_headers r) (m_wsi r) (m_vhd r) (m_sequenceNumber r)
    (m_audio_buffer_max_len r) (m_gracefulShutdown r)
    (m_gracefulShutdown_at r) (m_firstMsgSent r) (m_lastMsgSent r)
    (m_bothTracks r) (m_stream_started r) v (pendingReconnects r)
    (pendingDisconnects r) (pendingWrites r).
Definition set_pendingReconnects (v : bool) (r : AudioPipe) : AudioPipe :=
  mkAudioPipe (m_audio_buffer r) (m_ob_audio_buffer r) (m_switch r)
    (m_is_bidirectional r) (m_uuid r) (m_streamid r) (m_codec r)
    (m_connection_attempts r) (m_events r) (m_state r) (m_sampling r)
    (m_track r) (m_extra_headers r) (m_wsi r) (m_vhd r) (m_sequenceNumber r)
    (m_audio_buffer_max_len r) (m_gracefulShutdown r)
    (m_gracefulShutdown_at r) (m_firstMsgSent r) (m_lastMsgSent r)
    (m_bothTracks r) (m_stream_started r) (pendingConnects r) v
    (pendingDisconnects r) (pendingWrites r).
Definition set_pendingDisconnects (v : bool) (r : AudioPipe) : AudioPipe :=
  mkAudioPipe (m_audio_buffer r) (m_ob_audio_buffer r) (m_switch r)
    (m_is_bidirectional r) (m_uuid r) (m_streamid r) (m_codec r)
    (m_connection_attempts r) (m_events r) (m_state r) (m_sampling r)
    (m_track r) (m_extra_headers r) (m_wsi r) (m_vhd r) (m_sequenceNumber r)
    (m_audio_buffer_max_len r) (m_gracefulShutdown r)
    (m_gracefulShutdown_at r) (m_firstMsgSent r) (m_lastMsgSent r)
    (m_bothTracks r) (m_stream_started r) (pendingConnects r)
    (pendingReconnects r) v (pendingWrites r).
Definition set_pendingWrites (v : bool) (r : AudioPipe) : AudioPipe :=
  mkAudioPipe (m_audio_buffer r) (m_ob_audio_buffer r) (m_switch r)
    (m_is_bidirectional r) (m_uuid r) (m_streamid r) (m_codec r)
    (m_connection_attempts r) (m_events r) (m_state r) (m_sampling r)
    (m_track r) (m_extra_headers r) (m_wsi r) (m_vhd r) (m_sequenceNumber r)
    (m_audio_buffer_max_len r) (m_gracefulShutdown r)
    (m_gracefulShutdown_at r) (m_firstMsgSent r) (m_lastMsgSent r)
    (m_bothTracks r) (m_stream_started r) (pendingConnects r)
    (pendingReconnects r) (pendingDisconnects r) v.

(** [AudioPipe::AudioPipe]; [now] is the clock read by the [Buffer]
    constructor.  The connection parameters (host, port, path, TLS flags,
    credentials) play no part in what follows and are left out. *)
Definition AudioPipe_new (now : Z) (uuid stream_id : string) (bufLen : Z)
    (track extraHeaders : string) (codec : streaming_codec_t)
    (sampling is_bidirectional : Z) : AudioPipe :=
  let ptime := 20 in
  let step_frame_size :=
    if codec_eqb codec ULAW
    then ULAW_FRAME_SIZE_8KHZ_20MS * Z.quot sampling 8000
    else L16_FRAME_SIZE_8KHZ_20MS * Z.quot sampling 8000 in
  let both := String.eqb track "both" in
  {| m_audio_buffer := Some (Buffer_new now bufLen step_frame_size ptime);
     m_ob_audio_buffer :=
       if both then Some (Buffer_new now bufLen step_frame_size ptime)
       else None;
     m_switch := true;
     m_is_bidirectional := is_bidirectional;
     m_uuid := uuid;
     m_streamid := stream_id;
     m_codec := codec;
     m_connection_attempts := 0;
     m_events := [];
     m_state := LWS_CLIENT_IDLE;
     m_sampling := sampling;
     m_track := track;
     m_extra_headers := extraHeaders;
     m_wsi := None;
     m_vhd := false;
     m_sequenceNumber := 0;
     m_audio_buffer_max_len := bufLen;
     m_gracefulShutdown := false;
     m_gracefulShutdown_at := 0;
     m_firstMsgSent := false;
     m_lastMsgSent := false;
     m_bothTracks := both;
     m_stream_started := false;
     pendingConnects := false;
     pendingReconnects := false;
     pendingDisconnects := false;
     pendingWrites := false |}.

Definition getLwsState (ap : AudioPipe) : LwsState_t := m_state ap.
Definition isGracefulShutdown (ap : AudioPipe) : bool := m_gracefulShutdown ap.
Definition isFirstMessageSent (ap : AudioPipe) : bool := m_firstMsgSent ap.
Definition needsBothTracks (ap : AudioPipe) : bool := m_bothTracks ap.
Definition getSequenceNumber (ap : AudioPipe) : Z := m_sequenceNumber ap.

Definition increaseSequenceNumber (ap : AudioPipe) : AudioPipe :=
  set_m_sequenceNumber (m_sequenceNumber ap + 1) ap.

(** A transition: the next state and the effects performed. *)
Definition step_result : Type := AudioPipe * list effect.

Definition addPendingConnect (ap : AudioPipe) : step_result :=
  (set_pendingConnects true ap, [lws_cancel_service]).

Definition addPendingDisconnect (ap : AudioPipe) : step_result :=
  (set_pendingDisconnects true (set_m_state LWS_CLIENT_DISCONNECTING ap),
   [lws_cancel_service]).

Definition addPendingWrite (ap : AudioPipe) : step_result :=
  (set_pendingWrites true ap, [lws_cancel_service]).

(** [AudioPipe::connect] *)
Definition connect (ap : AudioPipe) : step_result := addPendingConnect ap.

(** [AudioPipe::addEventBuffer]: the message will be sent on the
    websocket; the boolean is the function's result. *)
Definition addEventBuffer (text : json_msg) (ap : AudioPipe)
  : step_result * bool :=
  if negb (state_eqb (m_state ap) LWS_CLIENT_CONNECTED) then ((ap, []), false)
  else
    let ap1 := set_m_events (m_events ap ++ [text]) ap in
    (addPendingWrite ap1, true).

(** [AudioPipe::getEventData]: the oldest queued text, removed from the
    queue, or the empty text. *)
Definition getEventData (ap : AudioPipe) : AudioPipe * json_msg :=
  match m_events ap with
  | data :: rest => (set_m_events rest ap, data)
  | [] => (ap, JText "")
  end.

Definition buffer_has_data (b : option Buffer) : bool :=
  match b with
  | Some b => is_data_available b
  | None => false
  end.

(** [AudioPipe::allBuffersAreEmpty] *)
Definition allBuffersAreEmpty (ap : AudioPipe) : bool :=
  if buffer_has_data (m_audio_buffer ap) then false
  else if buffer_has_data (m_ob_audio_buffer ap) then false
  else true.

(** [AudioPipe::close] *)
Definition close (ap : AudioPipe) : step_result :=
  if negb (state_eqb (m_state ap) LWS_CLIENT_CONNECTED) then (ap, [])
  else addPendingDisconnect ap.

(** [AudioPipe::graceful_shutdown]; [now] is [switch_epoch_time_now]. *)
Definition graceful_shutdown (now : Z) (ap : AudioPipe) : step_result :=
  addPendingWrite
    (set_m_gracefulShutdown_at now (set_m_gracefulShutdown true ap)).

(** The timer armed before a reconnection. *)
Definition schedule_reconnect : effect :=
  lws_sul_schedule (RECONNECTION_DELAY_SECONDS * LWS_US_PER_SEC).

(** [AudioPipe::connect_client]; [wsi] is what
    [lws_client_connect_via_info] returns ([None] for a null pointer). *)
Definition connect_client (wsi : option Z) (ap : AudioPipe)
  : step_result * bool :=
  let ap1 := set_m_vhd true (set_m_state LWS_CLIENT_CONNECTING ap) in
  let ap2 := set_m_wsi wsi ap1 in
  let ap3 := set_m_connection_attempts (m_connection_attempts ap2 + 1) ap2 in
  ((ap3, [lws_client_connect_via_info]),
   match wsi with Some _ => true | None => false end).

(** [AudioPipe::reconnect], the timer's callback. *)
Definition reconnect (wsi : option Z) (ap : AudioPipe) : step_result :=
  let ap1 := set_m_wsi None ap in
  let ap2 := set_m_connection_attempts (m_connection_attempts ap1 + 1) ap1 in
  let ap3 := set_m_state LWS_CLIENT_RECONNECTING ap2 in
  let ap4 := set_pendingReconnects true ap3 in
  (set_m_wsi wsi ap4, [lws_client_connect_via_info]).

Definition wsi_is (w : Z) (o : option Z) : bool :=
  match o with
  | Some x => x =? w
  | None => false
  end.

Definition wsi_null (o : option Z) : bool :=
  match o with
  | Some _ => false
  | None => true
  end.

(** [AudioPipe::findAndRemovePendingConnect], for this object: whether it
    is the one found, and its membership of the list afterwards. *)
Definition findAndRemovePendingConnect (wsi : Z) (ap : AudioPipe)
  : AudioPipe * bool :=
  if pendingConnects ap then
    let found :=
      state_eqb (m_state ap) LWS_CLIENT_CONNECTING && wsi_is wsi (m_wsi ap) in
    let removed := wsi_null (m_wsi ap) || found in
    (set_pendingConnects (negb removed) ap, found)
  else (ap, false).

(** [AudioPipe::findAndRemovePendingReconnect] *)
Definition findAndRemovePendingReconnect (wsi : Z) (ap : AudioPipe)
  : AudioPipe * bool :=
  if pendingReconnects ap then
    let found :=
      state_eqb (m_state ap) LWS_CLIENT_RECONNECTING
      && wsi_is wsi (m_wsi ap) in
    let removed := wsi_null (m_wsi ap) || found in
    (set_pendingReconnects (negb removed) ap, found)
  else (ap, false).

(** The search both handshake callbacks start with. *)
Definition find_pending (wsi : Z) (ap : AudioPipe) : AudioPipe * bool :=
  let '(ap1, found) := findAndRemovePendingConnect wsi ap in
  if found then (ap1, true) else findAndRemovePendingReconnect wsi ap1.

(** [AudioPipe::processPendingConnects] *)
Definition processPendingConnects (wsi : option Z) (ap : AudioPipe)
  : step_result :=
  if pendingConnects ap
     && (state_eqb (m_state ap) LWS_CLIENT_IDLE
         || state_eqb (m_state ap) LWS_CLIENT_RECONNECTING)
  then
    let ap1 := set_m_state LWS_CLIENT_CONNECTING ap in
    let '((ap2, eff), ok) := connect_client wsi ap1 in
    if ok then (ap2, eff)
    else if MAX_CONNECTION_ATTEMPTS <? m_connection_attempts ap2 then
      (set_m_state LWS_CLIENT_FAILED ap2,
       eff ++ [notify CONNECT_FAIL "unable to connect to service url"])
    else (set_m_state LWS_CLIENT_FAILED ap2, eff ++ [schedule_reconnect])
  else (ap, []).

(** [AudioPipe::processPendingDisconnects] *)
Definition processPendingDisconnects (ap : AudioPipe) : step_result :=
  let wake :=
    pendingDisconnects ap
    && state_eqb (m_state ap) LWS_CLIENT_DISCONNECTING
    && negb (wsi_null (m_wsi ap)) in
  (set_pendingDisconnects false ap,
   if wake then [lws_callback_on_writable] else []).

(** [AudioPipe::processPendingWrites] *)
Definition processPendingWrites (ap : AudioPipe) : step_result :=
  let wake :=
    pendingWrites ap
    && state_eqb (m_state ap) LWS_CLIENT_CONNECTED
    && negb (wsi_null (m_wsi ap)) in
  (set_pendingWrites false ap,
   if wake then [lws_callback_on_writable] else []).

(** *** AudioPipe::lws_callback

    One definition per callback reason; the result carries the value the
    callback returns ([-1] closes the connection; the final
    [lws_callback_http_dummy] of the other paths is read as [0]). *)

Definition callback_result : Type := AudioPipe * list effect * Z.

(** LWS_CALLBACK_EVENT_WAIT_CANCELLED; [wsi] is the result of the connect
    call, should [processPendingConnects] make one. *)
Definition on_event_wait_cancelled (wsi : option Z) (ap : AudioPipe)
  : callback_result :=
  let '(ap1, e1) := processPendingConnects wsi ap in
  let '(ap2, e2) := processPendingDisconnects ap1 in
  let '(ap3, e3) := processPendingWrites ap2 in
  (ap3, e1 ++ e2 ++ e3, 0).

(** LWS_CALLBACK_CLIENT_CONNECTION_ERROR *)
Definition on_client_connection_error (wsi : Z) (reason : string)
    (ap : AudioPipe) : callback_result :=
  let '(ap1, found) := find_pending wsi ap in
  if negb found then (ap1, [], 0)
  else if m_connection_attempts ap1 <=? MAX_CONNECTION_ATTEMPTS then
    (set_m_state LWS_CLIENT_FAILED ap1, [schedule_reconnect], 0)
  else
    (set_m_state LWS_CLIENT_FAILED ap1, [notify CONNECT_FAIL reason], 0).

(** LWS_CALLBACK_CLIENT_ESTABLISHED *)
Definition on_client_established (wsi : Z) (ap : AudioPipe)
  : callback_result :=
  let '(ap1, found) := find_pending wsi ap in
  if negb found then (ap1, [], 0)
  else
    let ap2 := set_m_vhd true ap1 in
    let ap3 := set_m_connection_attempts 0 ap2 in
    let ap4 := set_m_state LWS_CLIENT_CONNECTED ap3 in
    if negb (m_stream_started ap4) then
      (set_m_stream_started true ap4, [notify CONNECT_SUCCESS ""], 0)
    else (ap4, [], 0).

(** LWS_CALLBACK_CLIENT_CLOSED *)
Definition on_client_closed (ap : AudioPipe) : callback_result :=
  if isGracefulShutdown ap
     || state_eqb (m_state ap) LWS_CLIENT_DISCONNECTING
  then
    (set_m_state LWS_CLIENT_DISCONNECTED ap,
     [notify CONNECTION_CLOSED_GRACEFULLY ""; delete_ap], 0)
  else if state_eqb (m_state ap) LWS_CLIENT_CONNECTED then
    if m_connection_attempts ap <=? MAX_CONNECTION_ATTEMPTS then
      (set_m_state LWS_CLIENT_DISCONNECTED ap, [schedule_reconnect], 0)
    else
      (set_m_state LWS_CLIENT_DISCONNECTED ap,
       [notify CONNECTION_DROPPED ""; delete_ap], 0)
  else (set_m_state LWS_CLIENT_DISCONNECTED ap, [delete_ap], 0).

(** The three sends of the writable callback that carry a fresh sequence
    number. *)
Definition send_stop (ap : AudioPipe) : callback_result :=
  let '(_, payload) :=
    generate_json_data_event CLIENT_EVENT_STOP (m_sequenceNumber ap)
      (m_uuid ap) (m_streamid ap) (m_track ap) None (m_extra_headers ap)
      (m_codec ap) (m_sampling ap) in
  let ap1 := increaseSequenceNumber ap in
  let ap2 := set_m_lastMsgSent true ap1 in
  let ap3 := set_m_state LWS_CLIENT_DISCONNECTING ap2 in
  (ap3,
   match payload with
   | Some m => [lws_write m; lws_callback_on_writable]
   | None => [lws_callback_on_writable]
   end, 0).

Definition send_start (ap : AudioPipe) : callback_result :=
  let '(_, payload) :=
    generate_json_data_event CLIENT_EVENT_START (m_sequenceNumber ap)
      (m_uuid ap) (m_streamid ap) (m_track ap) None (m_extra_headers ap)
      (m_codec ap) (m_sampling ap) in
  let ap1 := increaseSequenceNumber ap in
  let ap2 := set_m_firstMsgSent true ap1 in
  (ap2,
   match payload with
   | Some m => [lws_write m; lws_callback_on_writable]
   | None => [lws_callback_on_writable]
   end, 0).

Definition flip_switch (ap : AudioPipe) : AudioPipe :=
  if needsBothTracks ap then set_m_switch (negb (m_switch ap)) ap else ap.

(** The audio part of the writable callback; [locked] is the result of
    [try_lock] on the chosen buffer. *)
Definition send_media (locked : bool) (ap : AudioPipe) : callback_result :=
  let use_ob := needsBothTracks ap && m_switch ap in
  let type :=
    if needsBothTracks ap then (if m_switch ap then 1 else 0)
    else if String.eqb (m_track ap) "inbound" then 0 else 1 in
  let audioBuffer :=
    if use_ob then m_ob_audio_buffer ap else m_audio_buffer ap in
  match audioBuffer with
  | None => (ap, [], 0)
  | Some _ =>
      if negb locked then (ap, [], 0)
      else
        let '(buffer', payload) :=
          generate_json_data_event CLIENT_EVENT_MEDIA (m_sequenceNumber ap)
            (m_uuid ap) (m_streamid ap)
            (if type =? 0 then "inbound"%string else "outbound"%string)
            audioBuffer (m_extra_headers ap) (m_codec ap) (m_sampling ap) in
        let ap1 :=
          if use_ob then set_m_ob_audio_buffer buffer' ap
          else set_m_audio_buffer buffer' ap in
        match payload with
        | None =>
            (flip_switch ap1,
             if isGracefulShutdown ap1 then [lws_callback_on_writable]
             else [], 0)
        | Some m =>
            let ap2 := increaseSequenceNumber ap1 in
            (flip_switch ap2, [lws_write m; lws_callback_on_writable], 0)
        end
  end.

(** LWS_CALLBACK_CLIENT_WRITEABLE.  [cur_time] is [switch_epoch_time_now],
    [locked] the outcome of [try_lock], and [short_write] tells that
    [lws_write] accepted fewer bytes than offered (the callback reacts to it
    only when the frame is a queued text). *)
Definition on_client_writeable (cur_time : Z) (locked short_write : bool)
    (ap : AudioPipe) : callback_result :=
  if isGracefulShutdown ap && (m_gracefulShutdown_at ap + 60 <=? cur_time)
  then (set_m_state LWS_CLIENT_DISCONNECTING ap, [lws_close_reason], -1)
  else if isGracefulShutdown ap && allBuffersAreEmpty ap
          && negb (m_lastMsgSent ap)
  then send_stop ap
  else if negb (m_firstMsgSent ap) then send_start ap
  else
    let '(ap1, data) := getEventData ap in
    if negb (is_empty_text data) then
      if short_write then (ap1, [lws_write data], -1)
      else (ap1, [lws_write data; lws_callback_on_writable], 0)
    else if state_eqb (m_state ap1) LWS_CLIENT_DISCONNECTING then
      (ap1, [lws_close_reason], -1)
    else send_media locked ap1.

(** LWS_CALLBACK_CLIENT_RECEIVE, for a text that arrives whole (one frame
    that is both the first and the final fragment; the accumulation of
    fragments is left out). *)
Definition on_client_receive (is_binary : bool) (msg : string)
    (ap : AudioPipe) : callback_result :=
  if m_is_bidirectional ap =? 0 then (ap, [], 0)
  else if is_binary then (ap, [], 0)
  else (ap, [notify MESSAGE msg], 0).

(** The callback reasons the transport reacts to, with what each call
    reads from its environment, followed by the timer and by the entry points
    other threads call on the object. *)
Inductive pipe_event :=
| LWS_CALLBACK_EVENT_WAIT_CANCELLED (wsi : option Z)
| LWS_CALLBACK_CLIENT_CONNECTION_ERROR (wsi : Z) (reason : string)
| LWS_CALLBACK_CLIENT_ESTABLISHED (wsi : Z)
| LWS_CALLBACK_CLIENT_CLOSED
| LWS_CALLBACK_CLIENT_WRITEABLE (cur_time : Z) (locked short_write : bool)
| LWS_CALLBACK_CLIENT_RECEIVE (is_binary : bool) (msg : string)
| sul_reconnect (wsi : option Z)
| call_connect
| call_close
| call_graceful_shutdown (now : Z)
| call_addEventBuffer (text : string).

Definition lws_callback (ev : pipe_event) (ap : AudioPipe) : callback_result :=
  match ev with
  | LWS_CALLBACK_EVENT_WAIT_CANCELLED wsi => on_event_wait_cancelled wsi ap
  | LWS_CALLBACK_CLIENT_CONNECTION_ERROR wsi reason =>
      on_client_connection_error wsi reason ap
  | LWS_CALLBACK_CLIENT_ESTABLISHED wsi => on_client_established wsi ap
  | LWS_CALLBACK_CLIENT_CLOSED => on_client_closed ap
  | LWS_CALLBACK_CLIENT_WRITEABLE cur_time locked short_write =>
      on_client_writeable cur_time locked short_write ap
  | LWS_CALLBACK_CLIENT_RECEIVE is_binary msg =>
      on_client_receive is_binary msg ap
  | sul_reconnect wsi => let '(ap1, e) := reconnect wsi ap in (ap1, e, 0)
  | call_connect => let '(ap1, e) := connect ap in (ap1, e, 0)
  | call_close => let '(ap1, e) := close ap in (ap1, e, 0)
  | call_graceful_shutdown now =>
      let '(ap1, e) := graceful_shutdown now ap in (ap1, e, 0)
  | call_addEventBuffer text =>
      let '((ap1, e), _) := addEventBuffer (JText text) ap in (ap1, e, 0)
  end.

(** ** The session (mod_audio_stream.h, lws_glue.cpp) *)

Definition EVENT_DISCONNECT := "mod_audio_stream::connection_closed"%string.
Definition EVENT_CONNECT_SUCCESS :=
  "mod_audio_stream::connection_established"%string.
Definition EVENT_CONNECT_FAIL := "mod_audio_stream::connection_failed"%string.
Definition EVENT_CONNECT_TIMEOUT :=
  "mod_audio_stream::connection_timeout"%string.
Definition EVENT_CONNECT_DEGRADED :=
  "mod_audio_stream::connection_degraded"%string.
Definition EVENT_INVALID_STREAM_INPUT :=
  "mod_audio_stream::stream_invalid_input"%string.
Definition EVENT_CLEARED_AUDIO := "mod_audio_stream::media_cleared"%string.
Definition EVENT_PLAYED := "mod_audio_stream::media_play_complete"%string.
Definition EVENT_TRANSCRIPTION_RECEIVED :=
  "mod_audio_stream::transcription_received"%string.
Definition TERMINATION_REASON_CONNECTION_ERROR := "Connection error"%string.

(** A node of the checkpoint list.  The C list is singly linked, its head
    caching the last node in [tail]; nodes are appended through that pointer
    and removed at the head, which is the behaviour of a [list] extended at
    its end. *)
Record stream_checkpoints_t := mk_checkpoint {
  position : Z;
  name : string
}.

(** The per-stream context ([private_data_t]).  [audio_pipe_ptr] tells
    whether the pointer is set; the object it points to is the [pipe] of the
    [world] below.  [tp_graceful_shutdown] is the bit field
    [graceful_shutdown]. *)
Record private_data_t := mk_private_data {
  stream_id : string;
  audio_pipe_ptr : bool;
  mutex : bool;
  resampler : bool;
  resampler_outbound : bool;
  is_started : Z;
  audio_paused : bool;
  tp_graceful_shutdown : bool;
  channel_closing : bool;
  invalid_stream_input_notified : bool;
  stream_termination_reason : string;
  start_time : Z;
  write_buffer : option switch_buffer.t;
  stream_input_received : Z;
  stream_input_played : Z;
  checkpoints : list stream_checkpoints_t
}.

Definition set_audio_pipe_ptr (v : bool) (r : private_data_t) : private_data_t :=
  mk_private_data (stream_id r) v (mutex r) (resampler r)
    (resampler_outbound r) (is_started r) (audio_paused r)
    (tp_graceful_shutdown r) (channel_closing r)
    (invalid_stream_input_notified r) (stream_termination_reason r)
    (start_time r) (write_buffer r) (stream_input_received r)
    (stream_input_played r) (checkpoints r).
Definition set_resampler_outbound (v : bool) (r : private_data_t) : private_data_t :=
  mk_private_data (stream_id r) (audio_pipe_ptr r) (mutex r) (resampler r) v
    (is_started r) (audio_paused r) (tp_graceful_shutdown r)
    (channel_closing r) (invalid_stream_input_notified r)
    (stream_termination_reason r) (start_time r) (write_buffer r)
    (stream_input_received r) (stream_input_played r) (checkpoints r).
Definition set_is_started (v : Z) (r : private_data_t) : private_data_t :=
  mk_private_data (stream_id r) (audio_pipe_ptr r) (mutex r) (resampler r)
    (resampler_outbound r) v (audio_paused r) (tp_graceful_shutdown r)
    (channel_closing r) (invalid_stream_input_notified r)
    (stream_termination_reason r) (start_time r) (write_buffer r)
    (stream_input_received r) (stream_input_played r) (checkpoints r).
Definition set_audio_paused (v : bool) (r : private_data_t) : private_data_t :=
  mk_private_data (stream_id r) (audio_pipe_ptr r) (mutex r) (resampler r)
    (resampler_outbound r) (is_started r) v (tp_graceful_shutdown r)
    (channel_closing r) (invalid_stream_input_notified r)
    (stream_termination_reason r) (start_time r) (write_buffer r)
    (stream_input_received r) (stream_input_played r) (checkpoints r).
Definition set_tp_graceful_shutdown (v : bool) (r : private_data_t) : private_data_t :=
  mk_private_data (stream_id r) (audio_pipe_ptr r) (mutex r) (resampler r)
    (resampler_outbound r) (is_started r) (audio_paused r) v
    (channel_closing r) (invalid_stream_input_notified r)
    (stream_termination_reason r) (start_time r) (write_buffer r)
    (stream_input_received r) (stream_input_played r) (checkpoints r).
Definition set_channel_closing (v : bool) (r : private_data_t) : private_data_t :=
  mk_private_data (stream_id r) (audio_pipe_ptr r) (mutex r) (resampler r)
    (resampler_outbound r) (is_started r) (audio_paused r)
    (tp_graceful_shutdown r) v (invalid_stream_input_notified r)
    (stream_termination_reason r) (start_time r) (write_buffer r)
    (stream_input_received r) (stream_input_played r) (checkpoints r).
Definition set_invalid_stream_input_notified (v : bool) (r : private_data_t) : private_data_t :=
  mk_private_data (stream_id r) (audio_pipe_ptr r) (mutex r) (resampler r)
    (resampler_outbound r) (is_started r) (audio_paused r)
    (tp_graceful_shutdown r) (channel_closing r) v
    (stream_termination_reason r) (start_time r) (write_buffer r)
    (stream_input_received r) (stream_input_played r) (checkpoints r).
Definition set_stream_termination_reason (v : string) (r : private_data_t) : private_data_t :=
  mk_private_data (stream_id r) (audio_pipe_ptr r) (mutex r) (resampler r)
    (resampler_outbound r) (is_started r) (audio_paused r)
    (tp_graceful_shutdown r) (channel_closing r)
    (invalid_stream_input_notified r) v (start_time r) (write_buffer r)
    (stream_input_received r) (stream_input_played r) (checkpoints r).
Definition private_data_set_start_time (v : Z) (r : private_data_t)
  : private_data_t :=
  mk_private_data (stream_id r) (audio_pipe_ptr r) (mutex r) (resampler r)
    (resampler_outbound r) (is_started r) (audio_paused r)
    (tp_graceful_shutdown r) (channel_closing r)
    (invalid_stream_input_notified r) (stream_termination_reason r) v
    (write_buffer r) (stream_input_received r) (stream_input_played r)
    (checkpoints r).
Definition set_write_buffer (v : option switch_buffer.t) (r : private_data_t) : private_data_t :=
  mk_private_data (stream_id r) (audio_pipe_ptr r) (mutex r) (resampler r)
    (resampler_outbound r) (is_started r) (audio_paused r)
    (tp_graceful_shutdown r) (channel_closing r)
    (invalid_stream_input_notified r) (stream_termination_reason r)
    (start_time r) v (stream_input_received r) (stream_input_played r)
    (checkpoints r).
Definition set_stream_input_received (v : Z) (r : private_data_t) : private_data_t :=
  mk_private_data (stream_id r) (audio_pipe_ptr r) (mutex r) (resampler r)
    (resampler_outbound r) (is_started r) (audio_paused r)
    (tp_graceful_shutdown r) (channel_closing r)
    (invalid_stream_input_notified r) (stream_termination_reason r)
    (start_time r) (write_buffer r) v (stream_input_played r) (checkpoints r).
Definition set_stream_input_played (v : Z) (r : private_data_t) : private_data_t :=
  mk_private_data (stream_id r) (audio_pipe_ptr r) (mutex r) (resampler r)
    (resampler_outbound r) (is_started r) (audio_paused r)
    (tp_graceful_shutdown r) (channel_closing r)
    (invalid_stream_input_notified r) (stream_termination_reason r)
    (start_time r) (write_buffer r) (stream_input_received r) v
    (checkpoints r).
Definition set_checkpoints (v : list stream_checkpoints_t) (r : private_data_t) : private_data_t :=
  mk_private_data (stream_id r) (audio_pipe_ptr r) (mutex r) (resampler r)
    (resampler_outbound r) (is_started r) (audio_paused r)
    (tp_graceful_shutdown r) (channel_closing r)
    (invalid_stream_input_notified r) (stream_termination_reason r)
    (start_time r) (write_buffer r) (stream_input_received r)
    (stream_input_played r) v.

(** The channel's private slot for the stream id (the media bug's user
    data; [None] once cleanup has removed it) and the transport object,
    which outlives the context until the socket is closed. *)
Record world := mk_world {
  channel_private : option private_data_t;
  pipe : option AudioPipe
}.

(** [stream_data_init], as far as the fields above go. *)
Definition stream_data_init (now : Z) (session_id stream_id : string)
    (codec : streaming_codec_t) (sampling desiredSampling channels : Z)
    (nAudioBufferSecs : Z) (track : string) (is_bidirectional : Z)
    (metadata : string) : world :=
  let buflen :=
    if codec_eqb codec ULAW then
      Z.quot (Z.quot (ULAW_FRAME_SIZE_8KHZ_20MS * desiredSampling) 8000
              * channels * 1000) 20 * nAudioBufferSecs
    else
      Z.quot (Z.quot (L16_FRAME_SIZE_8KHZ_20MS * desiredSampling) 8000
              * channels * 1000) 20 * nAudioBufferSecs in
  let both := String.eqb track "both" in
  {| channel_private :=
       Some {| stream_id := stream_id;
               audio_pipe_ptr := true;
               mutex := true;
               resampler := negb (desiredSampling =? sampling);
               resampler_outbound :=
                 negb (desiredSampling =? sampling) && both;
               is_started := 0;
               audio_paused := false;
               tp_graceful_shutdown := false;
               channel_closing := false;
               invalid_stream_input_notified := false;
               stream_termination_reason := "";
               start_time := 0;
               write_buffer :=
                 if is_bidirectional =? 0 then None
                 else Some (switch_buffer.create_dynamic 0);
               stream_input_received := 0;
               stream_input_played := 0;
               checkpoints := [] |};
     pipe :=
       Some (AudioPipe_new now session_id stream_id (size_t buflen) track
               metadata codec desiredSampling is_bidirectional) |}.

(** *** Inbound messages

    A received text after cJSON_Parse, reduced to the members the handlers
    read: [cJSON_GetObjectCstr] gives [None] for a member that is absent or
    not a string, and [j_sampleRate] is the [valueint] of the member when it
    is present. *)
Record media_json := mk_media_json {
  j_payload : option string;
  j_contentType : option string;
  j_sampleRate : option Z
}.

Record message_json := mk_message_json {
  j_event : option string;
  j_media : option media_json;
  j_name : option string
}.

Definition byte_of_Z (z : Z) : byte :=
  match Byte.of_N (Z.to_N (z mod 256)) with
  | Some b => b
  | None => x00
  end.

Definition Z_of_byte (b : byte) : Z := Z.of_N (Byte.to_N b).

(** A C [int16_t]: the cast of an [int], and its two bytes in memory
    (little endian). *)
Definition int16 (z : Z) : Z := (z + 32768) mod 65536 - 32768.

Definition bytes_of_int16 (z : Z) : list byte :=
  [byte_of_Z z; byte_of_Z (z / 256)].

Definition int16_of_bytes (lo hi : byte) : Z :=
  int16 (Z_of_byte lo + 256 * Z_of_byte hi).

(** [data[x]] for an [int16_t] array laid over a byte buffer. *)
Definition int16_at (data : list byte) (x : nat) : Z :=
  int16_of_bytes (nth (2 * x) data x00) (nth (2 * x + 1) data x00).

(** The rest of the development is relative to the host's code it calls:
    the G.711 tables, the resampler, the JSON parser, and the bounds of the
    macro [switch_normalize_to_16bit]. *)
Section Host.

Variable ulaw_to_linear : byte -> Z.
Variable linear_to_ulaw : Z -> byte.
Variable speex_resampler_process_interleaved_int : list byte -> list byte.
Variable cJSON_Parse : string -> option message_json.
Variables SWITCH_SMAX SWITCH_SMIN : Z.

(** [g711u_decode] *)
Definition g711u_decode (encoded_data : list byte) : list byte :=
  flat_map (fun e => bytes_of_int16 (ulaw_to_linear e)) encoded_data.

(** [g711u_encode]: one byte for each whole sample of [decoded_data]. *)
Fixpoint g711u_encode (decoded_data : list byte) : list byte :=
  match decoded_data with
  | lo :: hi :: rest =>
      linear_to_ulaw (int16_of_bytes lo hi) :: g711u_encode rest
  | _ => []
  end.

(** A glue function works on the context and on the transport object its
    [audio_pipe_ptr] designates. *)
Definition glue_result : Type := private_data_t * AudioPipe * list effect.

(** [sendIncorrectPayloadEvent] *)
Definition sendIncorrectPayloadEvent (payload reason : string)
    (tech_pvt : private_data_t) (ap : AudioPipe) : glue_result :=
  if invalid_stream_input_notified tech_pvt then (tech_pvt, ap, [])
  else
    let tech1 := set_invalid_stream_input_notified true tech_pvt in
    let result :=
      JIncorrectPayload (m_streamid ap) payload (getSequenceNumber ap) in
    let ap1 := increaseSequenceNumber ap in
    let '((ap2, e), _) := addEventBuffer result ap1 in
    (tech1, ap2,
     e ++ [response_handler EVENT_INVALID_STREAM_INPUT
             (members [("stream_id", m_streamid ap); ("reason", reason)])
          ]).

Definition buffer_write_opt (b : option switch_buffer.t) (block : list byte)
  : option switch_buffer.t :=
  match b with
  | Some wb => Some (fst (switch_buffer.write wb block))
  | None => None
  end.

(** [storePayload] *)
Definition storePayload (rawAudio : list byte) (codec : streaming_codec_t)
    (rcvd_samplerate current_samplerate : Z) (tech_pvt : private_data_t)
  : private_data_t :=
  match codec with
  | ULAW =>
      let decoded_data := g711u_decode rawAudio in
      let tech1 :=
        set_write_buffer
          (buffer_write_opt (write_buffer tech_pvt) decoded_data) tech_pvt in
      set_stream_input_received
        (uint32 (stream_input_received tech1 + len decoded_data)) tech1
  | L16 =>
      if negb (rcvd_samplerate =? current_samplerate) then
        let out := speex_resampler_process_interleaved_int rawAudio in
        let tech1 := set_resampler_outbound true tech_pvt in
        let tech2 :=
          set_write_buffer (buffer_write_opt (write_buffer tech1) out) tech1 in
        set_stream_input_received
          (uint32 (stream_input_received tech2 + len out)) tech2
      else
        let tech1 :=
          set_write_buffer
            (buffer_write_opt (write_buffer tech_pvt) rawAudio) tech_pvt in
        set_stream_input_received
          (uint32 (stream_input_received tech1 + len rawAudio)) tech1
  end.

(** [processClearEvent] *)
Definition processClearEvent (tech_pvt : private_data_t) (ap : AudioPipe)
  : glue_result :=
  let tech1 :=
    set_write_buffer (option_map switch_buffer.zero (write_buffer tech_pvt))
      tech_pvt in
  let tech2 := set_checkpoints [] tech1 in
  let tech3 := set_stream_input_played 0 tech2 in
  let tech4 := set_stream_input_received 0 tech3 in
  let msg := JMediaCleared (getSequenceNumber ap) (stream_id tech4) in
  let '((ap1, e), _) := addEventBuffer msg ap in
  let ap2 := increaseSequenceNumber ap1 in
  (tech4, ap2,
   e ++ [response_handler EVENT_CLEARED_AUDIO
           (members [("streamId", m_streamid ap2);
                     ("event", "media.cleared")])]).

(** [processCheckpointEvent]; [checkpoint_name] is the member [name] of the
    message. *)
Definition processCheckpointEvent (checkpoint_name : option string)
    (tech_pvt : private_data_t) : private_data_t * list effect :=
  match checkpoint_name with
  | None =>
      (tech_pvt,
       [switch_log_printf SWITCH_LOG_INFO
          "recieved checkpoint without name. Ignoring."])
  | Some nm =>
      let l1 :=
        switch_log_printf SWITCH_LOG_INFO "processing checkpoint." in
      if stream_input_received tech_pvt =? 0 then
        (tech_pvt,
         [l1;
          switch_log_printf SWITCH_LOG_ERROR
            "recieved checkpoint without prior media messages. Ignoring."])
      else
        let new_checkpoint :=
          {| position := stream_input_received tech_pvt; name := nm |} in
        (set_checkpoints (checkpoints tech_pvt ++ [new_checkpoint]) tech_pvt,
         [l1; switch_log_printf SWITCH_LOG_INFO "checkpoint_at"])
  end.

(** What [base64::base64_decode] yields; a text that is not base64 is
    taken to decode to nothing. *)
Definition decoded_payload (jsonPayload : string) : list byte :=
  match base64.base64_decode jsonPayload with
  | Some raw => raw
  | None => []
  end.

(** [processPlayAudioEvent]; [payload] is the whole received text,
    [read_codec] the call's actual sample rate when the read codec is
    known. *)
Definition processPlayAudioEvent (payload : string) (json : message_json)
    (read_codec : option Z) (tech_pvt : private_data_t) (ap : AudioPipe)
  : glue_result :=
  let incorrect (line reason : string) :=
    let '(t, a, e) := sendIncorrectPayloadEvent payload reason tech_pvt ap in
    (t, a, switch_log_printf SWITCH_LOG_ERROR line :: e) in
  match j_media json with
  | None =>
      incorrect "missing data payload in media.play event."
        "media key not available"
  | Some jsonMedia =>
  match j_payload jsonMedia with
  | None => incorrect "'payload' not available." "payload not available"
  | Some jsonPayload =>
  match j_contentType jsonMedia with
  | None => incorrect "'contentType' not given." "Incorrect ContentType"
  | Some jsonContentType =>
  match j_sampleRate jsonMedia with
  | None => incorrect "'sampleRate' not given." "sampleRate not available"
  | Some valueint =>
      let unsupported :=
        negb (valueint =? 8000) && negb (valueint =? 16000) in
      let rcvd_samplerate := if unsupported then 8000 else valueint in
      let l1 :=
        if unsupported then
          [switch_log_printf SWITCH_LOG_DEBUG
             "samplerate unsupported. defaulting to (8000)"]
        else [] in
      let received := switch_log_printf SWITCH_LOG_INFO
                        "received content type." in
      let store (codec : streaming_codec_t) (l2 : list effect) :=
        let rawAudio := decoded_payload jsonPayload in
        let current_samplerate :=
          match read_codec with
          | Some actual_samples_per_second => actual_samples_per_second
          | None => 8000
          end in
        (storePayload rawAudio codec rcvd_samplerate current_samplerate
           tech_pvt, ap, l1 ++ l2) in
      if String.eqb jsonContentType "audio/x-l16" then store L16 [received]
      else if String.eqb jsonContentType "audio/x-mulaw" then
        if negb (rcvd_samplerate =? 8000) then
          let '(t, a, e) :=
            incorrect "Unsupported combination of codec, samplerate"
              "Unsupported combination of codec, samplerate" in
          (t, a, l1 ++ received :: e)
        else store ULAW [received]
      else if String.eqb jsonContentType "raw"
              || String.eqb jsonContentType "wav"
      then store L16
             [switch_log_printf SWITCH_LOG_INFO
                "setting default codec to l16."]
      else
        let '(t, a, e) :=
          incorrect "unsupported contentType" "Invalid Content type" in
        (t, a, l1 ++ e)
  end end end end.

(** [processIncomingMessage] *)
Definition processIncomingMessage (message : string) (read_codec : option Z)
    (tech_pvt : private_data_t) (ap : AudioPipe) : glue_result :=
  match cJSON_Parse message with
  | None => sendIncorrectPayloadEvent message "Invalid Json" tech_pvt ap
  | Some json =>
      match j_event json with
      | None => sendIncorrectPayloadEvent message "No event key" tech_pvt ap
      | Some event =>
          if String.eqb event "media.play" then
            processPlayAudioEvent message json read_codec tech_pvt ap
          else if String.eqb event "media.checkpoint" then
            let '(t, e) := processCheckpointEvent (j_name json) tech_pvt in
            (t, ap, e)
          else if String.eqb event "media.clear" then
            processClearEvent tech_pvt ap
          else if String.eqb event "transcription.send" then
            (tech_pvt, ap,
             [response_handler EVENT_TRANSCRIPTION_RECEIVED
                (verbatim message)])
          else sendIncorrectPayloadEvent message "Invalid event" tech_pvt ap
      end
  end.

Inductive switch_status_t := SWITCH_STATUS_SUCCESS | SWITCH_STATUS_FALSE.

(** The object behind [tech_pvt->audio_pipe_ptr], if the pointer is set. *)
Definition pointee (tech_pvt : private_data_t) (p : option AudioPipe)
  : option AudioPipe :=
  if audio_pipe_ptr tech_pvt then p else None.

(** [stream_ws_send_played_event], for a context that exists. *)
Definition stream_ws_send_played_event (nm : string)
    (tech_pvt : private_data_t) (p : option AudioPipe)
  : option AudioPipe * list effect * switch_status_t :=
  match pointee tech_pvt p with
  | Some ap =>
      let result :=
        JPlayedStream (getSequenceNumber ap) (stream_id tech_pvt) nm in
      let '((ap1, e), _) := addEventBuffer result ap in
      (Some (increaseSequenceNumber ap1), e, SWITCH_STATUS_SUCCESS)
  | None => (p, [], SWITCH_STATUS_SUCCESS)
  end.

(** *** The write-replace callback (SWITCH_ABC_TYPE_WRITE_REPLACE) *)

Record switch_frame_t := mk_frame {
  f_data : list byte;
  datalen : Z;
  samples : Z;
  cng : bool
}.

(** Modelled from the spec: the macro [switch_normalize_to_16bit] is the
    host's (its header is not part of the repository).  It saturates its
    argument at the two bounds [SWITCH_SMAX] and [SWITCH_SMIN], which the
    specification gives as plus and minus 32767. *)
Definition switch_normalize_to_16bit (n : Z) : Z :=
  if SWITCH_SMAX <? n then SWITCH_SMAX
  else if n <? SWITCH_SMIN then SWITCH_SMIN
  else n.

(** One turn of the mixing loop: [fp[x]] afterwards, from [fp[x]] and
    [data[x]]. *)
Definition mix_sample (fp_x data_x : Z) : Z :=
  let mixed := fp_x + data_x in
  int16 (switch_normalize_to_16bit mixed).

(** The whole loop, over the frame's memory. *)
Definition mix_frame (fp data : list byte) (nsamples : Z) : list byte :=
  let n := Z.to_nat nsamples in
  flat_map
    (fun x => bytes_of_int16 (mix_sample (int16_at fp x) (int16_at data x)))
    (seq 0 n)
  ++ skipn (2 * n) fp.

(** The loop over the checkpoint list; [length] is the number of bytes
    just read.  The comparison is made in [size_t]. *)
Fixpoint fire_checkpoints (length : Z) (cps : list stream_checkpoints_t)
    (tech_pvt : private_data_t) (p : option AudioPipe)
  : private_data_t * option AudioPipe * list effect :=
  match cps with
  | [] => (set_checkpoints [] tech_pvt, p, [])
  | head :: next =>
      if size_t (stream_input_played tech_pvt + length - 1) <? position head
      then (set_checkpoints cps tech_pvt, p, [])
      else
        let '(p1, e1, _) :=
          stream_ws_send_played_event (name head) tech_pvt p in
        let e2 :=
          response_handler EVENT_PLAYED
            (members [("streamId", stream_id tech_pvt);
                      ("name", name head)]) in
        let '(t, p2, e3) := fire_checkpoints length next tech_pvt p1 in
        (t, p2, e1 ++ e2 :: e3)
  end.

Definition write_replace (rframe : switch_frame_t)
    (tech_pvt : private_data_t) (p : option AudioPipe)
  : private_data_t * option AudioPipe * switch_frame_t * list effect :=
  match write_buffer tech_pvt with
  | None => (tech_pvt, p, rframe, [])
  | Some wb =>
      if datalen rframe <=? switch_buffer.inuse wb then
        let '(wb1, data) := switch_buffer.read wb (datalen rframe) in
        let length := len data in
        let fp := mix_frame (f_data rframe) data (samples rframe) in
        let tech1 := set_write_buffer (Some wb1) tech_pvt in
        let tech2 :=
          set_stream_input_played
            (uint32 (stream_input_played tech1 + length)) tech1 in
        let '(tech3, p1, e) :=
          fire_checkpoints length (checkpoints tech2) tech2 p in
        (tech3, p1,
         mk_frame fp (datalen rframe) (samples rframe) (cng rframe), e)
      else (tech_pvt, p, rframe, [])
  end.

(** *** Commands on a session *)

Definition set_channel_private (v : option private_data_t) (w : world)
  : world := mk_world v (pipe w).

Definition set_pipe (v : option AudioPipe) (w : world) : world :=
  mk_world (channel_private w) v.

(** [stream_session_send_text] *)
Definition stream_session_send_text (text : option string) (w : world)
  : world * list effect * switch_status_t :=
  match channel_private w with
  | None => (w, [], SWITCH_STATUS_FALSE)
  | Some tech_pvt =>
      match pointee tech_pvt (pipe w), text with
      | Some ap, Some txt =>
          let '((ap1, e), _) := addEventBuffer (JText txt) ap in
          (set_pipe (Some ap1) w, e, SWITCH_STATUS_SUCCESS)
      | _, _ => (w, [], SWITCH_STATUS_SUCCESS)
      end
  end.

(** [stream_session_pauseresume] *)
Definition stream_session_pauseresume (pause : bool) (w : world)
  : world * switch_status_t :=
  match channel_private w with
  | None => (w, SWITCH_STATUS_FALSE)
  | Some tech_pvt =>
      (set_channel_private (Some (set_audio_paused pause tech_pvt)) w,
       SWITCH_STATUS_SUCCESS)
  end.

(** [stream_session_graceful_shutdown] *)
Definition stream_session_graceful_shutdown (now : Z) (w : world)
  : world * list effect * switch_status_t :=
  match channel_private w with
  | None => (w, [], SWITCH_STATUS_FALSE)
  | Some tech_pvt =>
      let tech1 := set_tp_graceful_shutdown true tech_pvt in
      match pointee tech1 (pipe w) with
      | Some ap =>
          let '(ap1, e) := graceful_shutdown now ap in
          (mk_world (Some tech1) (Some ap1), e, SWITCH_STATUS_SUCCESS)
      | None => (set_channel_private (Some tech1) w, [], SWITCH_STATUS_SUCCESS)
      end
  end.

(** [stream_ws_close_connection] *)
Definition stream_ws_close_connection (w : world) : world * list effect :=
  match channel_private w with
  | None => (w, [])
  | Some tech_pvt =>
      match pointee tech_pvt (pipe w) with
      | Some ap =>
          let tech1 := set_channel_closing true tech_pvt in
          let ap1 :=
            set_m_connection_attempts (MAX_CONNECTION_ATTEMPTS + 1) ap in
          let '(ap2, e) := close ap1 in
          (mk_world (Some tech1) (Some ap2), e)
      | None => (w, [])
      end
  end.

(** [stream_session_cleanup]: the private slot is cleared and the context
    destroyed (the lock is taken to be free). *)
Definition stream_session_cleanup (w : world) : world * switch_status_t :=
  match channel_private w with
  | None => (w, SWITCH_STATUS_FALSE)
  | Some _ => (set_channel_private None w, SWITCH_STATUS_SUCCESS)
  end.

Definition set_start_time (t : Z) (b : Buffer) : Buffer :=
  mkBuffer (freeswitch_buffer_ b) (time_step_increment_ b) t
    (generated_time_ b) (generated_chunk_count_ b) (chunk_size_bytes_ b)
    (current_usage_bytes_ b) (maximum_capacity_bytes_ b)
    (degradation_notification_sent_ b) (last_send_time_ b)
    (transmitted_chunk_count_ b).

(** [eventCallback], the [m_callback] of every transport object; the
    session is taken to be found.  [now] is the clock,
    [read_codec] what [processPlayAudioEvent] reads. *)
Definition eventCallback (event : NotifyEvent_t) (message : string)
    (now : Z) (read_codec : option Z) (w : world) : world * list effect :=
  match channel_private w with
  | None => (w, [])
  | Some tech_pvt =>
      let id := members [("streamId", stream_id tech_pvt)] in
      let id_reason :=
        members [("streamId", stream_id tech_pvt); ("reason", message)] in
      match event with
      | CONNECT_SUCCESS =>
          let tech1 := private_data_set_start_time now (set_is_started 1 tech_pvt) in
          match pipe w with
          | Some ap =>
              let ap1 :=
                set_m_audio_buffer
                  (option_map (set_start_time now) (m_audio_buffer ap)) ap in
              let ap2 :=
                set_m_ob_audio_buffer
                  (option_map (set_start_time now) (m_ob_audio_buffer ap1))
                  ap1 in
              let '((ap3, e), _) := addEventBuffer (JText "") ap2 in
              (mk_world (Some tech1) (Some ap3),
               response_handler EVENT_CONNECT_SUCCESS id :: e)
          | None =>
              (set_channel_private (Some tech1) w,
               [response_handler EVENT_CONNECT_SUCCESS id])
          end
      | CONNECT_FAIL =>
          let w1 :=
            if audio_pipe_ptr tech_pvt then
              mk_world (Some (set_audio_pipe_ptr false tech_pvt)) None
            else w in
          let e := [response_handler EVENT_CONNECT_FAIL id_reason] in
          if channel_closing tech_pvt then (w1, e)
          else (fst (stream_session_cleanup w1), e)
      | CONNECTION_TIMEOUT =>
          let tech1 :=
            set_stream_termination_reason TERMINATION_REASON_CONNECTION_ERROR
              tech_pvt in
          let '(w1, e, _) :=
            stream_session_graceful_shutdown now
              (set_channel_private (Some tech1) w) in
          (w1, response_handler EVENT_CONNECT_TIMEOUT id_reason :: e)
      | CONNECTION_DEGRADED =>
          (w, [response_handler EVENT_CONNECT_DEGRADED id])
      | CONNECTION_DROPPED =>
          let tech1 := set_audio_pipe_ptr false tech_pvt in
          let w1 := set_channel_private (Some tech1) w in
          let e := [response_handler EVENT_DISCONNECT id] in
          if channel_closing tech_pvt then (w1, e)
          else (fst (stream_session_cleanup w1), e)
      | CONNECTION_CLOSED_GRACEFULLY =>
          let tech1 := set_audio_pipe_ptr false tech_pvt in
          let w1 := set_channel_private (Some tech1) w in
          if channel_closing tech_pvt then (w1, [])
          else (fst (stream_session_cleanup w1), [])
      | MESSAGE =>
          match pipe w with
          | Some ap =>
              let '(tech1, ap1, e) :=
                processIncomingMessage message read_codec tech_pvt ap in
              (mk_world (Some tech1) (Some ap1), e)
          | None => (w, [])
          end
      end
  end.

(** *** The capture path ([stream_frame]) *)

(** An unsigned integer below [2^63] as a C [double]. *)
Definition to_double (z : Z) : float := PrimFloat.of_uint63 (Uint63.of_Z z).

(** The literal [.3]: the binary64 value nearest to three tenths. *)
Definition threshold_step : float := 0x1.3333333333333p-2%float.

(** [current_usage_bytes_ > maximum_capacity_bytes_ *
    (degradation_notification_sent_ * .3)], in binary64 as C evaluates it. *)
Definition above_threshold (b : Buffer) : bool :=
  PrimFloat.ltb
    (PrimFloat.mul (to_double (maximum_capacity_bytes_ b))
       (PrimFloat.mul (to_double (degradation_notification_sent_ b))
          threshold_step))
    (to_double (current_usage_bytes_ b)).

(** The capture of one frame, on the object: the chunk is written to the
    selected buffer, the degradation counter moves when the threshold is
    passed, and the two notifications are made.  The last component is the
    result of the write. *)
Definition capture_write (use_ob : bool) (src : list byte) (ap : AudioPipe)
  : AudioPipe * list effect * bool :=
  match (if use_ob then m_ob_audio_buffer ap else m_audio_buffer ap) with
  | None => (ap, [], true)
  | Some audioBuffer =>
      let '(b1, write_success) := Buffer_write audioBuffer src in
      let degraded := above_threshold b1 in
      let b2 :=
        if degraded then
          set_degradation b1 (uint8 (degradation_notification_sent_ b1 + 1))
        else b1 in
      (if use_ob then set_m_ob_audio_buffer (Some b2) ap
       else set_m_audio_buffer (Some b2) ap,
       (if degraded then [notify CONNECTION_DEGRADED ""] else [])
       ++ (if write_success then [] else [notify CONNECTION_TIMEOUT ""]),
       write_success)
  end.

(** The session's reaction to what a transport callback did: each
    notification runs [eventCallback], and the object is gone once it has
    deleted itself. *)
Fixpoint react (effs : list effect) (now : Z) (read_codec : option Z)
    (w : world) : world * list effect :=
  match effs with
  | [] => (w, [])
  | notify e msg :: rest =>
      let '(w1, e1) := eventCallback e msg now read_codec w in
      let '(w2, e2) := react rest now read_codec w1 in
      (w2, notify e msg :: e1 ++ e2)
  | delete_ap :: rest =>
      let '(w2, e2) := react rest now read_codec (set_pipe None w) in
      (w2, delete_ap :: e2)
  | x :: rest =>
      let '(w2, e2) := react rest now read_codec w in
      (w2, x :: e2)
  end.

(** The body of the loop over the frames read from the media bug:
    [use_ob] tells which of the two buffers was selected, [resample] whether
    a resampler was.  The last component is [write_success]. *)
Fixpoint frame_loop (frames : list switch_frame_t) (use_ob resample : bool)
    (now : Z) (w : world) (write_success : bool)
  : world * list effect * bool :=
  match frames with
  | [] => (w, [], write_success)
  | frame :: more =>
      if cng frame then (w, [], write_success)
      else if datalen frame =? 0 then
        frame_loop more use_ob resample now w write_success
      else
        match pipe w with
        | None => (w, [], write_success)
        | Some ap =>
            let src :=
              if resample then
                speex_resampler_process_interleaved_int (f_data frame)
              else if codec_eqb (m_codec ap) ULAW then
                g711u_encode
                  (firstn (Z.to_nat (datalen frame)) (f_data frame))
              else f_data frame in
            let '(ap1, notes, ok) := capture_write use_ob src ap in
            let '(w1, e1) := react notes now None (set_pipe (Some ap1) w) in
            let '(w2, e2, r) := frame_loop more use_ob resample now w1 ok in
            (w2, e1 ++ e2, r)
        end
  end.

(** [stream_frame]: [inbound_bug] is [bug_type == MEDIA_BUG_INBOUND],
    [frames] what the media bug holds, [trylock] the outcome of
    [switch_mutex_trylock] on the session mutex. *)
Definition stream_frame (inbound_bug : bool) (frames : list switch_frame_t)
    (trylock : bool) (now : Z) (w : world) : world * list effect :=
  match channel_private w with
  | None => (w, [])
  | Some tech_pvt =>
      if audio_paused tech_pvt || tp_graceful_shutdown tech_pvt
         || negb (mutex tech_pvt)
      then (w, [])
      else if negb trylock then (w, [])
      else
        match pointee tech_pvt (pipe w) with
        | None => (w, [])
        | Some ap =>
            if negb (state_eqb (getLwsState ap) LWS_CLIENT_CONNECTED)
            then (w, [])
            else
              let use_ob := needsBothTracks ap && negb inbound_bug in
              let resample :=
                if use_ob then resampler_outbound tech_pvt
                else resampler tech_pvt in
              let '(w1, e, write_success) :=
                frame_loop frames use_ob resample now w true in
              if write_success then
                match pipe w1 with
                | Some ap1 =>
                    let '(ap2, e') := addPendingWrite ap1 in
                    (set_pipe (Some ap2) w1, e ++ e')
                | None => (w1, e)
                end
              else (w1, e)
        end
  end.

(** *** The session as a whole *)

(** What can happen to a session: a callback of the transport, a frame on
    the write-replace hook, frames on the capture hook, and the commands. *)
Inductive action :=
| transport (ev : pipe_event) (now : Z) (read_codec : option Z)
| replace_frame (rframe : switch_frame_t)
| capture (inbound_bug : bool) (frames : list switch_frame_t)
          (trylock : bool) (now : Z)
| cmd_send_text (text : option string)
| cmd_graceful_shutdown (now : Z)
| cmd_pauseresume (pause : bool)
| cmd_stop.

Definition run_action (a : action) (w : world) : world * list effect :=
  match a with
  | transport ev now read_codec =>
      match pipe w with
      | None => (w, [])
      | Some ap =>
          let '(ap1, effs, _) := lws_callback ev ap in
          react effs now read_codec (set_pipe (Some ap1) w)
      end
  | replace_frame rframe =>
      match channel_private w with
      | None => (w, [])
      | Some tech_pvt =>
          let '(tech1, p1, _, e) := write_replace rframe tech_pvt (pipe w) in
          (mk_world (Some tech1) p1, e)
      end
  | capture inbound_bug frames trylock now =>
      stream_frame inbound_bug frames trylock now w
  | cmd_send_text text =>
      let '(w1, e, _) := stream_session_send_text text w in (w1, e)
  | cmd_graceful_shutdown now =>
      let '(w1, e, _) := stream_session_graceful_shutdown now w in (w1, e)
  | cmd_pauseresume pause => (fst (stream_session_pauseresume pause w), [])
  | cmd_stop => stream_ws_close_connection w
  end.

(** A run: the actions one after the other, with everything done on the
    way. *)
Fixpoint run (acts : list action) (w : world) : world * list effect :=
  match acts with
  | [] => (w, [])
  | a :: rest =>
      let '(w1, e1) := run_action a w in
      let '(w2, e2) := run rest w1 in
      (w2, e1 ++ e2)
  end.

(** The frames handed to the socket, in order. *)
Fixpoint wire (effs : list effect) : list json_msg :=
  match effs with
  | [] => []
  | lws_write m :: rest => m :: wire rest
  | _ :: rest => wire rest
  end.

(** The same for a run of the transport object alone. *)
Fixpoint run_pipe (evs : list pipe_event) (ap : AudioPipe)
  : AudioPipe * list effect :=
  match evs with
  | [] => (ap, [])
  | ev :: rest =>
      let '(ap1, e1, _) := lws_callback ev ap in
      let '(ap2, e2) := run_pipe rest ap1 in
      (ap2, e1 ++ e2)
  end.

(** ** What a session does to its transport

    The observable part of a list of effects is made of the frames handed
    to the socket and of the notifications. *)
Definition observable (e : effect) : bool :=
  match e with
  | lws_write _ | notify _ _ => true
  | _ => false
  end.

Definition obs (effs : list effect) : list effect := filter observable effs.

Arguments obs : simpl never.

(** Every way the state of the transport object changes during a session,
    with the observable effects of the change: the callbacks and entry
    points of [lws_callback], and the accesses the session's code makes
    to the object. *)
Inductive step : AudioPipe -> list effect -> AudioPipe -> Prop :=
| step_refl ap : step ap [] ap
| step_trans a e1 b e2 c :
    step a e1 b -> step b e2 c -> step a (e1 ++ e2) c
| step_callback ev ap :
    step ap (obs (snd (fst (lws_callback ev ap))))
      (fst (fst (lws_callback ev ap)))
| step_text s ap : step ap [] (fst (fst (addEventBuffer (JText s) ap)))
| step_played sid nm ap :
    step ap []
      (increaseSequenceNumber
         (fst (fst (addEventBuffer
                      (JPlayedStream (getSequenceNumber ap) sid nm) ap))))
| step_incorrect sid payload ap :
    step ap []
      (fst (fst (addEventBuffer
                   (JIncorrectPayload sid payload (getSequenceNumber ap))
                   (increaseSequenceNumber ap))))
| step_cleared sid ap :
    step ap []
      (increaseSequenceNumber
         (fst (fst (addEventBuffer
                      (JMediaCleared (getSequenceNumber ap) sid) ap))))
| step_graceful now ap : step ap [] (fst (graceful_shutdown now ap))
| step_close ap :
    step ap []
      (fst (close (set_m_connection_attempts
                     (MAX_CONNECTION_ATTEMPTS + 1) ap)))
| step_start_time now ap :
    step ap []
      (set_m_ob_audio_buffer
         (option_map (set_start_time now)
            (m_ob_audio_buffer
               (set_m_audio_buffer
                  (option_map (set_start_time now) (m_audio_buffer ap))
                  ap)))
         (set_m_audio_buffer
            (option_map (set_start_time now) (m_audio_buffer ap)) ap))
| step_capture use_ob src ap :
    step ap (snd (fst (capture_write use_ob src ap)))
      (fst (fst (capture_write use_ob src ap)))
| step_pending ap : step ap [] (fst (addPendingWrite ap)).

(** The transport object of a world, or the state in which it was
    deleted, after effects [e] that started from the object [o]. *)
Definition tracks (o : option AudioPipe) (e : list effect) (w' : world)
  : Prop :=
  match o with
  | Some ap =>
      exists ap', step ap (obs e) ap' /\ (pipe w' = Some ap' \/ pipe w' = None)
  | None => obs e = [] /\ pipe w' = None
  end.

(** ** Predicates the properties are stated with *)

(** The base frame sizes at 8 kHz. *)
Definition base_frame_size (codec : streaming_codec_t) : Z :=
  match codec with
  | L16 => L16_FRAME_SIZE_8KHZ_20MS
  | ULAW => ULAW_FRAME_SIZE_8KHZ_20MS
  end.

(** A media message whose payload is the base64 text of exactly [c]
    bytes (any other message passes). *)
Definition media_payload_is (c : Z) (m : json_msg) : Prop :=
  match m with
  | JMedia _ _ _ _ _ payload _ =>
      exists d, base64.base64_decode payload = Some d /\ len d = c
  | _ => True
  end.

(** The texts that wait in the control queue are never media messages. *)
Definition control_text (m : json_msg) : Prop :=
  match m with
  | JMedia _ _ _ _ _ _ _ | JStart _ _ _ _ _ _ _ | JStop _ _ _ _ => False
  | _ => True
  end.

Definition chunk_is (c : Z) (b : option Buffer) : Prop :=
  match b with
  | Some b => chunk_size_bytes_ b = c
  | None => True
  end.

(** Both buffers cut the stream in chunks of [c] bytes and the queue holds
    control texts only. *)
Definition framed (c : Z) (ap : AudioPipe) : Prop :=
  chunk_is c (m_audio_buffer ap) /\ chunk_is c (m_ob_audio_buffer ap)
  /\ Forall control_text (m_events ap).

(** The accounting of a ring buffer agrees with what the host buffer
    holds: the fill is a whole number of chunks, within the capacity, and
    [current_usage_bytes_] is that fill. *)
Definition buffer_ok (b : Buffer) : Prop :=
  let fb := freeswitch_buffer_ b in
  0 < switch_buffer.max_len fb < 2 ^ 32
  /\ switch_buffer.inuse fb <= switch_buffer.max_len fb
  /\ 0 <= chunk_size_bytes_ b
  /\ (chunk_size_bytes_ b | switch_buffer.inuse fb)
  /\ current_usage_bytes_ b = switch_buffer.inuse fb.

Definition both (P : Buffer -> Prop) (ap : AudioPipe) : Prop :=
  (forall b, m_audio_buffer ap = Some b -> P b)
  /\ (forall b, m_ob_audio_buffer ap = Some b -> P b).


(** ** A transport on which no handshake succeeds

    Every connection attempt is answered by
    LWS_CALLBACK_CLIENT_CONNECTION_ERROR and every timer that was armed
    fires; the run ends when an error arms no timer.  [fuel] bounds the
    number of rounds, [wsi] numbers the attempts. *)

Definition is_schedule (e : effect) : bool :=
  match e with
  | lws_sul_schedule _ => true
  | _ => false
  end.

Fixpoint failing_rounds (fuel : nat) (wsi : Z) (ap : AudioPipe)
  : AudioPipe * list effect :=
  match fuel with
  | O => (ap, [])
  | S fuel' =>
      let '(ap1, e1, _) :=
        lws_callback (LWS_CALLBACK_CLIENT_CONNECTION_ERROR wsi "refused") ap in
      if existsb is_schedule e1 then
        let '(ap2, e2, _) := lws_callback (sul_reconnect (Some (wsi + 1))) ap1 in
        let '(ap3, e3) := failing_rounds fuel' (wsi + 1) ap2 in
        (ap3, e1 ++ e2 ++ e3)
      else (ap1, e1)
  end.

Definition always_failing (fuel : nat) (ap : AudioPipe)
  : AudioPipe * list effect :=
  let '(ap1, e1, _) := lws_callback call_connect ap in
  let '(ap2, e2, _) :=
    lws_callback (LWS_CALLBACK_EVENT_WAIT_CANCELLED (Some 1)) ap1 in
  let '(ap3, e3) := failing_rounds fuel 1 ap2 in
  (ap3, e1 ++ e2 ++ e3).

Definition is_attempt (e : effect) : bool :=
  match e with
  | lws_client_connect_via_info => true
  | _ => false
  end.

Definition notify_eqb (a b : NotifyEvent_t) : bool :=
  match a, b with
  | CONNECT_SUCCESS, CONNECT_SUCCESS
  | CONNECT_FAIL, CONNECT_FAIL
  | CONNECTION_DROPPED, CONNECTION_DROPPED
  | CONNECTION_CLOSED_GRACEFULLY, CONNECTION_CLOSED_GRACEFULLY
  | CONNECTION_TIMEOUT, CONNECTION_TIMEOUT
  | CONNECTION_DEGRADED, CONNECTION_DEGRADED
  | MESSAGE, MESSAGE => true
  | _, _ => false
  end.

Definition is_notify (ev : NotifyEvent_t) (e : effect) : bool :=
  match e with
  | notify x _ => notify_eqb x ev
  | _ => false
  end.

(** How many times something was done. *)
Definition count (p : effect -> bool) (effs : list effect) : Z :=
  len (filter p effs).

Definition is_start (m : json_msg) : bool :=
  match m with
  | JStart _ _ _ _ _ _ _ => true
  | _ => false
  end.

Definition count_msg (p : json_msg -> bool) (msgs : list json_msg) : Z :=
  len (filter p msgs).

Definition b2z (b : bool) : Z := if b then 1 else 0.


(** The first entry into the Connected state: the session asks for the
    connection, the service thread makes the attempt, the handshake
    succeeds, the service thread is woken again by the write the session
    queued on CONNECT_SUCCESS, and the socket becomes writable. *)
Definition first_connected_entry (t : Z) : list action :=
  [transport call_connect t None;
   transport (LWS_CALLBACK_EVENT_WAIT_CANCELLED (Some 1)) t None;
   transport (LWS_CALLBACK_CLIENT_ESTABLISHED 1) t None;
   transport (LWS_CALLBACK_EVENT_WAIT_CANCELLED None) t None;
   transport (LWS_CALLBACK_CLIENT_WRITEABLE t true false) t None].

(** ** Sequence numbers on the wire *)







(** ** Checkpoints *)

(** The events handed to the host's [response_handler], in order. *)
Definition host_events (e : list effect) : list (string * host_payload) :=
  flat_map
    (fun x =>
       match x with
       | response_handler ev p => [(ev, p)]
       | _ => []
       end) e.

(** The host-side event of a played checkpoint. *)
Definition played_event (sid : string) (c : stream_checkpoints_t)
  : string * host_payload :=
  (EVENT_PLAYED, members [("streamId", sid); ("name", name c)]).

(** The playedStream messages of the checkpoints [cps], numbered from [n]
    on. *)
Fixpoint played_messages (n : Z) (sid : string)
    (cps : list stream_checkpoints_t) : list json_msg :=
  match cps with
  | [] => []
  | c :: rest => JPlayedStream n sid (name c) :: played_messages (n + 1) sid rest
  end.

(** What the loop over the checkpoints compares a position with: the bytes
    played, the frame just read included, and one frame less a byte more. *)
Definition reach (tech_pvt : private_data_t) (length : Z) : Z :=
  size_t (stream_input_played tech_pvt + length - 1).

(** ** Inbound audio *)

(** A parsed media.play message whose [media] object has the three
    members. *)
Definition play_message (jsonPayload contentType : string) (sampleRate : Z)
  : message_json :=
  {| j_event := Some "media.play";
     j_media :=
       Some {| j_payload := Some jsonPayload;
               j_contentType := Some contentType;
               j_sampleRate := Some sampleRate |};
     j_name := None |}.

Definition is_incorrect_payload (m : json_msg) : bool :=
  match m with
  | JIncorrectPayload _ _ _ => true
  | _ => false
  end.

(** ** Auxiliary notions of the proofs *)

Definition base64_sextets : list N := map N.of_nat (seq 0 64).

(** A part of the session's code that hands nothing to the socket and
    notifies nothing. *)
Definition quiet (w : world) (e : list effect) (w' : world) : Prop :=
  obs e = [] /\ tracks (pipe w) [] w'.

Definition is_stop (m : json_msg) : bool :=
  match m with
  | JStop _ _ _ _ => true
  | _ => false
  end.


(** A media message. *)
Definition is_media (m : json_msg) : bool :=
  match m with
  | JMedia _ _ _ _ _ _ _ => true
  | _ => false
  end.

(** [degradation_notification_sent_ * .3], for the value [k] of the
    counter. *)
Definition threshold_of (k : Z) : float :=
  PrimFloat.mul (to_double k) threshold_step.

(** ** Degradation *)

(** A ring buffer whose accounting is right, whose capacity is that of the
    host buffer, and whose notification counter is between 1 and 4. *)
Definition gauged (b : Buffer) : Prop :=
  buffer_ok b
  /\ maximum_capacity_bytes_ b
     = switch_buffer.max_len (freeswitch_buffer_ b)
  /\ 1 <= degradation_notification_sent_ b <= 4.

(** The notifications of degradation a buffer has made: its counter starts
    at 1. *)
Definition degradations (b : option Buffer) : Z :=
  match b with
  | Some b => degradation_notification_sent_ b - 1
  | None => 0
  end.

Definition degraded_so_far (ap : AudioPipe) : Z :=
  degradations (m_audio_buffer ap) + degradations (m_ob_audio_buffer ap).

(** What a change of the transport object keeps. *)
Definition gauge_kept (a : AudioPipe) (e : list effect) (b : AudioPipe)
  : Prop :=
  both gauged a ->
  both gauged b
  /\ count (is_notify CONNECTION_DEGRADED) e + degraded_so_far a
     = degraded_so_far b.

(** ** Concrete sessions

    Instances of the host's functions and a session with bidirectional
    audio, on which the closed examples below are evaluated. *)

(** A mu-law expansion and compression in the manner of G.711. *)
Definition example_ulaw_to_linear (b : byte) : Z :=
  let u := 255 - Z_of_byte b in
  let t :=
    Z.shiftl (Z.shiftl (Z.land u 15) 3 + 132) (Z.shiftr (Z.land u 112) 4) in
  if Z.testbit u 7 then 132 - t else t - 132.

Definition example_linear_to_ulaw (linear : Z) : byte :=
  let '(l, mask) :=
    if 0 <=? linear then (132 + linear, 255) else (132 - linear, 127) in
  let seg := Z.log2 (Z.lor l 255) - 7 in
  byte_of_Z
    (if 8 <=? seg then Z.lxor 127 mask
     else Z.lxor (Z.lor (Z.shiftl seg 4) (Z.land (Z.shiftr l (seg + 3)) 15))
            mask).

(** A resampler between equal rates. *)
Definition example_resampler (samples : list byte) : list byte := samples.

Definition json_quoted (s : string) : string :=
  String (ascii_of_nat 34) (s ++ String (ascii_of_nat 34) EmptyString).

Definition json_member (key value : string) : string :=
  json_quoted key ++ ":" ++ value.

Definition example_audio (n : nat) : list byte := repeat x00 n.

(** The text of a media.play message. *)
Definition play_text (audio : list byte) (contentType sampleRate : string)
  : string :=
  "{" ++ json_member "event" (json_quoted "media.play") ++ ","
  ++ json_member "media"
       ("{" ++ json_member "payload"
                 (json_quoted (base64.base64_encode audio)) ++ ","
        ++ json_member "contentType" (json_quoted contentType) ++ ","
        ++ json_member "sampleRate" sampleRate ++ "}")
  ++ "}".

(** 400 bytes of PCM16 at 8000 Hz, 160 bytes of mu-law announced at
    44100 Hz, and a checkpoint. *)
Definition example_play_l16 : string :=
  play_text (example_audio 400) "audio/x-l16" "8000".

Definition example_play_mulaw : string :=
  play_text (example_audio 160) "audio/x-mulaw" "44100".

Definition example_checkpoint : string :=
  "{" ++ json_member "event" (json_quoted "media.checkpoint") ++ ","
  ++ json_member "name" (json_quoted "greeting") ++ "}".

(** What the parser makes of the three texts. *)
Definition example_cJSON_Parse (text : string) : option message_json :=
  if String.eqb text example_play_l16 then
    Some (play_message (base64.base64_encode (example_audio 400))
            "audio/x-l16" 8000)
  else if String.eqb text example_play_mulaw then
    Some (play_message (base64.base64_encode (example_audio 160))
            "audio/x-mulaw" 44100)
  else if String.eqb text example_checkpoint then
    Some {| j_event := Some "media.checkpoint";
            j_media := None;
            j_name := Some "greeting" |}
  else None.

(** A session of PCM16 at 8000 Hz on the inbound track, with two seconds
    of buffer and bidirectional audio. *)
Definition example_session : world :=
  stream_data_init 0 "call" "stream" L16 8000 8000 1 2 "inbound" 1 "".

(** The session connects and sends start; the next writable callback finds
    nothing to send. *)
Definition example_connected : list action :=
  first_connected_entry 0
  ++ [transport (LWS_CALLBACK_CLIENT_WRITEABLE 0 true false) 0 None].

(** The peer sends 400 bytes of audio and a checkpoint after them. *)
Definition example_playback : list action :=
  [transport (LWS_CALLBACK_CLIENT_RECEIVE false example_play_l16) 0
     (Some 8000);
   transport (LWS_CALLBACK_CLIENT_RECEIVE false example_checkpoint) 0
     (Some 8000)].

(** One frame of 20 ms goes out on the call. *)
Definition example_frame : switch_frame_t :=
  {| f_data := example_audio 320; datalen := 320; samples := 160;
     cng := false |}.


(** The two objects of the session above. *)
Definition example_pipe : AudioPipe :=
  AudioPipe_new 0 "call" "stream" 32000 "inbound" "" L16 8000 1.

Definition example_context : private_data_t :=
  {| stream_id := "stream";
     audio_pipe_ptr := true;
     mutex := true;
     resampler := false;
     resampler_outbound := false;
     is_started := 0;
     audio_paused := false;
     tp_graceful_shutdown := false;
     channel_closing := false;
     invalid_stream_input_notified := false;
     stream_termination_reason := "";
     start_time := 0;
     write_buffer := Some (switch_buffer.create_dynamic 0);
     stream_input_received := 0;
     stream_input_played := 0;
     checkpoints := [] |}.

(** A frame is captured on the inbound leg and the socket is writable. *)
Definition example_capture : list action :=
  [capture true [example_frame] true 0;
   transport (LWS_CALLBACK_CLIENT_WRITEABLE 0 true false) 0 None].

(** An object whose buffers hold two chunks of 320 bytes. *)
Definition example_small_pipe : AudioPipe :=
  AudioPipe_new 0 "call" "stream" 640 "inbound" "" L16 8000 1.

(** ** Further notions: the ring buffer as a queue of chunks *)

(** The buffer holds the chunks [chunks], oldest first, each of
    [chunk_size_bytes_] bytes. *)
Definition holds (b : Buffer) (chunks : list (list byte)) : Prop :=
  switch_buffer.data (freeswitch_buffer_ b) = List.concat chunks
  /\ Forall (fun c => len c = chunk_size_bytes_ b) chunks.

(** [Buffer::write] called on each of [frames] in turn; the result tells
    whether every call returned [true]. *)
Fixpoint Buffer_writes (b : Buffer) (frames : list (list byte))
  : Buffer * bool :=
  match frames with
  | [] => (b, true)
  | d :: rest =>
      let '(b1, ok) := Buffer_write b d in
      let '(b2, oks) := Buffer_writes b1 rest in
      (b2, ok && oks)
  end.

(** [Buffer::read] called [n] times; the chunks of the calls that returned
    [true], in order. *)
Fixpoint Buffer_reads (n : nat) (b : Buffer) : Buffer * list (list byte) :=
  match n with
  | O => (b, [])
  | S k =>
      let '(b1, r) := Buffer_read b in
      let '(b2, rs) := Buffer_reads k b1 in
      (b2, match r with Some c => c :: rs | None => rs end)
  end.

(** ** Further notions: the order of the frames on the wire *)

(** Every frame other than start and stop comes after a start; [seen]
    tells whether a start came before [msgs]. *)
Fixpoint start_leads (seen : bool) (msgs : list json_msg) : bool :=
  match msgs with
  | [] => true
  | m :: rest =>
      if is_start m then start_leads true rest
      else if is_stop m then start_leads seen rest
      else seen && start_leads seen rest
  end.

(** What holds of the frames sent so far ([hist]) and of the object. *)
Definition wire_ok (hist : list json_msg) (ap : AudioPipe) : Prop :=
  Forall control_text (m_events ap)
  /\ start_leads false hist = true
  /\ (m_firstMsgSent ap = true -> existsb is_start hist = true)
  /\ count_msg is_stop hist = b2z (m_lastMsgSent ap)
  /\ Forall (fun m => is_empty_text m = false) hist.

(** ** Further notions: the numbering of the media messages *)

(** The chunk number and the timestamp of the media messages of the track
    [label], in the order sent. *)
Definition media_of (label : string) (hist : list json_msg)
  : list (Z * string) :=
  flat_map
    (fun m =>
       match m with
       | JMedia _ _ tr ts ch _ _ =>
           if String.eqb tr label then [(ch, ts)] else []
       | _ => []
       end) hist.

(** The first [n] media messages of a track whose buffer was made at
    [t0]: the [k]-th is numbered [k] and stamped [k] steps of 20 ms after
    [t0]. *)
Definition expected_media (t0 : Z) (n : nat) : list (Z * string) :=
  map (fun k => (uint32 (Z.of_nat k), time_str (t0 + Z.of_nat k * 20000)))
    (seq 1 n).

(** The buffer whose chunks are sent under [label]. *)
Definition buffer_of (label : string) (ap : AudioPipe) : option Buffer :=
  if needsBothTracks ap then
    if String.eqb label "inbound" then m_audio_buffer ap
    else if String.eqb label "outbound" then m_ob_audio_buffer ap
    else None
  else if String.eqb label
            (if String.eqb (m_track ap) "inbound" then "inbound"
             else "outbound")
  then m_audio_buffer ap
  else None.

(** What the numbering of a buffer's chunks depends on. *)
Definition clock (b : Buffer) : Z * Z * Z * Z :=
  (transmitted_chunk_count_ b, last_send_time_ b, time_step_increment_ b,
   chunk_size_bytes_ b).

(** A buffer made at [t0] that has given [n] chunks. *)
Definition clocked (t0 : Z) (n : nat) (b : Buffer) : Prop :=
  transmitted_chunk_count_ b = uint32 (Z.of_nat n)
  /\ last_send_time_ b = t0 + Z.of_nat n * 20000
  /\ time_step_increment_ b = 20000
  /\ 0 < chunk_size_bytes_ b.

Definition numbered (t0 : Z) (hist : list json_msg) (ap : AudioPipe)
  : Prop :=
  forall label,
    exists n,
      media_of label hist = expected_media t0 n
      /\ match buffer_of label ap with
         | Some b => clocked t0 n b
         | None => n = 0%nat
         end.

(** ** Further notions: what a session does to its context

    The events a session reports to the host besides those of the inbound
    audio: connection, degradation, and a transcription passed through. *)
Definition connection_events : list string :=
  [EVENT_CONNECT_SUCCESS; EVENT_CONNECT_FAIL; EVENT_CONNECT_TIMEOUT;
   EVENT_CONNECT_DEGRADED; EVENT_DISCONNECT; EVENT_TRANSCRIPTION_RECEIVED].

(** The part of the context the inbound audio lives in. *)
Definition playback_fields (t : private_data_t) :=
  (stream_id t, write_buffer t, stream_input_received t,
   stream_input_played t, checkpoints t, invalid_stream_input_notified t).

(** Every way the context of a session changes, with the events reported
    to the host: the handlers of the inbound messages, the write-replace
    callback, and the code that moves the flags of the session and reports
    the state of the connection. *)
Inductive sstep
  : private_data_t -> list (string * host_payload) -> private_data_t -> Prop :=
| sstep_refl t : sstep t [] t
| sstep_trans a e1 b e2 c :
    sstep a e1 b -> sstep b e2 c -> sstep a (e1 ++ e2) c
| sstep_report evs t t' :
    Forall (fun x => In (fst x) connection_events) evs ->
    playback_fields t' = playback_fields t ->
    sstep t evs t'
| sstep_store raw codec rcvd cur t :
    sstep t [] (storePayload raw codec rcvd cur t)
| sstep_clear t ap :
    sstep t (host_events (snd (processClearEvent t ap)))
      (fst (fst (processClearEvent t ap)))
| sstep_checkpoint nm t :
    sstep t [] (fst (processCheckpointEvent nm t))
| sstep_incorrect payload reason t ap :
    sstep t (host_events (snd (sendIncorrectPayloadEvent payload reason t ap)))
      (fst (fst (sendIncorrectPayloadEvent payload reason t ap)))
| sstep_replace rframe t p :
    sstep t (host_events (snd (write_replace rframe t p)))
      (fst (fst (fst (write_replace rframe t p)))).

(** The context of a world, or the state in which it was destroyed, after
    effects [e] that started from the context [o]. *)
Definition session_tracks (o : option private_data_t) (e : list effect)
    (w' : world) : Prop :=
  match o with
  | Some t =>
      exists t',
        sstep t (host_events e) t'
        /\ (channel_private w' = Some t' \/ channel_private w' = None)
  | None => host_events e = [] /\ channel_private w' = None
  end.

(** The inbound audio is accounted for: what was received is what was
    played and what still waits in the write buffer, in the 32 bits of the
    two counters; the write buffer has no bound. *)
Definition conserved (t : private_data_t) : Prop :=
  0 <= stream_input_played t < 2 ^ 32
  /\ 0 <= stream_input_received t < 2 ^ 32
  /\ match write_buffer t with
     | Some wb =>
         switch_buffer.max_len wb = 0
         /\ uint32 (stream_input_played t + switch_buffer.inuse wb)
            = stream_input_received t
     | None => True
     end.

(** How many times an event was reported to the host. *)
Definition count_event (ev : string) (evs : list (string * host_payload))
  : Z :=
  len (filter (fun x => String.eqb (fst x) ev) evs).

(** ** Further concrete texts *)

(** The text of a media.clear message, and a parser that knows it. *)
Definition example_clear : string :=
  "{" ++ json_member "event" (json_quoted "media.clear") ++ "}".

Definition example_clear_parse (text : string) : option message_json :=
  if String.eqb text example_clear then
    Some {| j_event := Some "media.clear";
            j_media := None;
            j_name := None |}
  else example_cJSON_Parse text.

(** ** Further notions: the control queue *)

(** A frame that comes from the control queue: neither start, stop nor
    media. *)
Definition is_control (m : json_msg) : bool :=
  negb (is_start m || is_stop m || is_media m).

Definition nonempty (msgs : list json_msg) : list json_msg :=
  filter (fun m => negb (is_empty_text m)) msgs.

(** What a call puts in the queue: the text given to [addEventBuffer] when
    the object is Connected. *)
Definition taken (ev : pipe_event) (ap : AudioPipe) : list json_msg :=
  match ev with
  | call_addEventBuffer text =>
      if state_eqb (m_state ap) LWS_CLIENT_CONNECTED then [JText text] else []
  | _ => []
  end.

(** The texts the queue accepted during a run of the object, in order. *)
Fixpoint accepted (evs : list pipe_event) (ap : AudioPipe) : list json_msg :=
  match evs with
  | [] => []
  | ev :: rest => taken ev ap ++ accepted rest (fst (fst (lws_callback ev ap)))
  end.

(** ** Further notions: captures *)

Definition is_capture (a : action) : bool :=
  match a with
  | capture _ _ _ _ => true
  | _ => false
  end.

(** ** Further notions: the handshake *)

Definition is_established (ev : pipe_event) : bool :=
  match ev with
  | LWS_CALLBACK_CLIENT_ESTABLISHED _ => true
  | _ => false
  end.


(** ** Further notions: the end of a stream *)

(** The payloads of the media messages, in order. *)
Definition media_payloads (msgs : list json_msg) : list string :=
  flat_map
    (fun m =>
       match m with
       | JMedia _ _ _ _ _ payload _ => [payload]
       | _ => []
       end) msgs.

(** An object that streams one track and is asked to shut down gracefully
    at a time less than 60 seconds before [cur]: it is Connected, has sent
    start and not yet stop, its control queue is empty, and its ring buffer
    [b] holds the chunks [chunks]. *)
Definition draining (cur : Z) (ap : AudioPipe) (b : Buffer)
    (chunks : list (list byte)) : Prop :=
  needsBothTracks ap = false
  /\ m_ob_audio_buffer ap = None
  /\ m_audio_buffer ap = Some b
  /\ holds b chunks
  /\ buffer_ok b
  /\ 0 < chunk_size_bytes_ b
  /\ m_gracefulShutdown ap = true
  /\ cur < m_gracefulShutdown_at ap + 60
  /\ m_lastMsgSent ap = false
  /\ m_firstMsgSent ap = true
  /\ m_events ap = []
  /\ m_state ap = LWS_CLIENT_CONNECTED.

(** ** Further notions: a session that only reports on its connection *)

(** An effect of the transport that is neither a received message passed
    to the session nor an event reported to the host. *)
Definition no_message (x : effect) : Prop :=
  match x with
  | notify MESSAGE _ => False
  | response_handler _ _ => False
  | _ => True
  end.

(** The events that tell the host of the state of the connection. *)
Definition link_events : list string :=
  [EVENT_CONNECT_SUCCESS; EVENT_CONNECT_FAIL; EVENT_CONNECT_TIMEOUT;
   EVENT_CONNECT_DEGRADED; EVENT_DISCONNECT].

(** The effects [e] report nothing but the state of the connection, and
    the context of [w'], if it still exists, has the inbound audio of [o]
    untouched. *)
Definition quiet_session (o : option private_data_t) (e : list effect)
    (w' : world) : Prop :=
  Forall (fun x => In (fst x) link_events) (host_events e)
  /\ match o with
     | Some t =>
         (exists t',
            channel_private w' = Some t'
            /\ playback_fields t' = playback_fields t)
         \/ channel_private w' = None
     | None => channel_private w' = None
     end.

(** ** Further notions: the two tracks *)

(** The track and the payload of the media messages, in order. *)
Definition media_tracks (msgs : list json_msg) : list (string * string) :=
  flat_map
    (fun m =>
       match m with
       | JMedia _ _ tr _ _ payload _ => [(tr, payload)]
       | _ => []
       end) msgs.

(** An object that streams both tracks: it is Connected, has sent start,
    is not shutting down, its control queue is empty, its inbound buffer
    holds [inbound] and its outbound buffer [outbound], and the next chunk
    it reads is of the outbound track ([sw] true) or of the inbound one. *)
Definition streaming_both (sw : bool) (ap : AudioPipe)
    (inbound outbound : list (list byte)) : Prop :=
  needsBothTracks ap = true
  /\ m_switch ap = sw
  /\ (exists bi,
        m_audio_buffer ap = Some bi /\ holds bi inbound
        /\ 0 < chunk_size_bytes_ bi)
  /\ (exists bo,
        m_ob_audio_buffer ap = Some bo /\ holds bo outbound
        /\ 0 < chunk_size_bytes_ bo)
  /\ m_gracefulShutdown ap = false
  /\ m_firstMsgSent ap = true
  /\ m_events ap = []
  /\ m_state ap = LWS_CLIENT_CONNECTED.

(** * Properties *)

(** ** Base64: decoding undoes encoding *)

Import base64.

Lemma base64_sextet_in (n : N) : (n < 64)%N -> In n base64_sextets.
Proof.
  intros H. unfold base64_sextets.
  rewrite <- (N2Nat.id n). apply in_map. apply in_seq. lia.
Qed.

Lemma base64_dec_enc (n : N) : (n < 64)%N -> dec (enc n) = Some n.
Proof.
  intros H.
  assert (A : forallb (fun k => match dec (enc k) with
                                | Some j => N.eqb j k
                                | None => false
                                end) base64_sextets = true) by (vm_compute; reflexivity).
  rewrite forallb_forall in A. specialize (A n (base64_sextet_in n H)).
  destruct (dec (enc n)) as [j|]; [|discriminate].
  apply N.eqb_eq in A. now subst.
Qed.

Lemma base64_enc_not_pad (n : N) : (n < 64)%N -> Ascii.eqb (enc n) pad = false.
Proof.
  intros H.
  assert (A : forallb (fun k => negb (Ascii.eqb (enc k) pad)) base64_sextets = true)
    by (vm_compute; reflexivity).
  rewrite forallb_forall in A. specialize (A n (base64_sextet_in n H)).
  now apply negb_true_iff in A.
Qed.

Lemma base64_byte_of_to (b : byte) : byte_of (Byte.to_N b) = Some b.
Proof. apply Byte.of_to_N. Qed.

Lemma base64_to_N_lt (b : byte) : (Byte.to_N b < 256)%N.
Proof. pose proof (Byte.to_N_bounded b). lia. Qed.


Lemma base64_group (x y z : N) :
  (x < 256 -> y < 256 -> z < 256 ->
   let s1 := x / 4 in
   let s2 := (x mod 4) * 16 + y / 16 in
   let s3 := (y mod 16) * 4 + z / 64 in
   let s4 := z mod 64 in
   s1 < 64 /\ s2 < 64 /\ s3 < 64 /\ s4 < 64 /\
   s1 * 4 + s2 / 16 = x /\
   (s2 mod 16) * 16 + s3 / 4 = y /\
   (s3 mod 4) * 64 + s4 = z)%N.
Proof.
  intros Hx Hy Hz. cbv zeta.
  repeat split; zify; Z.to_euclidean_division_equations; lia.
Qed.

Lemma base64_decode_encode_list (n : nat) :
  forall l, (List.length l <= n)%nat -> decode_list (encode_list l) = Some l.
Proof.
  induction n as [|n IH]; intros l Hl.
  - destruct l; [reflexivity | simpl in Hl; lia].
  - destruct l as [|a [|b [|c rest]]].
    + reflexivity.
    + pose proof (base64_to_N_lt a) as Ha.
      destruct (base64_group (Byte.to_N a) 0 0 Ha) as (H1 & H2 & _ & _ & E1 & _);
        [reflexivity | reflexivity |].
      cbn [encode_list decode_list].
      rewrite (base64_dec_enc _ H1).
      replace (Byte.to_N a mod 4 * 16)%N
        with (Byte.to_N a mod 4 * 16 + 0 / 16)%N by (now rewrite N.add_0_r).
      rewrite (base64_dec_enc _ H2). cbn [bind].
      rewrite E1, base64_byte_of_to. cbn [bind].
      rewrite Ascii.eqb_refl. reflexivity.
    + pose proof (base64_to_N_lt a) as Ha. pose proof (base64_to_N_lt b) as Hb.
      destruct (base64_group (Byte.to_N a) (Byte.to_N b) 0 Ha Hb)
        as (H1 & H2 & H3 & _ & E1 & E2 & _); [reflexivity |].
      cbn [encode_list decode_list].
      rewrite (base64_dec_enc _ H1), (base64_dec_enc _ H2). cbn [bind].
      rewrite E1, base64_byte_of_to. cbn [bind].
      rewrite Ascii.eqb_refl.
      replace (Byte.to_N b mod 16 * 4)%N
        with (Byte.to_N b mod 16 * 4 + 0 / 64)%N by (now rewrite N.add_0_r).
      rewrite (base64_enc_not_pad _ H3), (base64_dec_enc _ H3). cbn [bind].
      rewrite E2, base64_byte_of_to. reflexivity.
    + pose proof (base64_to_N_lt a) as Ha. pose proof (base64_to_N_lt b) as Hb.
      pose proof (base64_to_N_lt c) as Hc.
      destruct (base64_group (Byte.to_N a) (Byte.to_N b) (Byte.to_N c) Ha Hb Hc)
        as (H1 & H2 & H3 & H4 & E1 & E2 & E3).
      cbn [encode_list decode_list].
      rewrite (base64_dec_enc _ H1), (base64_dec_enc _ H2). cbn [bind].
      rewrite E1, base64_byte_of_to. cbn [bind].
      rewrite (base64_enc_not_pad _ H4).
      rewrite (base64_dec_enc _ H3), (base64_dec_enc _ H4). cbn [bind].
      rewrite E2, E3, !base64_byte_of_to. cbn [bind].
      rewrite IH by (simpl in Hl; lia). reflexivity.
Qed.

(** Decoding an encoded block gives the block back. *)
Lemma base64_decode_encode (l : list byte) :
  base64_decode (base64_encode l) = Some l.
Proof.
  unfold base64_decode, base64_encode.
  rewrite list_ascii_of_string_of_list_ascii.
  now apply (base64_decode_encode_list (List.length l)).
Qed.

(** ** The session's accesses are steps of the transport object *)

Lemma obs_app (a b : list effect) : obs (a ++ b) = obs a ++ obs b.
Proof. apply filter_app. Qed.

Lemma step_one a e b : step a e b -> step a (e ++ []) b.
Proof. now rewrite app_nil_r. Qed.

Lemma addEventBuffer_obs m ap : obs (snd (fst (addEventBuffer m ap))) = [].
Proof.
  unfold addEventBuffer.
  destruct (negb (state_eqb (m_state ap) LWS_CLIENT_CONNECTED)); reflexivity.
Qed.

Lemma sendIncorrectPayloadEvent_step payload reason tech_pvt ap :
  step ap [] (snd (fst (sendIncorrectPayloadEvent payload reason tech_pvt ap)))
  /\ obs (snd (sendIncorrectPayloadEvent payload reason tech_pvt ap)) = [].
Proof.
  unfold sendIncorrectPayloadEvent.
  destruct (invalid_stream_input_notified tech_pvt).
  - split; [apply step_refl | reflexivity].
  - pose proof (step_incorrect (m_streamid ap) payload ap) as S.
    pose proof (addEventBuffer_obs
                  (JIncorrectPayload (m_streamid ap) payload
                     (getSequenceNumber ap)) (increaseSequenceNumber ap)) as O.
    destruct (addEventBuffer _ (increaseSequenceNumber ap)) as [[ap2 e] b].
    cbn in *. split; [exact S|].
    rewrite obs_app, O. reflexivity.
Qed.

Lemma processClearEvent_step tech_pvt ap :
  step ap [] (snd (fst (processClearEvent tech_pvt ap)))
  /\ obs (snd (processClearEvent tech_pvt ap)) = [].
Proof.
  unfold processClearEvent.
  pose proof (step_cleared (stream_id tech_pvt) ap) as S.
  pose proof (addEventBuffer_obs
                (JMediaCleared (getSequenceNumber ap) (stream_id tech_pvt)) ap)
    as O.
  cbn in *.
  destruct (addEventBuffer _ ap) as [[ap1 e] b].
  cbn in *. split; [exact S|].
  rewrite obs_app, O. reflexivity.
Qed.

Lemma processPlayAudioEvent_step payload json read_codec tech_pvt ap :
  step ap []
    (snd (fst (processPlayAudioEvent payload json read_codec tech_pvt ap)))
  /\ obs (snd (processPlayAudioEvent payload json read_codec tech_pvt ap))
     = [].
Proof.
  unfold processPlayAudioEvent.
  assert (I : forall line reason,
             step ap []
               (snd (fst (let '(t, a, e) :=
                            sendIncorrectPayloadEvent payload reason
                              tech_pvt ap in
                          (t, a, switch_log_printf SWITCH_LOG_ERROR line :: e))))
             /\ obs (snd (let '(t, a, e) :=
                            sendIncorrectPayloadEvent payload reason
                              tech_pvt ap in
                          (t, a, switch_log_printf SWITCH_LOG_ERROR line :: e)))
                = []).
  { intros line reason.
    destruct (sendIncorrectPayloadEvent_step payload reason tech_pvt ap)
      as [S O].
    destruct (sendIncorrectPayloadEvent payload reason tech_pvt ap)
      as [[t a] e]. cbn in *. split; assumption. }
  destruct (j_media json) as [jm|]; [|apply I].
  destruct (j_payload jm) as [jp|]; [|apply I].
  destruct (j_contentType jm) as [ct|]; [|apply I].
  destruct (j_sampleRate jm) as [v|]; [|apply I].
  cbv zeta.
  set (l1 := if negb (v =? 8000) && negb (v =? 16000) then [_] else []).
  set (rcvd := if negb (v =? 8000) && negb (v =? 16000) then 8000 else v).
  assert (L : obs l1 = []).
  { subst l1. destruct (negb (v =? 8000) && negb (v =? 16000)); reflexivity. }
  clearbody l1 rcvd.
  assert (I' : forall line reason,
             step ap []
               (snd (fst (let '(t, a, e) :=
                            (let '(t, a, e) :=
                               sendIncorrectPayloadEvent payload reason
                                 tech_pvt ap in
                             (t, a,
                              switch_log_printf SWITCH_LOG_ERROR line :: e))
                          in (t, a, l1 ++ e))))
             /\ obs (snd (let '(t, a, e) :=
                            (let '(t, a, e) :=
                               sendIncorrectPayloadEvent payload reason
                                 tech_pvt ap in
                             (t, a,
                              switch_log_printf SWITCH_LOG_ERROR line :: e))
                          in (t, a, l1 ++ e)))
                = []).
  { intros line reason. specialize (I line reason).
    destruct (sendIncorrectPayloadEvent payload reason tech_pvt ap)
      as [[t a] e]. cbn in *. destruct I as [S O]. split; [exact S|].
    rewrite obs_app, L. exact O. }
  assert (I'' : forall line reason x,
             step ap []
               (snd (fst (let '(t, a, e) :=
                            (let '(t, a, e) :=
                               sendIncorrectPayloadEvent payload reason
                                 tech_pvt ap in
                             (t, a,
                              switch_log_printf SWITCH_LOG_ERROR line :: e))
                          in (t, a, l1 ++ x :: e))))
             /\ obs (snd (let '(t, a, e) :=
                            (let '(t, a, e) :=
                               sendIncorrectPayloadEvent payload reason
                                 tech_pvt ap in
                             (t, a,
                              switch_log_printf SWITCH_LOG_ERROR line :: e))
                          in (t, a, l1 ++ x :: e)))
                = obs [x]).
  { intros line reason x. specialize (I line reason).
    destruct (sendIncorrectPayloadEvent payload reason tech_pvt ap)
      as [[t a] e]. cbn in *. destruct I as [S O]. split; [exact S|].
    rewrite obs_app, L. change (x :: switch_log_printf SWITCH_LOG_ERROR line :: e)
      with ([x] ++ switch_log_printf SWITCH_LOG_ERROR line :: e).
    rewrite obs_app, O, app_nil_r. reflexivity. }
  assert (ST : forall (t : private_data_t) (l2 : list effect), obs l2 = [] ->
             step ap [] (snd (fst (t, ap, l1 ++ l2)))
             /\ obs (snd (t, ap, l1 ++ l2)) = []).
  { intros t l2 H2. cbn. split; [apply step_refl|].
    rewrite obs_app, L, H2. reflexivity. }
  destruct (String.eqb ct "audio/x-l16"); [now apply ST|].
  destruct (String.eqb ct "audio/x-mulaw").
  { destruct (negb (rcvd =? 8000)); [apply I''|now apply ST]. }
  destruct (String.eqb ct "raw" || String.eqb ct "wav"); [now apply ST|].
  apply I'.
Qed.

Lemma processIncomingMessage_step message read_codec tech_pvt ap :
  step ap []
    (snd (fst (processIncomingMessage message read_codec tech_pvt ap)))
  /\ obs (snd (processIncomingMessage message read_codec tech_pvt ap)) = [].
Proof.
  unfold processIncomingMessage.
  destruct (cJSON_Parse message) as [json|];
    [|apply sendIncorrectPayloadEvent_step].
  destruct (j_event json) as [event|];
    [|apply sendIncorrectPayloadEvent_step].
  destruct (String.eqb event "media.play");
    [apply processPlayAudioEvent_step|].
  destruct (String.eqb event "media.checkpoint").
  { unfold processCheckpointEvent.
    destruct (j_name json) as [nm|]; cbn.
    - destruct (stream_input_received tech_pvt =? 0); cbn;
        (split; [apply step_refl | reflexivity]).
    - split; [apply step_refl | reflexivity]. }
  destruct (String.eqb event "media.clear"); [apply processClearEvent_step|].
  destruct (String.eqb event "transcription.send").
  { cbn. split; [apply step_refl | reflexivity]. }
  apply sendIncorrectPayloadEvent_step.
Qed.

Lemma tracks_refl ap w : pipe w = Some ap \/ pipe w = None -> tracks (Some ap) [] w.
Proof. intros H. exists ap. split; [apply step_refl | exact H]. Qed.

Lemma tracks_none_nil w : pipe w = None -> tracks (pipe w) [] w.
Proof. intros H. rewrite H. split; [reflexivity | exact H]. Qed.

Lemma tracks_same w : tracks (pipe w) [] w.
Proof.
  destruct (pipe w) as [ap|] eqn:E.
  - exists ap. split; [apply step_refl | now left].
  - split; [reflexivity | exact E].
Qed.

Lemma tracks_eq w w' : pipe w' = pipe w -> tracks (pipe w) [] w'.
Proof.
  intros H. destruct (pipe w) as [ap|] eqn:E.
  - exists ap. split; [apply step_refl | now left].
  - split; [reflexivity | exact H].
Qed.

Lemma tracks_silent w w' e :
  obs e = [] -> pipe w' = pipe w \/ pipe w' = None -> tracks (pipe w) e w'.
Proof.
  intros O H. destruct (pipe w) as [ap|] eqn:E.
  - exists ap. rewrite O. split; [apply step_refl |].
    destruct H; [now left | now right].
  - split; [exact O | now destruct H].
Qed.

(** Composition along a run. *)
Lemma tracks_trans o e1 w1 e2 w2 :
  tracks o e1 w1 -> tracks (pipe w1) e2 w2 -> tracks o (e1 ++ e2) w2.
Proof.
  destruct o as [ap|]; cbn.
  - intros (ap1 & S1 & [P1|P1]) T2; rewrite P1 in T2; cbn in T2.
    + destruct T2 as (ap2 & S2 & P2). exists ap2. split; [|exact P2].
      rewrite obs_app. eapply step_trans; eassumption.
    + destruct T2 as [O2 P2]. exists ap1. split; [|now right].
      rewrite obs_app, O2, app_nil_r. exact S1.
  - intros [O1 P1] T2. rewrite P1 in T2. cbn in T2. destruct T2 as [O2 P2].
    split; [|exact P2]. rewrite obs_app, O1, O2. reflexivity.
Qed.

Lemma stream_session_cleanup_pipe w :
  pipe (fst (stream_session_cleanup w)) = pipe w.
Proof. unfold stream_session_cleanup. destruct (channel_private w); reflexivity. Qed.

Lemma graceful_shutdown_obs now ap : obs (snd (graceful_shutdown now ap)) = [].
Proof. reflexivity. Qed.

Lemma quiet_tracks w e w' : quiet w e w' -> tracks (pipe w) e w'.
Proof.
  intros [O T]. destruct (pipe w) as [ap|]; cbn in *.
  - rewrite O. exact T.
  - destruct T as [_ P]. now split.
Qed.

Lemma quiet_eq w w' e :
  obs e = [] -> pipe w' = pipe w \/ pipe w' = None -> quiet w e w'.
Proof. intros O H. split; [exact O|]. now apply tracks_silent. Qed.

Lemma quiet_trans w e1 w1 e2 w2 :
  quiet w e1 w1 -> quiet w1 e2 w2 -> quiet w (e1 ++ e2) w2.
Proof.
  intros [O1 T1] [O2 T2]. split.
  - rewrite obs_app, O1, O2. reflexivity.
  - exact (tracks_trans _ _ _ _ _ T1 T2).
Qed.

Lemma stream_session_graceful_shutdown_quiet now w :
  quiet w (snd (fst (stream_session_graceful_shutdown now w)))
    (fst (fst (stream_session_graceful_shutdown now w))).
Proof.
  unfold stream_session_graceful_shutdown.
  destruct (channel_private w) as [tech_pvt|];
    [|apply quiet_eq; [reflexivity | now left]].
  unfold pointee. cbn.
  destruct (audio_pipe_ptr tech_pvt);
    [|cbn; apply quiet_eq; [reflexivity | now left]].
  destruct (pipe w) as [ap|] eqn:E; cbn.
  - split; [reflexivity|]. rewrite E.
    exists (fst (graceful_shutdown now ap)). split; [|now left].
    apply step_graceful.
  - apply quiet_eq; [reflexivity | now left].
Qed.

Lemma eventCallback_quiet event message now read_codec w :
  quiet w (snd (eventCallback event message now read_codec w))
    (fst (eventCallback event message now read_codec w)).
Proof.
  unfold eventCallback.
  destruct (channel_private w) as [tech_pvt|] eqn:EP;
    [|apply quiet_eq; [reflexivity | now left]].
  destruct event.
  - (* CONNECT_SUCCESS *)
    destruct (pipe w) as [ap|] eqn:E.
    + set (ap2 := set_m_ob_audio_buffer _ _).
      pose proof (step_start_time now ap) as S1. fold ap2 in S1.
      pose proof (step_text "" ap2) as S2.
      pose proof (addEventBuffer_obs (JText "") ap2) as O.
      destruct (addEventBuffer (JText "") ap2) as [[ap3 e] b]. cbn in *.
      split.
      * change (response_handler EVENT_CONNECT_SUCCESS
                  (members [("streamId", stream_id tech_pvt)]) :: e)
          with ([response_handler EVENT_CONNECT_SUCCESS
                   (members [("streamId", stream_id tech_pvt)])] ++ e).
        rewrite obs_app, O. reflexivity.
      * rewrite E. exists ap3. split; [|now left].
        exact (step_trans _ _ _ _ _ S1 S2).
    + cbn. apply quiet_eq; [reflexivity | now left].
  - (* CONNECT_FAIL *)
    cbv zeta.
    destruct (audio_pipe_ptr tech_pvt); destruct (channel_closing tech_pvt);
      cbn [fst snd]; apply quiet_eq; try reflexivity;
      try rewrite stream_session_cleanup_pipe; cbn; auto.
  - (* CONNECTION_DROPPED *)
    destruct (channel_closing tech_pvt); cbn; apply quiet_eq;
      try reflexivity; left;
      try rewrite stream_session_cleanup_pipe; reflexivity.
  - (* CONNECTION_CLOSED_GRACEFULLY *)
    destruct (channel_closing tech_pvt); cbn; apply quiet_eq;
      try reflexivity; left;
      try rewrite stream_session_cleanup_pipe; reflexivity.
  - (* CONNECTION_TIMEOUT *)
    set (w0 := set_channel_private _ w).
    pose proof (stream_session_graceful_shutdown_quiet now w0) as T.
    destruct (stream_session_graceful_shutdown now w0) as [[w1 e] s].
    cbn in *. subst w0. destruct T as [O T]. cbn in T.
    split; [|exact T].
    change (response_handler EVENT_CONNECT_TIMEOUT
              (members [("streamId", stream_id tech_pvt);
                        ("reason", message)]) :: e)
      with ([response_handler EVENT_CONNECT_TIMEOUT
               (members [("streamId", stream_id tech_pvt);
                         ("reason", message)])] ++ e).
    rewrite obs_app, O. reflexivity.
  - (* CONNECTION_DEGRADED *)
    cbn. apply quiet_eq; [reflexivity | now left].
  - (* MESSAGE *)
    destruct (pipe w) as [ap|] eqn:E.
    + destruct (processIncomingMessage_step message read_codec tech_pvt ap)
        as [S O].
      destruct (processIncomingMessage message read_codec tech_pvt ap)
        as [[t a] e]. cbn in *.
      split; [exact O|]. rewrite E. exists a. split; [exact S | now left].
    + cbn. apply quiet_eq; [reflexivity | now left].
Qed.

(** The session's reaction adds nothing observable to what the callback
    did. *)
Lemma react_quiet effs now read_codec :
  forall w,
    obs (snd (react effs now read_codec w)) = obs effs
    /\ tracks (pipe w) [] (fst (react effs now read_codec w)).
Proof.
  induction effs as [|x rest IH]; intros w.
  - cbn. split; [reflexivity | apply tracks_same].
  - assert (D : forall w0 : world,
               obs (x :: snd (react rest now read_codec w0))
               = obs (x :: rest)
               /\ tracks (pipe w0) []
                    (fst (react rest now read_codec w0))).
    { intros w0. destruct (IH w0) as [O T]. split; [|exact T].
      change (x :: snd (react rest now read_codec w0))
        with ([x] ++ snd (react rest now read_codec w0)).
      change (x :: rest) with ([x] ++ rest).
      rewrite !obs_app, O. reflexivity. }
    destruct x; cbn [react];
      try (specialize (D w); destruct (react rest now read_codec w);
           exact D).
    + (* notify *)
      destruct (eventCallback_quiet e message now read_codec w) as [O1 T1].
      destruct (eventCallback e message now read_codec w) as [w1 e1].
      cbn in O1, T1.
      destruct (IH w1) as [O2 T2].
      destruct (react rest now read_codec w1) as [w2 e2]. cbn in *.
      split.
      * change (notify e message :: e1 ++ e2)
          with ([notify e message] ++ e1 ++ e2).
        change (notify e message :: rest) with ([notify e message] ++ rest).
        rewrite !obs_app, O1, O2. reflexivity.
      * exact (tracks_trans _ _ _ _ _ T1 T2).
    + (* delete_ap *)
      destruct (IH (set_pipe None w)) as [O2 T2].
      destruct (react rest now read_codec (set_pipe None w)) as [w2 e2].
      cbn in *. destruct T2 as [_ P2].
      split.
      * change (delete_ap :: e2) with ([delete_ap] ++ e2).
        change (delete_ap :: rest) with ([delete_ap] ++ rest).
        rewrite !obs_app, O2. reflexivity.
      * apply tracks_silent; [reflexivity | now right].
Qed.

Lemma stream_ws_send_played_event_step nm tech_pvt p :
  obs (snd (fst (stream_ws_send_played_event nm tech_pvt p))) = []
  /\ match p with
     | Some ap =>
         exists ap',
           fst (fst (stream_ws_send_played_event nm tech_pvt p)) = Some ap'
           /\ step ap [] ap'
     | None => fst (fst (stream_ws_send_played_event nm tech_pvt p)) = None
     end.
Proof.
  unfold stream_ws_send_played_event, pointee.
  destruct (audio_pipe_ptr tech_pvt).
  - destruct p as [ap|]; [|split; reflexivity].
    pose proof (step_played (stream_id tech_pvt) nm ap) as S.
    pose proof (addEventBuffer_obs
                  (JPlayedStream (getSequenceNumber ap) (stream_id tech_pvt)
                     nm) ap) as O.
    destruct (addEventBuffer _ ap) as [[ap1 e] b]. cbn in *.
    split; [exact O|]. eexists. split; [reflexivity | exact S].
  - cbn. split; [reflexivity|].
    destruct p as [ap|]; [|reflexivity].
    exists ap. split; [reflexivity | apply step_refl].
Qed.

Lemma fire_checkpoints_step length cps :
  forall tech_pvt p,
    obs (snd (fire_checkpoints length cps tech_pvt p)) = []
    /\ match p with
       | Some ap =>
           exists ap',
             snd (fst (fire_checkpoints length cps tech_pvt p)) = Some ap'
             /\ step ap [] ap'
       | None => snd (fst (fire_checkpoints length cps tech_pvt p)) = None
       end.
Proof.
  induction cps as [|head next IH]; intros tech_pvt p.
  - cbn. split; [reflexivity|]. destruct p as [ap|]; [|reflexivity].
    exists ap. split; [reflexivity | apply step_refl].
  - cbn [fire_checkpoints].
    destruct (size_t (stream_input_played tech_pvt + length - 1)
              <? position head).
    + cbn. split; [reflexivity|]. destruct p as [ap|]; [|reflexivity].
      exists ap. split; [reflexivity | apply step_refl].
    + destruct (stream_ws_send_played_event_step (name head) tech_pvt p)
        as [O1 S1].
      destruct (stream_ws_send_played_event (name head) tech_pvt p)
        as [[p1 e1] st]. cbn in O1, S1.
      destruct (IH tech_pvt p1) as [O2 S2].
      destruct (fire_checkpoints length next tech_pvt p1) as [[t p2] e3].
      cbn in *. split.
      * rewrite obs_app, O1.
        change (response_handler EVENT_PLAYED
                  (members [("streamId", stream_id tech_pvt);
                            ("name", name head)]) :: e3)
          with ([response_handler EVENT_PLAYED
                   (members [("streamId", stream_id tech_pvt);
                             ("name", name head)])] ++ e3).
        rewrite obs_app, O2. reflexivity.
      * destruct p as [ap|].
        -- destruct S1 as (ap1 & -> & S1). destruct S2 as (ap2 & -> & S2).
           exists ap2. split; [reflexivity|].
           exact (step_trans _ _ _ _ _ S1 S2).
        -- subst p1. exact S2.
Qed.

Lemma write_replace_step rframe tech_pvt p :
  obs (snd (write_replace rframe tech_pvt p)) = []
  /\ match p with
     | Some ap =>
         exists ap',
           snd (fst (fst (write_replace rframe tech_pvt p))) = Some ap'
           /\ step ap [] ap'
     | None => snd (fst (fst (write_replace rframe tech_pvt p))) = None
     end.
Proof.
  assert (R : obs [] = [] /\
              match p with
              | Some ap => exists ap', p = Some ap' /\ step ap [] ap'
              | None => p = None
              end).
  { split; [reflexivity|]. destruct p as [ap|]; [|reflexivity].
    exists ap. split; [reflexivity | apply step_refl]. }
  unfold write_replace.
  destruct (write_buffer tech_pvt) as [wb|]; [|exact R].
  destruct (datalen rframe <=? switch_buffer.inuse wb); [|exact R].
  destruct (switch_buffer.read wb (datalen rframe)) as [wb1 data].
  set (tech2 := set_stream_input_played _ _).
  pose proof (fire_checkpoints_step (len data) (checkpoints tech2) tech2 p)
    as F.
  destruct (fire_checkpoints (len data) (checkpoints tech2) tech2 p)
    as [[t p1] e]. cbn in *. exact F.
Qed.

Lemma capture_write_obs use_ob src ap :
  obs (snd (fst (capture_write use_ob src ap)))
  = snd (fst (capture_write use_ob src ap)).
Proof.
  unfold capture_write.
  destruct (if use_ob then m_ob_audio_buffer ap else m_audio_buffer ap)
    as [b|]; [|reflexivity].
  destruct (Buffer_write b src) as [b1 ok].
  destruct (above_threshold b1), ok; reflexivity.
Qed.

Lemma frame_loop_tracks frames use_ob resample now :
  forall w ok,
    tracks (pipe w) (snd (fst (frame_loop frames use_ob resample now w ok)))
      (fst (fst (frame_loop frames use_ob resample now w ok))).
Proof.
  induction frames as [|frame more IH]; intros w ok.
  - cbn. apply tracks_same.
  - cbn [frame_loop].
    destruct (cng frame); [apply tracks_same|].
    destruct (datalen frame =? 0); [apply IH|].
    destruct (pipe w) as [ap|] eqn:E; [|cbn; now rewrite E; split].
    set (src := if resample then _ else _).
    pose proof (step_capture use_ob src ap) as S.
    pose proof (capture_write_obs use_ob src ap) as O.
    destruct (capture_write use_ob src ap) as [[ap1 notes] ok1].
    cbn in S, O.
    destruct (react_quiet notes now None (set_pipe (Some ap1) w)) as [O1 T1].
    destruct (react notes now None (set_pipe (Some ap1) w)) as [w1 e1].
    cbn in O1, T1.
    specialize (IH w1 ok1).
    destruct (frame_loop more use_ob resample now w1 ok1) as [[w2 e2] r].
    cbn in *.
    destruct T1 as (ap2 & S2 & P2).
    assert (T : tracks (Some ap) e1 w1).
    { exists ap2. split; [|exact P2]. rewrite O1, O.
      rewrite <- (app_nil_r notes). eapply step_trans; eassumption. }
    exact (tracks_trans _ _ _ _ _ T IH).
Qed.

Lemma stream_frame_tracks inbound_bug frames trylock now w :
  tracks (pipe w) (snd (stream_frame inbound_bug frames trylock now w))
    (fst (stream_frame inbound_bug frames trylock now w)).
Proof.
  unfold stream_frame.
  destruct (channel_private w) as [tech_pvt|]; [|apply tracks_same].
  destruct (audio_paused tech_pvt || tp_graceful_shutdown tech_pvt
            || negb (mutex tech_pvt)); [apply tracks_same|].
  destruct (negb trylock); [apply tracks_same|].
  destruct (pointee tech_pvt (pipe w)) as [ap|]; [|apply tracks_same].
  destruct (negb (state_eqb (getLwsState ap) LWS_CLIENT_CONNECTED));
    [apply tracks_same|].
  set (use_ob := needsBothTracks ap && negb inbound_bug).
  set (resample := if use_ob then _ else _).
  pose proof (frame_loop_tracks frames use_ob resample now w true) as T.
  destruct (frame_loop frames use_ob resample now w true) as [[w1 e] ok].
  cbn in T.
  destruct ok; [|exact T].
  destruct (pipe w1) as [ap1|] eqn:E1; [|exact T].
  cbn.
  assert (T2 : tracks (pipe w1) [lws_cancel_service]
                 (set_pipe (Some (set_pendingWrites true ap1)) w1)).
  { rewrite E1. exists (set_pendingWrites true ap1). split; [|now left].
    apply (step_pending ap1). }
  exact (tracks_trans _ _ _ _ _ T T2).
Qed.

(** Whatever happens to a session, its transport object moves by steps,
    and nothing else is handed to the socket or notified. *)
Lemma run_action_tracks a w :
  tracks (pipe w) (snd (run_action a w)) (fst (run_action a w)).
Proof.
  destruct a; cbn [run_action].
  - (* transport *)
    destruct (pipe w) as [ap|] eqn:E; [|cbn; now rewrite E; split].
    pose proof (step_callback ev ap) as S.
    destruct (lws_callback ev ap) as [[ap1 effs] r]. cbn in S.
    destruct (react_quiet effs now read_codec (set_pipe (Some ap1) w))
      as [O T].
    destruct (react effs now read_codec (set_pipe (Some ap1) w)) as [w1 e1].
    cbn in *. destruct T as (ap2 & S2 & P2).
    exists ap2. split; [|exact P2]. rewrite O.
    rewrite <- (app_nil_r (obs effs)). eapply step_trans; eassumption.
  - (* replace_frame *)
    destruct (channel_private w) as [tech_pvt|]; [|apply tracks_same].
    destruct (write_replace_step rframe tech_pvt (pipe w)) as [O S].
    destruct (write_replace rframe tech_pvt (pipe w)) as [[[t p1] f] e].
    cbn in *.
    destruct (pipe w) as [ap|]; cbn.
    + destruct S as (ap' & -> & S). exists ap'. rewrite O.
      split; [exact S | now left].
    + now split.
  - (* capture *)
    apply stream_frame_tracks.
  - (* cmd_send_text *)
    unfold stream_session_send_text.
    destruct (channel_private w) as [tech_pvt|]; [|apply tracks_same].
    unfold pointee. destruct (audio_pipe_ptr tech_pvt); [|apply tracks_same].
    destruct (pipe w) as [ap|] eqn:E; [|cbn; now rewrite E; split].
    destruct text as [txt|];
      [|cbn; exists ap; split; [apply step_refl | now left]].
    pose proof (step_text txt ap) as S.
    pose proof (addEventBuffer_obs (JText txt) ap) as O.
    destruct (addEventBuffer (JText txt) ap) as [[ap1 e] b]. cbn in *.
    exists ap1. rewrite O. split; [exact S | now left].
  - (* cmd_graceful_shutdown *)
    pose proof (stream_session_graceful_shutdown_quiet now w) as Q.
    destruct (stream_session_graceful_shutdown now w) as [[w1 e] s].
    cbn in *. now apply quiet_tracks.
  - (* cmd_pauseresume *)
    unfold stream_session_pauseresume.
    destruct (channel_private w); cbn; now apply tracks_eq.
  - (* cmd_stop *)
    unfold stream_ws_close_connection.
    destruct (channel_private w) as [tech_pvt|]; [|apply tracks_same].
    unfold pointee. destruct (audio_pipe_ptr tech_pvt); [|apply tracks_same].
    destruct (pipe w) as [ap|] eqn:E; [|cbn; now rewrite E; split].
    pose proof (step_close ap) as S.
    assert (O : obs (snd (close (set_m_connection_attempts
                                   (MAX_CONNECTION_ATTEMPTS + 1) ap))) = []).
    { unfold close. destruct (negb _); reflexivity. }
    destruct (close _) as [ap2 e]. cbn in *.
    exists ap2. rewrite O. split; [exact S | now left].
Qed.

Lemma run_tracks acts :
  forall w, tracks (pipe w) (snd (run acts w)) (fst (run acts w)).
Proof.
  induction acts as [|a rest IH]; intros w.
  - cbn. apply tracks_same.
  - cbn [run]. pose proof (run_action_tracks a w) as T1.
    destruct (run_action a w) as [w1 e1]. cbn in T1.
    specialize (IH w1). destruct (run rest w1) as [w2 e2]. cbn in *.
    exact (tracks_trans _ _ _ _ _ T1 IH).
Qed.

(** ** Frame size *)

Lemma wire_app (a b : list effect) : wire (a ++ b) = wire a ++ wire b.
Proof.
  induction a as [|x a IH]; [reflexivity|].
  destruct x; cbn; rewrite ?IH; reflexivity.
Qed.

Lemma wire_obs (e : list effect) : wire (obs e) = wire e.
Proof.
  induction e as [|x e IH]; [reflexivity|].
  destruct x; unfold obs in *; cbn; rewrite ?IH; reflexivity.
Qed.

(** [Buffer::read] gives one whole chunk or fails, and leaves the chunk
    size alone. *)
Lemma Buffer_read_chunk (b : Buffer) :
  chunk_size_bytes_ (fst (Buffer_read b)) = chunk_size_bytes_ b
  /\ forall d, snd (Buffer_read b) = Some d -> len d = chunk_size_bytes_ b.
Proof.
  unfold Buffer_read, switch_buffer.read.
  destruct (negb (len (firstn _ _) =? chunk_size_bytes_ b)) eqn:E; cbn.
  - split; [reflexivity | discriminate].
  - split; [reflexivity|]. intros d [= <-].
    apply negb_false_iff, Z.eqb_eq in E. exact E.
Qed.

Lemma Buffer_write_chunk (b : Buffer) (data : list byte) :
  chunk_size_bytes_ (fst (Buffer_write b data)) = chunk_size_bytes_ b.
Proof.
  unfold Buffer_write.
  destruct (switch_buffer.write _ _) as [fb w].
  destruct (w =? 0); reflexivity.
Qed.

(** A media message is made only from a chunk that was read, and its
    payload decodes to that chunk. *)
Lemma generate_media_payload seq uuid sid track b extra codec sampling :
  chunk_is (chunk_size_bytes_ b)
    (fst (generate_json_data_event CLIENT_EVENT_MEDIA seq uuid sid track
            (Some b) extra codec sampling))
  /\ forall m,
       snd (generate_json_data_event CLIENT_EVENT_MEDIA seq uuid sid track
              (Some b) extra codec sampling) = Some m ->
       media_payload_is (chunk_size_bytes_ b) m
       /\ exists d, snd (Buffer_read b) = Some d.
Proof.
  cbn [generate_json_data_event].
  destruct (Buffer_read_chunk b) as [C R].
  destruct (Buffer_read b) as [b' [d|]]; cbn in *.
  - destruct (len d =? 0); cbn.
    + split; [exact C | discriminate].
    + split; [exact C|]. intros m [= <-]. split; [|now exists d].
      cbn. exists d. split; [apply base64_decode_encode | now apply R].
  - split; [exact C | discriminate].
Qed.

Ltac break_if :=
  match goal with
  | |- context [if ?c then _ else _] => destruct c eqn:?
  end.

Lemma control_text_payload c m : control_text m -> media_payload_is c m.
Proof. destruct m; cbn; tauto. Qed.

Lemma framed_send_media c locked ap :
  framed c ap ->
  framed c (fst (fst (send_media locked ap)))
  /\ Forall (media_payload_is c) (wire (snd (fst (send_media locked ap)))).
Proof.
  intros (A & B & Q). unfold send_media.
  set (use_ob := needsBothTracks ap && m_switch ap).
  set (track := if (_ =? 0) then _ else _). clearbody track.
  assert (K : forall ap', m_audio_buffer ap' = m_audio_buffer ap ->
                          m_ob_audio_buffer ap' = m_ob_audio_buffer ap ->
                          m_events ap' = m_events ap -> framed c ap').
  { intros ap' E1 E2 E3. unfold framed. now rewrite E1, E2, E3. }
  destruct (if use_ob then m_ob_audio_buffer ap else m_audio_buffer ap)
    as [b|] eqn:EB.
  2:{ cbn. split; [now apply K | constructor]. }
  destruct locked; cbn [negb].
  2:{ cbn. split; [now apply K | constructor]. }
  assert (CB : chunk_size_bytes_ b = c).
  { destruct use_ob; [rewrite EB in B | rewrite EB in A]; assumption. }
  destruct (generate_media_payload (m_sequenceNumber ap) (m_uuid ap)
              (m_streamid ap) track b (m_extra_headers ap) (m_codec ap)
              (m_sampling ap)) as [G1 G2].
  destruct (generate_json_data_event _ _ _ _ _ _ _ _ _) as [b' payload].
  cbn in G1, G2. rewrite CB in G1, G2.
  assert (F : framed c (if use_ob then set_m_ob_audio_buffer b' ap
                        else set_m_audio_buffer b' ap)).
  { destruct use_ob; unfold framed; cbn; auto. }
  assert (FF : forall x, framed c x -> framed c (flip_switch x)).
  { intros x Hx. unfold flip_switch. destruct (needsBothTracks x);
      [|exact Hx]. exact Hx. }
  destruct payload as [m|].
  - cbn. split.
    + apply FF. exact F.
    + constructor; [|constructor]. now apply G2.
  - cbn -[flip_switch]. split; [apply FF; exact F|].
    destruct (isGracefulShutdown _); constructor.
Qed.

Lemma framed_writeable c cur_time locked short_write ap :
  framed c ap ->
  framed c (fst (fst (on_client_writeable cur_time locked short_write ap)))
  /\ Forall (media_payload_is c)
       (wire (snd (fst (on_client_writeable cur_time locked short_write ap)))).
Proof.
  intros F. pose proof F as (A & B & Q). unfold on_client_writeable.
  destruct (isGracefulShutdown ap && (m_gracefulShutdown_at ap + 60 <=? cur_time)).
  { cbn. split; [exact F | constructor]. }
  destruct (isGracefulShutdown ap && allBuffersAreEmpty ap
            && negb (m_lastMsgSent ap)).
  { cbn. split; [exact F | repeat constructor]. }
  destruct (negb (m_firstMsgSent ap)).
  { cbn. split; [exact F | repeat constructor]. }
  unfold getEventData.
  destruct (m_events ap) as [|data rest] eqn:EQ.
  - cbn [is_empty_text String.eqb negb].
    destruct (state_eqb (m_state ap) LWS_CLIENT_DISCONNECTING).
    + cbn. split; [exact F | constructor].
    + now apply framed_send_media.
  - assert (F1 : framed c (set_m_events rest ap)).
    { unfold framed. cbn. inversion Q; subst. auto. }
    assert (P : media_payload_is c data).
    { inversion Q; subst. now apply control_text_payload. }
    destruct (negb (is_empty_text data)).
    + destruct short_write; cbn; (split; [exact F1 | repeat constructor; exact P]).
    + destruct (state_eqb (m_state (set_m_events rest ap))
                  LWS_CLIENT_DISCONNECTING).
      * cbn. split; [exact F1 | constructor].
      * now apply framed_send_media.
Qed.

Lemma framed_eq c ap ap' :
  m_audio_buffer ap' = m_audio_buffer ap ->
  m_ob_audio_buffer ap' = m_ob_audio_buffer ap ->
  m_events ap' = m_events ap -> framed c ap -> framed c ap'.
Proof. intros E1 E2 E3. unfold framed. now rewrite E1, E2, E3. Qed.

Lemma framed_addEventBuffer c m ap :
  control_text m -> framed c ap ->
  framed c (fst (fst (addEventBuffer m ap))).
Proof.
  intros Hm (A & B & Q). unfold addEventBuffer.
  destruct (negb _); cbn; [now repeat split|].
  repeat split; try assumption.
  apply Forall_app. split; [exact Q | now constructor].
Qed.

Lemma framed_callback c ev ap :
  framed c ap ->
  framed c (fst (fst (lws_callback ev ap)))
  /\ Forall (media_payload_is c) (wire (snd (fst (lws_callback ev ap)))).
Proof.
  intros F.
  destruct ev; cbn [lws_callback].
  - (* wait cancelled *)
    unfold on_event_wait_cancelled, processPendingConnects,
      processPendingDisconnects, processPendingWrites, connect_client.
    repeat break_if; cbn;
      (split; [revert F; apply framed_eq; reflexivity | repeat constructor]).
  - unfold on_client_connection_error, find_pending,
      findAndRemovePendingConnect, findAndRemovePendingReconnect.
    repeat break_if; cbn;
      (split; [revert F; apply framed_eq; reflexivity | repeat constructor]).
  - unfold on_client_established, find_pending,
      findAndRemovePendingConnect, findAndRemovePendingReconnect.
    repeat break_if; cbn;
      (split; [revert F; apply framed_eq; reflexivity | repeat constructor]).
  - unfold on_client_closed.
    repeat break_if; cbn;
      (split; [revert F; apply framed_eq; reflexivity | repeat constructor]).
  - now apply framed_writeable.
  - unfold on_client_receive.
    repeat break_if; cbn;
      (split; [revert F; apply framed_eq; reflexivity | repeat constructor]).
  - cbn. split; [revert F; apply framed_eq; reflexivity | constructor].
  - cbn. split; [revert F; apply framed_eq; reflexivity | constructor].
  - unfold close. break_if; cbn;
      (split; [revert F; apply framed_eq; reflexivity | constructor]).
  - cbn. split; [revert F; apply framed_eq; reflexivity | constructor].
  - pose proof (framed_addEventBuffer c (JText text) ap I F) as H.
    assert (W : wire (snd (fst (addEventBuffer (JText text) ap))) = []).
    { unfold addEventBuffer. destruct (negb _); reflexivity. }
    destruct (addEventBuffer (JText text) ap) as [[ap1 e] b]. cbn in *.
    rewrite W. split; [exact H | constructor].
Qed.

Lemma framed_capture_write c use_ob src ap :
  framed c ap ->
  framed c (fst (fst (capture_write use_ob src ap)))
  /\ wire (snd (fst (capture_write use_ob src ap))) = [].
Proof.
  intros (A & B & Q). unfold capture_write.
  destruct (if use_ob then m_ob_audio_buffer ap else m_audio_buffer ap)
    as [b|] eqn:EB; [|cbn; now repeat split].
  pose proof (Buffer_write_chunk b src) as W.
  destruct (Buffer_write b src) as [b1 ok]. cbn in W.
  assert (CB : chunk_size_bytes_ b = c).
  { destruct use_ob; [rewrite EB in B | rewrite EB in A]; assumption. }
  split.
  - destruct use_ob, (above_threshold b1); unfold framed; cbn;
      repeat split; try assumption; congruence.
  - destruct (above_threshold b1), ok; reflexivity.
Qed.

(** Steps keep the framing, and every frame they hand to the socket obeys
    it. *)
Lemma step_framed c a e b :
  step a e b -> framed c a ->
  framed c b /\ Forall (media_payload_is c) (wire e).
Proof.
  induction 1; intros F.
  - split; [exact F | constructor].
  - destruct (IHstep1 F) as [F1 W1]. destruct (IHstep2 F1) as [F2 W2].
    split; [exact F2|]. rewrite wire_app. apply Forall_app. now split.
  - rewrite wire_obs. now apply framed_callback.
  - split; [now apply framed_addEventBuffer | constructor].
  - split; [|constructor].
    pose proof (framed_addEventBuffer c
                  (JPlayedStream (getSequenceNumber ap) sid nm) ap I F).
    revert H. apply framed_eq; reflexivity.
  - split; [|constructor].
    apply framed_addEventBuffer; [exact I|].
    revert F. apply framed_eq; reflexivity.
  - split; [|constructor].
    pose proof (framed_addEventBuffer c
                  (JMediaCleared (getSequenceNumber ap) sid) ap I F).
    revert H. apply framed_eq; reflexivity.
  - split; [|constructor]. revert F. apply framed_eq; reflexivity.
  - split; [|constructor]. unfold close. break_if; cbn;
      revert F; apply framed_eq; reflexivity.
  - split; [|constructor]. destruct F as (A & B & Q).
    unfold framed; cbn. repeat split; try assumption.
    + destruct (m_audio_buffer ap); cbn in *; assumption.
    + destruct (m_ob_audio_buffer ap); cbn in *; assumption.
  - destruct (framed_capture_write c use_ob src ap F) as [F1 W].
    split; [exact F1|]. rewrite W. constructor.
  - split; [|constructor]. revert F. apply framed_eq; reflexivity.
Qed.

Lemma framed_new now uuid sid bufLen track extra codec sampling bidi :
  0 <= base_frame_size codec * Z.quot sampling 8000 < 2 ^ 32 ->
  framed (base_frame_size codec * Z.quot sampling 8000)
    (AudioPipe_new now uuid sid bufLen track extra codec sampling bidi).
Proof.
  intros H. unfold framed, AudioPipe_new. cbn.
  assert (E : uint32 (if codec_eqb codec ULAW
                      then ULAW_FRAME_SIZE_8KHZ_20MS * Z.quot sampling 8000
                      else L16_FRAME_SIZE_8KHZ_20MS * Z.quot sampling 8000)
              = base_frame_size codec * Z.quot sampling 8000).
  { unfold uint32, wrap. destruct codec; cbn [codec_eqb base_frame_size] in *;
      apply Z.mod_small; exact H. }
  repeat split; [exact E | | constructor].
  destruct (String.eqb track "both"); cbn; [exact E | exact I].
Qed.

(** C9.  Frame-size invariant.  A read of the ring buffer returns exactly
    one chunk or fails; a media message is produced only from a chunk that
    was read; and in every run of a session started with a non-negative wire
    rate, each media message handed to the socket carries a payload that
    base64-decodes to exactly [base_frame_size * (wire_rate / 8000)] bytes,
    the base being 320 for PCM16 and 160 for mu-law. *)
Theorem media_frame_size
    (now : Z) (session_id sid : string) (codec : streaming_codec_t)
    (sampling desiredSampling channels secs : Z) (track : string)
    (bidi : Z) (metadata : string) (acts : list action) :
  0 <= desiredSampling ->
  base_frame_size codec * Z.quot desiredSampling 8000 < 2 ^ 32 ->
  (forall b d, snd (Buffer_read b) = Some d -> len d = chunk_size_bytes_ b)
  /\ (forall seq uuid s tr b extra cd rate m,
        snd (generate_json_data_event CLIENT_EVENT_MEDIA seq uuid s tr
               (Some b) extra cd rate) = Some m ->
        exists d, snd (Buffer_read b) = Some d)
  /\ Forall
       (media_payload_is (base_frame_size codec * Z.quot desiredSampling 8000))
       (wire (snd (run acts
                     (stream_data_init now session_id sid codec sampling
                        desiredSampling channels secs track bidi metadata)))).
Proof.
  intros Hs Hb. split; [|split].
  - intros b d. apply Buffer_read_chunk.
  - intros seq uuid s tr b extra cd rate m H.
    destruct (generate_media_payload seq uuid s tr b extra cd rate) as [_ G].
    now apply (G m).
  - set (c := base_frame_size codec * Z.quot desiredSampling 8000).
    set (w0 := stream_data_init _ _ _ _ _ _ _ _ _ _ _).
    pose proof (run_tracks acts w0) as T.
    destruct (run acts w0) as [w' effs]. cbn in T.
    destruct T as (ap' & S & _).
    assert (F0 : framed c
                   (AudioPipe_new now session_id sid
                      (size_t
                         (if codec_eqb codec ULAW
                          then Z.quot
                                 (Z.quot (ULAW_FRAME_SIZE_8KHZ_20MS
                                          * desiredSampling) 8000
                                  * channels * 1000) 20 * secs
                          else Z.quot
                                 (Z.quot (L16_FRAME_SIZE_8KHZ_20MS
                                          * desiredSampling) 8000
                                  * channels * 1000) 20 * secs))
                      track metadata codec desiredSampling bidi)).
    { apply framed_new. split; [|exact Hb].
      apply Z.mul_nonneg_nonneg; [destruct codec; discriminate|].
      apply Z.quot_pos; lia. }
    destruct (step_framed c _ _ _ S F0) as [_ W].
    rewrite wire_obs in W. exact W.
Qed.

(** ** Control messages outside the Connected state *)

Lemma set_pipe_same w ap : pipe w = Some ap -> set_pipe (Some ap) w = w.
Proof. destruct w as [cp p]. cbn. now intros ->. Qed.

(** C10.  When the transport is not Connected, [addEventBuffer] returns
    [false] and leaves the object as it was (queue included), so the text is
    dropped without a trace.  This is what happens to the playedStream
    message, the incorrectPayload acknowledgement and the media.cleared
    acknowledgement (which still use up a sequence number), and to a text of
    send_text, whose command reports success all the same. *)
Theorem enqueue_when_not_connected
    (ap : AudioPipe) (tech_pvt : private_data_t) (w : world) :
  m_state ap <> LWS_CLIENT_CONNECTED ->
  (forall text, addEventBuffer text ap = ((ap, []), false))
  /\ (forall nm,
        audio_pipe_ptr tech_pvt = true ->
        stream_ws_send_played_event nm tech_pvt (Some ap)
        = (Some (increaseSequenceNumber ap), [], SWITCH_STATUS_SUCCESS))
  /\ (forall payload reason,
        m_events
          (snd (fst (sendIncorrectPayloadEvent payload reason tech_pvt ap)))
        = m_events ap)
  /\ m_events (snd (fst (processClearEvent tech_pvt ap))) = m_events ap
  /\ (forall text,
        channel_private w = Some tech_pvt -> pipe w = Some ap ->
        stream_session_send_text text w = (w, [], SWITCH_STATUS_SUCCESS)).
Proof.
  intros NC.
  assert (A : forall text, addEventBuffer text ap = ((ap, []), false)).
  { intros text. unfold addEventBuffer.
    destruct (m_state ap); try reflexivity. now contradiction NC. }
  assert (A' : forall text,
             addEventBuffer text (increaseSequenceNumber ap)
             = ((increaseSequenceNumber ap, []), false)).
  { intros text. unfold addEventBuffer. cbn.
    destruct (m_state ap); try reflexivity. now contradiction NC. }
  split; [exact A|]. split; [|split; [|split]].
  - intros nm P. unfold stream_ws_send_played_event, pointee.
    rewrite P, A. reflexivity.
  - intros payload reason. unfold sendIncorrectPayloadEvent.
    destruct (invalid_stream_input_notified tech_pvt); [reflexivity|].
    rewrite A'. reflexivity.
  - unfold processClearEvent. rewrite A. reflexivity.
  - intros text CP P. unfold stream_session_send_text, pointee.
    rewrite CP, P.
    destruct (audio_pipe_ptr tech_pvt); [|reflexivity].
    destruct text as [txt|]; [|reflexivity].
    rewrite A. now rewrite set_pipe_same.
Qed.

(** ** Graceful shutdown *)


Lemma len_nonneg {A} (l : list A) : 0 <= len l.
Proof. unfold len. lia. Qed.

Lemma len_nil_inv {A} (l : list A) : len l = 0 -> l = [].
Proof. unfold len. destruct l; [reflexivity | cbn; lia]. Qed.

Lemma len_app {A} (a b : list A) : len (a ++ b) = len a + len b.
Proof. unfold len. rewrite length_app. lia. Qed.

Lemma len_bytes_at data n : 0 <= n -> len (bytes_at data n) = n.
Proof.
  intros H. unfold bytes_at, len.
  rewrite length_firstn, length_app, repeat_length. lia.
Qed.

Lemma len_firstn_skipn {A} (n : nat) (l : list A) :
  len (firstn n l) + len (skipn n l) = len l.
Proof.
  unfold len. rewrite <- Nat2Z.inj_add, <- length_app, firstn_skipn.
  reflexivity.
Qed.

Lemma len_firstn_le {A} (n : Z) (l : list A) :
  0 <= n -> len (firstn (Z.to_nat n) l) = Z.min n (len l).
Proof. intros H. unfold len. rewrite length_firstn. lia. Qed.

Lemma uint32_small z : 0 <= z < 2 ^ 32 -> uint32 z = z.
Proof. intros H. unfold uint32, wrap. now apply Z.mod_small. Qed.

Lemma buffer_ok_read b : buffer_ok b -> buffer_ok (fst (Buffer_read b)).
Proof.
  intros (M & U & C & D & E). unfold Buffer_read, switch_buffer.read.
  pose proof (len_firstn_le (chunk_size_bytes_ b)
                (switch_buffer.data (freeswitch_buffer_ b)) C) as L.
  pose proof (len_firstn_skipn (Z.to_nat (chunk_size_bytes_ b))
                (switch_buffer.data (freeswitch_buffer_ b))) as S.
  pose proof (len_nonneg (switch_buffer.data (freeswitch_buffer_ b))) as N.
  unfold switch_buffer.inuse in *.
  destruct (negb (_ =? chunk_size_bytes_ b)) eqn:Q; cbn [fst].
  - apply negb_true_iff, Z.eqb_neq in Q.
    assert (Z0 : len (switch_buffer.data (freeswitch_buffer_ b)) = 0).
    { destruct D as [k Hk].
      assert (len (switch_buffer.data (freeswitch_buffer_ b))
              < chunk_size_bytes_ b) by lia.
      assert (k = 0) by nia. subst k. lia. }
    apply len_nil_inv in Z0. rewrite Z0 in *.
    unfold buffer_ok, switch_buffer.inuse. cbn.
    rewrite skipn_nil.
    repeat split; try lia; try assumption.
  - apply negb_false_iff, Z.eqb_eq in Q.
    unfold buffer_ok, switch_buffer.inuse. cbn.
    assert (R : len (skipn (Z.to_nat (chunk_size_bytes_ b))
                       (switch_buffer.data (freeswitch_buffer_ b)))
                = len (switch_buffer.data (freeswitch_buffer_ b))
                  - chunk_size_bytes_ b) by lia.
    pose proof (len_nonneg (skipn (Z.to_nat (chunk_size_bytes_ b))
                              (switch_buffer.data (freeswitch_buffer_ b)))).
    repeat split; try lia.
    + rewrite R. apply Z.divide_sub_r; [exact D | apply Z.divide_refl].
    + apply uint32_small. lia.
Qed.

Lemma buffer_ok_write b data :
  buffer_ok b -> buffer_ok (fst (Buffer_write b data)).
Proof.
  intros OK. pose proof OK as (M & U & C & D & E).
  unfold Buffer_write, switch_buffer.write.
  rewrite (len_bytes_at data _ C).
  pose proof (len_nonneg (switch_buffer.data (freeswitch_buffer_ b))) as N.
  unfold switch_buffer.inuse in *.
  destruct (chunk_size_bytes_ b =? 0) eqn:Z0.
  - destruct (len _ =? 0); cbn [fst]; [exact OK|].
    unfold buffer_ok, switch_buffer.inuse. cbn.
    repeat split; try lia; try assumption.
    apply uint32_small. lia.
  - apply Z.eqb_neq in Z0.
    destruct ((switch_buffer.max_len (freeswitch_buffer_ b) =? 0)
              || (len (switch_buffer.data (freeswitch_buffer_ b))
                  + chunk_size_bytes_ b
                  <=? switch_buffer.max_len (freeswitch_buffer_ b))) eqn:Q.
    + apply orb_true_iff in Q. destruct Q as [Q|Q];
        [apply Z.eqb_eq in Q; lia|]. apply Z.leb_le in Q.
      destruct (_ + _ =? 0) eqn:W; [apply Z.eqb_eq in W; lia|].
      cbn [fst]. unfold buffer_ok, switch_buffer.inuse. cbn.
      rewrite len_app, (len_bytes_at data _ C).
      repeat split; try lia.
      * apply Z.divide_add_r; [exact D | apply Z.divide_refl].
      * apply uint32_small. lia.
    + cbn. exact OK.
Qed.

Lemma buffer_ok_new now max_len chunk step :
  0 < max_len < 2 ^ 32 -> buffer_ok (Buffer_new now max_len chunk step).
Proof.
  intros H. unfold buffer_ok, Buffer_new, switch_buffer.inuse. cbn.
  repeat split; try lia.
  - unfold uint32, wrap. apply Z.mod_pos_bound. lia.
  - apply Z.divide_0_r.
Qed.

(** A property of the buffers that reads, writes and the two field
    updates keep is kept by every step. *)
Lemma step_both (P : Buffer -> Prop) :
  (forall b, P b -> P (fst (Buffer_read b))) ->
  (forall b d, P b -> P (fst (Buffer_write b d))) ->
  (forall b n, P b -> P (set_degradation b n)) ->
  (forall b t, P b -> P (set_start_time t b)) ->
  forall a e b, step a e b -> both P a -> both P b.
Proof.
  intros Hr Hw Hd Hs a e b S.
  assert (K : forall x y, m_audio_buffer y = m_audio_buffer x ->
                          m_ob_audio_buffer y = m_ob_audio_buffer x ->
                          both P x -> both P y).
  { intros x y E1 E2. unfold both. now rewrite E1, E2. }
  induction S; intros B.
  - exact B.
  - auto.
  - destruct ev; cbn [lws_callback].
    + unfold on_event_wait_cancelled, processPendingConnects,
        processPendingDisconnects, processPendingWrites, connect_client.
      repeat break_if; cbn; revert B; apply K; reflexivity.
    + unfold on_client_connection_error, find_pending,
        findAndRemovePendingConnect, findAndRemovePendingReconnect.
      repeat break_if; cbn; revert B; apply K; reflexivity.
    + unfold on_client_established, find_pending,
        findAndRemovePendingConnect, findAndRemovePendingReconnect.
      repeat break_if; cbn; revert B; apply K; reflexivity.
    + unfold on_client_closed.
      repeat break_if; cbn; revert B; apply K; reflexivity.
    + assert (SM : forall lk x, both P x ->
                     both P (fst (fst (send_media lk x)))).
      { clear B. intros lk x [B1 B2]. unfold send_media.
        destruct (needsBothTracks x && m_switch x) eqn:UO.
        - destruct (m_ob_audio_buffer x) as [bb|] eqn:EB;
            [|cbn; split; intros ? EQ; rewrite ?EB in EQ;
             first [discriminate | eauto]].
          destruct lk; [|cbn; split; intros ? EQ; rewrite ?EB in EQ;
             first [discriminate | eauto]]. cbn [negb].
          cbn [generate_json_data_event].
          specialize (Hr bb (B2 bb eq_refl)).
          destruct (Buffer_read bb) as [b' [d|]]; cbn in Hr.
          + destruct (len d =? 0); unfold flip_switch; cbn;
              repeat break_if; cbn; (split; [exact B1|]);
              intros ? [= <-]; exact Hr.
          + unfold flip_switch; cbn; repeat break_if; cbn;
              (split; [exact B1|]); intros ? [= <-]; exact Hr.
        - destruct (m_audio_buffer x) as [bb|] eqn:EB;
            [|cbn; split; intros ? EQ; rewrite ?EB in EQ;
             first [discriminate | eauto]].
          destruct lk; [|cbn; split; intros ? EQ; rewrite ?EB in EQ;
             first [discriminate | eauto]]. cbn [negb].
          cbn [generate_json_data_event].
          specialize (Hr bb (B1 bb eq_refl)).
          destruct (Buffer_read bb) as [b' [d|]]; cbn in Hr.
          + destruct (len d =? 0); unfold flip_switch; cbn;
              repeat break_if; cbn; (split; [|exact B2]);
              intros ? [= <-]; exact Hr.
          + unfold flip_switch; cbn; repeat break_if; cbn;
              (split; [|exact B2]); intros ? [= <-]; exact Hr. }
      unfold on_client_writeable.
      destruct (isGracefulShutdown ap && _); [cbn; exact B|].
      destruct (isGracefulShutdown ap && allBuffersAreEmpty ap && _);
        [cbn; exact B|].
      destruct (negb (m_firstMsgSent ap)); [cbn; exact B|].
      unfold getEventData.
      destruct (m_events ap) as [|data rest].
      * cbn [is_empty_text String.eqb negb].
        destruct (state_eqb _ _); [cbn; exact B | now apply SM].
      * destruct (negb (is_empty_text data)).
        -- destruct short_write; cbn; exact B.
        -- destruct (state_eqb _ _); [cbn; exact B|].
           apply SM. revert B. apply K; reflexivity.
    + unfold on_client_receive. repeat break_if; cbn; exact B.
    + cbn. revert B. apply K; reflexivity.
    + cbn. revert B. apply K; reflexivity.
    + unfold close. break_if; cbn; revert B; apply K; reflexivity.
    + cbn. revert B. apply K; reflexivity.
    + unfold addEventBuffer. break_if; cbn; revert B; apply K; reflexivity.
  - unfold addEventBuffer. break_if; cbn; revert B; apply K; reflexivity.
  - unfold addEventBuffer. break_if; cbn; revert B; apply K; reflexivity.
  - unfold addEventBuffer. break_if; cbn; revert B; apply K; reflexivity.
  - unfold addEventBuffer. break_if; cbn; revert B; apply K; reflexivity.
  - cbn. revert B. apply K; reflexivity.
  - unfold close. break_if; cbn; revert B; apply K; reflexivity.
  - destruct B as [B1 B2]. split; cbn.
    + destruct (m_audio_buffer ap) as [bb|]; cbn; [|discriminate].
      intros ? [= <-]. apply Hs. now apply B1.
    + destruct (m_ob_audio_buffer ap) as [bb|]; cbn; [|discriminate].
      intros ? [= <-]. apply Hs. now apply B2.
  - destruct B as [B1 B2]. unfold capture_write.
    destruct use_ob.
    + destruct (m_ob_audio_buffer ap) as [bb|] eqn:EB; [|cbn; split; intros ? EQ; rewrite ?EB in EQ;
             first [discriminate | eauto]].
      specialize (Hw bb src (B2 bb eq_refl)).
      destruct (Buffer_write bb src) as [b1 ok]. cbn in Hw.
      cbn -[above_threshold].
      split; [exact B1|]. intros ? [= <-].
      destruct (above_threshold b1); [now apply Hd | exact Hw].
    + destruct (m_audio_buffer ap) as [bb|] eqn:EB; [|cbn; split; intros ? EQ; rewrite ?EB in EQ;
             first [discriminate | eauto]].
      specialize (Hw bb src (B1 bb eq_refl)).
      destruct (Buffer_write bb src) as [b1 ok]. cbn in Hw.
      cbn -[above_threshold].
      split; [|exact B2]. intros ? [= <-].
      destruct (above_threshold b1); [now apply Hd | exact Hw].
  - cbn. revert B. apply K; reflexivity.
Qed.





Lemma control_text_not_stop m : control_text m -> is_stop m = false.
Proof. destruct m; cbn; tauto. Qed.


(** ** Mixing *)

Lemma int16_range z : -32768 <= int16 z <= 32767.
Proof.
  unfold int16. pose proof (Z.mod_pos_bound (z + 32768) 65536). lia.
Qed.

Lemma int16_small z : -32768 <= z <= 32767 -> int16 z = z.
Proof. intros H. unfold int16. rewrite Z.mod_small; lia. Qed.

Lemma Z_of_byte_of_Z z : Z_of_byte (byte_of_Z z) = z mod 256.
Proof.
  unfold Z_of_byte, byte_of_Z.
  pose proof (Z.mod_pos_bound z 256 eq_refl) as B.
  pose proof (Byte.to_of_N_option_map (Z.to_N (z mod 256))) as H.
  destruct (Byte.of_N (Z.to_N (z mod 256))) as [b|] eqn:E.
  - cbn in H. destruct (N.leb_spec (Z.to_N (z mod 256)) 255) as [L|L].
    + injection H as H. rewrite H. lia.
    + lia.
  - cbn in H. destruct (N.leb_spec (Z.to_N (z mod 256)) 255) as [L|L].
    + discriminate.
    + lia.
Qed.

Lemma int16_of_bytes_of_int16 z :
  -32768 <= z <= 32767 ->
  int16_of_bytes (byte_of_Z z) (byte_of_Z (z / 256)) = z.
Proof.
  intros H. unfold int16_of_bytes. rewrite !Z_of_byte_of_Z.
  unfold int16. Z.to_euclidean_division_equations. lia.
Qed.

Lemma nth_pairs {A} (g h : nat -> A) (d : A) (n : nat) :
  forall s i rest, (i < n)%nat ->
    nth (2 * i) (flat_map (fun x => [g x; h x]) (seq s n) ++ rest) d
    = g (s + i)%nat
    /\ nth (2 * i + 1) (flat_map (fun x => [g x; h x]) (seq s n) ++ rest) d
       = h (s + i)%nat.
Proof.
  induction n as [|n IH]; intros s i rest Hi; [lia|].
  destruct i as [|i].
  - cbn. rewrite Nat.add_0_r. split; reflexivity.
  - replace (2 * S i)%nat with (S (S (2 * i))) by lia.
    replace (S (S (2 * i)) + 1)%nat with (S (S (2 * i + 1))) by lia.
    cbn [seq flat_map app nth].
    destruct (IH (S s) i rest) as [E1 E2]; [lia|].
    replace (s + S i)%nat with (S s + i)%nat by lia.
    split; assumption.
Qed.

(** C8.  Mix saturation.  Whatever two bounds within the 16-bit range the
    host macro saturates at, a turn of the mixing loop leaves in the outgoing
    frame the sum of the two 16-bit samples clamped to these bounds: the sum
    itself when it fits, the bound it passed otherwise, and never a wrapped
    value; the loop does this to each of the frame's samples.  With the
    bounds of the specification the result is the sum clamped at plus and
    minus 32767. *)
Theorem mix_saturates (fp data : list byte) (nsamples : Z) (x : nat) (a b : Z) :
  -32768 <= SWITCH_SMIN -> SWITCH_SMIN <= SWITCH_SMAX -> SWITCH_SMAX <= 32767 ->
  -32768 <= a <= 32767 -> -32768 <= b <= 32767 ->
  (Z.of_nat x < nsamples) ->
  mix_sample a b = Z.max SWITCH_SMIN (Z.min SWITCH_SMAX (a + b))
  /\ SWITCH_SMIN <= mix_sample a b <= SWITCH_SMAX
  /\ (SWITCH_SMIN <= a + b <= SWITCH_SMAX -> mix_sample a b = a + b)
  /\ int16_at (mix_frame fp data nsamples) x
     = Z.max SWITCH_SMIN
         (Z.min SWITCH_SMAX (int16_at fp x + int16_at data x))
  /\ (SWITCH_SMAX = 32767 -> SWITCH_SMIN = -32767 ->
      mix_sample a b = Z.max (-32767) (Z.min 32767 (a + b))
      /\ -32767 <= mix_sample a b <= 32767).
Proof.
  intros HN HNX HX Ha Hb Hx.
  assert (M : forall u v, -32768 <= u <= 32767 -> -32768 <= v <= 32767 ->
                mix_sample u v
                = Z.max SWITCH_SMIN (Z.min SWITCH_SMAX (u + v))).
  { intros u v Hu Hv. unfold mix_sample, switch_normalize_to_16bit.
    destruct (SWITCH_SMAX <? u + v) eqn:E1.
    - apply Z.ltb_lt in E1. rewrite int16_small by lia. lia.
    - apply Z.ltb_ge in E1.
      destruct (u + v <? SWITCH_SMIN) eqn:E2.
      + apply Z.ltb_lt in E2. rewrite int16_small by lia. lia.
      + apply Z.ltb_ge in E2. rewrite int16_small by lia. lia. }
  split; [now apply M|]. split; [rewrite M by assumption; lia|].
  split; [intros R; rewrite M by assumption; lia|].
  split; [|intros EX EN; rewrite M by assumption; rewrite EX, EN; lia].
  unfold mix_frame, int16_at at 1.
  set (f := fun k => mix_sample (int16_at fp k) (int16_at data k)).
  destruct (nth_pairs (fun k => byte_of_Z (f k))
              (fun k => byte_of_Z (f k / 256)) x00 (Z.to_nat nsamples) 0 x
              (skipn (2 * Z.to_nat nsamples) fp)) as [E1 E2]; [lia|].
  cbn [Nat.add] in E1, E2.
  match goal with
  | |- int16_of_bytes ?u ?v = _ =>
      replace u with (byte_of_Z (f x)) by (symmetry; exact E1);
      replace v with (byte_of_Z (f x / 256)) by (symmetry; exact E2)
  end.
  assert (R : -32768 <= f x <= 32767).
  { subst f. cbn beta. unfold mix_sample. apply int16_range. }
  rewrite (int16_of_bytes_of_int16 _ R). subst f. cbn beta.
  apply M; unfold int16_at, int16_of_bytes; apply int16_range.
Qed.

(** ** Reconnection *)

(** C3 (evaluation of the code).  On a transport whose every handshake
    fails, a fresh object makes four connection attempts, the first followed
    by three reconnections each armed one second ahead, before it notifies
    CONNECT_FAIL, once: the counter already counts the failed attempt when
    it is compared, with [<=], to the maximum of three.  A handshake that
    succeeds sets the counter back to 0. *)
Theorem four_attempts_before_connect_fail
    (now : Z) (uuid sid : string) (bufLen : Z) (track extra : string)
    (codec : streaming_codec_t) (sampling bidi : Z) (k : nat) :
  let r :=
    always_failing (4 + k)
      (AudioPipe_new now uuid sid bufLen track extra codec sampling bidi) in
  snd r
  = [lws_cancel_service;
     lws_client_connect_via_info; lws_sul_schedule 1000000;
     lws_client_connect_via_info; lws_sul_schedule 1000000;
     lws_client_connect_via_info; lws_sul_schedule 1000000;
     lws_client_connect_via_info; notify CONNECT_FAIL "refused"]
  /\ count is_attempt (snd r) = 4
  /\ count (is_notify CONNECT_FAIL) (snd r) = 1
  /\ m_connection_attempts (fst r) = 4
  /\ m_state (fst r) = LWS_CLIENT_FAILED
  /\ (forall wsi ap,
        snd (find_pending wsi ap) = true ->
        m_connection_attempts (fst (fst (on_client_established wsi ap))) = 0).
Proof.
  cbv zeta.
  assert (E : snd (always_failing (4 + k)
                     (AudioPipe_new now uuid sid bufLen track extra codec
                        sampling bidi))
              = [lws_cancel_service;
                 lws_client_connect_via_info; lws_sul_schedule 1000000;
                 lws_client_connect_via_info; lws_sul_schedule 1000000;
                 lws_client_connect_via_info; lws_sul_schedule 1000000;
                 lws_client_connect_via_info; notify CONNECT_FAIL "refused"]
              /\ m_connection_attempts
                   (fst (always_failing (4 + k)
                           (AudioPipe_new now uuid sid bufLen track extra codec
                              sampling bidi))) = 4
              /\ m_state
                   (fst (always_failing (4 + k)
                           (AudioPipe_new now uuid sid bufLen track extra codec
                              sampling bidi))) = LWS_CLIENT_FAILED).
  { cbn. repeat split; reflexivity. }
  destruct E as (E1 & E2 & E3).
  split; [exact E1|]. rewrite E1.
  split; [reflexivity|]. split; [reflexivity|].
  split; [exact E2|]. split; [exact E3|].
  intros wsi ap F. unfold on_client_established.
  destruct (find_pending wsi ap) as [ap1 found]. cbn in F. subst found.
  cbn [negb]. destruct (negb (m_stream_started _)); reflexivity.
Qed.

(** ** CONNECT_SUCCESS and start, once *)

Lemma count_app p (a b : list effect) : count p (a ++ b) = count p a + count p b.
Proof. unfold count. rewrite filter_app. apply len_app. Qed.

Lemma count_msg_app p (a b : list json_msg) :
  count_msg p (a ++ b) = count_msg p a + count_msg p b.
Proof. unfold count_msg. rewrite filter_app. apply len_app. Qed.

Lemma count_obs ev e :
  count (is_notify ev) (obs e) = count (is_notify ev) e.
Proof.
  unfold count, obs. f_equal.
  induction e as [|x e IH]; [reflexivity|].
  destruct x; cbn; rewrite ?IH; try reflexivity.
Qed.

Lemma control_text_not_start m : control_text m -> is_start m = false.
Proof. destruct m; cbn; tauto. Qed.










(** ** Sequence numbers *)





















(** ** Checkpoints *)

Lemma host_events_app (a b : list effect) :
  host_events (a ++ b) = host_events a ++ host_events b.
Proof. unfold host_events. apply flat_map_app. Qed.

Lemma addEventBuffer_host_events m ap :
  host_events (snd (fst (addEventBuffer m ap))) = [].
Proof.
  unfold addEventBuffer, addPendingWrite. break_if; reflexivity.
Qed.

(** The loop of the write-replace callback fires a prefix of the list, in
    the order of the list, and leaves the rest. *)
Lemma fire_checkpoints_fifo length cps :
  forall tech p,
  exists fired rest,
    cps = fired ++ rest
    /\ fst (fst (fire_checkpoints length cps tech p))
       = set_checkpoints rest tech
    /\ host_events (snd (fire_checkpoints length cps tech p))
       = map (played_event (stream_id tech)) fired
    /\ Forall (fun c => position c <= reach tech length) fired
    /\ (forall c, hd_error rest = Some c -> reach tech length < position c)
    /\ (forall ap,
          audio_pipe_ptr tech = true -> p = Some ap ->
          m_state ap = LWS_CLIENT_CONNECTED ->
          exists ap',
            snd (fst (fire_checkpoints length cps tech p)) = Some ap'
            /\ m_state ap' = LWS_CLIENT_CONNECTED
            /\ m_events ap'
               = m_events ap
                 ++ played_messages (m_sequenceNumber ap) (stream_id tech)
                      fired
            /\ m_sequenceNumber ap' = m_sequenceNumber ap + len fired).
Proof.
  induction cps as [|head next IH]; intros tech p.
  - exists [], []. cbn. repeat split; try constructor; try discriminate.
    intros ap _ -> C. exists ap. rewrite app_nil_r.
    repeat split; auto. unfold len. cbn. lia.
  - cbn [fire_checkpoints]. fold (reach tech length).
    destruct (reach tech length <? position head) eqn:B.
    + exists [], (head :: next). cbn. apply Z.ltb_lt in B.
      repeat split; try constructor.
      * intros c [= <-]. exact B.
      * intros ap _ -> C. exists ap. rewrite app_nil_r.
        repeat split; auto. unfold len. cbn. lia.
    + apply Z.ltb_ge in B.
      destruct (stream_ws_send_played_event (name head) tech p)
        as [[p1 e1] st] eqn:SE.
      cbv beta iota. specialize (IH tech p1).
      destruct (fire_checkpoints length next tech p1) as [[t p2] e3] eqn:FE.
      destruct IH as (fired & rest & E & T & HE & FA & HD & Q).
      cbn [fst snd] in *.
      exists (head :: fired), rest. subst next.
      assert (HE1 : host_events e1 = []).
      { unfold stream_ws_send_played_event in SE.
        destruct (pointee tech p) as [ap|].
        - pose proof (addEventBuffer_host_events
                        (JPlayedStream (getSequenceNumber ap) (stream_id tech)
                           (name head)) ap) as A.
          destruct (addEventBuffer _ ap) as [[a1 x1] r1].
          injection SE as <- <- <-. exact A.
        - injection SE as <- <- <-. reflexivity. }
      repeat split.
      * exact T.
      * rewrite host_events_app, HE1.
        change (host_events (?x :: e3)) with (host_events [x] ++ host_events e3).
        rewrite HE. reflexivity.
      * constructor; [exact B | exact FA].
      * exact HD.
      * intros ap PT -> C.
        unfold stream_ws_send_played_event, pointee in SE. rewrite PT in SE.
        unfold addEventBuffer, addPendingWrite in SE. rewrite C in SE.
        cbn in SE. injection SE as <- <- <-.
        destruct (Q _ PT eq_refl C) as (ap' & P2 & C' & EV & SN).
        exists ap'. cbn in EV, SN. repeat split; auto.
        -- rewrite EV, <- app_assoc. reflexivity.
        -- rewrite SN. unfold len. cbn [List.length]. lia.
Qed.

(** C2 (as the code has it).  A media.checkpoint that arrives while no
    byte has been received, or without a name, changes nothing; any other is
    appended at the tail of the list with the number of bytes received as its
    position.  A write-replace callback that reads a frame of [length] bytes
    adds [length] to the bytes played and then fires the checkpoints from the
    head of the list, in the order of the list, for as long as the position of
    the head is at most the bytes played plus [length - 1]: a checkpoint fires
    up to one frame less a byte before the bytes played reach its position.
    The host-side events are made in that order, and on a Connected transport
    the playedStream messages enter the control queue in that order, numbered
    consecutively.  A callback that cannot read a whole frame fires
    nothing. *)
Theorem checkpoints_fire_in_order_within_reach
    (tech : private_data_t) (p : option AudioPipe) (rframe : switch_frame_t) :
  (stream_input_received tech = 0 ->
   forall nm, fst (processCheckpointEvent nm tech) = tech)
  /\ fst (processCheckpointEvent None tech) = tech
  /\ (forall nm,
        stream_input_received tech <> 0 ->
        fst (processCheckpointEvent (Some nm) tech)
        = set_checkpoints
            (checkpoints tech
             ++ [mk_checkpoint (stream_input_received tech) nm]) tech)
  /\ (forall wb,
        write_buffer tech = Some wb ->
        datalen rframe <= switch_buffer.inuse wb ->
        let length := len (snd (switch_buffer.read wb (datalen rframe))) in
        let played := uint32 (stream_input_played tech + length) in
        let '(tech', p', _, e) := write_replace rframe tech p in
        stream_input_played tech' = played
        /\ exists fired,
             checkpoints tech = fired ++ checkpoints tech'
             /\ host_events e = map (played_event (stream_id tech)) fired
             /\ Forall
                  (fun c => position c <= size_t (played + length - 1)) fired
             /\ (forall c,
                   hd_error (checkpoints tech') = Some c ->
                   size_t (played + length - 1) < position c)
             /\ (forall ap,
                   audio_pipe_ptr tech = true -> p = Some ap ->
                   m_state ap = LWS_CLIENT_CONNECTED ->
                   exists ap',
                     p' = Some ap'
                     /\ m_events ap'
                        = m_events ap
                          ++ played_messages (m_sequenceNumber ap)
                               (stream_id tech) fired))
  /\ (write_buffer tech = None
      \/ (exists wb,
            write_buffer tech = Some wb
            /\ switch_buffer.inuse wb < datalen rframe) ->
      write_replace rframe tech p = (tech, p, rframe, [])).
Proof.
  split; [|split; [|split; [|split]]].
  - intros Z0 [nm|]; cbn; [|reflexivity]. now rewrite Z0.
  - reflexivity.
  - intros nm NZ. cbn. apply Z.eqb_neq in NZ. now rewrite NZ.
  - intros wb WB LE. cbv zeta. unfold write_replace. rewrite WB.
    apply Z.leb_le in LE. rewrite LE.
    destruct (switch_buffer.read wb (datalen rframe)) as [wb1 data] eqn:RD.
    cbn [snd].
    set (tech2 :=
           set_stream_input_played
             (uint32
                (stream_input_played (set_write_buffer (Some wb1) tech)
                 + len data))
             (set_write_buffer (Some wb1) tech)).
    destruct (fire_checkpoints_fifo (len data) (checkpoints tech2) tech2 p)
      as (fired & rest & E & T & HE & FA & HD & Q).
    destruct (fire_checkpoints (len data) (checkpoints tech2) tech2 p)
      as [[tech3 p1] e] eqn:FE.
    cbn [fst snd] in *. subst tech3.
    split; [reflexivity|].
    exists fired. repeat split.
    + exact E.
    + exact HE.
    + exact FA.
    + exact HD.
    + intros ap PT PA C.
      destruct (Q ap PT PA C) as (ap' & P1 & _ & EV & _).
      exists ap'. split; [exact P1 | exact EV].
  - intros [N|(wb & WB & LT)]; unfold write_replace.
    + now rewrite N.
    + rewrite WB. apply Z.leb_gt in LT. now rewrite LT.
Qed.

(** ** Inbound audio *)

(** C4 (as the code has it).  A sampleRate that is neither 8000 nor 16000
    is replaced by 8000 before anything else is looked at, with a line logged
    at debug level: the message is then handled exactly as the same message
    with sampleRate 8000.  So a message of contentType audio/x-mulaw is
    rejected only when its sampleRate is 16000; with any other rate the
    payload is decoded and stored at 8000 and no incorrectPayload is made.
    The rejection leaves the write buffer and the count of received bytes as
    they were; its incorrectPayload acknowledgement is made at most once in a
    session, and enters the control queue only when the transport is
    Connected. *)
Theorem media_play_rate_then_codec
    (payload jsonPayload : string) (r : Z) (read_codec : option Z)
    (tech : private_data_t) (ap : AudioPipe) :
  let current :=
    match read_codec with
    | Some actual_samples_per_second => actual_samples_per_second
    | None => 8000
    end in
  let raw := decoded_payload jsonPayload in
  let debug :=
    switch_log_printf SWITCH_LOG_DEBUG
      "samplerate unsupported. defaulting to (8000)" in
  let received :=
    switch_log_printf SWITCH_LOG_INFO "received content type." in
  let reason := "Unsupported combination of codec, samplerate" in
  let rejected := sendIncorrectPayloadEvent payload reason tech ap in
  (r <> 8000 -> r <> 16000 ->
   forall ct,
     processPlayAudioEvent payload (play_message jsonPayload ct r)
       read_codec tech ap
     = let '(t, a, e) :=
         processPlayAudioEvent payload (play_message jsonPayload ct 8000)
           read_codec tech ap in
       (t, a, debug :: e))
  /\ (r <> 16000 ->
      processPlayAudioEvent payload
        (play_message jsonPayload "audio/x-mulaw" r) read_codec tech ap
      = (storePayload raw ULAW 8000 current tech, ap,
         (if r =? 8000 then [] else [debug]) ++ [received]))
  /\ processPlayAudioEvent payload
       (play_message jsonPayload "audio/x-mulaw" 16000) read_codec tech ap
     = (fst (fst rejected), snd (fst rejected),
        received :: switch_log_printf SWITCH_LOG_ERROR reason :: snd rejected)
  /\ write_buffer (fst (fst rejected)) = write_buffer tech
  /\ stream_input_received (fst (fst rejected)) = stream_input_received tech
  /\ invalid_stream_input_notified (fst (fst rejected)) = true
  /\ (invalid_stream_input_notified tech = true -> rejected = (tech, ap, []))
  /\ (invalid_stream_input_notified tech = false ->
      m_events (snd (fst rejected))
      = if state_eqb (m_state ap) LWS_CLIENT_CONNECTED
        then m_events ap
             ++ [JIncorrectPayload (m_streamid ap) payload
                   (getSequenceNumber ap)]
        else m_events ap).
Proof.
  cbv zeta.
  split; [|split; [|split; [|split; [|split; [|split; [|split]]]]]].
  - intros N8 N16 ct. apply Z.eqb_neq in N8, N16.
    unfold processPlayAudioEvent, play_message.
    cbn [j_media j_payload j_contentType j_sampleRate].
    rewrite N8, N16. cbn [negb andb Z.eqb].
    destruct (String.eqb ct "audio/x-l16"); [reflexivity|].
    destruct (String.eqb ct "audio/x-mulaw"); [reflexivity|].
    destruct (String.eqb ct "raw" || String.eqb ct "wav"); [reflexivity|].
    destruct (sendIncorrectPayloadEvent payload "Invalid Content type" tech ap)
      as [[t a] e].
    reflexivity.
  - intros N16. apply Z.eqb_neq in N16.
    unfold processPlayAudioEvent, play_message.
    cbn [j_media j_payload j_contentType j_sampleRate].
    rewrite N16. cbn [String.eqb Ascii.eqb Bool.eqb].
    destruct (r =? 8000) eqn:E8; cbn [negb andb]; rewrite ?E8; reflexivity.
  - unfold processPlayAudioEvent, play_message. cbn.
    destruct (sendIncorrectPayloadEvent payload
                "Unsupported combination of codec, samplerate" tech ap)
      as [[t a] e].
    reflexivity.
  - unfold sendIncorrectPayloadEvent, addEventBuffer, addPendingWrite.
    repeat break_if; reflexivity.
  - unfold sendIncorrectPayloadEvent, addEventBuffer, addPendingWrite.
    repeat break_if; reflexivity.
  - unfold sendIncorrectPayloadEvent, addEventBuffer, addPendingWrite.
    repeat break_if; cbn; auto.
  - intros L. unfold sendIncorrectPayloadEvent. now rewrite L.
  - intros L. unfold sendIncorrectPayloadEvent, addEventBuffer,
      addPendingWrite.
    rewrite L. cbn. destruct (state_eqb (m_state ap) LWS_CLIENT_CONNECTED);
      reflexivity.
Qed.

(** ** Binary64 arithmetic of the degradation threshold

    The comparison of [above_threshold] is made in binary64.  The lemmas
    below read the three operations off their specification ([SpecFloat]):
    the conversions of the two counters are exact, the product is within one
    unit in the last place of the exact product, and the comparison of two
    normal numbers is the comparison of their values. *)

Lemma digits2_pos_bounds (p : positive) :
  2 ^ (Zpos (digits2_pos p) - 1) <= Zpos p < 2 ^ Zpos (digits2_pos p).
Proof.
  induction p as [p IH|p IH|]; cbn [digits2_pos].
  - rewrite Pos2Z.inj_succ, (Pos2Z.inj_xI p).
    replace (Z.succ (Zpos (digits2_pos p)) - 1)
      with (Z.succ (Zpos (digits2_pos p) - 1)) by lia.
    rewrite !Z.pow_succ_r by lia. lia.
  - rewrite Pos2Z.inj_succ, (Pos2Z.inj_xO p).
    replace (Z.succ (Zpos (digits2_pos p)) - 1)
      with (Z.succ (Zpos (digits2_pos p) - 1)) by lia.
    rewrite !Z.pow_succ_r by lia. lia.
  - cbn. lia.
Qed.

Lemma digits2_pos_unique (p : positive) (k : Z) :
  2 ^ (k - 1) <= Zpos p < 2 ^ k -> Zpos (digits2_pos p) = k.
Proof.
  intros [L U]. pose proof (digits2_pos_bounds p) as [L' U'].
  set (d := Zpos (digits2_pos p)) in *.
  assert (0 < d) by (subst d; lia).
  assert (0 < k).
  { destruct (Z_lt_le_dec 0 k) as [?|N]; [assumption|].
    exfalso. destruct (Z.eq_dec k 0) as [->|NZ].
    - cbn in U. lia.
    - rewrite Z.pow_neg_r in U by lia. lia. }
  destruct (Z.lt_trichotomy d k) as [C|[C|C]]; [|exact C|].
  - assert (2 ^ d <= 2 ^ (k - 1)) by (apply Z.pow_le_mono_r; lia). lia.
  - assert (2 ^ k <= 2 ^ (d - 1)) by (apply Z.pow_le_mono_r; lia). lia.
Qed.

Lemma shr_1_m (mrs : shr_record) :
  0 <= shr_m mrs -> shr_m (shr_1 mrs) = shr_m mrs / 2.
Proof.
  destruct mrs as [m r s]. cbn [shr_m]. intros H.
  destruct m as [|[p|p|]|p]; cbn [shr_1 shr_m]; try lia.
  - reflexivity.
  - rewrite (Pos2Z.inj_xI p). apply Z.div_unique with 1; lia.
  - rewrite (Pos2Z.inj_xO p). apply Z.div_unique with 0; lia.
  - reflexivity.
Qed.

Lemma iter_shr_m (p : positive) :
  forall mrs, 0 <= shr_m mrs ->
  shr_m (iter_pos shr_1 p mrs) = shr_m mrs / 2 ^ Zpos p.
Proof.
  induction p as [p IH|p IH|]; intros mrs H; cbn [iter_pos].
  - assert (H1 : 0 <= shr_m (shr_1 mrs)).
    { rewrite shr_1_m by assumption. apply Z.div_pos; lia. }
    assert (H2 : 0 <= shr_m (iter_pos shr_1 p (shr_1 mrs))).
    { rewrite IH by assumption. apply Z.div_pos; [assumption|].
      apply Z.pow_pos_nonneg; lia. }
    rewrite IH, IH, shr_1_m by assumption.
    rewrite !Z.div_div by (try apply Z.pow_pos_nonneg; lia).
    f_equal. rewrite (Pos2Z.inj_xI p).
    replace (2 * Zpos p + 1) with (1 + Zpos p + Zpos p) by lia.
    rewrite !Z.pow_add_r by lia. lia.
  - assert (H2 : 0 <= shr_m (iter_pos shr_1 p mrs)).
    { rewrite IH by assumption. apply Z.div_pos; [assumption|].
      apply Z.pow_pos_nonneg; lia. }
    rewrite IH, IH by assumption.
    rewrite !Z.div_div by (try apply Z.pow_pos_nonneg; lia).
    f_equal. rewrite (Pos2Z.inj_xO p).
    replace (2 * Zpos p) with (Zpos p + Zpos p) by lia.
    rewrite !Z.pow_add_r by lia. lia.
  - rewrite shr_1_m by assumption. reflexivity.
Qed.

Lemma round_nearest_even_range (m : Z) (l : location) :
  m <= round_nearest_even m l <= m + 1.
Proof.
  destruct l as [|[| |]]; cbn; try lia. destruct (Z.even m); lia.
Qed.

Lemma fexp_normal (x : Z) : -1021 <= x -> fexp 53 1024 x = x - 53.
Proof. intros H. unfold fexp, emin. lia. Qed.

Lemma shr_fexp_none (m : positive) (e : Z) :
  Zpos (digits2_pos m) = 53 -> -1074 <= e ->
  shr_fexp 53 1024 (Zpos m) e loc_Exact
  = ({| shr_m := Zpos m; shr_r := false; shr_s := false |}, e).
Proof.
  intros D E. unfold shr_fexp. cbn [Zdigits2]. rewrite D.
  rewrite fexp_normal by lia.
  replace (53 + e - 53 - e) with 0 by lia. reflexivity.
Qed.

Lemma binary_round_aux_positive (mx : positive) (ex : Z) :
  let d := Zpos (digits2_pos mx) in
  53 <= d -> -1074 <= d + ex - 53 -> d + ex - 53 < 971 ->
  exists (m : positive) (e : Z),
    binary_round_aux 53 1024 false (Zpos mx) ex loc_Exact
    = S754_finite false m e
    /\ ex <= e <= d + ex - 52
    /\ Zpos (digits2_pos m) = 53
    /\ (d = 53 -> m = mx /\ e = ex)
    /\ Zpos mx - 2 ^ (d - 53) < Zpos m * 2 ^ (e - ex)
       <= Zpos mx + 2 ^ (d - 53).
Proof.
  intros d D53 Lo Hi.
  pose proof (digits2_pos_bounds mx) as [BL BU]. fold d in BL, BU.
  destruct (Z.eq_dec d 53) as [E|NE].
  - exists mx, ex. unfold binary_round_aux.
    rewrite shr_fexp_none by (fold d; lia). cbn [shr_m loc_of_shr_record
      round_nearest_even].
    rewrite shr_fexp_none by (fold d; lia). cbn [shr_m].
    replace (ex <=? 1024 - 53) with true by (symmetry; apply Z.leb_le; lia).
    replace (ex - ex) with 0 by lia. rewrite E. change (53 - 53) with 0.
    change (2 ^ 0) with 1.
    split; [reflexivity|]. split; [lia|]. split; [exact E|].
    split; [intros _; split; reflexivity | lia].
  - assert (N : 0 < d - 53) by lia.
    destruct (d - 53) as [|pn|pn] eqn:EN; try lia.
    assert (PN : 0 < 2 ^ Zpos pn) by (apply Z.pow_pos_nonneg; lia).
    assert (DE : d = Zpos pn + 53) by lia.
    unfold binary_round_aux, shr_fexp at 1. cbn [Zdigits2]. fold d.
    rewrite fexp_normal by lia.
    replace (d + ex - 53 - ex) with (Zpos pn) by lia.
    cbn [shr shr_record_of_loc].
    set (mrs := iter_pos shr_1 pn
                  {| shr_m := Zpos mx; shr_r := false; shr_s := false |}).
    assert (Q : shr_m mrs = Zpos mx / 2 ^ Zpos pn).
    { subst mrs. rewrite iter_shr_m by (cbn; lia). reflexivity. }
    set (q := shr_m mrs) in *.
    pose proof (round_nearest_even_range q (loc_of_shr_record mrs)) as R.
    set (m1 := round_nearest_even q (loc_of_shr_record mrs)) in *.
    assert (P52 : 2 ^ (d - 1) = 2 ^ Zpos pn * 2 ^ 52).
    { rewrite DE. replace (Zpos pn + 53 - 1) with (Zpos pn + 52) by lia.
      apply Z.pow_add_r; lia. }
    assert (P53 : 2 ^ d = 2 ^ Zpos pn * 2 ^ 53).
    { rewrite DE. apply Z.pow_add_r; lia. }
    assert (QL : 2 ^ 52 <= q).
    { rewrite Q. apply Z.div_le_lower_bound; lia. }
    assert (QU : q < 2 ^ 53).
    { rewrite Q. apply Z.div_lt_upper_bound; lia. }
    assert (QM : q * 2 ^ Zpos pn <= Zpos mx < (q + 1) * 2 ^ Zpos pn).
    { rewrite Q. pose proof (Z.mul_div_le (Zpos mx) (2 ^ Zpos pn) PN).
      pose proof (Z.mul_succ_div_gt (Zpos mx) (2 ^ Zpos pn) PN). lia. }
    destruct m1 as [|pm|pm] eqn:EM; try lia.
    destruct (Z.eq_dec (Zpos pm) (2 ^ 53)) as [T|T].
    + (* the mantissa was rounded up to the next power of two *)
      assert (D1 : Zpos (digits2_pos pm) = 54).
      { apply digits2_pos_unique. rewrite T. cbn. lia. }
      unfold shr_fexp. cbn [Zdigits2]. rewrite D1.
      rewrite fexp_normal by lia.
      replace (54 + (ex + Zpos pn) - 53 - (ex + Zpos pn)) with 1 by lia.
      cbn [shr shr_record_of_loc iter_pos].
      rewrite shr_1_m by (cbn; lia). cbn [shr_m]. rewrite T.
      change (2 ^ 53 / 2) with (Zpos (2 ^ 52)%positive).
      cbv iota beta.
      replace (ex + Zpos pn + 1 <=? 1024 - 53) with true
        by (symmetry; apply Z.leb_le; lia).
      exists (2 ^ 52)%positive, (ex + Zpos pn + 1).
      split; [reflexivity|]. split; [lia|]. split; [reflexivity|].
      split; [lia|].
      replace (ex + Zpos pn + 1 - ex) with (Zpos pn + 1) by lia.
      rewrite Z.pow_add_r by lia.
      change (Zpos (2 ^ 52)%positive) with (2 ^ 52).
      assert (EQ : 2 ^ 52 * (2 ^ Zpos pn * 2 ^ 1) = Zpos pm * 2 ^ Zpos pn).
      { rewrite T. change (2 ^ 53) with (2 ^ 52 * 2 ^ 1). ring. }
      rewrite EQ. nia.
    + assert (D1 : Zpos (digits2_pos pm) = 53).
      { apply digits2_pos_unique. change (53 - 1) with 52. lia. }
      rewrite shr_fexp_none by lia. cbn [shr_m].
      replace (ex + Zpos pn <=? 1024 - 53) with true
        by (symmetry; apply Z.leb_le; lia).
      exists pm, (ex + Zpos pn).
      split; [reflexivity|]. split; [lia|]. split; [exact D1|].
      split; [lia|].
      replace (ex + Zpos pn - ex) with (Zpos pn) by lia. nia.
Qed.


Lemma iter_xO_Z (p k : positive) :
  Zpos (Pos.iter xO p k) = Zpos p * 2 ^ Zpos k.
Proof.
  induction k as [|k IH] using Pos.peano_ind.
  - cbn. lia.
  - rewrite Pos.iter_succ, Pos2Z.inj_xO, IH, Pos2Z.inj_succ.
    rewrite Z.pow_succ_r by lia. ring.
Qed.

Lemma binary_normalize_exact (n : Z) :
  0 < n < 2 ^ 53 ->
  exists (m : positive) (e : Z),
    binary_normalize 53 1024 n 0 false = S754_finite false m e
    /\ Zpos (digits2_pos m) = 53
    /\ -52 <= e <= 0
    /\ Zpos m = n * 2 ^ (- e).
Proof.
  intros [L U]. destruct n as [|p|p]; try lia.
  pose proof (digits2_pos_bounds p) as [BL BU].
  set (d := Zpos (digits2_pos p)) in *.
  assert (D : 1 <= d <= 53).
  { split; [subst d; lia|].
    destruct (Z_le_gt_dec d 53) as [?|G]; [assumption|exfalso].
    assert (2 ^ 53 <= 2 ^ (d - 1)) by (apply Z.pow_le_mono_r; lia). lia. }
  unfold binary_normalize, binary_round. fold d.
  rewrite Z.add_0_r, fexp_normal by lia.
  unfold shl_align. rewrite Z.sub_0_r.
  destruct (d - 53) as [|k|k] eqn:EK; try lia.
  - destruct (binary_round_aux_positive p 0) as (m & e & R & B & DM & X & _);
      fold d; try lia.
    destruct (X ltac:(lia)) as [-> ->].
    exists p, 0. rewrite R. repeat split; try lia.
  - set (mz := Pos.iter xO p k).
    assert (VZ : Zpos mz = Zpos p * 2 ^ Zpos k) by apply iter_xO_Z.
    assert (DZ : Zpos (digits2_pos mz) = 53).
    { apply digits2_pos_unique. rewrite VZ.
      replace (53 - 1) with (d - 1 + Zpos k) by lia.
      replace (2 ^ 53) with (2 ^ (d + Zpos k)) by (f_equal; lia).
      rewrite !Z.pow_add_r by lia.
      assert (0 < 2 ^ Zpos k) by (apply Z.pow_pos_nonneg; lia). nia. }
    destruct (binary_round_aux_positive mz (Zneg k))
      as (m & e & R & B & DM & X & _); rewrite ?DZ; try lia.
    destruct (X DZ) as [-> ->].
    exists mz, (Zneg k). rewrite R. repeat split; try lia.
    rewrite VZ. reflexivity.
Qed.

Lemma SFltb_normal (m1 m2 : positive) (e1 e2 : Z) :
  Zpos (digits2_pos m1) = 53 -> Zpos (digits2_pos m2) = 53 ->
  -128 <= e1 -> -128 <= e2 ->
  SFltb (S754_finite false m1 e1) (S754_finite false m2 e2)
  = (Zpos m1 * 2 ^ (e1 + 128) <? Zpos m2 * 2 ^ (e2 + 128)).
Proof.
  intros D1 D2 L1 L2.
  pose proof (digits2_pos_bounds m1) as [A1 B1].
  pose proof (digits2_pos_bounds m2) as [A2 B2].
  rewrite D1 in A1, B1. rewrite D2 in A2, B2.
  change (53 - 1) with 52 in *.
  unfold SFltb, SFcompare.
  destruct (Z.compare_spec e1 e2) as [E|E|E].
  - subst e2. change (Pos.compare_cont Eq m1 m2) with (Pos.compare m1 m2).
    assert (0 < 2 ^ (e1 + 128)) by (apply Z.pow_pos_nonneg; lia).
    destruct (Pos.compare_spec m1 m2) as [C|C|C]; symmetry.
    + subst m2. apply Z.ltb_irrefl.
    + apply Z.ltb_lt. apply Z.mul_lt_mono_pos_r; lia.
    + apply Z.ltb_ge. apply Z.mul_le_mono_nonneg_r; lia.
  - symmetry. apply Z.ltb_lt.
    replace (e2 + 128) with ((e2 - e1 - 1) + 1 + (e1 + 128)) by lia.
    rewrite (Z.pow_add_r 2 (e2 - e1 - 1 + 1) (e1 + 128)) by lia.
    rewrite (Z.pow_add_r 2 (e2 - e1 - 1) 1) by lia.
    assert (0 < 2 ^ (e1 + 128)) by (apply Z.pow_pos_nonneg; lia).
    assert (0 < 2 ^ (e2 - e1 - 1)) by (apply Z.pow_pos_nonneg; lia).
    change (2 ^ 1) with 2. change (2 ^ 53) with (2 * 2 ^ 52) in *.
    set (a := 2 ^ (e1 + 128)) in *. set (b := 2 ^ (e2 - e1 - 1)) in *.
    set (h := 2 ^ 52) in *.
    assert (Zpos m1 * a < 2 * h * a) by (apply Z.mul_lt_mono_pos_r; lia).
    assert (h * 1 <= Zpos m2 * b) by (apply Z.mul_le_mono_nonneg; lia).
    assert (h * (2 * a) <= Zpos m2 * b * (2 * a))
      by (apply Z.mul_le_mono_nonneg_r; lia).
    lia.
  - symmetry. apply Z.ltb_ge.
    replace (e1 + 128) with ((e1 - e2 - 1) + 1 + (e2 + 128)) by lia.
    rewrite (Z.pow_add_r 2 (e1 - e2 - 1 + 1) (e2 + 128)) by lia.
    rewrite (Z.pow_add_r 2 (e1 - e2 - 1) 1) by lia.
    assert (0 < 2 ^ (e2 + 128)) by (apply Z.pow_pos_nonneg; lia).
    assert (0 < 2 ^ (e1 - e2 - 1)) by (apply Z.pow_pos_nonneg; lia).
    change (2 ^ 1) with 2. change (2 ^ 53) with (2 * 2 ^ 52) in *.
    set (a := 2 ^ (e2 + 128)) in *. set (b := 2 ^ (e1 - e2 - 1)) in *.
    set (h := 2 ^ 52) in *.
    assert (Zpos m2 * a < 2 * h * a) by (apply Z.mul_lt_mono_pos_r; lia).
    assert (h * 1 <= Zpos m1 * b) by (apply Z.mul_le_mono_nonneg; lia).
    assert (h * (2 * a) <= Zpos m1 * b * (2 * a))
      by (apply Z.mul_le_mono_nonneg_r; lia).
    lia.
Qed.

Lemma to_double_zero : Prim2SF (to_double 0) = S754_zero false.
Proof. reflexivity. Qed.

Lemma to_double_positive (n : Z) :
  0 < n < 2 ^ 53 ->
  exists (m : positive) (e : Z),
    Prim2SF (to_double n) = S754_finite false m e
    /\ Zpos (digits2_pos m) = 53
    /\ -52 <= e <= 0
    /\ Zpos m = n * 2 ^ (- e).
Proof.
  intros H. unfold to_double. rewrite of_uint63_spec.
  rewrite Uint63.of_Z_spec. rewrite Z.mod_small.
  - now apply binary_normalize_exact.
  - unfold wB. cbn. change (2 ^ 53) with 9007199254740992 in H. lia.
Qed.

Lemma mul_to_double (fk : float) (M : positive) (E cap : Z) :
  Prim2SF fk = S754_finite false M E ->
  Zpos (digits2_pos M) = 53 -> -64 <= E <= 0 -> 0 < cap < 2 ^ 53 ->
  exists (m : positive) (e : Z),
    Prim2SF (PrimFloat.mul (to_double cap) fk) = S754_finite false m e
    /\ Zpos (digits2_pos m) = 53
    /\ -128 <= e
    /\ 2 ^ 52 * (Zpos m * 2 ^ (e + 128) - cap * (Zpos M * 2 ^ (E + 64)) * 2 ^ 64)
       <= cap * (Zpos M * 2 ^ (E + 64)) * 2 ^ 64
    /\ 2 ^ 52 * (cap * (Zpos M * 2 ^ (E + 64)) * 2 ^ 64 - Zpos m * 2 ^ (e + 128))
       <= cap * (Zpos M * 2 ^ (E + 64)) * 2 ^ 64.
Proof.
  intros HK DM HE HC.
  destruct (to_double_positive cap HC) as (mc & ec & HD & DC & EC & VC).
  rewrite FloatAxioms.mul_spec, HD, HK. unfold SF64mul, SFmul. cbn [xorb].
  pose proof (digits2_pos_bounds mc) as [A1 B1].
  pose proof (digits2_pos_bounds M) as [A2 B2].
  rewrite DC in A1, B1. rewrite DM in A2, B2. change (53 - 1) with 52 in *.
  set (P := (mc * M)%positive).
  assert (PV : Zpos P = Zpos mc * Zpos M) by reflexivity.
  pose proof (digits2_pos_bounds P) as [A B].
  set (d := Zpos (digits2_pos P)) in *.
  assert (PL : 2 ^ 104 <= Zpos P).
  { rewrite PV. change (2 ^ 104) with (2 ^ 52 * 2 ^ 52).
    apply Z.mul_le_mono_nonneg; lia. }
  assert (PU : Zpos P < 2 ^ 106).
  { rewrite PV. change (2 ^ 106) with (2 ^ 53 * 2 ^ 53).
    apply Z.mul_lt_mono_nonneg; lia. }
  assert (D : 105 <= d <= 106).
  { split.
    - destruct (Z_le_gt_dec 105 d) as [?|G]; [assumption|exfalso].
      assert (2 ^ d <= 2 ^ 104) by (apply Z.pow_le_mono_r; subst d; lia). lia.
    - destruct (Z_le_gt_dec d 106) as [?|G]; [assumption|exfalso].
      assert (2 ^ 106 <= 2 ^ (d - 1)) by (apply Z.pow_le_mono_r; lia). lia. }
  destruct (binary_round_aux_positive P (ec + E))
    as (m & e & R & BE & DG & _ & V); fold d; try lia.
  fold d in BE, V.
  exists m, e. split; [exact R|]. split; [exact DG|]. split; [lia|].
  set (s := 2 ^ (ec + E + 128)).
  assert (S0 : 0 < s) by (apply Z.pow_pos_nonneg; lia).
  set (u := 2 ^ (d - 53)) in *.
  assert (U0 : 0 < u) by (apply Z.pow_pos_nonneg; lia).
  assert (UP : 2 ^ 52 * u <= Zpos P).
  { subst u. rewrite <- Z.pow_add_r by lia.
    replace (52 + (d - 53)) with (d - 1) by lia. exact A. }
  assert (EV : Zpos m * 2 ^ (e + 128) = Zpos m * 2 ^ (e - (ec + E)) * s).
  { subst s. rewrite <- Z.mul_assoc, <- Z.pow_add_r by lia.
    do 2 f_equal. lia. }
  assert (EX : cap * (Zpos M * 2 ^ (E + 64)) * 2 ^ 64 = Zpos P * s).
  { subst s. rewrite PV, VC.
    assert (PW : 2 ^ (- ec) * 2 ^ (ec + E + 128) = 2 ^ (E + 64) * 2 ^ 64).
    { rewrite <- !Z.pow_add_r by lia. f_equal. lia. }
    replace (cap * 2 ^ (- ec) * Zpos M * 2 ^ (ec + E + 128))
      with (cap * Zpos M * (2 ^ (- ec) * 2 ^ (ec + E + 128))) by ring.
    rewrite PW. ring. }
  rewrite EV, EX.
  set (w := Zpos m * 2 ^ (e - (ec + E))) in *.
  assert (2 ^ 52 * (u * s) <= Zpos P * s).
  { rewrite Z.mul_assoc. apply Z.mul_le_mono_nonneg_r; lia. }
  assert ((w - Zpos P) * s <= u * s)
    by (apply Z.mul_le_mono_nonneg_r; lia).
  assert ((Zpos P - w) * s <= u * s)
    by (apply Z.mul_le_mono_nonneg_r; lia).
  split; lia.
Qed.

Lemma ltb_mul_to_double (fk : float) (M : positive) (E cap usage : Z) :
  Prim2SF fk = S754_finite false M E ->
  Zpos (digits2_pos M) = 53 -> -64 <= E <= 0 ->
  0 <= cap < 2 ^ 53 -> 0 <= usage < 2 ^ 53 ->
  exists v : Z,
    PrimFloat.ltb (PrimFloat.mul (to_double cap) fk) (to_double usage)
    = (v <? usage * 2 ^ 128)
    /\ 2 ^ 52 * (v - cap * (Zpos M * 2 ^ (E + 64)) * 2 ^ 64)
       <= cap * (Zpos M * 2 ^ (E + 64)) * 2 ^ 64
    /\ 2 ^ 52 * (cap * (Zpos M * 2 ^ (E + 64)) * 2 ^ 64 - v)
       <= cap * (Zpos M * 2 ^ (E + 64)) * 2 ^ 64.
Proof.
  intros HK DM HE HC HU. rewrite FloatAxioms.ltb_spec.
  assert (UV : forall mu eu, -52 <= eu <= 0 -> Zpos mu = usage * 2 ^ (- eu) ->
                 Zpos mu * 2 ^ (eu + 128) = usage * 2 ^ 128).
  { intros mu eu EU V. rewrite V, <- Z.mul_assoc, <- Z.pow_add_r by lia.
    do 2 f_equal. lia. }
  destruct (Z.eq_dec cap 0) as [->|NC].
  - exists 0. rewrite FloatAxioms.mul_spec, to_double_zero, HK.
    cbn [SF64mul SFmul xorb]. rewrite !Z.mul_0_l, Z.sub_diag, Z.mul_0_r.
    split; [|lia].
    destruct (Z.eq_dec usage 0) as [->|NU].
    + rewrite to_double_zero. reflexivity.
    + destruct (to_double_positive usage ltac:(lia))
        as (mu & eu & HD & DU & EU & VU).
      rewrite HD. cbn [SFltb SFcompare]. symmetry. apply Z.ltb_lt.
      apply Z.mul_pos_pos; [lia|]. apply Z.pow_pos_nonneg; lia.
  - destruct (mul_to_double fk M E cap HK DM HE ltac:(lia))
      as (m & e & HP & DP & EP & V1 & V2).
    exists (Zpos m * 2 ^ (e + 128)). rewrite HP.
    split; [|split; assumption].
    assert (0 < Zpos m * 2 ^ (e + 128)).
    { apply Z.mul_pos_pos; [lia|]. apply Z.pow_pos_nonneg; lia. }
    destruct (Z.eq_dec usage 0) as [->|NU].
    + rewrite to_double_zero. cbn [SFltb SFcompare]. symmetry.
      apply Z.ltb_ge. lia.
    + destruct (to_double_positive usage ltac:(lia))
        as (mu & eu & HD & DU & EU & VU).
      rewrite HD, SFltb_normal by (assumption || lia).
      now rewrite (UV mu eu EU VU).
Qed.


Lemma above_level (k cap usage : Z) :
  1 <= k <= 4 -> 0 <= cap < 2 ^ 32 -> 0 <= usage < 2 ^ 32 ->
  let above :=
    PrimFloat.ltb (PrimFloat.mul (to_double cap) (threshold_of k))
      (to_double usage) in
  (above = true -> 3 * k * cap <= 10 * usage)
  /\ (3 * k * cap < 10 * usage -> above = true).
Proof.
  intros HK HC HU.
  assert (C : k = 1 \/ k = 2 \/ k = 3 \/ k = 4) by lia.
  assert (HC' : 0 <= cap < 2 ^ 53) by (change (2 ^ 53) with (2 ^ 32 * 2 ^ 21); lia).
  assert (HU' : 0 <= usage < 2 ^ 53) by (change (2 ^ 53) with (2 ^ 32 * 2 ^ 21); lia).
  change (2 ^ 32) with 4294967296 in *.
  destruct C as [-> | [-> | [-> | ->]]]; cbv zeta;
    match goal with
    | |- context [threshold_of ?k] =>
        let sf := eval vm_compute in (Prim2SF (threshold_of k)) in
        match sf with
        | S754_finite false ?M ?E =>
            destruct (ltb_mul_to_double (threshold_of k) M E cap usage)
              as (v & AE & V1 & V2);
            [ vm_compute; reflexivity | reflexivity | lia | exact HC'
            | exact HU' | rewrite AE; clear AE ]
        end
    end;
    match goal with
    | V1 : context [Z.mul (Zpos ?M) (Z.pow 2 ?x)] |- _ =>
        let c := eval vm_compute in (Z.mul (Zpos M) (Z.pow 2 x)) in
        change (Z.mul (Zpos M) (Z.pow 2 x)) with c in V1, V2
    end;
    change (2 ^ 52) with 4503599627370496 in *;
    change (2 ^ 64) with 18446744073709551616 in *;
    change (2 ^ 128) with 340282366920938463463374607431768211456 in *;
    (split; intros A; [apply Z.ltb_lt in A | apply Z.ltb_lt]; lia).
Qed.

(** ** Degradation *)

(** The comparison of the capture path, on a buffer whose counter is
    between 1 and 4: it holds when the fill is above three tenths of the
    capacity times the counter, and only when it is at least that. *)
Lemma above_threshold_level (b : Buffer) :
  1 <= degradation_notification_sent_ b <= 4 ->
  0 <= maximum_capacity_bytes_ b < 2 ^ 32 ->
  0 <= current_usage_bytes_ b < 2 ^ 32 ->
  (above_threshold b = true ->
   3 * degradation_notification_sent_ b * maximum_capacity_bytes_ b
   <= 10 * current_usage_bytes_ b)
  /\ (3 * degradation_notification_sent_ b * maximum_capacity_bytes_ b
      < 10 * current_usage_bytes_ b ->
      above_threshold b = true).
Proof.
  intros K C U.
  exact (above_level (degradation_notification_sent_ b)
           (maximum_capacity_bytes_ b) (current_usage_bytes_ b) K C U).
Qed.

Lemma gauged_bounds b :
  gauged b ->
  0 < maximum_capacity_bytes_ b < 2 ^ 32
  /\ 0 <= current_usage_bytes_ b <= maximum_capacity_bytes_ b.
Proof.
  intros ((M & U & C & D & E) & CM & K). rewrite CM, E.
  pose proof (len_nonneg (switch_buffer.data (freeswitch_buffer_ b))).
  unfold switch_buffer.inuse in *. lia.
Qed.

(** A buffer that has made its three notifications makes no more. *)
Lemma gauged_quiet_at_four b :
  gauged b -> degradation_notification_sent_ b = 4 ->
  above_threshold b = false.
Proof.
  intros G K4. pose proof (gauged_bounds b G) as [C U].
  destruct G as (_ & _ & K).
  destruct (above_threshold b) eqn:A; [exfalso|reflexivity].
  destruct (above_threshold_level b K) as [L _]; try lia.
  specialize (L A). lia.
Qed.

Lemma Buffer_read_kept b :
  maximum_capacity_bytes_ (fst (Buffer_read b)) = maximum_capacity_bytes_ b
  /\ degradation_notification_sent_ (fst (Buffer_read b))
     = degradation_notification_sent_ b
  /\ switch_buffer.max_len (freeswitch_buffer_ (fst (Buffer_read b)))
     = switch_buffer.max_len (freeswitch_buffer_ b).
Proof.
  unfold Buffer_read, switch_buffer.read. break_if; cbn; auto.
Qed.

Lemma Buffer_write_kept b d :
  maximum_capacity_bytes_ (fst (Buffer_write b d)) = maximum_capacity_bytes_ b
  /\ degradation_notification_sent_ (fst (Buffer_write b d))
     = degradation_notification_sent_ b
  /\ switch_buffer.max_len (freeswitch_buffer_ (fst (Buffer_write b d)))
     = switch_buffer.max_len (freeswitch_buffer_ b).
Proof.
  unfold Buffer_write, switch_buffer.write. repeat break_if; cbn; auto.
Qed.

Lemma gauged_read b : gauged b -> gauged (fst (Buffer_read b)).
Proof.
  intros (OK & CM & K). destruct (Buffer_read_kept b) as (E1 & E2 & E3).
  split; [now apply buffer_ok_read|]. rewrite E1, E2, E3. now split.
Qed.

Lemma gauged_write b d : gauged b -> gauged (fst (Buffer_write b d)).
Proof.
  intros (OK & CM & K). destruct (Buffer_write_kept b d) as (E1 & E2 & E3).
  split; [now apply buffer_ok_write|]. rewrite E1, E2, E3. now split.
Qed.

Lemma gauged_new now max_len chunk step :
  0 < max_len < 2 ^ 32 -> gauged (Buffer_new now max_len chunk step).
Proof.
  intros H. split; [now apply buffer_ok_new|]. cbn.
  unfold uint32, wrap. rewrite Z.mod_small by lia. split; [reflexivity|lia].
Qed.

Lemma gauge_plain a e b :
  m_audio_buffer b = m_audio_buffer a ->
  m_ob_audio_buffer b = m_ob_audio_buffer a ->
  count (is_notify CONNECTION_DEGRADED) e = 0 ->
  gauge_kept a e b.
Proof.
  intros E1 E2 C G. unfold both, degraded_so_far in *.
  rewrite E1, E2, C. split; [exact G | lia].
Qed.

Lemma gauge_trans a e1 b e2 c :
  gauge_kept a e1 b -> gauge_kept b e2 c -> gauge_kept a (e1 ++ e2) c.
Proof.
  intros H1 H2 G. destruct (H1 G) as [G1 C1]. destruct (H2 G1) as [G2 C2].
  split; [exact G2|]. rewrite count_app. lia.
Qed.

Lemma gauge_obs a e b : gauge_kept a e b -> gauge_kept a (obs e) b.
Proof. unfold gauge_kept. now rewrite count_obs. Qed.

(** A change of one of the two buffers that keeps its counter. *)
Lemma gauge_buffer (ob : bool) a e b old new :
  (if ob then m_ob_audio_buffer a else m_audio_buffer a) = Some old ->
  (if ob then m_ob_audio_buffer b else m_audio_buffer b) = Some new ->
  (if ob then m_audio_buffer b else m_ob_audio_buffer b)
  = (if ob then m_audio_buffer a else m_ob_audio_buffer a) ->
  (gauged old -> gauged new) ->
  degradation_notification_sent_ new = degradation_notification_sent_ old ->
  count (is_notify CONNECTION_DEGRADED) e = 0 ->
  gauge_kept a e b.
Proof.
  intros EA EB EO GN KN C [G1 G2]. unfold both, degraded_so_far.
  destruct ob; rewrite EB, EO, C; rewrite EA in *; cbn [degradations].
  - split; [split; [exact G1|]|lia]. intros ? [= <-]. auto.
  - split; [split; [|exact G2]|lia]. intros ? [= <-]. auto.
Qed.

Lemma gauge_send_media locked ap :
  gauge_kept ap (snd (fst (send_media locked ap)))
    (fst (fst (send_media locked ap))).
Proof.
  unfold send_media.
  destruct (needsBothTracks ap && m_switch ap) eqn:UO.
  - destruct (m_ob_audio_buffer ap) as [bb|] eqn:EB;
      [|apply gauge_plain; reflexivity].
    destruct locked; [|apply gauge_plain; reflexivity]. cbn [negb].
    cbn [generate_json_data_event].
    pose proof (gauged_read bb) as GR.
    destruct (Buffer_read_kept bb) as (_ & KR & _).
    destruct (Buffer_read bb) as [b' [d|]]; cbn [fst] in *.
    + destruct (len d =? 0); unfold flip_switch; cbn; repeat break_if;
        (eapply (gauge_buffer true); cbn;
         [exact EB | reflexivity | reflexivity | exact GR | exact KR
         | reflexivity]).
    + unfold flip_switch; cbn; repeat break_if;
        (eapply (gauge_buffer true); cbn;
         [exact EB | reflexivity | reflexivity | exact GR | exact KR
         | reflexivity]).
  - destruct (m_audio_buffer ap) as [bb|] eqn:EB;
      [|apply gauge_plain; reflexivity].
    destruct locked; [|apply gauge_plain; reflexivity]. cbn [negb].
    cbn [generate_json_data_event].
    pose proof (gauged_read bb) as GR.
    destruct (Buffer_read_kept bb) as (_ & KR & _).
    destruct (Buffer_read bb) as [b' [d|]]; cbn [fst] in *.
    + destruct (len d =? 0); unfold flip_switch; cbn; repeat break_if;
        (eapply (gauge_buffer false); cbn;
         [exact EB | reflexivity | reflexivity | exact GR | exact KR
         | reflexivity]).
    + unfold flip_switch; cbn; repeat break_if;
        (eapply (gauge_buffer false); cbn;
         [exact EB | reflexivity | reflexivity | exact GR | exact KR
         | reflexivity]).
Qed.

Lemma gauge_callback ev ap :
  gauge_kept ap (snd (fst (lws_callback ev ap))) (fst (fst (lws_callback ev ap))).
Proof.
  destruct ev; cbn [lws_callback].
  - unfold on_event_wait_cancelled, processPendingConnects,
      processPendingDisconnects, processPendingWrites, connect_client.
    repeat break_if; apply gauge_plain; reflexivity.
  - unfold on_client_connection_error, find_pending,
      findAndRemovePendingConnect, findAndRemovePendingReconnect,
      schedule_reconnect.
    repeat break_if; apply gauge_plain; reflexivity.
  - unfold on_client_established, find_pending,
      findAndRemovePendingConnect, findAndRemovePendingReconnect.
    repeat break_if; apply gauge_plain; reflexivity.
  - unfold on_client_closed. repeat break_if; apply gauge_plain; reflexivity.
  - unfold on_client_writeable.
    destruct (isGracefulShutdown ap && _); [apply gauge_plain; reflexivity|].
    destruct (isGracefulShutdown ap && allBuffersAreEmpty ap && _);
      [apply gauge_plain; reflexivity|].
    destruct (negb (m_firstMsgSent ap)); [apply gauge_plain; reflexivity|].
    unfold getEventData.
    destruct (m_events ap) as [|data rest].
    + cbn [is_empty_text String.eqb negb].
      destruct (state_eqb _ _);
        [apply gauge_plain; reflexivity | apply gauge_send_media].
    + destruct (negb (is_empty_text data)).
      * destruct short_write; apply gauge_plain; reflexivity.
      * destruct (state_eqb _ _); [apply gauge_plain; reflexivity|].
        change (snd (fst (send_media locked (set_m_events rest ap))))
          with ([] ++ snd (fst (send_media locked (set_m_events rest ap)))).
        eapply gauge_trans; [|apply gauge_send_media].
        apply gauge_plain; reflexivity.
  - unfold on_client_receive. repeat break_if; apply gauge_plain; reflexivity.
  - unfold reconnect, connect_client, schedule_reconnect.
    repeat break_if; apply gauge_plain; reflexivity.
  - unfold connect, addPendingConnect.
    repeat break_if; apply gauge_plain; reflexivity.
  - unfold close, addPendingDisconnect.
    repeat break_if; apply gauge_plain; reflexivity.
  - unfold graceful_shutdown. repeat break_if; apply gauge_plain; reflexivity.
  - unfold addEventBuffer, addPendingWrite.
    break_if; apply gauge_plain; reflexivity.
Qed.

Lemma gauged_set_degradation b n :
  gauged b -> 1 <= n <= 4 -> gauged (set_degradation b n).
Proof. intros (OK & CM & K) N. repeat split; try apply OK; cbn; auto; lia. Qed.

(** The capture of a frame, on a gauged buffer. *)
Lemma capture_write_gauged (use_ob : bool) (src : list byte)
    (ap : AudioPipe) (b : Buffer) :
  (if use_ob then m_ob_audio_buffer ap else m_audio_buffer ap) = Some b ->
  gauged b ->
  let written := fst (Buffer_write b src) in
  let k := degradation_notification_sent_ written in
  let after :=
    if above_threshold written then set_degradation written (k + 1)
    else written in
  gauged after
  /\ (above_threshold written = true -> 1 <= k <= 3)
  /\ (if use_ob then m_ob_audio_buffer (fst (fst (capture_write use_ob src ap)))
      else m_audio_buffer (fst (fst (capture_write use_ob src ap))))
     = Some after
  /\ (if use_ob then m_audio_buffer (fst (fst (capture_write use_ob src ap)))
      else m_ob_audio_buffer (fst (fst (capture_write use_ob src ap))))
     = (if use_ob then m_audio_buffer ap else m_ob_audio_buffer ap)
  /\ snd (fst (capture_write use_ob src ap))
     = (if above_threshold written then [notify CONNECTION_DEGRADED ""]
        else [])
       ++ (if snd (Buffer_write b src) then []
           else [notify CONNECTION_TIMEOUT ""])
  /\ snd (capture_write use_ob src ap) = snd (Buffer_write b src).
Proof.
  intros EB G. cbv zeta.
  pose proof (gauged_write b src G) as GW.
  unfold capture_write. rewrite EB.
  destruct (Buffer_write b src) as [b1 ok]. cbn [fst snd] in *.
  assert (K3 : above_threshold b1 = true ->
               1 <= degradation_notification_sent_ b1 <= 3).
  { intros A. pose proof GW as (_ & _ & K).
    destruct (Z.eq_dec (degradation_notification_sent_ b1) 4) as [E|N];
      [|lia].
    rewrite (gauged_quiet_at_four b1 GW E) in A. discriminate. }
  destruct (above_threshold b1) eqn:A.
  - specialize (K3 eq_refl).
    assert (U8 : uint8 (degradation_notification_sent_ b1 + 1)
                 = degradation_notification_sent_ b1 + 1).
    { unfold uint8, wrap. apply Z.mod_small.
      change (2 ^ 8) with 256. lia. }
    rewrite U8.
    split; [apply gauged_set_degradation; [exact GW | lia]|].
    split; [intros _; exact K3|].
    destruct use_ob; cbn; repeat split; reflexivity.
  - split; [exact GW|]. split; [discriminate|].
    destruct use_ob; cbn; repeat split; reflexivity.
Qed.

Lemma gauge_capture (use_ob : bool) (src : list byte) (ap : AudioPipe) :
  gauge_kept ap (snd (fst (capture_write use_ob src ap)))
    (fst (fst (capture_write use_ob src ap))).
Proof.
  destruct (if use_ob then m_ob_audio_buffer ap else m_audio_buffer ap)
    as [b|] eqn:EB.
  - intros G.
    assert (GB : gauged b).
    { destruct G as [G1 G2]. destruct use_ob; auto. }
    destruct (capture_write_gauged use_ob src ap b EB GB)
      as (GA & K3 & ES & EO & EE & _).
    cbv zeta in *. rewrite EE.
    destruct (Buffer_write_kept b src) as (_ & KW & _).
    set (written := fst (Buffer_write b src)) in *.
    assert (C : count (is_notify CONNECTION_DEGRADED)
                  ((if above_threshold written
                    then [notify CONNECTION_DEGRADED ""] else [])
                   ++ (if snd (Buffer_write b src) then []
                       else [notify CONNECTION_TIMEOUT ""]))
                = if above_threshold written then 1 else 0).
    { destruct (above_threshold written), (snd (Buffer_write b src));
        reflexivity. }
    rewrite C. unfold both, degraded_so_far. destruct G as [G1 G2].
    destruct use_ob; rewrite ES, EO; rewrite EB; cbn [degradations].
    + split; [split; [exact G1 | intros ? [= <-]; exact GA]|].
      destruct (above_threshold written);
        cbn [set_degradation degradation_notification_sent_]; lia.
    + split; [split; [intros ? [= <-]; exact GA | exact G2]|].
      destruct (above_threshold written);
        cbn [set_degradation degradation_notification_sent_]; lia.
  - unfold capture_write. rewrite EB. apply gauge_plain; reflexivity.
Qed.

Lemma step_gauge a e b : step a e b -> gauge_kept a e b.
Proof.
  induction 1.
  - apply gauge_plain; reflexivity.
  - eapply gauge_trans; eassumption.
  - apply gauge_obs, gauge_callback.
  - unfold addEventBuffer, addPendingWrite.
    break_if; apply gauge_plain; reflexivity.
  - unfold addEventBuffer, addPendingWrite.
    break_if; apply gauge_plain; reflexivity.
  - unfold addEventBuffer, addPendingWrite. cbn.
    break_if; apply gauge_plain; reflexivity.
  - unfold addEventBuffer, addPendingWrite.
    break_if; apply gauge_plain; reflexivity.
  - apply gauge_plain; reflexivity.
  - unfold close, addPendingDisconnect. cbn.
    break_if; apply gauge_plain; reflexivity.
  - intros [G1 G2]. unfold both, degraded_so_far. cbn.
    destruct (m_audio_buffer ap) as [b1|], (m_ob_audio_buffer ap) as [b2|];
      cbn; (split; [split; intros ? [= <-]|lia]);
      first [ apply (G1 _ eq_refl) | apply (G2 _ eq_refl) ].
  - apply gauge_capture.
  - apply gauge_plain; reflexivity.
Qed.

Lemma both_gauged_new now uuid sid bufLen track extra codec sampling bidi :
  0 < bufLen < 2 ^ 32 ->
  both gauged
    (AudioPipe_new now uuid sid bufLen track extra codec sampling bidi).
Proof.
  intros H. unfold both, AudioPipe_new. cbn. split.
  - intros b [= <-]. now apply gauged_new.
  - destruct (String.eqb track "both"); [|discriminate].
    intros b [= <-]. now apply gauged_new.
Qed.

(** C6.  Degradation.  On a transport object with a buffer of a positive
    length below 2^32, in any state it can reach: the capture of a frame
    writes a chunk to the selected buffer and then compares the fill with
    three tenths of the capacity times the counter of notifications, which
    started at 1.  When the fill is above, CONNECTION_DEGRADED is notified and
    the counter goes up by one; the counter is then 1, 2 or 3, and the fill is
    at least 30, 60 or 90 percent of the capacity; a fill strictly above that
    level always notifies.  A buffer makes at most three such notifications,
    and all the notifications made so far are those its counters record.  A
    write that fails notifies CONNECTION_TIMEOUT. *)
Theorem degradation_at_three_fill_levels
    (now : Z) (uuid sid : string) (bufLen : Z) (track extra : string)
    (codec : streaming_codec_t) (sampling bidi : Z)
    (e : list effect) (ap : AudioPipe)
    (use_ob : bool) (src : list byte) (b : Buffer) :
  0 < bufLen < 2 ^ 32 ->
  step (AudioPipe_new now uuid sid bufLen track extra codec sampling bidi)
    e ap ->
  (if use_ob then m_ob_audio_buffer ap else m_audio_buffer ap) = Some b ->
  let written := fst (Buffer_write b src) in
  let write_success := snd (Buffer_write b src) in
  let k := degradation_notification_sent_ written in
  let r := capture_write use_ob src ap in
  count (is_notify CONNECTION_DEGRADED) e = degraded_so_far ap
  /\ 0 <= degradations (m_audio_buffer ap) <= 3
  /\ 0 <= degradations (m_ob_audio_buffer ap) <= 3
  /\ snd (fst r)
     = (if above_threshold written then [notify CONNECTION_DEGRADED ""]
        else [])
       ++ (if write_success then [] else [notify CONNECTION_TIMEOUT ""])
  /\ snd r = write_success
  /\ (above_threshold written = true ->
      1 <= k <= 3
      /\ 3 * k * maximum_capacity_bytes_ written
         <= 10 * current_usage_bytes_ written
      /\ (if use_ob then m_ob_audio_buffer (fst (fst r))
          else m_audio_buffer (fst (fst r)))
         = Some (set_degradation written (k + 1)))
  /\ (3 * k * maximum_capacity_bytes_ written
      < 10 * current_usage_bytes_ written ->
      above_threshold written = true)
  /\ (above_threshold written = false ->
      (if use_ob then m_ob_audio_buffer (fst (fst r))
       else m_audio_buffer (fst (fst r)))
      = Some written).
Proof.
  intros HB S EB. cbv zeta.
  destruct (step_gauge _ _ _ S (both_gauged_new _ _ _ _ _ _ _ _ _ HB))
    as [G C].
  assert (D0 : degraded_so_far
                 (AudioPipe_new now uuid sid bufLen track extra codec
                    sampling bidi) = 0).
  { unfold degraded_so_far, AudioPipe_new. cbn.
    destruct (String.eqb track "both"); reflexivity. }
  rewrite D0, Z.add_0_r in C.
  assert (GB : gauged b).
  { destruct G as [G1 G2]. destruct use_ob; auto. }
  destruct (capture_write_gauged use_ob src ap b EB GB)
    as (GA & K3 & ES & EO & EE & ER).
  cbv zeta in *.
  pose proof (gauged_write b src GB) as GW.
  pose proof (gauged_bounds _ GW) as [BC BU].
  pose proof GW as (_ & _ & K).
  destruct (above_threshold_level (fst (Buffer_write b src)) K) as [L1 L2];
    try lia.
  split; [exact C|].
  split.
  { destruct G as [G1 _]. destruct (m_audio_buffer ap) as [x|]; cbn; [|lia].
    destruct (G1 x eq_refl) as (_ & _ & KX). lia. }
  split.
  { destruct G as [_ G2]. destruct (m_ob_audio_buffer ap) as [x|]; cbn; [|lia].
    destruct (G2 x eq_refl) as (_ & _ & KX). lia. }
  split; [exact EE|]. split; [exact ER|].
  split.
  { intros A. split; [exact (K3 A)|]. split; [exact (L1 A)|].
    rewrite ES, A. reflexivity. }
  split; [exact L2|].
  intros A. rewrite ES, A. reflexivity.
Qed.

(** ** The ring buffer as a queue *)

Lemma len_concat_chunks (c : Z) (chunks : list (list byte)) :
  Forall (fun x => len x = c) chunks -> len (List.concat chunks) = len chunks * c.
Proof.
  induction 1 as [|x l H F IH]; [reflexivity|].
  cbn [List.concat]. rewrite len_app, IH, H. unfold len. cbn [List.length].
  lia.
Qed.

Lemma Buffer_write_holds b chunks d :
  buffer_ok b -> 0 < chunk_size_bytes_ b -> holds b chunks ->
  (len chunks + 1) * chunk_size_bytes_ b
  <= switch_buffer.max_len (freeswitch_buffer_ b) ->
  snd (Buffer_write b d) = true
  /\ holds (fst (Buffer_write b d))
       (chunks ++ [bytes_at d (chunk_size_bytes_ b)])
  /\ chunk_size_bytes_ (fst (Buffer_write b d)) = chunk_size_bytes_ b
  /\ switch_buffer.max_len (freeswitch_buffer_ (fst (Buffer_write b d)))
     = switch_buffer.max_len (freeswitch_buffer_ b).
Proof.
  intros OK C [HD HF] R. pose proof OK as (M & U & C0 & D & E).
  pose proof (len_concat_chunks _ _ HF) as LC. rewrite <- HD in LC.
  unfold Buffer_write, switch_buffer.write, switch_buffer.inuse in *.
  rewrite (len_bytes_at d _ C0).
  replace (chunk_size_bytes_ b =? 0) with false
    by (symmetry; apply Z.eqb_neq; lia).
  replace (len (switch_buffer.data (freeswitch_buffer_ b))
           + chunk_size_bytes_ b
           <=? switch_buffer.max_len (freeswitch_buffer_ b)) with true
    by (symmetry; apply Z.leb_le; lia).
  rewrite orb_true_r.
  pose proof (len_nonneg (switch_buffer.data (freeswitch_buffer_ b))).
  replace (len (switch_buffer.data (freeswitch_buffer_ b))
           + chunk_size_bytes_ b =? 0) with false
    by (symmetry; apply Z.eqb_neq; lia).
  cbn. repeat split; try reflexivity.
  - rewrite HD, concat_app. cbn. now rewrite app_nil_r.
  - apply Forall_app. split; [exact HF|].
    constructor; [apply len_bytes_at; exact C0 | constructor].
Qed.

Lemma Buffer_read_holds b x chunks :
  0 < chunk_size_bytes_ b -> holds b (x :: chunks) ->
  snd (Buffer_read b) = Some x
  /\ holds (fst (Buffer_read b)) chunks
  /\ chunk_size_bytes_ (fst (Buffer_read b)) = chunk_size_bytes_ b
  /\ current_usage_bytes_ (fst (Buffer_read b))
     = uint32 (len chunks * chunk_size_bytes_ b).
Proof.
  intros C [HD HF].
  pose proof (Forall_inv HF) as LX. pose proof (Forall_inv_tail HF) as HT.
  cbn [List.concat] in HD.
  assert (N : Z.to_nat (chunk_size_bytes_ b) = List.length x)
    by (unfold len in LX; lia).
  unfold Buffer_read, switch_buffer.read. rewrite HD, N.
  rewrite firstn_app, firstn_all, Nat.sub_diag, firstn_O, app_nil_r.
  rewrite skipn_app, skipn_all, Nat.sub_diag, skipn_O. cbn [app].
  rewrite LX, Z.eqb_refl. cbn [negb fst snd].
  unfold holds, switch_buffer.inuse. cbn.
  rewrite (len_concat_chunks _ _ HT). repeat split; auto.
Qed.

Lemma Buffer_read_nothing b :
  0 < chunk_size_bytes_ b -> holds b [] ->
  snd (Buffer_read b) = None /\ holds (fst (Buffer_read b)) [].
Proof.
  intros C [HD _]. cbn [List.concat] in HD.
  unfold Buffer_read, switch_buffer.read. rewrite HD.
  rewrite firstn_nil, skipn_nil.
  replace (len (@nil byte) =? chunk_size_bytes_ b) with false
    by (symmetry; apply Z.eqb_neq; unfold len; cbn; lia).
  cbn. split; [reflexivity|]. split; [reflexivity | constructor].
Qed.

Lemma Buffer_writes_holds frames :
  forall b chunks,
  buffer_ok b -> 0 < chunk_size_bytes_ b -> holds b chunks ->
  (len chunks + len frames) * chunk_size_bytes_ b
  <= switch_buffer.max_len (freeswitch_buffer_ b) ->
  snd (Buffer_writes b frames) = true
  /\ holds (fst (Buffer_writes b frames))
       (chunks ++ map (fun d => bytes_at d (chunk_size_bytes_ b)) frames)
  /\ chunk_size_bytes_ (fst (Buffer_writes b frames)) = chunk_size_bytes_ b
  /\ buffer_ok (fst (Buffer_writes b frames)).
Proof.
  induction frames as [|d rest IH]; intros b chunks OK C H R.
  - cbn. rewrite app_nil_r.
    split; [reflexivity|]. split; [exact H|]. split; [reflexivity|exact OK].
  - cbn [Buffer_writes map].
    assert (L : len (d :: rest) = 1 + len rest)
      by (unfold len; cbn [List.length]; lia).
    rewrite L in R.
    destruct (Buffer_write_holds b chunks d OK C H ltac:(pose proof (len_nonneg rest); nia))
      as (W & H1 & C1 & M1).
    pose proof (buffer_ok_write b d OK) as OK1.
    destruct (Buffer_write b d) as [b1 ok]. cbn [fst snd] in *. subst ok.
    destruct (IH b1 (chunks ++ [bytes_at d (chunk_size_bytes_ b)]) OK1)
      as (W2 & H2 & C2 & OK2).
    + lia.
    + exact H1.
    + rewrite C1, M1, len_app.
      replace (len [bytes_at d (chunk_size_bytes_ b)]) with 1 by reflexivity.
      lia.
    + destruct (Buffer_writes b1 rest) as [b2 oks]. cbn [fst snd] in *.
      subst oks. rewrite C1, <- app_assoc in H2. cbn [app] in H2.
      split; [reflexivity|]. split; [exact H2|].
      split; [rewrite C2; exact C1 | exact OK2].
Qed.

Lemma Buffer_reads_holds chunks :
  forall b rest,
  0 < chunk_size_bytes_ b -> holds b (chunks ++ rest) ->
  snd (Buffer_reads (List.length chunks) b) = chunks
  /\ holds (fst (Buffer_reads (List.length chunks) b)) rest
  /\ chunk_size_bytes_ (fst (Buffer_reads (List.length chunks) b))
     = chunk_size_bytes_ b.
Proof.
  induction chunks as [|x l IH]; intros b rest C H.
  - cbn. split; [reflexivity|]. split; [exact H | reflexivity].
  - cbn [List.length Buffer_reads]. cbn [app] in H.
    destruct (Buffer_read_holds b x (l ++ rest) C H) as (R & H1 & C1 & U1).
    destruct (Buffer_read b) as [b1 r]. cbn [fst snd] in *. subst r.
    destruct (IH b1 rest ltac:(lia) H1) as (R2 & H2 & C2).
    destruct (Buffer_reads (List.length l) b1) as [b2 rs].
    cbn [fst snd] in *. subst rs.
    split; [reflexivity|]. split; [exact H2|]. rewrite C2. exact C1.
Qed.

(** X1.  The ring buffer is a queue of chunks.  On a fresh buffer with room
    for them, every write of a frame succeeds; the reads that follow return
    the chunks written, in the order written, and leave the buffer empty, so
    that one more read fails. *)
Theorem ring_buffer_fifo
    (now max_len chunk step : Z) (frames : list (list byte)) :
  0 < chunk < 2 ^ 32 -> 0 < max_len < 2 ^ 32 ->
  len frames * chunk <= max_len ->
  let written := Buffer_writes (Buffer_new now max_len chunk step) frames in
  let read := Buffer_reads (List.length frames) (fst written) in
  snd written = true
  /\ snd read = map (fun d => bytes_at d chunk) frames
  /\ switch_buffer.data (freeswitch_buffer_ (fst read)) = []
  /\ snd (Buffer_read (fst read)) = None.
Proof.
  intros C M R. cbv zeta.
  set (b0 := Buffer_new now max_len chunk step).
  assert (C0 : chunk_size_bytes_ b0 = chunk)
    by (cbn; apply uint32_small; lia).
  assert (H0 : holds b0 []) by (split; [reflexivity | constructor]).
  destruct (Buffer_writes_holds frames b0 [] (buffer_ok_new _ _ _ _ M))
    as (W & H1 & C1 & OK1); try (rewrite C0; cbn; lia); [exact H0|].
  cbn [app] in H1. rewrite C0 in *.
  split; [exact W|].
  set (b1 := fst (Buffer_writes b0 frames)) in *.
  set (out := map (fun d => bytes_at d chunk) frames) in *.
  assert (LO : List.length out = List.length frames)
    by (subst out; apply length_map).
  rewrite <- LO.
  destruct (Buffer_reads_holds out b1 []) as (R1 & H2 & C2);
    [lia | now rewrite app_nil_r |].
  split; [exact R1|].
  split; [apply H2|].
  apply Buffer_read_nothing; [lia | exact H2].
Qed.

(** X2.  A write is refused exactly when the buffer has no room for a whole
    chunk, and a refused write changes nothing. *)
Theorem write_refused_when_full (b : Buffer) (d : list byte) :
  buffer_ok b -> 0 < chunk_size_bytes_ b ->
  (snd (Buffer_write b d) = true <->
   current_usage_bytes_ b + chunk_size_bytes_ b
   <= switch_buffer.max_len (freeswitch_buffer_ b))
  /\ (snd (Buffer_write b d) = false -> fst (Buffer_write b d) = b)
  /\ (snd (Buffer_write b d) = true ->
      current_usage_bytes_ (fst (Buffer_write b d))
      = current_usage_bytes_ b + chunk_size_bytes_ b).
Proof using Type.
  clear. intros OK C. pose proof OK as (M & U & C0 & D & E).
  pose proof (len_nonneg (switch_buffer.data (freeswitch_buffer_ b))) as N.
  unfold Buffer_write, switch_buffer.write, switch_buffer.inuse.
  unfold switch_buffer.inuse in E.
  rewrite (len_bytes_at d _ C0), E.
  replace (chunk_size_bytes_ b =? 0) with false
    by (symmetry; apply Z.eqb_neq; lia).
  replace (switch_buffer.max_len (freeswitch_buffer_ b) =? 0) with false
    by (symmetry; apply Z.eqb_neq; lia).
  cbn [orb].
  destruct (len (switch_buffer.data (freeswitch_buffer_ b))
            + chunk_size_bytes_ b
            <=? switch_buffer.max_len (freeswitch_buffer_ b)) eqn:F.
  - apply Z.leb_le in F.
    replace (len (switch_buffer.data (freeswitch_buffer_ b))
             + chunk_size_bytes_ b =? 0) with false
      by (symmetry; apply Z.eqb_neq; lia).
    cbn. rewrite len_app, (len_bytes_at d _ C0).
    split; [tauto|]. split; [discriminate|]. intros _.
    apply uint32_small. lia.
  - apply Z.leb_gt in F. cbn.
    split; [split; [discriminate | lia]|]. split; [reflexivity|discriminate].
Qed.

(** X3.  In every state a transport object can reach, each of its ring
    buffers is accounted for: [current_usage_bytes_] is the number of bytes
    the host buffer holds, a whole number of chunks, and no more than the
    capacity. *)
Theorem ring_buffers_accounted
    (now : Z) (uuid sid : string) (bufLen : Z) (track extra : string)
    (codec : streaming_codec_t) (sampling bidi : Z)
    (e : list effect) (ap : AudioPipe) (b : Buffer) :
  0 < bufLen < 2 ^ 32 ->
  step (AudioPipe_new now uuid sid bufLen track extra codec sampling bidi)
    e ap ->
  m_audio_buffer ap = Some b \/ m_ob_audio_buffer ap = Some b ->
  current_usage_bytes_ b = len (switch_buffer.data (freeswitch_buffer_ b))
  /\ (chunk_size_bytes_ b | current_usage_bytes_ b)
  /\ 0 <= current_usage_bytes_ b <= maximum_capacity_bytes_ b
  /\ maximum_capacity_bytes_ b = bufLen.
Proof.
  intros HB S EB.
  destruct (step_gauge _ _ _ S (both_gauged_new _ _ _ _ _ _ _ _ _ HB))
    as [[G1 G2] _].
  assert (G : gauged b) by (destruct EB; auto).
  pose proof (gauged_bounds b G) as [_ BU].
  destruct G as ((M & U & C0 & D & E) & CM & K).
  unfold switch_buffer.inuse in *. rewrite E at 1 2.
  split; [reflexivity|]. split; [exact D|]. split; [lia|].
  rewrite CM. clear M U C0 D E CM K BU.
  assert (ML : both (fun q => switch_buffer.max_len (freeswitch_buffer_ q)
                              = bufLen) ap).
  { refine (step_both _ _ _ _ _ _ _ _ S _).
    - intros q Hq. destruct (Buffer_read_kept q) as (_ & _ & X). congruence.
    - intros q dd Hq. destruct (Buffer_write_kept q dd) as (_ & _ & X).
      congruence.
    - intros q n Hq. exact Hq.
    - intros q t Hq. exact Hq.
    - unfold both, AudioPipe_new. cbn. split.
      + intros q [= <-]. reflexivity.
      + destruct (String.eqb track "both"); [|discriminate].
        intros q [= <-]. reflexivity. }
  destruct ML as [M1 M2]. destruct EB; auto.
Qed.

(** ** The order of the frames on the wire *)

Lemma start_leads_app (s : bool) (a b : list json_msg) :
  start_leads s (a ++ b)
  = start_leads s a && start_leads (s || existsb is_start a) b.
Proof.
  revert s. induction a as [|m a IH]; intros s.
  - cbn. now rewrite orb_false_r.
  - cbn [app start_leads existsb].
    destruct (is_start m) eqn:S.
    + rewrite IH. cbn. now rewrite orb_true_r.
    + destruct (is_stop m).
      * now rewrite IH.
      * rewrite IH. cbn [orb]. now rewrite andb_assoc.
Qed.

Lemma start_leads_seen (a : list json_msg) :
  start_leads false a = true -> start_leads true a = true.
Proof.
  induction a as [|m a IH]; [reflexivity|]. cbn.
  destruct (is_start m); [auto|]. destruct (is_stop m); [auto|].
  discriminate.
Qed.

(** The boolean scan says that a frame which is neither start nor stop has
    a start before it. *)
Lemma start_leads_prefix (msgs l1 l2 : list json_msg) (m : json_msg) :
  start_leads false msgs = true -> msgs = l1 ++ m :: l2 ->
  is_start m = false -> is_stop m = false ->
  existsb is_start l1 = true.
Proof.
  intros H -> S T. rewrite start_leads_app in H.
  apply andb_true_iff in H. destruct H as [_ H]. cbn [orb start_leads] in H.
  rewrite S, T in H. apply andb_true_iff in H. tauto.
Qed.

Lemma wire_ok_same hist a b :
  wire_ok hist a ->
  m_events b = m_events a -> m_firstMsgSent b = m_firstMsgSent a ->
  m_lastMsgSent b = m_lastMsgSent a ->
  wire_ok hist b.
Proof. intros W E1 E2 E3. unfold wire_ok. now rewrite E1, E2, E3. Qed.

Lemma wire_ok_enqueue hist a b m :
  wire_ok hist a -> control_text m ->
  m_events b = m_events a ++ [m] -> m_firstMsgSent b = m_firstMsgSent a ->
  m_lastMsgSent b = m_lastMsgSent a ->
  wire_ok hist b.
Proof.
  intros (Q & L & F & S & N) C E1 E2 E3. unfold wire_ok.
  rewrite E1, E2, E3. repeat split; auto.
  apply Forall_app. split; [exact Q | now constructor].
Qed.

Lemma count_msg_one p (m : json_msg) : count_msg p [m] = b2z (p m).
Proof. unfold count_msg. cbn. destruct (p m); reflexivity. Qed.

(** A frame that is neither start nor stop, sent after the start. *)
Lemma wire_ok_send hist a b m :
  wire_ok hist a -> m_firstMsgSent a = true ->
  is_start m = false -> is_stop m = false -> is_empty_text m = false ->
  Forall control_text (m_events b) ->
  m_firstMsgSent b = m_firstMsgSent a ->
  m_lastMsgSent b = m_lastMsgSent a ->
  wire_ok (hist ++ [m]) b.
Proof.
  intros (Q & L & F & S & N) FM IS IT IE QB E2 E3. unfold wire_ok.
  rewrite E2, E3, start_leads_app, existsb_app, count_msg_app,
    count_msg_one.
  cbn [start_leads existsb orb]. rewrite IS, IT, L, (F FM). cbn.
  repeat split; auto; try lia.
  apply Forall_app. split; [exact N | now constructor].
Qed.

Lemma wire_ok_start hist a b m :
  wire_ok hist a -> is_start m = true -> is_stop m = false ->
  is_empty_text m = false ->
  m_events b = m_events a -> m_lastMsgSent b = m_lastMsgSent a ->
  wire_ok (hist ++ [m]) b.
Proof.
  intros (Q & L & F & S & N) IS IT IE E1 E3. unfold wire_ok.
  rewrite E1, E3, start_leads_app, existsb_app, count_msg_app,
    count_msg_one.
  cbn [start_leads existsb orb]. rewrite IS, IT, L. cbn.
  rewrite orb_true_r.
  repeat split; auto; try lia.
  apply Forall_app. split; [exact N | now constructor].
Qed.

Lemma wire_ok_stop hist a b m :
  wire_ok hist a -> m_lastMsgSent a = false -> m_lastMsgSent b = true ->
  is_start m = false -> is_stop m = true -> is_empty_text m = false ->
  m_events b = m_events a -> m_firstMsgSent b = m_firstMsgSent a ->
  wire_ok (hist ++ [m]) b.
Proof.
  intros (Q & L & F & S & N) LA LB IS IT IE E1 E2. unfold wire_ok.
  rewrite E1, E2, LB, start_leads_app, existsb_app, count_msg_app,
    count_msg_one.
  cbn [start_leads existsb orb]. rewrite IS, IT, L, S, LA. cbn.
  rewrite orb_false_r.
  repeat split; auto.
  apply Forall_app. split; [exact N | now constructor].
Qed.

Ltac wire_unchanged :=
  cbn; rewrite ?app_nil_r;
  first [ assumption
        | eapply wire_ok_same;
          [eassumption | reflexivity | reflexivity | reflexivity] ].

Lemma wire_ok_send_media hist locked ap :
  wire_ok hist ap -> m_firstMsgSent ap = true ->
  wire_ok (hist ++ wire (snd (fst (send_media locked ap))))
    (fst (fst (send_media locked ap))).
Proof.
  intros W FM. unfold send_media.
  destruct (if needsBothTracks ap && m_switch ap then m_ob_audio_buffer ap
            else m_audio_buffer ap) as [b|]; [|wire_unchanged].
  destruct locked; [|wire_unchanged]. cbn [negb].
  cbn [generate_json_data_event].
  destruct (Buffer_read b) as [b' [d|]].
  - destruct (len d =? 0).
    + unfold flip_switch; repeat break_if; wire_unchanged.
    + unfold flip_switch; repeat break_if; cbn;
        (eapply wire_ok_send;
         [exact W | exact FM | reflexivity | reflexivity | reflexivity
         | apply W | reflexivity | reflexivity]).
  - unfold flip_switch; repeat break_if; wire_unchanged.
Qed.

Lemma wire_ok_callback hist ev ap :
  wire_ok hist ap ->
  wire_ok (hist ++ wire (snd (fst (lws_callback ev ap))))
    (fst (fst (lws_callback ev ap))).
Proof.
  intros W.
  destruct ev; cbn [lws_callback].
  - unfold on_event_wait_cancelled, processPendingConnects,
      processPendingDisconnects, processPendingWrites, connect_client.
    repeat break_if; wire_unchanged.
  - unfold on_client_connection_error, find_pending,
      findAndRemovePendingConnect, findAndRemovePendingReconnect,
      schedule_reconnect.
    repeat break_if; wire_unchanged.
  - unfold on_client_established, find_pending,
      findAndRemovePendingConnect, findAndRemovePendingReconnect.
    repeat break_if; wire_unchanged.
  - unfold on_client_closed.
    repeat break_if; wire_unchanged.
  - unfold on_client_writeable.
    destruct (isGracefulShutdown ap && _); [wire_unchanged|].
    destruct (isGracefulShutdown ap && allBuffersAreEmpty ap
              && negb (m_lastMsgSent ap)) eqn:ST.
    { apply andb_true_iff in ST. destruct ST as [_ LS].
      apply negb_true_iff in LS.
      unfold send_stop. cbn.
      eapply wire_ok_stop;
        [exact W | exact LS | reflexivity | reflexivity | reflexivity
        | reflexivity | reflexivity | reflexivity]. }
    destruct (negb (m_firstMsgSent ap)) eqn:FM.
    { unfold send_start. cbn.
      eapply wire_ok_start;
        [exact W | reflexivity | reflexivity | reflexivity | reflexivity
        | reflexivity]. }
    apply negb_false_iff in FM.
    unfold getEventData.
    destruct (m_events ap) as [|data rest] eqn:EQ.
    + cbn [is_empty_text negb String.eqb].
      destruct (state_eqb (m_state ap) LWS_CLIENT_DISCONNECTING);
        [wire_unchanged | now apply wire_ok_send_media].
    + assert (CT : control_text data /\ Forall control_text rest).
      { destruct W as (Q & _). rewrite EQ in Q.
        split; [exact (Forall_inv Q) | exact (Forall_inv_tail Q)]. }
      destruct CT as [CT QR].
      destruct (negb (is_empty_text data)) eqn:ET.
      * apply negb_true_iff in ET.
        destruct short_write; cbn;
          (eapply wire_ok_send;
           [ exact W | exact FM | now apply control_text_not_start
           | now apply control_text_not_stop | exact ET | exact QR
           | reflexivity | reflexivity ]).
      * assert (W1 : wire_ok hist (set_m_events rest ap)).
        { destruct W as (Q & L & F & S & N). unfold wire_ok. cbn.
          repeat split; auto. }
        destruct (state_eqb (m_state (set_m_events rest ap))
                    LWS_CLIENT_DISCONNECTING);
          [wire_unchanged | now apply wire_ok_send_media].
  - unfold on_client_receive. repeat break_if; wire_unchanged.
  - unfold reconnect, connect_client, schedule_reconnect.
    repeat break_if; wire_unchanged.
  - unfold connect, addPendingConnect. repeat break_if; wire_unchanged.
  - unfold close, addPendingDisconnect. repeat break_if; wire_unchanged.
  - unfold graceful_shutdown. repeat break_if; wire_unchanged.
  - unfold addEventBuffer, addPendingWrite.
    break_if; cbn; rewrite ?app_nil_r; [exact W|].
    eapply wire_ok_enqueue;
      [exact W | | reflexivity | reflexivity | reflexivity]; exact I.
Qed.

Lemma step_wire_ok a e b :
  step a e b ->
  forall hist, wire_ok hist a -> wire_ok (hist ++ wire e) b.
Proof.
  induction 1; intros hist W.
  - now rewrite app_nil_r.
  - rewrite wire_app, app_assoc. auto.
  - rewrite wire_obs. now apply wire_ok_callback.
  - cbn. rewrite app_nil_r. unfold addEventBuffer, addPendingWrite.
    break_if; cbn; [exact W|].
    eapply wire_ok_enqueue;
      [exact W | | reflexivity | reflexivity | reflexivity]; exact I.
  - cbn. rewrite app_nil_r. unfold addEventBuffer, addPendingWrite.
    break_if; cbn;
      [ wire_unchanged
      | eapply wire_ok_enqueue;
        [exact W | | reflexivity | reflexivity | reflexivity]; exact I ].
  - cbn. rewrite app_nil_r. unfold addEventBuffer, addPendingWrite.
    cbn. break_if; cbn;
      [ wire_unchanged
      | eapply wire_ok_enqueue;
        [exact W | | reflexivity | reflexivity | reflexivity]; exact I ].
  - cbn. rewrite app_nil_r. unfold addEventBuffer, addPendingWrite.
    break_if; cbn;
      [ wire_unchanged
      | eapply wire_ok_enqueue;
        [exact W | | reflexivity | reflexivity | reflexivity]; exact I ].
  - unfold graceful_shutdown. repeat break_if; wire_unchanged.
  - unfold close, addPendingDisconnect. repeat break_if; wire_unchanged.
  - wire_unchanged.
  - unfold capture_write.
    destruct (if use_ob then _ else _) as [bb|]; [|wire_unchanged].
    destruct (Buffer_write bb src) as [b1 ok].
    destruct use_ob, (above_threshold b1), ok; wire_unchanged.
  - unfold addPendingWrite. wire_unchanged.
Qed.

Lemma wire_ok_new now uuid sid bufLen track extra codec sampling bidi :
  wire_ok []
    (AudioPipe_new now uuid sid bufLen track extra codec sampling bidi).
Proof.
  unfold wire_ok, AudioPipe_new. cbn.
  repeat split; try constructor; try discriminate.
Qed.

Lemma run_wire_ok now session_id sid codec sampling desiredSampling channels
    secs track bidi metadata acts :
  exists ap,
    wire_ok
      (wire (snd (run acts
                    (stream_data_init now session_id sid codec sampling
                       desiredSampling channels secs track bidi metadata))))
      ap.
Proof.
  pose proof (run_tracks acts
                (stream_data_init now session_id sid codec sampling
                   desiredSampling channels secs track bidi metadata)) as T.
  destruct (run acts _) as [w' effs]. cbn [fst snd] in *.
  cbn in T. destruct T as (ap' & S & P).
  exists ap'.
  pose proof (step_wire_ok _ _ _ S [] (wire_ok_new _ _ _ _ _ _ _ _ _)) as W.
  rewrite wire_obs in W. exact W.
Qed.

(** X4.  In every run of a session, a frame handed to the socket that is
    neither start nor stop (a media message or a text of the control queue)
    has the start message before it. *)
Theorem start_precedes_media_and_texts
    (now : Z) (session_id sid : string) (codec : streaming_codec_t)
    (sampling desiredSampling channels secs : Z) (track : string)
    (bidi : Z) (metadata : string) (acts : list action) :
  let sent :=
    wire (snd (run acts
                 (stream_data_init now session_id sid codec sampling
                    desiredSampling channels secs track bidi metadata))) in
  start_leads false sent = true
  /\ (forall l1 m l2,
        sent = l1 ++ m :: l2 -> is_start m = false -> is_stop m = false ->
        existsb is_start l1 = true).
Proof.
  cbv zeta.
  destruct (run_wire_ok now session_id sid codec sampling desiredSampling
              channels secs track bidi metadata acts) as (ap & _ & L & _).
  split; [exact L|]. intros l1 m l2 E S T.
  exact (start_leads_prefix _ _ _ _ L E S T).
Qed.

(** X5.  In every run of a session, the stop message is handed to the
    socket at most once. *)
Theorem stop_at_most_once
    (now : Z) (session_id sid : string) (codec : streaming_codec_t)
    (sampling desiredSampling channels secs : Z) (track : string)
    (bidi : Z) (metadata : string) (acts : list action) :
  count_msg is_stop
    (wire (snd (run acts
                  (stream_data_init now session_id sid codec sampling
                     desiredSampling channels secs track bidi metadata))))
  <= 1.
Proof.
  destruct (run_wire_ok now session_id sid codec sampling desiredSampling
              channels secs track bidi metadata acts)
    as (ap & _ & _ & _ & S & _).
  rewrite S. destruct (m_lastMsgSent ap); cbn; lia.
Qed.

(** X6.  In every run of a session, no empty text is handed to the socket:
    the empty text queued on CONNECT_SUCCESS, like any empty text given to
    send_text, leaves the queue without being sent. *)
Theorem empty_text_never_sent
    (now : Z) (session_id sid : string) (codec : streaming_codec_t)
    (sampling desiredSampling channels secs : Z) (track : string)
    (bidi : Z) (metadata : string) (acts : list action) :
  Forall (fun m => is_empty_text m = false)
    (wire (snd (run acts
                  (stream_data_init now session_id sid codec sampling
                     desiredSampling channels secs track bidi metadata)))).
Proof.
  destruct (run_wire_ok now session_id sid codec sampling desiredSampling
              channels secs track bidi metadata acts)
    as (ap & _ & _ & _ & _ & N).
  exact N.
Qed.

(** ** The G.711 helpers *)

Lemma int16_of_bytes_any z :
  int16_of_bytes (byte_of_Z z) (byte_of_Z (z / 256)) = int16 z.
Proof.
  unfold int16_of_bytes. rewrite !Z_of_byte_of_Z.
  unfold int16. Z.to_euclidean_division_equations. lia.
Qed.

Lemma g711u_encode_decode (d : list byte) :
  g711u_encode (g711u_decode d)
  = map (fun e => linear_to_ulaw (int16 (ulaw_to_linear e))) d.
Proof.
  unfold g711u_decode.
  induction d as [|e d IH]; [reflexivity|].
  cbn [flat_map bytes_of_int16 app g711u_encode map].
  rewrite int16_of_bytes_any, IH. reflexivity.
Qed.

Lemma g711u_encode_len :
  forall (n : nat) (p : list byte),
    (List.length p <= n)%nat -> len (g711u_encode p) = len p / 2.
Proof.
  induction n as [|n IH]; intros p H.
  - destruct p; [reflexivity | cbn in H; lia].
  - destruct p as [|lo [|hi rest]]; [reflexivity | reflexivity |].
    cbn [g711u_encode]. unfold len in *. cbn [List.length] in *.
    rewrite !Nat2Z.inj_succ, IH by lia.
    Z.to_euclidean_division_equations. lia.
Qed.

(** X7.  The two G.711 helpers.  Decoding yields two bytes for each byte
    given; encoding yields one byte for each whole 16-bit sample and drops
    an odd last byte; and encoding what was decoded applies the host's
    two tables, expansion then compression, to each byte in turn, so that a
    text is recovered wherever the host's compression undoes its
    expansion. *)
Theorem g711u_lengths_and_round_trip (d p : list byte) :
  len (g711u_decode d) = 2 * len d
  /\ len (g711u_encode p) = len p / 2
  /\ g711u_encode (g711u_decode d)
     = map (fun e => linear_to_ulaw (int16 (ulaw_to_linear e))) d
  /\ (Forall (fun e => -32768 <= ulaw_to_linear e <= 32767
                       /\ linear_to_ulaw (ulaw_to_linear e) = e) d ->
      g711u_encode (g711u_decode d) = d).
Proof.
  split; [|split; [|split]].
  - unfold g711u_decode, len.
    induction d as [|e d IH]; [reflexivity|].
    cbn [flat_map bytes_of_int16 app List.length].
    rewrite !Nat2Z.inj_succ. lia.
  - apply (g711u_encode_len (List.length p)). lia.
  - apply g711u_encode_decode.
  - intros F. rewrite g711u_encode_decode.
    induction F as [|e d [R E] F IH]; [reflexivity|].
    cbn [map]. rewrite (int16_small _ R), E, IH. reflexivity.
Qed.

(** ** The numbering of the media messages *)

Lemma media_of_app label (a b : list json_msg) :
  media_of label (a ++ b) = media_of label a ++ media_of label b.
Proof. unfold media_of. apply flat_map_app. Qed.

Lemma expected_media_S t0 n :
  expected_media t0 (S n)
  = expected_media t0 n
    ++ [(uint32 (Z.of_nat (S n)),
         time_str (t0 + Z.of_nat (S n) * 20000))].
Proof. unfold expected_media. rewrite seq_S, map_app. reflexivity. Qed.

Lemma uint32_succ (n : nat) :
  uint32 (uint32 (Z.of_nat n) + 1) = uint32 (Z.of_nat (S n)).
Proof.
  unfold uint32, wrap. rewrite Nat2Z.inj_succ, Z.add_mod_idemp_l by lia.
  reflexivity.
Qed.

(** Whatever leaves the two buffers' clocks and the track alone keeps the
    numbering. *)
Lemma numbered_same t0 hist a b :
  numbered t0 hist a ->
  m_bothTracks b = m_bothTracks a -> m_track b = m_track a ->
  option_map clock (m_audio_buffer b) = option_map clock (m_audio_buffer a) ->
  option_map clock (m_ob_audio_buffer b)
  = option_map clock (m_ob_audio_buffer a) ->
  numbered t0 hist b.
Proof.
  intros N E1 E2 E3 E4 label. destruct (N label) as (n & M & C).
  exists n. split; [exact M|].
  assert (K : option_map clock (buffer_of label b)
              = option_map clock (buffer_of label a)).
  { unfold buffer_of, needsBothTracks. rewrite E1, E2.
    repeat break_if; auto. }
  destruct (buffer_of label a) as [x|], (buffer_of label b) as [y|];
    try discriminate; [|exact C].
  unfold clock in K. cbn in K. injection K as K1 K2 K3 K4.
  unfold clocked. rewrite K1, K2, K3, K4. exact C.
Qed.

Lemma clock_write b d : clock (fst (Buffer_write b d)) = clock b.
Proof.
  unfold Buffer_write.
  destruct (switch_buffer.write _ _) as [fb w].
  destruct (w =? 0); reflexivity.
Qed.

Lemma clocked_read t0 n b :
  clocked t0 n b ->
  match snd (Buffer_read b) with
  | Some d =>
      clocked t0 (S n) (fst (Buffer_read b)) /\ (len d =? 0) = false
  | None => clock (fst (Buffer_read b)) = clock b
  end.
Proof.
  intros (C1 & C2 & C3 & C4).
  pose proof (Buffer_read_chunk b) as L.
  unfold Buffer_read in *.
  destruct (switch_buffer.read _ _) as [fb d].
  destruct (negb (len d =? chunk_size_bytes_ b)) eqn:E; cbn in *;
    [reflexivity|].
  split.
  - unfold clocked. cbn. rewrite C1, C2, C3, uint32_succ.
    repeat split; lia.
  - destruct L as [_ L]. specialize (L d eq_refl). apply Z.eqb_neq. lia.
Qed.

Ltac numbered_unchanged :=
  cbn; rewrite ?app_nil_r;
  first [ assumption
        | eapply numbered_same;
          [eassumption | reflexivity | reflexivity | reflexivity
          | reflexivity] ].

Lemma numbered_sent t0 hist ap L b x seq sid payload extra :
  numbered t0 hist ap -> buffer_of L ap = Some b ->
  buffer_of L x = Some (fst (Buffer_read b)) ->
  (forall label, label <> L -> buffer_of label x = buffer_of label ap) ->
  match snd (Buffer_read b) with
  | Some d =>
      (len d =? 0) = false
      /\ numbered t0
           (hist
            ++ [JMedia seq sid L
                  (time_str (last_send_time_ (fst (Buffer_read b))))
                  (transmitted_chunk_count_ (fst (Buffer_read b)))
                  payload extra]) x
  | None => numbered t0 hist x
  end.
Proof.
  intros N BL BX BO.
  destruct (N L) as (n & M & C). rewrite BL in C.
  pose proof (clocked_read t0 n b C) as R.
  destruct (snd (Buffer_read b)) as [d|].
  - destruct R as [C' NZ]. split; [exact NZ|].
    intros label. rewrite media_of_app. cbn [media_of flat_map app].
    destruct (String.eqb_spec L label) as [<-|NE].
    + exists (S n). rewrite BX. split; [|exact C'].
      rewrite expected_media_S, M, app_nil_r.
      destruct C' as (-> & -> & _). reflexivity.
    + rewrite (BO label) by congruence. rewrite !app_nil_r.
      exact (N label).
  - intros label. destruct (String.eqb_spec L label) as [<-|NE].
    + exists n. split; [exact M|]. rewrite BX.
      unfold clocked, clock in *. injection R as -> -> -> ->. exact C.
    + rewrite (BO label) by congruence. exact (N label).
Qed.

Ltac label_cases label :=
  destruct (String.eqb_spec label "inbound");
  destruct (String.eqb_spec label "outbound");
  subst; try reflexivity; try congruence.

(** The audio part of the writable callback, once the track and the
    buffer it reads are known: [K] is [numbered_sent] at that track, [rw]
    rewrites with what is known of the object. *)
Ltac numbered_track K N ap rw :=
  destruct (Buffer_read _) as [b' [d|]]; cbn [fst snd] in *;
  [ destruct (K (base64.base64_encode d)
               (extra_headers_member (m_extra_headers ap)) N) as [NZ K'];
    [ unfold buffer_of, needsBothTracks; now rw
    | unfold buffer_of, needsBothTracks; cbn; now rw
    | intros label NE; unfold buffer_of, needsBothTracks; cbn; rw;
      label_cases label
    | rewrite NZ; unfold flip_switch, needsBothTracks; cbn; rw; cbn;
      eapply numbered_same;
      [exact K' | reflexivity | reflexivity | reflexivity | reflexivity] ]
  | eassert (K' : numbered _ _ _);
    [ apply (K EmptyString None N);
      [ unfold buffer_of, needsBothTracks; now rw
      | unfold buffer_of, needsBothTracks; cbn; now rw
      | intros label NE; unfold buffer_of, needsBothTracks; cbn; rw;
        label_cases label ]
    | unfold flip_switch, needsBothTracks, isGracefulShutdown; cbn; rw;
      repeat break_if; cbn; rewrite ?app_nil_r;
      (eapply numbered_same;
       [exact K' | reflexivity | reflexivity | reflexivity | reflexivity]) ]
  ].

Lemma numbered_send_media t0 hist locked ap :
  numbered t0 hist ap ->
  numbered t0 (hist ++ wire (snd (fst (send_media locked ap))))
    (fst (fst (send_media locked ap))).
Proof.
  intros N. unfold send_media.
  destruct (if needsBothTracks ap && m_switch ap then m_ob_audio_buffer ap
            else m_audio_buffer ap) as [b|] eqn:EB; [|numbered_unchanged].
  destruct locked; [|numbered_unchanged]. cbn [negb].
  cbn [generate_json_data_event].
  unfold needsBothTracks in *.
  destruct (m_bothTracks ap) eqn:BT;
    [destruct (m_switch ap) eqn:SW
    |destruct (String.eqb (m_track ap) "inbound") eqn:TR];
    cbn [andb Z.eqb] in *.
  - pose proof (numbered_sent t0 hist ap "outbound" b
                  (set_m_ob_audio_buffer (Some (fst (Buffer_read b))) ap)
                  (m_sequenceNumber ap) (m_streamid ap)) as K.
    numbered_track K N ap ltac:(rewrite BT).
  - pose proof (numbered_sent t0 hist ap "inbound" b
                  (set_m_audio_buffer (Some (fst (Buffer_read b))) ap)
                  (m_sequenceNumber ap) (m_streamid ap)) as K.
    numbered_track K N ap ltac:(rewrite BT).
  - pose proof (numbered_sent t0 hist ap "inbound" b
                  (set_m_audio_buffer (Some (fst (Buffer_read b))) ap)
                  (m_sequenceNumber ap) (m_streamid ap)) as K.
    numbered_track K N ap ltac:(rewrite BT, ?TR).
  - pose proof (numbered_sent t0 hist ap "outbound" b
                  (set_m_audio_buffer (Some (fst (Buffer_read b))) ap)
                  (m_sequenceNumber ap) (m_streamid ap)) as K.
    numbered_track K N ap ltac:(rewrite BT, ?TR).
Qed.

Lemma numbered_callback t0 hist ev ap :
  Forall control_text (m_events ap) ->
  numbered t0 hist ap ->
  numbered t0 (hist ++ wire (snd (fst (lws_callback ev ap))))
    (fst (fst (lws_callback ev ap))).
Proof.
  intros Q N.
  destruct ev; cbn [lws_callback].
  - unfold on_event_wait_cancelled, processPendingConnects,
      processPendingDisconnects, processPendingWrites, connect_client.
    repeat break_if; numbered_unchanged.
  - unfold on_client_connection_error, find_pending,
      findAndRemovePendingConnect, findAndRemovePendingReconnect,
      schedule_reconnect.
    repeat break_if; numbered_unchanged.
  - unfold on_client_established, find_pending,
      findAndRemovePendingConnect, findAndRemovePendingReconnect.
    repeat break_if; numbered_unchanged.
  - unfold on_client_closed.
    repeat break_if; numbered_unchanged.
  - unfold on_client_writeable.
    destruct (isGracefulShutdown ap && _); [numbered_unchanged|].
    destruct (isGracefulShutdown ap && allBuffersAreEmpty ap
              && negb (m_lastMsgSent ap)).
    { unfold send_stop. cbn. intros label. rewrite media_of_app. cbn.
      rewrite app_nil_r. exact (N label). }
    destruct (negb (m_firstMsgSent ap)).
    { unfold send_start. cbn. intros label. rewrite media_of_app. cbn.
      rewrite app_nil_r. exact (N label). }
    unfold getEventData.
    destruct (m_events ap) as [|data rest] eqn:EQ.
    + cbn [is_empty_text negb String.eqb].
      destruct (state_eqb (m_state ap) LWS_CLIENT_DISCONNECTING);
        [numbered_unchanged | now apply numbered_send_media].
    + assert (N1 : numbered t0 hist (set_m_events rest ap))
        by (eapply numbered_same;
            [exact N | reflexivity | reflexivity | reflexivity
            | reflexivity]).
      destruct (negb (is_empty_text data)) eqn:ET.
      * assert (CT : control_text data)
          by exact (Forall_inv Q).
        assert (M : forall label, media_of label [data] = [])
          by (intros label; destruct data; cbn in *; tauto).
        destruct short_write; cbn; intros label;
          rewrite media_of_app, M, app_nil_r; exact (N1 label).
      * destruct (state_eqb (m_state (set_m_events rest ap))
                    LWS_CLIENT_DISCONNECTING);
          [numbered_unchanged | now apply numbered_send_media].
  - unfold on_client_receive. repeat break_if; numbered_unchanged.
  - unfold reconnect, connect_client, schedule_reconnect.
    repeat break_if; numbered_unchanged.
  - unfold connect, addPendingConnect. repeat break_if; numbered_unchanged.
  - unfold close, addPendingDisconnect. repeat break_if; numbered_unchanged.
  - unfold graceful_shutdown. repeat break_if; numbered_unchanged.
  - unfold addEventBuffer, addPendingWrite.
    repeat break_if; numbered_unchanged.
Qed.

Lemma step_numbered t0 a e b :
  step a e b ->
  forall hist,
    wire_ok hist a -> numbered t0 hist a -> numbered t0 (hist ++ wire e) b.
Proof.
  induction 1; intros hist W N.
  - now rewrite app_nil_r.
  - rewrite wire_app, app_assoc.
    apply IHstep2; [eapply step_wire_ok; eassumption | now apply IHstep1].
  - rewrite wire_obs. apply numbered_callback; [apply W | exact N].
  - unfold addEventBuffer, addPendingWrite.
    repeat break_if; numbered_unchanged.
  - unfold addEventBuffer, addPendingWrite.
    repeat break_if; numbered_unchanged.
  - unfold addEventBuffer, addPendingWrite.
    cbn. repeat break_if; numbered_unchanged.
  - unfold addEventBuffer, addPendingWrite.
    repeat break_if; numbered_unchanged.
  - unfold graceful_shutdown. repeat break_if; numbered_unchanged.
  - unfold close, addPendingDisconnect. repeat break_if; numbered_unchanged.
  - cbn. rewrite app_nil_r.
    eapply numbered_same; [exact N | reflexivity | reflexivity | |]; cbn;
      [destruct (m_audio_buffer ap) | destruct (m_ob_audio_buffer ap)];
      reflexivity.
  - unfold capture_write.
    destruct use_ob.
    + destruct (m_ob_audio_buffer ap) as [bb|] eqn:EB; [|numbered_unchanged].
      pose proof (clock_write bb src) as CW.
      destruct (Buffer_write bb src) as [b1 ok]. cbn [fst] in CW.
      assert (K : numbered t0 hist
                    (set_m_ob_audio_buffer
                       (Some (if above_threshold b1
                              then set_degradation b1
                                     (uint8
                                        (degradation_notification_sent_ b1
                                         + 1))
                              else b1)) ap)).
      { eapply numbered_same; [exact N | reflexivity | reflexivity
                              | reflexivity |].
        destruct (above_threshold b1); cbn; rewrite EB; cbn; rewrite <- CW;
          reflexivity. }
      destruct (above_threshold b1), ok; cbn; rewrite ?app_nil_r; exact K.
    + destruct (m_audio_buffer ap) as [bb|] eqn:EB; [|numbered_unchanged].
      pose proof (clock_write bb src) as CW.
      destruct (Buffer_write bb src) as [b1 ok]. cbn [fst] in CW.
      assert (K : numbered t0 hist
                    (set_m_audio_buffer
                       (Some (if above_threshold b1
                              then set_degradation b1
                                     (uint8
                                        (degradation_notification_sent_ b1
                                         + 1))
                              else b1)) ap)).
      { eapply numbered_same; [exact N | reflexivity | reflexivity
                              | | reflexivity].
        destruct (above_threshold b1); cbn; rewrite EB; cbn; rewrite <- CW;
          reflexivity. }
      destruct (above_threshold b1), ok; cbn; rewrite ?app_nil_r; exact K.
  - unfold addPendingWrite. numbered_unchanged.
Qed.

Lemma numbered_new now uuid sid bufLen track extra codec sampling bidi :
  8000 <= sampling ->
  (if codec_eqb codec ULAW then ULAW_FRAME_SIZE_8KHZ_20MS
   else L16_FRAME_SIZE_8KHZ_20MS) * Z.quot sampling 8000 < 2 ^ 32 ->
  numbered now []
    (AudioPipe_new now uuid sid bufLen track extra codec sampling bidi).
Proof.
  intros S B label. exists 0%nat. split; [reflexivity|].
  assert (Q : 1 <= Z.quot sampling 8000)
    by (apply Z.quot_le_lower_bound; lia).
  assert (C : forall c,
             c = (if codec_eqb codec ULAW then ULAW_FRAME_SIZE_8KHZ_20MS
                  else L16_FRAME_SIZE_8KHZ_20MS) * Z.quot sampling 8000 ->
             clocked now 0 (Buffer_new now bufLen c 20)).
  { intros c ->. unfold clocked, Buffer_new. cbn.
    repeat split; try lia.
    rewrite uint32_small; [|split; [|exact B]];
      unfold ULAW_FRAME_SIZE_8KHZ_20MS, L16_FRAME_SIZE_8KHZ_20MS in *;
      destruct (codec_eqb codec ULAW); lia. }
  unfold buffer_of, AudioPipe_new, needsBothTracks. cbn.
  repeat break_if; try reflexivity; apply C; reflexivity.
Qed.

Lemma expected_media_length t0 n : List.length (expected_media t0 n) = n.
Proof. unfold expected_media. now rewrite length_map, length_seq. Qed.

Lemma expected_media_nth t0 n k x :
  nth_error (expected_media t0 n) k = Some x ->
  x = (uint32 (Z.of_nat k + 1),
       time_str (t0 + (Z.of_nat k + 1) * 20000)).
Proof.
  unfold expected_media. intros H.
  rewrite nth_error_map in H.
  destruct (nth_error (seq 1 n) k) as [i|] eqn:E; [|discriminate].
  injection H as <-.
  assert (K : (k < n)%nat).
  { pose proof (nth_error_Some (seq 1 n) k) as S. rewrite length_seq in S.
    apply S. congruence. }
  rewrite (nth_error_nth' _ 0%nat) in E by (now rewrite length_seq).
  rewrite seq_nth in E by exact K. injection E as <-.
  replace (Z.of_nat (1 + k)) with (Z.of_nat k + 1) by lia.
  replace (Z.of_nat (S k)) with (Z.of_nat k + 1) by lia. reflexivity.
Qed.

(** X8.  The numbering of the media messages.  In every run of a session
    streamed at 8000 Hz or more, the media messages the module makes for a
    track are numbered from 1 on without a gap (modulo 2^32), and the
    [k]-th is stamped with the time the buffer was made plus [k] steps of
    20 ms, whatever the clock reads when it is sent. *)
Theorem media_chunks_numbered
    (now : Z) (session_id sid : string) (codec : streaming_codec_t)
    (sampling desiredSampling channels secs : Z) (track : string)
    (bidi : Z) (metadata : string) (acts : list action) (label : string) :
  8000 <= desiredSampling ->
  base_frame_size codec * Z.quot desiredSampling 8000 < 2 ^ 32 ->
  let sent :=
    media_of label
      (wire (snd (run acts
                    (stream_data_init now session_id sid codec sampling
                       desiredSampling channels secs track bidi metadata))))
  in
  sent = expected_media now (List.length sent)
  /\ (forall k chunk timestamp,
        nth_error sent k = Some (chunk, timestamp) ->
        chunk = uint32 (Z.of_nat k + 1)
        /\ timestamp = time_str (now + (Z.of_nat k + 1) * 20000)).
Proof.
  intros S B. cbv zeta.
  set (w0 := stream_data_init _ _ _ _ _ _ _ _ _ _ _).
  pose proof (run_tracks acts w0) as T.
  destruct (run acts w0) as [w' effs]. cbn [fst snd] in *.
  cbn in T. destruct T as (ap' & ST & _).
  assert (B' : (if codec_eqb codec ULAW then ULAW_FRAME_SIZE_8KHZ_20MS
                else L16_FRAME_SIZE_8KHZ_20MS) * Z.quot desiredSampling 8000
               < 2 ^ 32) by (destruct codec; exact B).
  pose proof (step_numbered now _ _ _ ST []
                (wire_ok_new _ _ _ _ _ _ _ _ _)
                (numbered_new _ _ _ _ _ _ _ _ _ S B') label) as (n & M & _).
  cbn [app] in M. rewrite wire_obs in M. rewrite M.
  rewrite expected_media_length. split; [reflexivity|].
  intros k chunk timestamp H.
  apply expected_media_nth in H. now injection H.
Qed.

(** ** What a session does to its context *)

Lemma session_tracks_trans o e1 w1 e2 w2 :
  session_tracks o e1 w1 -> session_tracks (channel_private w1) e2 w2 ->
  session_tracks o (e1 ++ e2) w2.
Proof.
  destruct o as [t|]; cbn.
  - intros (t1 & S1 & [P1|P1]) T2; rewrite P1 in T2; cbn in T2.
    + destruct T2 as (t2 & S2 & P2). exists t2. split; [|exact P2].
      rewrite host_events_app. eapply sstep_trans; eassumption.
    + destruct T2 as [O2 P2]. exists t1. split; [|now right].
      rewrite host_events_app, O2, app_nil_r. exact S1.
  - intros [O1 P1] T2. rewrite P1 in T2. cbn in T2. destruct T2 as [O2 P2].
    split; [|exact P2]. rewrite host_events_app, O1, O2. reflexivity.
Qed.

(** A part of the code that reports nothing and leaves the context (or
    destroys it). *)
Lemma session_tracks_silent w e w' :
  host_events e = [] ->
  channel_private w' = channel_private w \/ channel_private w' = None ->
  session_tracks (channel_private w) e w'.
Proof.
  intros O H. destruct (channel_private w) as [t|] eqn:E.
  - exists t. rewrite O. split; [apply sstep_refl|].
    destruct H; [now left | now right].
  - split; [exact O | now destruct H].
Qed.

Lemma session_tracks_same w : session_tracks (channel_private w) [] w.
Proof. apply session_tracks_silent; [reflexivity | now left]. Qed.

(** A part of the code that moves flags of the context and reports on the
    connection. *)
Lemma session_tracks_report t e w' t' :
  Forall (fun x => In (fst x) connection_events) (host_events e) ->
  playback_fields t' = playback_fields t ->
  channel_private w' = Some t' \/ channel_private w' = None ->
  session_tracks (Some t) e w'.
Proof.
  intros F P H. exists t'. split; [|exact H]. now apply sstep_report.
Qed.

Lemma stream_session_cleanup_private w :
  channel_private (fst (stream_session_cleanup w)) = None.
Proof.
  unfold stream_session_cleanup.
  destruct (channel_private w) eqn:E; [reflexivity | exact E].
Qed.

Lemma lws_callback_host_events ev ap :
  host_events (snd (fst (lws_callback ev ap))) = [].
Proof.
  destruct ev; cbn [lws_callback].
  - unfold on_event_wait_cancelled, processPendingConnects,
      processPendingDisconnects, processPendingWrites, connect_client.
    repeat break_if; reflexivity.
  - unfold on_client_connection_error, find_pending,
      findAndRemovePendingConnect, findAndRemovePendingReconnect,
      schedule_reconnect.
    repeat break_if; reflexivity.
  - unfold on_client_established, find_pending,
      findAndRemovePendingConnect, findAndRemovePendingReconnect.
    repeat break_if; reflexivity.
  - unfold on_client_closed. repeat break_if; reflexivity.
  - unfold on_client_writeable, send_stop, send_start, getEventData,
      send_media, flip_switch.
    cbn [generate_json_data_event].
    repeat first [ break_if
                 | match goal with
                   | |- context [match ?x with _ => _ end] => destruct x
                   end ]; reflexivity.
  - unfold on_client_receive. repeat break_if; reflexivity.
  - unfold reconnect, connect_client, schedule_reconnect.
    repeat break_if; reflexivity.
  - reflexivity.
  - unfold close, addPendingDisconnect. repeat break_if; reflexivity.
  - reflexivity.
  - unfold addEventBuffer, addPendingWrite. repeat break_if; reflexivity.
Qed.

Lemma sstep_one a e b : sstep a (e ++ []) b -> sstep a e b.
Proof. now rewrite app_nil_r. Qed.

Lemma processPlayAudioEvent_sstep payload json read_codec t ap :
  sstep t
    (host_events (snd (processPlayAudioEvent payload json read_codec t ap)))
    (fst (fst (processPlayAudioEvent payload json read_codec t ap))).
Proof.
  unfold processPlayAudioEvent.
  assert (I : forall line reason,
             sstep t
               (host_events
                  (snd (let '(t0, a, e) :=
                          sendIncorrectPayloadEvent payload reason t ap in
                        (t0, a,
                         switch_log_printf SWITCH_LOG_ERROR line :: e))))
               (fst (fst (let '(t0, a, e) :=
                            sendIncorrectPayloadEvent payload reason t ap in
                          (t0, a,
                           switch_log_printf SWITCH_LOG_ERROR line :: e))))).
  { intros line reason.
    pose proof (sstep_incorrect payload reason t ap) as S.
    destruct (sendIncorrectPayloadEvent payload reason t ap) as [[t0 a] e].
    exact S. }
  destruct (j_media json) as [jm|]; [|apply I].
  destruct (j_payload jm) as [jp|]; [|apply I].
  destruct (j_contentType jm) as [ct|]; [|apply I].
  destruct (j_sampleRate jm) as [v|]; [|apply I].
  cbv zeta.
  set (l1 := if negb (v =? 8000) && negb (v =? 16000) then [_] else []).
  set (rcvd := if negb (v =? 8000) && negb (v =? 16000) then 8000 else v).
  assert (L : host_events l1 = []).
  { subst l1. destruct (negb (v =? 8000) && negb (v =? 16000)); reflexivity. }
  clearbody l1 rcvd.
  assert (I' : forall line reason pre,
             host_events pre = [] ->
             sstep t
               (host_events
                  (snd (let '(t0, a, e) :=
                          (let '(t0, a, e) :=
                             sendIncorrectPayloadEvent payload reason t ap in
                           (t0, a,
                            switch_log_printf SWITCH_LOG_ERROR line :: e))
                        in (t0, a, l1 ++ pre ++ e))))
               (fst (fst (let '(t0, a, e) :=
                            (let '(t0, a, e) :=
                               sendIncorrectPayloadEvent payload reason t ap in
                             (t0, a,
                              switch_log_printf SWITCH_LOG_ERROR line :: e))
                          in (t0, a, l1 ++ pre ++ e))))).
  { intros line reason pre P.
    pose proof (sstep_incorrect payload reason t ap) as S.
    destruct (sendIncorrectPayloadEvent payload reason t ap) as [[t0 a] e].
    cbn [fst snd] in *. rewrite !host_events_app, L, P. exact S. }
  assert (ST : forall codec l2,
             host_events l2 = [] ->
             sstep t (host_events (l1 ++ l2))
               (storePayload (decoded_payload jp) codec rcvd
                  match read_codec with
                  | Some actual_samples_per_second =>
                      actual_samples_per_second
                  | None => 8000
                  end t)).
  { intros codec l2 P. rewrite host_events_app, L, P. apply sstep_store. }
  destruct (String.eqb ct "audio/x-l16"); [now apply ST|].
  destruct (String.eqb ct "audio/x-mulaw").
  - destruct (negb (rcvd =? 8000)); [|now apply ST].
    apply (I' _ _ [switch_log_printf SWITCH_LOG_INFO
                     "received content type."]). reflexivity.
  - destruct (String.eqb ct "raw" || String.eqb ct "wav"); [now apply ST|].
    apply (I' _ _ []). reflexivity.
Qed.

Lemma processIncomingMessage_sstep message read_codec t ap :
  sstep t
    (host_events (snd (processIncomingMessage message read_codec t ap)))
    (fst (fst (processIncomingMessage message read_codec t ap))).
Proof.
  unfold processIncomingMessage.
  destruct (cJSON_Parse message) as [json|]; [|apply sstep_incorrect].
  destruct (j_event json) as [event|]; [|apply sstep_incorrect].
  destruct (String.eqb event "media.play");
    [apply processPlayAudioEvent_sstep|].
  destruct (String.eqb event "media.checkpoint").
  { pose proof (sstep_checkpoint (j_name json) t) as S.
    assert (H : host_events (snd (processCheckpointEvent (j_name json) t))
                = []).
    { unfold processCheckpointEvent.
      destruct (j_name json); [destruct (_ =? 0)|]; reflexivity. }
    destruct (processCheckpointEvent (j_name json) t) as [t1 e].
    cbn [fst snd] in *. rewrite H. exact S. }
  destruct (String.eqb event "media.clear"); [apply sstep_clear|].
  destruct (String.eqb event "transcription.send");
    [|apply sstep_incorrect].
  cbn. apply sstep_report; [|reflexivity].
  constructor; [|constructor]. cbn. tauto.
Qed.

Lemma host_events_cons ev p e :
  host_events (response_handler ev p :: e) = (ev, p) :: host_events e.
Proof. reflexivity. Qed.

Ltac connection_event :=
  repeat constructor; cbn; tauto.

Lemma stream_session_graceful_shutdown_session now w :
  session_tracks (channel_private w)
    (snd (fst (stream_session_graceful_shutdown now w)))
    (fst (fst (stream_session_graceful_shutdown now w))).
Proof.
  unfold stream_session_graceful_shutdown.
  destruct (channel_private w) as [t|] eqn:EP;
    [|split; [reflexivity | exact EP]].
  unfold pointee. cbn [audio_pipe_ptr set_tp_graceful_shutdown].
  destruct (audio_pipe_ptr t); [destruct (pipe w)|]; cbn;
    exists (set_tp_graceful_shutdown true t);
    (split; [apply sstep_report; [constructor | reflexivity]
            | left; reflexivity]).
Qed.

Lemma eventCallback_session event message now read_codec w :
  session_tracks (channel_private w)
    (snd (eventCallback event message now read_codec w))
    (fst (eventCallback event message now read_codec w)).
Proof.
  unfold eventCallback.
  destruct (channel_private w) as [t|] eqn:EP;
    [|split; [reflexivity | exact EP]].
  destruct event.
  - (* CONNECT_SUCCESS *)
    destruct (pipe w) as [ap|].
    + set (ap2 := set_m_ob_audio_buffer _ _).
      pose proof (addEventBuffer_host_events (JText "") ap2) as O.
      destruct (addEventBuffer (JText "") ap2) as [[ap3 e] b].
      cbn [fst snd] in *.
      eapply session_tracks_report; [| |left; reflexivity];
        [rewrite host_events_cons, O; connection_event | reflexivity].
    + eapply session_tracks_report; [| |left; reflexivity];
        [connection_event | reflexivity].
  - (* CONNECT_FAIL *)
    cbv zeta.
    destruct (audio_pipe_ptr t) eqn:PT; destruct (channel_closing t);
      cbn [fst snd].
    + eapply session_tracks_report; [| |left; reflexivity];
        [connection_event | reflexivity].
    + eapply (session_tracks_report t _ _ t);
        [connection_event | reflexivity
        | right; apply stream_session_cleanup_private].
    + eapply (session_tracks_report t _ _ t);
        [connection_event | reflexivity | left; exact EP].
    + eapply (session_tracks_report t _ _ t);
        [connection_event | reflexivity
        | right; apply stream_session_cleanup_private].
  - (* CONNECTION_DROPPED *)
    destruct (channel_closing t); cbn [fst snd].
    + eapply session_tracks_report; [| |left; reflexivity];
        [connection_event | reflexivity].
    + eapply (session_tracks_report t _ _ t);
        [connection_event | reflexivity
        | right; apply stream_session_cleanup_private].
  - (* CONNECTION_CLOSED_GRACEFULLY *)
    destruct (channel_closing t); cbn [fst snd].
    + eapply session_tracks_report; [| |left; reflexivity];
        [constructor | reflexivity].
    + eapply (session_tracks_report t _ _ t);
        [constructor | reflexivity
        | right; apply stream_session_cleanup_private].
  - (* CONNECTION_TIMEOUT *)
    set (t1 := set_stream_termination_reason _ t).
    set (w0 := set_channel_private (Some t1) w).
    pose proof (stream_session_graceful_shutdown_session now w0) as T.
    destruct (stream_session_graceful_shutdown now w0) as [[w1 e] s].
    cbn [fst snd] in *.
    assert (T0 : session_tracks (Some t)
                   [response_handler EVENT_CONNECT_TIMEOUT
                      (members [("streamId", stream_id t);
                                ("reason", message)])] w0).
    { eapply session_tracks_report; [| |left; reflexivity];
        [connection_event | reflexivity]. }
    exact (session_tracks_trans _ _ _ _ _ T0 T).
  - (* CONNECTION_DEGRADED *)
    eapply (session_tracks_report t _ _ t);
      [connection_event | reflexivity | left; exact EP].
  - (* MESSAGE *)
    destruct (pipe w) as [ap|].
    + pose proof (processIncomingMessage_sstep message read_codec t ap) as S.
      destruct (processIncomingMessage message read_codec t ap)
        as [[t1 ap1] e].
      cbn [fst snd] in *. exists t1. split; [exact S | now left].
    + exists t. split; [apply sstep_refl | left; exact EP].
Qed.

Lemma react_session effs now read_codec :
  host_events effs = [] ->
  forall w,
    session_tracks (channel_private w) (snd (react effs now read_codec w))
      (fst (react effs now read_codec w)).
Proof.
  induction effs as [|x rest IH]; intros H w.
  - apply session_tracks_same.
  - assert (HH : host_events [x] = [] /\ host_events rest = [])
      by (apply app_eq_nil; rewrite <- host_events_app; exact H).
    destruct HH as [HX HR].
    assert (D : forall w0 : world,
               channel_private w0 = channel_private w ->
               session_tracks (channel_private w)
                 (x :: snd (react rest now read_codec w0))
                 (fst (react rest now read_codec w0))).
    { intros w0 E0. pose proof (IH HR w0) as T. rewrite E0 in T.
      change (x :: snd (react rest now read_codec w0))
        with ([x] ++ snd (react rest now read_codec w0)).
      eapply session_tracks_trans; [|rewrite E0; exact T].
      apply session_tracks_silent; [exact HX | left; exact E0]. }
    destruct x; cbn [react];
      try (specialize (D w eq_refl); destruct (react rest now read_codec w);
           exact D).
    + (* notify *)
      pose proof (eventCallback_session e message now read_codec w) as T1.
      destruct (eventCallback e message now read_codec w) as [w1 e1].
      cbn [fst snd] in T1.
      pose proof (IH HR w1) as T2.
      destruct (react rest now read_codec w1) as [w2 e2]. cbn [fst snd] in *.
      change (notify e message :: e1 ++ e2)
        with ([notify e message] ++ e1 ++ e2).
      eapply session_tracks_trans;
        [apply session_tracks_same|].
      exact (session_tracks_trans _ _ _ _ _ T1 T2).
    + (* delete_ap *)
      specialize (D (set_pipe None w) eq_refl).
      destruct (react rest now read_codec (set_pipe None w)). exact D.
Qed.

Lemma capture_write_host_events use_ob src ap :
  host_events (snd (fst (capture_write use_ob src ap))) = [].
Proof.
  unfold capture_write.
  destruct (if use_ob then _ else _) as [bb|]; [|reflexivity].
  destruct (Buffer_write bb src) as [b1 ok].
  destruct (above_threshold b1), ok; reflexivity.
Qed.

Lemma frame_loop_session frames use_ob resample now :
  forall w ok,
    session_tracks (channel_private w)
      (snd (fst (frame_loop frames use_ob resample now w ok)))
      (fst (fst (frame_loop frames use_ob resample now w ok))).
Proof.
  induction frames as [|frame more IH]; intros w ok.
  - apply session_tracks_same.
  - cbn [frame_loop].
    destruct (cng frame); [apply session_tracks_same|].
    destruct (datalen frame =? 0); [apply IH|].
    destruct (pipe w) as [ap|]; [|apply session_tracks_same].
    set (src := if resample then _ else _).
    pose proof (capture_write_host_events use_ob src ap) as O.
    destruct (capture_write use_ob src ap) as [[ap1 notes] ok1].
    cbn [fst snd] in O.
    pose proof (react_session notes now None O (set_pipe (Some ap1) w)) as T1.
    destruct (react notes now None (set_pipe (Some ap1) w)) as [w1 e1].
    cbn [fst snd] in T1.
    specialize (IH w1 ok1).
    destruct (frame_loop more use_ob resample now w1 ok1) as [[w2 e2] r].
    cbn [fst snd] in *.
    exact (session_tracks_trans _ _ _ _ _ T1 IH).
Qed.

Lemma stream_frame_session inbound_bug frames trylock now w :
  session_tracks (channel_private w)
    (snd (stream_frame inbound_bug frames trylock now w))
    (fst (stream_frame inbound_bug frames trylock now w)).
Proof.
  unfold stream_frame.
  destruct (channel_private w) as [t|] eqn:EP;
    [|split; [reflexivity | exact EP]].
  rewrite <- EP.
  destruct (audio_paused t || tp_graceful_shutdown t || negb (mutex t));
    [apply session_tracks_same|].
  destruct (negb trylock); [apply session_tracks_same|].
  destruct (pointee t (pipe w)) as [ap|]; [|apply session_tracks_same].
  destruct (negb (state_eqb (getLwsState ap) LWS_CLIENT_CONNECTED));
    [apply session_tracks_same|].
  set (use_ob := needsBothTracks ap && negb inbound_bug).
  set (resample := if use_ob then _ else _).
  pose proof (frame_loop_session frames use_ob resample now w true) as T.
  destruct (frame_loop frames use_ob resample now w true) as [[w1 e] ok].
  cbn [fst snd] in T.
  destruct ok; [|exact T].
  destruct (pipe w1) as [ap1|]; [|exact T].
  cbn [addPendingWrite fst snd].
  eapply session_tracks_trans; [exact T|].
  apply session_tracks_silent; [reflexivity | left; reflexivity].
Qed.

(** Whatever happens to a session, its context moves by steps, and nothing
    else is reported to the host. *)
Lemma run_action_session a w :
  session_tracks (channel_private w) (snd (run_action a w))
    (fst (run_action a w)).
Proof.
  destruct a; cbn [run_action].
  - (* transport *)
    destruct (pipe w) as [ap|]; [|apply session_tracks_same].
    pose proof (lws_callback_host_events ev ap) as O.
    destruct (lws_callback ev ap) as [[ap1 effs] r]. cbn [fst snd] in O.
    exact (react_session effs now read_codec O (set_pipe (Some ap1) w)).
  - (* replace_frame *)
    destruct (channel_private w) as [t|] eqn:EP;
      [|split; [reflexivity | exact EP]].
    pose proof (sstep_replace rframe t (pipe w)) as S.
    destruct (write_replace rframe t (pipe w)) as [[[t1 p1] f] e].
    cbn [fst snd] in *. exists t1. split; [exact S | now left].
  - (* capture *)
    apply stream_frame_session.
  - (* cmd_send_text *)
    unfold stream_session_send_text.
    destruct (channel_private w) as [t|] eqn:EP;
      [|split; [reflexivity | exact EP]].
    rewrite <- EP.
    destruct (pointee t (pipe w)) as [ap|]; [|apply session_tracks_same].
    destruct text as [txt|]; [|apply session_tracks_same].
    pose proof (addEventBuffer_host_events (JText txt) ap) as O.
    destruct (addEventBuffer (JText txt) ap) as [[ap1 e] b].
    cbn [fst snd] in *.
    apply session_tracks_silent; [exact O | left; reflexivity].
  - (* cmd_graceful_shutdown *)
    pose proof (stream_session_graceful_shutdown_session now w) as T.
    destruct (stream_session_graceful_shutdown now w) as [[w1 e] s].
    exact T.
  - (* cmd_pauseresume *)
    unfold stream_session_pauseresume.
    destruct (channel_private w) as [t|] eqn:EP;
      [|split; [reflexivity | exact EP]].
    cbn [fst snd].
    eapply session_tracks_report; [constructor | | left; reflexivity].
    reflexivity.
  - (* cmd_stop *)
    unfold stream_ws_close_connection.
    destruct (channel_private w) as [t|] eqn:EP;
      [|split; [reflexivity | exact EP]].
    destruct (pointee t (pipe w)) as [ap|];
      [|rewrite <- EP; apply session_tracks_same].
    unfold close, addPendingDisconnect. break_if; cbn;
    exists (set_channel_closing true t);
    (split; [apply sstep_report; [constructor | reflexivity]
            | left; reflexivity]).
Qed.

Lemma run_session acts :
  forall w,
    session_tracks (channel_private w) (snd (run acts w)) (fst (run acts w)).
Proof.
  induction acts as [|a rest IH]; intros w.
  - apply session_tracks_same.
  - cbn [run].
    pose proof (run_action_session a w) as T1.
    destruct (run_action a w) as [w1 e1]. cbn [fst snd] in T1.
    specialize (IH w1).
    destruct (run rest w1) as [w2 e2]. cbn [fst snd] in *.
    exact (session_tracks_trans _ _ _ _ _ T1 IH).
Qed.

(** ** The accounting of the inbound audio *)

Lemma uint32_range z : 0 <= uint32 z < 2 ^ 32.
Proof. unfold uint32, wrap. apply Z.mod_pos_bound. lia. Qed.

Lemma uint32_add_l a b : uint32 (uint32 a + b) = uint32 (a + b).
Proof. unfold uint32, wrap. apply Z.add_mod_idemp_l. lia. Qed.

Lemma fire_checkpoints_fields length cps :
  forall t p,
    let t' := fst (fst (fire_checkpoints length cps t p)) in
    stream_id t' = stream_id t
    /\ write_buffer t' = write_buffer t
    /\ stream_input_received t' = stream_input_received t
    /\ stream_input_played t' = stream_input_played t
    /\ invalid_stream_input_notified t' = invalid_stream_input_notified t.
Proof.
  induction cps as [|head next IH]; intros t p; cbv zeta.
  - cbn. repeat split.
  - cbn [fire_checkpoints].
    destruct (size_t (stream_input_played t + length - 1) <? position head).
    + cbn. repeat split.
    + destruct (stream_ws_send_played_event (name head) t p) as [[p1 e1] st].
      specialize (IH t p1). cbv zeta in IH.
      destruct (fire_checkpoints length next t p1) as [[t1 p2] e3].
      exact IH.
Qed.

Lemma conserved_write (t t1 : private_data_t) (block : list byte) :
  conserved t ->
  stream_input_played t1 = stream_input_played t ->
  stream_input_received t1
  = uint32 (stream_input_received t + len block) ->
  write_buffer t1 = buffer_write_opt (write_buffer t) block ->
  conserved t1.
Proof.
  intros (P & R & B) E1 E2 E3. unfold conserved.
  rewrite E1, E2, E3. split; [exact P|]. split; [apply uint32_range|].
  destruct (write_buffer t) as [wb|]; [|exact I]. cbn [buffer_write_opt].
  destruct B as [M C]. unfold switch_buffer.write, switch_buffer.inuse in *.
  destruct (len block =? 0) eqn:Z0.
  - apply Z.eqb_eq in Z0. cbn [fst]. split; [exact M|].
    rewrite Z0, Z.add_0_r, C. symmetry. apply uint32_small. lia.
  - rewrite M. cbn. split; [reflexivity|].
    rewrite len_app, <- C, uint32_add_l. f_equal. lia.
Qed.

Lemma sstep_conserved a e b : sstep a e b -> conserved a -> conserved b.
Proof.
  induction 1; intros C; auto.
  - (* report *)
    unfold playback_fields in H0. injection H0 as _ E1 E2 E3 _ _.
    unfold conserved. now rewrite E1, E2, E3.
  - (* store *)
    unfold storePayload.
    destruct codec; [destruct (negb (rcvd =? cur))|];
      (eapply conserved_write; [exact C | reflexivity | reflexivity
                               | reflexivity]).
  - (* clear *)
    unfold processClearEvent.
    destruct (addEventBuffer _ ap) as [[ap1 e] b0]. cbn.
    destruct C as (P & R & B). unfold conserved. cbn.
    split; [lia|]. split; [lia|].
    destruct (write_buffer t) as [wb|]; [|exact I]. cbn.
    split; [apply B | reflexivity].
  - (* checkpoint *)
    unfold processCheckpointEvent.
    destruct nm; [destruct (_ =? 0)|]; exact C.
  - (* incorrect *)
    unfold sendIncorrectPayloadEvent.
    destruct (invalid_stream_input_notified t); [exact C|].
    destruct (addEventBuffer _ _) as [[ap2 e] b0]. exact C.
  - (* replace *)
    unfold write_replace.
    destruct (write_buffer t) as [wb|] eqn:EW; [|exact C].
    destruct (datalen rframe <=? switch_buffer.inuse wb) eqn:LE; [|exact C].
    unfold switch_buffer.read.
    set (n := Z.to_nat (datalen rframe)).
    set (t2 := set_stream_input_played _ _).
    pose proof (fire_checkpoints_fields (len (firstn n (switch_buffer.data wb)))
                  (checkpoints t2) t2 p) as F.
    cbv zeta in F.
    destruct (fire_checkpoints _ (checkpoints t2) t2 p) as [[t3 p1] e].
    cbn [fst snd] in *. destruct F as (_ & F1 & F2 & F3 & _).
    destruct C as (P & R & B). rewrite EW in B. destruct B as [M C].
    unfold conserved. rewrite F1, F2, F3. subst t2. cbn.
    split; [apply uint32_range|]. split; [exact R|].
    split; [exact M|].
    rewrite uint32_add_l, <- C. f_equal.
    unfold switch_buffer.inuse, len.
    rewrite <- (firstn_skipn n (switch_buffer.data wb)) at 3.
    rewrite length_app. cbn [switch_buffer.data]. lia.
Qed.

(** X9.  The inbound audio is accounted for.  In every run of a session,
    while the context exists, the count of bytes received for playback is
    the count of bytes played plus the number of bytes that wait in the
    write buffer, in the 32 bits of the two counters. *)
Theorem inbound_audio_accounted
    (now : Z) (session_id sid : string) (codec : streaming_codec_t)
    (sampling desiredSampling channels secs : Z) (track : string)
    (bidi : Z) (metadata : string) (acts : list action)
    (t : private_data_t) (wb : switch_buffer.t) :
  channel_private
    (fst (run acts
            (stream_data_init now session_id sid codec sampling
               desiredSampling channels secs track bidi metadata)))
  = Some t ->
  write_buffer t = Some wb ->
  uint32 (stream_input_played t + switch_buffer.inuse wb)
  = stream_input_received t
  /\ 0 <= stream_input_played t < 2 ^ 32
  /\ 0 <= stream_input_received t < 2 ^ 32.
Proof.
  intros EP EW.
  set (w0 := stream_data_init now session_id sid codec sampling
               desiredSampling channels secs track bidi metadata) in *.
  pose proof (run_session acts w0) as T.
  destruct (run acts w0) as [w' effs]. cbn [fst snd] in *.
  cbn in T. destruct T as (t' & S & [P|P]); [|congruence].
  rewrite EP in P. injection P as <-.
  assert (C0 : conserved
                 {| stream_id := sid;
                    audio_pipe_ptr := true;
                    mutex := true;
                    resampler := negb (desiredSampling =? sampling);
                    resampler_outbound :=
                      negb (desiredSampling =? sampling)
                      && String.eqb track "both";
                    is_started := 0;
                    audio_paused := false;
                    tp_graceful_shutdown := false;
                    channel_closing := false;
                    invalid_stream_input_notified := false;
                    stream_termination_reason := "";
                    start_time := 0;
                    write_buffer :=
                      if bidi =? 0 then None
                      else Some (switch_buffer.create_dynamic 0);
                    stream_input_received := 0;
                    stream_input_played := 0;
                    checkpoints := [] |}).
  { unfold conserved. cbn. split; [lia|]. split; [lia|].
    destruct (bidi =? 0); [exact I|]. cbn. split; reflexivity. }
  destruct (sstep_conserved _ _ _ S C0) as (P & R & B).
  rewrite EW in B. destruct B as [_ B]. auto.
Qed.

(** ** The report of an invalid message *)

Lemma count_event_app ev (a b : list (string * host_payload)) :
  count_event ev (a ++ b) = count_event ev a + count_event ev b.
Proof. unfold count_event. rewrite filter_app. apply len_app. Qed.

Lemma count_event_connection ev evs :
  ~ In ev connection_events ->
  Forall (fun x => In (fst x) connection_events) evs ->
  count_event ev evs = 0.
Proof.
  intros N F. unfold count_event.
  induction F as [|x l H F IH]; [reflexivity|].
  cbn [filter]. destruct (String.eqb_spec (fst x) ev) as [E|E].
  - subst ev. contradiction.
  - exact IH.
Qed.

Lemma fire_checkpoints_events length cps :
  forall t p,
    Forall (fun x => fst x = EVENT_PLAYED)
      (host_events (snd (fire_checkpoints length cps t p))).
Proof.
  induction cps as [|head next IH]; intros t p.
  - constructor.
  - cbn [fire_checkpoints].
    destruct (size_t (stream_input_played t + length - 1) <? position head);
      [constructor|].
    assert (E1 : host_events
                   (snd (fst (stream_ws_send_played_event (name head) t p)))
                 = []).
    { unfold stream_ws_send_played_event.
      destruct (pointee t p) as [ap|]; [|reflexivity].
      pose proof (addEventBuffer_host_events
                    (JPlayedStream (getSequenceNumber ap) (stream_id t)
                       (name head)) ap) as O.
      destruct (addEventBuffer _ ap) as [[ap1 e] b0]. exact O. }
    destruct (stream_ws_send_played_event (name head) t p) as [[p1 e1] st].
    specialize (IH t p1).
    destruct (fire_checkpoints length next t p1) as [[t1 p2] e3].
    cbn [fst snd] in *.
    rewrite host_events_app, E1, host_events_cons. cbn [app].
    constructor; [reflexivity | exact IH].
Qed.

Lemma count_event_other ev other evs :
  other <> ev ->
  Forall (fun x : string * host_payload => fst x = other) evs ->
  count_event ev evs = 0.
Proof.
  intros N F. unfold count_event.
  induction F as [|x l H F IH]; [reflexivity|].
  cbn [filter]. rewrite H.
  destruct (String.eqb_spec other ev) as [E|E]; [contradiction | exact IH].
Qed.

(** The flag [invalid_stream_input_notified] counts the reports. *)
Lemma sstep_latched a e b :
  sstep a e b ->
  count_event EVENT_INVALID_STREAM_INPUT e
  + b2z (invalid_stream_input_notified a)
  = b2z (invalid_stream_input_notified b).
Proof.
  induction 1.
  - reflexivity.
  - rewrite count_event_app. lia.
  - (* report *)
    unfold playback_fields in H0. injection H0 as _ _ _ _ _ E.
    rewrite E, (count_event_connection _ evs); [reflexivity | | exact H].
    cbn. intros [K|[K|[K|[K|[K|[K|[]]]]]]]; discriminate.
  - (* store *)
    unfold storePayload.
    destruct codec; [destruct (negb (rcvd =? cur))|]; reflexivity.
  - (* clear *)
    unfold processClearEvent.
    pose proof (addEventBuffer_host_events
                  (JMediaCleared (getSequenceNumber ap) (stream_id t)) ap)
      as O. cbn in O |- *.
    destruct (addEventBuffer _ ap) as [[ap1 e] b0]. cbn [fst snd] in *.
    rewrite host_events_app, O. reflexivity.
  - (* checkpoint *)
    unfold processCheckpointEvent.
    destruct nm; [destruct (_ =? 0)|]; reflexivity.
  - (* incorrect *)
    unfold sendIncorrectPayloadEvent.
    destruct (invalid_stream_input_notified t) eqn:E; [cbn; now rewrite E|].
    pose proof (addEventBuffer_host_events
                  (JIncorrectPayload (m_streamid ap) payload
                     (getSequenceNumber ap)) (increaseSequenceNumber ap))
      as O.
    destruct (addEventBuffer _ _) as [[ap2 e] b0]. cbn [fst snd] in *.
    rewrite host_events_app, O. reflexivity.
  - (* replace *)
    unfold write_replace.
    destruct (write_buffer t) as [wb|]; [|reflexivity].
    destruct (datalen rframe <=? switch_buffer.inuse wb); [|reflexivity].
    destruct (switch_buffer.read wb (datalen rframe)) as [wb1 data].
    set (t2 := set_stream_input_played _ _).
    pose proof (fire_checkpoints_fields (len data) (checkpoints t2) t2 p)
      as F.
    pose proof (fire_checkpoints_events (len data) (checkpoints t2) t2 p)
      as G.
    cbv zeta in F.
    destruct (fire_checkpoints _ (checkpoints t2) t2 p) as [[t3 p1] e].
    cbn [fst snd] in *. destruct F as (_ & _ & _ & _ & F).
    rewrite F, (count_event_other _ EVENT_PLAYED (host_events e));
      [reflexivity | | exact G].
    discriminate.
Qed.

(** X10.  An invalid inbound message is reported once.  In every run of a
    session, whatever the peer sends, the event
    mod_audio_stream::stream_invalid_input is reported to the host at most
    once; and once the flag [invalid_stream_input_notified] is set, a further
    invalid message changes nothing and reports nothing. *)
Theorem invalid_input_reported_once
    (now : Z) (session_id sid : string) (codec : streaming_codec_t)
    (sampling desiredSampling channels secs : Z) (track : string)
    (bidi : Z) (metadata : string) (acts : list action) :
  count_event EVENT_INVALID_STREAM_INPUT
    (host_events
       (snd (run acts
               (stream_data_init now session_id sid codec sampling
                  desiredSampling channels secs track bidi metadata))))
  <= 1
  /\ (forall payload reason t ap,
        invalid_stream_input_notified t = true ->
        sendIncorrectPayloadEvent payload reason t ap = (t, ap, [])).
Proof.
  split.
  - set (w0 := stream_data_init now session_id sid codec sampling
                 desiredSampling channels secs track bidi metadata).
    pose proof (run_session acts w0) as T.
    destruct (run acts w0) as [w' effs]. cbn [fst snd] in *.
    cbn in T. destruct T as (t' & S & _).
    pose proof (sstep_latched _ _ _ S) as L. cbn in L.
    destruct (invalid_stream_input_notified t'); cbn in L; lia.
  - intros payload reason t ap E. unfold sendIncorrectPayloadEvent.
    now rewrite E.
Qed.

(** ** media.clear *)

Lemma run_replace_idle (t : private_data_t) (p : option AudioPipe)
    (frames : list switch_frame_t) :
  (forall rframe, 0 < datalen rframe ->
                  write_replace rframe t p = (t, p, rframe, [])) ->
  Forall (fun f => 0 < datalen f) frames ->
  run (map replace_frame frames) (mk_world (Some t) p)
  = (mk_world (Some t) p, []).
Proof.
  intros W F. induction F as [|f l H F IH]; [reflexivity|].
  cbn [map run run_action channel_private pipe].
  rewrite (W f H), IH. reflexivity.
Qed.

(** X11.  media.clear stops the playback at once.  When the peer's message
    parses to the event media.clear, the handler empties the write buffer,
    drops every pending checkpoint and resets the two counters, and reports
    the event media_cleared; from then on a frame of the call passes the
    write-replace callback untouched and no checkpoint is reported as
    played, until new audio arrives; a checkpoint that arrives before new
    audio is ignored. *)
Theorem clear_stops_playback
    (message : string) (now : Z) (read_codec : option Z)
    (t : private_data_t) (ap : AudioPipe) (json : message_json)
    (frames : list switch_frame_t) :
  cJSON_Parse message = Some json ->
  j_event json = Some "media.clear"%string ->
  Forall (fun f => 0 < datalen f) frames ->
  let r :=
    eventCallback MESSAGE message now read_codec
      (mk_world (Some t) (Some ap)) in
  exists t1 ap1,
    fst r = mk_world (Some t1) (Some ap1)
    /\ host_events (snd r)
       = [(EVENT_CLEARED_AUDIO,
           members [("streamId", m_streamid ap);
                    ("event", "media.cleared")])]
    /\ checkpoints t1 = []
    /\ stream_input_received t1 = 0
    /\ stream_input_played t1 = 0
    /\ option_map switch_buffer.data (write_buffer t1)
       = option_map (fun _ => []) (write_buffer t)
    /\ (forall rframe,
          0 < datalen rframe ->
          write_replace rframe t1 (Some ap1) = (t1, Some ap1, rframe, []))
    /\ run (map replace_frame frames) (fst r) = (fst r, [])
    /\ (forall nm, fst (processCheckpointEvent nm t1) = t1).
Proof.
  intros EP EJ F. cbv zeta.
  unfold eventCallback, processIncomingMessage.
  cbn [channel_private pipe]. rewrite EP, EJ. cbn [String.eqb Ascii.eqb
    Bool.eqb andb].
  pose proof (addEventBuffer_host_events
                (JMediaCleared (getSequenceNumber ap) (stream_id t)) ap) as O.
  unfold processClearEvent.
  destruct (addEventBuffer _ ap) as [[ap1 e] b0] eqn:EA.
  cbn [fst snd] in *.
  set (t1 := set_stream_input_received 0 _).
  assert (SI : m_streamid ap1 = m_streamid ap).
  { unfold addEventBuffer, addPendingWrite in EA.
    destruct (negb _) in EA; injection EA as <- _ _; reflexivity. }
  assert (W : forall rframe,
             0 < datalen rframe ->
             write_replace rframe t1 (Some (increaseSequenceNumber ap1))
             = (t1, Some (increaseSequenceNumber ap1), rframe, [])).
  { intros rframe H. unfold write_replace. subst t1. cbn.
    destruct (write_buffer t) as [wb|]; [|reflexivity]. cbn.
    replace (datalen rframe <=? 0) with false
      by (symmetry; apply Z.leb_gt; lia).
    reflexivity. }
  exists t1, (increaseSequenceNumber ap1).
  split; [reflexivity|].
  split; [rewrite host_events_app, O; cbn; now rewrite SI|].
  split; [reflexivity|]. split; [reflexivity|]. split; [reflexivity|].
  split; [subst t1; cbn; destruct (write_buffer t); reflexivity|].
  split; [exact W|].
  split; [exact (run_replace_idle t1 _ frames W F)|].
  intros nm. unfold processCheckpointEvent. destruct nm; reflexivity.
Qed.

(** ** The control queue *)

Lemma nonempty_app (a b : list json_msg) :
  nonempty (a ++ b) = nonempty a ++ nonempty b.
Proof. apply filter_app. Qed.

Lemma send_media_queue locked ap :
  filter is_control (wire (snd (fst (send_media locked ap)))) = []
  /\ m_events (fst (fst (send_media locked ap))) = m_events ap.
Proof.
  unfold send_media.
  destruct (if needsBothTracks ap && m_switch ap then m_ob_audio_buffer ap
            else m_audio_buffer ap) as [b|]; [|split; reflexivity].
  destruct locked; [|split; reflexivity].
  cbn [negb generate_json_data_event].
  destruct (Buffer_read b) as [b' [d|]].
  - destruct (len d =? 0); unfold flip_switch; repeat break_if;
      split; reflexivity.
  - unfold flip_switch; repeat break_if; split; reflexivity.
Qed.

Ltac queue_unchanged :=
  cbn; rewrite ?app_nil_r; split; [reflexivity | assumption].

(** One call: what it sends from the queue and what it leaves there is
    what the queue held and what the call put in. *)
Lemma callback_queue ev ap :
  Forall control_text (m_events ap) ->
  filter is_control (wire (snd (fst (lws_callback ev ap))))
  ++ nonempty (m_events (fst (fst (lws_callback ev ap))))
  = nonempty (m_events ap) ++ nonempty (taken ev ap)
  /\ Forall control_text (m_events (fst (fst (lws_callback ev ap)))).
Proof.
  intros Q.
  destruct ev; cbn [lws_callback taken].
  - unfold on_event_wait_cancelled, processPendingConnects,
      processPendingDisconnects, processPendingWrites, connect_client.
    repeat break_if; queue_unchanged.
  - unfold on_client_connection_error, find_pending,
      findAndRemovePendingConnect, findAndRemovePendingReconnect,
      schedule_reconnect.
    repeat break_if; queue_unchanged.
  - unfold on_client_established, find_pending,
      findAndRemovePendingConnect, findAndRemovePendingReconnect.
    repeat break_if; queue_unchanged.
  - unfold on_client_closed. repeat break_if; queue_unchanged.
  - unfold on_client_writeable.
    destruct (isGracefulShutdown ap && _); [queue_unchanged|].
    destruct (isGracefulShutdown ap && allBuffersAreEmpty ap
              && negb (m_lastMsgSent ap)); [queue_unchanged|].
    destruct (negb (m_firstMsgSent ap)); [queue_unchanged|].
    unfold getEventData.
    destruct (m_events ap) as [|data rest] eqn:EQ.
    + cbn [is_empty_text negb String.eqb].
      destruct (state_eqb (m_state ap) LWS_CLIENT_DISCONNECTING);
        [cbn [fst snd wire filter]; rewrite EQ; cbn;
         split; [reflexivity | constructor]|].
      destruct (send_media_queue locked ap) as [E1 E2].
      rewrite E1, E2, EQ. cbn. split; [reflexivity | constructor].
    + pose proof (Forall_inv Q) as CT.
      pose proof (Forall_inv_tail Q) as QR.
      assert (IC : is_control data = true)
        by (destruct data; cbn in CT; try contradiction; reflexivity).
      destruct (negb (is_empty_text data)) eqn:ET.
      * destruct short_write; cbn [fst snd wire filter m_events
                                   set_m_events];
          rewrite IC; unfold nonempty; cbn [filter]; rewrite ET, app_nil_r;
          (split; [reflexivity | exact QR]).
      * assert (K : nonempty (data :: rest) = nonempty rest)
          by (unfold nonempty; cbn [filter]; now rewrite ET).
        rewrite K.
        destruct (state_eqb (m_state (set_m_events rest ap))
                    LWS_CLIENT_DISCONNECTING);
          [cbn; rewrite app_nil_r; split; [reflexivity | exact QR]|].
        destruct (send_media_queue locked (set_m_events rest ap))
          as [E1 E2].
        rewrite E1, E2. cbn. rewrite app_nil_r.
        split; [reflexivity | exact QR].
  - unfold on_client_receive. repeat break_if; queue_unchanged.
  - unfold reconnect, connect_client, schedule_reconnect.
    repeat break_if; queue_unchanged.
  - unfold connect, addPendingConnect. queue_unchanged.
  - unfold close, addPendingDisconnect. repeat break_if; queue_unchanged.
  - unfold graceful_shutdown. queue_unchanged.
  - unfold addEventBuffer, addPendingWrite.
    destruct (state_eqb (m_state ap) LWS_CLIENT_CONNECTED); cbn.
    + rewrite nonempty_app. split; [reflexivity|].
      apply Forall_app. split; [exact Q | now constructor].
    + rewrite app_nil_r. split; [reflexivity | exact Q].
Qed.

Lemma run_pipe_queue evs :
  forall ap,
    Forall control_text (m_events ap) ->
    filter is_control (wire (snd (run_pipe evs ap)))
    ++ nonempty (m_events (fst (run_pipe evs ap)))
    = nonempty (m_events ap) ++ nonempty (accepted evs ap).
Proof.
  induction evs as [|ev rest IH]; intros ap Q.
  - cbn. now rewrite app_nil_r.
  - cbn [run_pipe accepted].
    destruct (callback_queue ev ap Q) as [E1 Q1].
    destruct (lws_callback ev ap) as [[ap1 e1] r]. cbn [fst snd] in *.
    specialize (IH ap1 Q1).
    destruct (run_pipe rest ap1) as [ap2 e2]. cbn [fst snd] in *.
    rewrite wire_app, filter_app, nonempty_app, <- app_assoc, IH.
    rewrite !app_assoc. f_equal. exact E1.
Qed.

(** X12.  The control queue is a queue.  In every run of a transport
    object, the frames it hands to the socket other than start, stop and
    media, followed by the texts still waiting, are the non-empty texts
    [addEventBuffer] accepted, in the order accepted: no text is lost, sent
    twice or overtaken by a later one. *)
Theorem control_queue_fifo
    (now : Z) (uuid sid : string) (bufLen : Z) (track extra : string)
    (codec : streaming_codec_t) (sampling bidi : Z)
    (evs : list pipe_event) :
  let ap0 :=
    AudioPipe_new now uuid sid bufLen track extra codec sampling bidi in
  filter is_control (wire (snd (run_pipe evs ap0)))
  ++ nonempty (m_events (fst (run_pipe evs ap0)))
  = nonempty (accepted evs ap0).
Proof.
  cbv zeta.
  rewrite run_pipe_queue by constructor. reflexivity.
Qed.

(** ** A capture buffer that overflows *)

Lemma Buffer_write_full (b : Buffer) (d : list byte) :
  0 < chunk_size_bytes_ b ->
  0 < switch_buffer.max_len (freeswitch_buffer_ b) ->
  switch_buffer.max_len (freeswitch_buffer_ b)
  < switch_buffer.inuse (freeswitch_buffer_ b) + chunk_size_bytes_ b ->
  Buffer_write b d = (b, false).
Proof.
  intros C M F. unfold Buffer_write, switch_buffer.write.
  rewrite (len_bytes_at d _ (Z.lt_le_incl _ _ C)).
  replace (chunk_size_bytes_ b =? 0) with false
    by (symmetry; apply Z.eqb_neq; lia).
  replace (switch_buffer.max_len (freeswitch_buffer_ b) =? 0) with false
    by (symmetry; apply Z.eqb_neq; lia).
  replace (switch_buffer.inuse (freeswitch_buffer_ b) + chunk_size_bytes_ b
           <=? switch_buffer.max_len (freeswitch_buffer_ b)) with false
    by (symmetry; apply Z.leb_gt; lia).
  reflexivity.
Qed.

(** X13.  A capture buffer that overflows ends the session gracefully.
    When a captured frame finds no room for a chunk in its ring buffer, the
    frame is dropped, the host is told of a connection timeout, the context
    is marked for graceful shutdown with the termination reason
    Connection error, the transport object starts its graceful shutdown at
    the current time, and every later capture is ignored. *)
Theorem overflow_starts_graceful_shutdown
    (inbound_bug : bool) (frame : switch_frame_t) (now : Z)
    (t : private_data_t) (ap : AudioPipe) (b : Buffer) :
  audio_paused t || tp_graceful_shutdown t || negb (mutex t) = false ->
  audio_pipe_ptr t = true ->
  m_state ap = LWS_CLIENT_CONNECTED ->
  (if needsBothTracks ap && negb inbound_bug then m_ob_audio_buffer ap
   else m_audio_buffer ap) = Some b ->
  0 < chunk_size_bytes_ b ->
  0 < switch_buffer.max_len (freeswitch_buffer_ b) ->
  switch_buffer.max_len (freeswitch_buffer_ b)
  < switch_buffer.inuse (freeswitch_buffer_ b) + chunk_size_bytes_ b ->
  cng frame = false -> datalen frame <> 0 ->
  let r :=
    stream_frame inbound_bug [frame] true now
      (mk_world (Some t) (Some ap)) in
  exists t' ap' b',
    fst r = mk_world (Some t') (Some ap')
    /\ tp_graceful_shutdown t' = true
    /\ stream_termination_reason t' = TERMINATION_REASON_CONNECTION_ERROR
    /\ m_gracefulShutdown ap' = true
    /\ m_gracefulShutdown_at ap' = now
    /\ (if needsBothTracks ap && negb inbound_bug then m_ob_audio_buffer ap'
        else m_audio_buffer ap') = Some b'
    /\ freeswitch_buffer_ b' = freeswitch_buffer_ b
    /\ In (EVENT_CONNECT_TIMEOUT,
           members [("streamId", stream_id t); ("reason", "")])
         (host_events (snd r))
    /\ (forall ib frames trylock now',
          stream_frame ib frames trylock now' (fst r) = (fst r, [])).
Proof.
  intros HT HP HS HB HC HM HF HG HD. cbv zeta.
  unfold stream_frame. cbn [channel_private pipe].
  rewrite HT. cbn [negb]. unfold pointee. rewrite HP.
  unfold getLwsState. rewrite HS. cbn [state_eqb negb].
  cbn [frame_loop]. rewrite HG.
  replace (datalen frame =? 0) with false
    by (symmetry; now apply Z.eqb_neq).
  cbn [pipe]. unfold capture_write.
  set (use_ob := needsBothTracks ap && negb inbound_bug) in *.
  rewrite HB.
  set (src := if (if use_ob then resampler_outbound t else resampler t)
              then _ else _).
  rewrite (Buffer_write_full b src HC HM HF).
  destruct (above_threshold b) eqn:AT.
  - set (b2 := set_degradation b _).
    exists (set_tp_graceful_shutdown true
              (set_stream_termination_reason
                 TERMINATION_REASON_CONNECTION_ERROR t)).
    destruct use_ob; cbn; unfold pointee; cbn; rewrite HP; cbn;
      eexists; exists b2;
      (split; [reflexivity|]);
      repeat (split; [reflexivity|]);
      (split; [tauto|]);
      intros ib frames trylock now'; unfold stream_frame; cbn;
      rewrite !orb_true_r; reflexivity.
  - exists (set_tp_graceful_shutdown true
              (set_stream_termination_reason
                 TERMINATION_REASON_CONNECTION_ERROR t)).
    destruct use_ob; cbn; unfold pointee; cbn; rewrite HP; cbn;
      eexists; exists b;
      (split; [reflexivity|]);
      repeat (split; [reflexivity|]);
      (split; [tauto|]);
      intros ib frames trylock now'; unfold stream_frame; cbn;
      rewrite !orb_true_r; reflexivity.
Qed.

(** ** Pause, and the end of the context *)

Lemma run_app (a b : list action) (w : world) :
  run (a ++ b) w
  = (fst (run b (fst (run a w))), snd (run a w) ++ snd (run b (fst (run a w)))).
Proof.
  revert w. induction a as [|x a IH]; intros w.
  - cbn. now destruct (run b w).
  - cbn [app run]. destruct (run_action x w) as [w1 e1].
    rewrite IH. destruct (run a w1) as [w2 e2]. cbn [fst snd].
    destruct (run b w2) as [w3 e3]. cbn [fst snd].
    now rewrite app_assoc.
Qed.

Lemma run_captures_paused (acts : list action) (w : world)
    (t : private_data_t) :
  channel_private w = Some t -> audio_paused t = true ->
  forallb is_capture acts = true ->
  run acts w = (w, []).
Proof.
  intros EP PA. induction acts as [|a rest IH]; intros F; [reflexivity|].
  cbn [forallb] in F. apply andb_true_iff in F. destruct F as [FA FR].
  destruct a; try discriminate.
  cbn [run run_action]. unfold stream_frame. rewrite EP, PA. cbn [orb].
  now rewrite (IH FR).
Qed.

(** X14.  Pausing drops the captured audio and does nothing else.  On a
    session that is not paused, a pause, any number of captures and a resume
    leave the session exactly as it was: nothing is written to a ring
    buffer, nothing is handed to the socket, nothing is reported. *)
Theorem pause_drops_captures
    (w : world) (t : private_data_t) (captures : list action) :
  channel_private w = Some t -> audio_paused t = false ->
  forallb is_capture captures = true ->
  run ([cmd_pauseresume true] ++ captures ++ [cmd_pauseresume false]) w
  = (w, []).
Proof.
  intros EP PA F.
  destruct w as [cp p]. cbn [channel_private] in EP. subst cp.
  rewrite run_app. cbn [run run_action fst snd app].
  unfold stream_session_pauseresume at 1 2. cbn [channel_private fst snd].
  rewrite run_app.
  rewrite (run_captures_paused captures
             (set_channel_private (Some (set_audio_paused true t))
                {| channel_private := Some t; pipe := p |})
             (set_audio_paused true t) eq_refl eq_refl F).
  cbn [fst snd run run_action app].
  unfold stream_session_pauseresume. cbn.
  destruct t. cbn in PA. subst. reflexivity.
Qed.

(** X15.  A destroyed context stays destroyed.  Once the context of a
    session is gone (after cleanup), whatever happens next (callbacks of
    the transport, frames, commands) reports nothing to the host and does
    not bring the context back; the three commands fail with
    SWITCH_STATUS_FALSE. *)
Theorem destroyed_session_is_silent (w : world) (acts : list action) :
  channel_private w = None ->
  channel_private (fst (run acts w)) = None
  /\ host_events (snd (run acts w)) = []
  /\ (forall text, snd (stream_session_send_text text w) = SWITCH_STATUS_FALSE)
  /\ (forall now,
        snd (stream_session_graceful_shutdown now w) = SWITCH_STATUS_FALSE)
  /\ (forall pause,
        snd (stream_session_pauseresume pause w) = SWITCH_STATUS_FALSE).
Proof.
  intros EP.
  pose proof (run_session acts w) as T. rewrite EP in T.
  destruct T as [O P].
  split; [exact P|]. split; [exact O|].
  unfold stream_session_send_text, stream_session_graceful_shutdown,
    stream_session_pauseresume.
  rewrite EP. repeat split.
Qed.

(** ** The stop command and the reconnection *)

Lemma callback_no_retry ev ap :
  is_established ev = false ->
  MAX_CONNECTION_ATTEMPTS < m_connection_attempts ap ->
  count is_schedule (snd (fst (lws_callback ev ap))) = 0
  /\ MAX_CONNECTION_ATTEMPTS
     < m_connection_attempts (fst (fst (lws_callback ev ap))).
Proof.
  intros NE A. unfold MAX_CONNECTION_ATTEMPTS in *.
  assert (L : (m_connection_attempts ap <=? 3) = false)
    by (apply Z.leb_gt; exact A).
  assert (L1 : (3 <? m_connection_attempts ap + 1) = true)
    by (apply Z.ltb_lt; lia).
  destruct ev; try discriminate; cbn [lws_callback].
  - unfold on_event_wait_cancelled, processPendingConnects,
      processPendingDisconnects, processPendingWrites, connect_client,
      MAX_CONNECTION_ATTEMPTS.
    cbn. rewrite L1.
    repeat break_if; cbn; split; try reflexivity; lia.
  - unfold on_client_connection_error, MAX_CONNECTION_ATTEMPTS.
    assert (E : m_connection_attempts (fst (find_pending wsi ap))
                = m_connection_attempts ap).
    { unfold find_pending, findAndRemovePendingConnect,
        findAndRemovePendingReconnect.
      repeat break_if; reflexivity. }
    destruct (find_pending wsi ap) as [ap1 found]. cbn [fst] in E.
    destruct (negb found); [cbn; split; [reflexivity | lia]|].
    rewrite E, L. cbn. split; [reflexivity | lia].
  - unfold on_client_closed, MAX_CONNECTION_ATTEMPTS. rewrite L.
    repeat break_if; cbn; split; try reflexivity; lia.
  - unfold on_client_writeable, send_stop, send_start, getEventData.
    cbn [generate_json_data_event].
    assert (M : forall locked a,
               3 < m_connection_attempts a ->
               count is_schedule (snd (fst (send_media locked a))) = 0
               /\ 3 < m_connection_attempts (fst (fst (send_media locked a)))).
    { intros lk a Ha. unfold send_media.
      destruct (if needsBothTracks a && m_switch a then m_ob_audio_buffer a
                else m_audio_buffer a) as [b|];
        [|split; [reflexivity|exact Ha]].
      destruct lk; [|split; [reflexivity|exact Ha]].
      cbn [negb generate_json_data_event].
      destruct (Buffer_read b) as [b' [d|]].
      - destruct (len d =? 0); unfold flip_switch; repeat break_if;
          cbn; split; try reflexivity; exact Ha.
      - unfold flip_switch; repeat break_if;
          cbn; split; try reflexivity; exact Ha. }
    destruct (isGracefulShutdown ap && _); [cbn; split; [reflexivity|lia]|].
    destruct (isGracefulShutdown ap && allBuffersAreEmpty ap
              && negb (m_lastMsgSent ap)); [cbn; split; [reflexivity|lia]|].
    destruct (negb (m_firstMsgSent ap)); [cbn; split; [reflexivity|lia]|].
    destruct (m_events ap) as [|data rest].
    + cbn [is_empty_text negb String.eqb].
      destruct (state_eqb (m_state ap) LWS_CLIENT_DISCONNECTING);
        [cbn; split; [reflexivity|lia] | now apply M].
    + destruct (negb (is_empty_text data)).
      * destruct short_write; cbn; split; try reflexivity; lia.
      * destruct (state_eqb (m_state (set_m_events rest ap))
                    LWS_CLIENT_DISCONNECTING);
          [cbn; split; [reflexivity|lia] | now apply M].
  - unfold on_client_receive. repeat break_if; cbn; split;
      try reflexivity; lia.
  - unfold reconnect. cbn. split; [reflexivity | lia].
  - unfold connect, addPendingConnect. cbn. split; [reflexivity | lia].
  - unfold close, addPendingDisconnect. repeat break_if; cbn; split;
      try reflexivity; lia.
  - unfold graceful_shutdown. cbn. split; [reflexivity | lia].
  - unfold addEventBuffer, addPendingWrite. repeat break_if; cbn; split;
      try reflexivity; lia.
Qed.

Lemma run_pipe_no_retry evs :
  forall ap,
    Forall (fun ev => is_established ev = false) evs ->
    MAX_CONNECTION_ATTEMPTS < m_connection_attempts ap ->
    count is_schedule (snd (run_pipe evs ap)) = 0
    /\ MAX_CONNECTION_ATTEMPTS < m_connection_attempts (fst (run_pipe evs ap)).
Proof.
  induction evs as [|ev rest IH]; intros ap F A.
  - cbn. split; [reflexivity | exact A].
  - cbn [run_pipe].
    destruct (callback_no_retry ev ap (Forall_inv F) A) as [C1 A1].
    destruct (lws_callback ev ap) as [[ap1 e1] r]. cbn [fst snd] in *.
    destruct (IH ap1 (Forall_inv_tail F) A1) as [C2 A2].
    destruct (run_pipe rest ap1) as [ap2 e2]. cbn [fst snd] in *.
    split; [|exact A2]. rewrite count_app. lia.
Qed.

(** X16.  No reconnection after the stop command.  The stop command
    raises the attempt counter of the transport object above the limit;
    from then on, as long as no handshake completes, a connection that
    fails or closes is never retried: no reconnection timer is armed. *)
Theorem no_retry_after_stop
    (t : private_data_t) (ap : AudioPipe) (evs : list pipe_event) :
  audio_pipe_ptr t = true ->
  Forall (fun ev => is_established ev = false) evs ->
  exists ap1,
    pipe (fst (stream_ws_close_connection (mk_world (Some t) (Some ap))))
    = Some ap1
    /\ m_connection_attempts ap1 = MAX_CONNECTION_ATTEMPTS + 1
    /\ count is_schedule (snd (run_pipe evs ap1)) = 0
    /\ MAX_CONNECTION_ATTEMPTS
       < m_connection_attempts (fst (run_pipe evs ap1)).
Proof.
  intros HP F. unfold stream_ws_close_connection, pointee.
  cbn [channel_private pipe]. rewrite HP.
  unfold close, addPendingDisconnect.
  destruct (negb (state_eqb (m_state (set_m_connection_attempts
                                        (MAX_CONNECTION_ATTEMPTS + 1) ap))
                    LWS_CLIENT_CONNECTED)); cbn [fst snd pipe];
    eexists; (split; [reflexivity|]); (split; [reflexivity|]);
    apply run_pipe_no_retry; try exact F; cbn; unfold MAX_CONNECTION_ATTEMPTS;
    lia.
Qed.

(** ** Captured frames *)




(** ** From the capture to the socket *)




(** ** From the socket to the call *)

(** X19.  What is received is what is played.  On a bidirectional session
    whose write buffer is empty, a media.play message of PCM16 at the
    call's rate (8000 or 16000 Hz) stores the decoded payload; the next
    frame of the call of the same length is then mixed, sample by sample,
    with exactly these bytes, and the buffer is empty again. *)
Theorem received_audio_is_mixed
    (message : string) (audio : list byte) (rate now : Z)
    (t : private_data_t) (ap : AudioPipe) (wb : switch_buffer.t)
    (rframe : switch_frame_t) :
  m_is_bidirectional ap <> 0 ->
  write_buffer t = Some wb ->
  switch_buffer.data wb = [] -> switch_buffer.max_len wb = 0 ->
  checkpoints t = [] ->
  rate = 8000 \/ rate = 16000 ->
  cJSON_Parse message
  = Some (play_message (base64.base64_encode audio) "audio/x-l16" rate) ->
  audio <> [] -> datalen rframe = len audio ->
  let w1 :=
    fst (run [transport (LWS_CALLBACK_CLIENT_RECEIVE false message) now
                (Some rate)]
           (mk_world (Some t) (Some ap))) in
  exists t1 t2,
    w1 = mk_world (Some t1) (Some ap)
    /\ stream_input_received t1
       = uint32 (stream_input_received t + len audio)
    /\ write_replace rframe t1 (Some ap)
       = (t2, Some ap,
          mk_frame (mix_frame (f_data rframe) audio (samples rframe))
            (datalen rframe) (samples rframe) (cng rframe), [])
    /\ stream_input_played t2 = uint32 (stream_input_played t + len audio)
    /\ option_map switch_buffer.data (write_buffer t2) = Some [].
Proof.
  intros HB HW HD HM HC HR HP HA HL. cbv zeta.
  cbn [run run_action pipe lws_callback]. unfold on_client_receive.
  replace (m_is_bidirectional ap =? 0) with false
    by (symmetry; now apply Z.eqb_neq).
  cbn [react fst snd]. unfold eventCallback.
  cbn [channel_private pipe set_pipe].
  unfold processIncomingMessage. rewrite HP.
  cbn [j_event play_message String.eqb Ascii.eqb Bool.eqb andb].
  unfold processPlayAudioEvent.
  cbn [j_media j_payload j_contentType j_sampleRate play_message].
  assert (U : negb (rate =? 8000) && negb (rate =? 16000) = false)
    by (destruct HR; subst rate; reflexivity).
  rewrite U. cbn [String.eqb Ascii.eqb Bool.eqb andb].
  unfold decoded_payload. rewrite base64_decode_encode.
  unfold storePayload. rewrite Z.eqb_refl. cbn [negb].
  unfold buffer_write_opt. rewrite HW.
  assert (LA : 0 < len audio).
  { destruct audio; [contradiction|]. unfold len. cbn [List.length]. lia. }
  unfold switch_buffer.write, switch_buffer.inuse. rewrite HD, HM.
  replace (len audio =? 0) with false by (symmetry; apply Z.eqb_neq; lia).
  cbn [Z.eqb orb fst snd app].
  eexists. eexists.
  split; [reflexivity|]. split; [reflexivity|].
  unfold write_replace.
  cbn [write_buffer set_write_buffer set_stream_input_received].
  unfold switch_buffer.inuse, switch_buffer.read.
  cbn [switch_buffer.data switch_buffer.max_len].
  rewrite HL, Z.leb_refl.
  assert (N : Z.to_nat (len audio) = List.length audio)
    by (unfold len; lia).
  rewrite N, firstn_all, skipn_all.
  cbn [stream_input_played set_write_buffer set_stream_input_received
       set_stream_input_played checkpoints].
  rewrite HC. cbn [fire_checkpoints].
  split; [reflexivity|]. split; reflexivity.
Qed.

(** ** The end of a stream *)

Lemma drain_step (cur : Z) (ap : AudioPipe) (b : Buffer) (c : list byte)
    (rest : list (list byte)) :
  draining cur ap b (c :: rest) ->
  exists ap' b' m,
    fst (fst (on_client_writeable cur true false ap)) = ap'
    /\ wire (snd (fst (on_client_writeable cur true false ap))) = [m]
    /\ is_media m = true
    /\ media_payloads [m] = [base64.base64_encode c]
    /\ draining cur ap' b' rest
    /\ m_sequenceNumber ap' = m_sequenceNumber ap + 1
    /\ m_streamid ap' = m_streamid ap
    /\ m_uuid ap' = m_uuid ap
    /\ m_extra_headers ap' = m_extra_headers ap.
Proof.
  intros (HN & HO & HB & HH & OK & HC & HG & HT & HL & HF & HE & HS).
  pose proof OK as (M & U & C0 & D & E).
  destruct (Buffer_read_holds b c rest HC HH) as (R & H1 & C1 & U1).
  pose proof (buffer_ok_read b OK) as OK1.
  assert (LC : len c = chunk_size_bytes_ b)
    by (destruct HH as [_ F]; exact (Forall_inv F)).
  assert (LD : switch_buffer.inuse (freeswitch_buffer_ b)
               = (len rest + 1) * chunk_size_bytes_ b).
  { destruct HH as [HD F]. unfold switch_buffer.inuse.
    rewrite HD, (len_concat_chunks _ _ F). unfold len. cbn [List.length].
    lia. }
  pose proof (len_nonneg rest) as NR.
  unfold on_client_writeable, isGracefulShutdown, allBuffersAreEmpty,
    buffer_has_data, is_data_available.
  rewrite HG, HB, E, LD.
  replace (m_gracefulShutdown_at ap + 60 <=? cur) with false
    by (symmetry; apply Z.leb_gt; lia).
  replace (0 <? (len rest + 1) * chunk_size_bytes_ b) with true
    by (symmetry; apply Z.ltb_lt; nia).
  cbn [andb]. rewrite HF. cbn [negb].
  unfold getEventData. rewrite HE.
  cbn [is_empty_text String.eqb negb]. rewrite HS. cbn [state_eqb].
  unfold send_media. rewrite HN. cbn [andb]. rewrite HB. cbn [negb].
  cbn [generate_json_data_event].
  destruct (Buffer_read b) as [b1 r]. cbn [fst snd] in *. subst r.
  replace (len c =? 0) with false by (symmetry; apply Z.eqb_neq; lia).
  unfold flip_switch, needsBothTracks in *. cbn. rewrite HN.
  eexists. exists b1. eexists.
  split; [reflexivity|]. split; [reflexivity|].
  split; [reflexivity|]. split; [reflexivity|].
  split; [|cbn; repeat split; reflexivity].
  refine (conj HN (conj HO (conj eq_refl (conj H1 (conj OK1 (conj _
            (conj HG (conj HT (conj HL (conj HF (conj HE HS))))))))))).
  lia.
Qed.

Lemma drain_stop (cur : Z) (ap : AudioPipe) (b : Buffer) :
  draining cur ap b [] ->
  wire (snd (fst (on_client_writeable cur true false ap)))
  = [JStop (m_sequenceNumber ap) (m_streamid ap) (m_uuid ap)
       (extra_headers_member (m_extra_headers ap))]
  /\ m_state (fst (fst (on_client_writeable cur true false ap)))
     = LWS_CLIENT_DISCONNECTING.
Proof.
  intros (HN & HO & HB & HH & OK & HC & HG & HT & HL & HF & HE & HS).
  pose proof OK as (M & U & C0 & D & E).
  assert (LD : switch_buffer.inuse (freeswitch_buffer_ b) = 0).
  { destruct HH as [HD _]. unfold switch_buffer.inuse. now rewrite HD. }
  unfold on_client_writeable, isGracefulShutdown, allBuffersAreEmpty,
    buffer_has_data, is_data_available.
  rewrite HG, HB, HO, E, LD, HL.
  replace (m_gracefulShutdown_at ap + 60 <=? cur) with false
    by (symmetry; apply Z.leb_gt; lia).
  cbn. split; reflexivity.
Qed.

Lemma run_pipe_cons ev evs ap :
  run_pipe (ev :: evs) ap
  = (fst (run_pipe evs (fst (fst (lws_callback ev ap)))),
     snd (fst (lws_callback ev ap))
     ++ snd (run_pipe evs (fst (fst (lws_callback ev ap))))).
Proof.
  cbn [run_pipe]. destruct (lws_callback ev ap) as [[a e] r].
  cbn [fst snd]. destruct (run_pipe evs a). reflexivity.
Qed.

(** X20.  A graceful shutdown drains the ring buffer.  On an object that
    streams one track and is shutting down gracefully, the writable
    callbacks of the next 60 seconds send the chunks that wait in the ring
    buffer, one media message each, in the order they were captured, and the
    callback that finds the buffer empty sends stop and moves the object to
    Disconnecting: nothing captured before the shutdown is lost. *)
Theorem graceful_shutdown_drains
    (cur : Z) (chunks : list (list byte)) (ap : AudioPipe) (b : Buffer) :
  draining cur ap b chunks ->
  let r :=
    run_pipe
      (repeat (LWS_CALLBACK_CLIENT_WRITEABLE cur true false)
         (S (List.length chunks))) ap in
  exists msgs,
    wire (snd r)
    = msgs
      ++ [JStop (m_sequenceNumber ap + len chunks) (m_streamid ap)
            (m_uuid ap) (extra_headers_member (m_extra_headers ap))]
    /\ Forall (fun m => is_media m = true) msgs
    /\ media_payloads msgs = map base64.base64_encode chunks
    /\ m_state (fst r) = LWS_CLIENT_DISCONNECTING.
Proof.
  cbv zeta. revert ap b.
  induction chunks as [|c rest IH]; intros ap b DR.
  - destruct (drain_stop cur ap b DR) as [W S].
    exists []. cbn [repeat List.length run_pipe lws_callback].
    destruct (on_client_writeable cur true false ap) as [[ap1 e1] rc].
    cbn [fst snd] in *. rewrite app_nil_r, W.
    unfold len. cbn [List.length]. rewrite Z.add_0_r.
    repeat split; try constructor. exact S.
  - destruct (drain_step cur ap b c rest DR)
      as (ap1 & b1 & m & E & W & IM & MP & DR1 & Q1 & S1 & U1 & X1).
    destruct (IH ap1 b1 DR1) as (msgs & W2 & F2 & P2 & S2).
    exists (m :: msgs).
    cbn [List.length].
    change (repeat (LWS_CALLBACK_CLIENT_WRITEABLE cur true false)
              (S (S (List.length rest))))
      with (LWS_CALLBACK_CLIENT_WRITEABLE cur true false
            :: repeat (LWS_CALLBACK_CLIENT_WRITEABLE cur true false)
                 (S (List.length rest))).
    rewrite run_pipe_cons. cbn [lws_callback fst snd].
    rewrite E, wire_app, W, W2, Q1, S1, U1, X1.
    split.
    + replace (m_sequenceNumber ap + len (c :: rest))
        with (m_sequenceNumber ap + 1 + len rest)
        by (unfold len; cbn [List.length]; lia).
      reflexivity.
    + split; [constructor; assumption|].
      split; [|exact S2].
      change (m :: msgs) with ([m] ++ msgs).
      unfold media_payloads in *. rewrite flat_map_app, MP, P2. reflexivity.
Qed.

(** ** Checkpoints over several frames *)

Lemma write_replace_fifo rframe t p :
  exists fired,
    checkpoints t
    = fired ++ checkpoints (fst (fst (fst (write_replace rframe t p))))
    /\ host_events (snd (write_replace rframe t p))
       = map (played_event (stream_id t)) fired
    /\ stream_id (fst (fst (fst (write_replace rframe t p)))) = stream_id t.
Proof.
  unfold write_replace.
  destruct (write_buffer t) as [wb|];
    [|exists []; repeat split; reflexivity].
  destruct (datalen rframe <=? switch_buffer.inuse wb);
    [|exists []; repeat split; reflexivity].
  destruct (switch_buffer.read wb (datalen rframe)) as [wb1 data].
  set (t2 := set_stream_input_played _ _).
  destruct (fire_checkpoints_fifo (len data) (checkpoints t2) t2 p)
    as (fired & rest & E & T & H & _).
  destruct (fire_checkpoints (len data) (checkpoints t2) t2 p)
    as [[t3 p1] e].
  cbn [fst snd] in *. exists fired. subst t3.
  split; [exact E|]. split; [exact H | reflexivity].
Qed.

(** X21.  Each checkpoint is reported once, in the order received.  Over
    any number of frames of the call, the played events reported to the host
    are those of a prefix of the pending checkpoints, in the order of the
    list, and the checkpoints that remain pending are the rest of the list:
    none is reported twice, skipped or dropped. *)
Theorem checkpoints_played_once
    (frames : list switch_frame_t) (t : private_data_t)
    (p : option AudioPipe) :
  let r := run (map replace_frame frames) (mk_world (Some t) p) in
  exists t' fired,
    channel_private (fst r) = Some t'
    /\ checkpoints t = fired ++ checkpoints t'
    /\ host_events (snd r) = map (played_event (stream_id t)) fired.
Proof.
  cbv zeta. revert t p.
  induction frames as [|f rest IH]; intros t p.
  - exists t, []. repeat split.
  - cbn [map run run_action channel_private pipe].
    destruct (write_replace_fifo f t p) as (fired1 & E1 & H1 & S1).
    destruct (write_replace f t p) as [[[t1 p1] f1] e1].
    cbn [fst snd] in *.
    destruct (IH t1 p1) as (t2 & fired2 & C2 & E2 & H2).
    destruct (run (map replace_frame rest) _) as [w2 e2].
    cbn [fst snd] in *.
    exists t2, (fired1 ++ fired2).
    split; [exact C2|]. split.
    + rewrite E1, E2. now rewrite app_assoc.
    + rewrite host_events_app, H1, H2, S1, map_app. reflexivity.
Qed.

(** ** A session that is not bidirectional *)

Lemma quiet_session_trans o e1 w1 e2 w2 :
  quiet_session o e1 w1 -> quiet_session (channel_private w1) e2 w2 ->
  quiet_session o (e1 ++ e2) w2.
Proof.
  intros [F1 P1] [F2 P2]. split.
  - rewrite host_events_app. apply Forall_app. now split.
  - destruct o as [t|].
    + destruct P1 as [(t1 & E1 & K1)|E1]; rewrite E1 in P2.
      * destruct P2 as [(t2 & E2 & K2)|E2]; [left|now right].
        exists t2. split; [exact E2 | congruence].
      * now right.
    + now rewrite P1 in P2.
Qed.

Lemma quiet_session_same w : quiet_session (channel_private w) [] w.
Proof.
  split; [constructor|].
  destruct (channel_private w) as [t|] eqn:E; [|reflexivity].
  left. exists t. split; reflexivity.
Qed.

Lemma quiet_session_silent w e w' :
  host_events e = [] -> channel_private w' = channel_private w ->
  quiet_session (channel_private w) e w'.
Proof.
  intros H E. split; [rewrite H; constructor|].
  destruct (channel_private w) as [t|]; [|exact E].
  left. exists t. split; [exact E | reflexivity].
Qed.

Lemma quiet_session_report t e w' t' :
  Forall (fun x => In (fst x) link_events) (host_events e) ->
  playback_fields t' = playback_fields t ->
  channel_private w' = Some t' \/ channel_private w' = None ->
  quiet_session (Some t) e w'.
Proof.
  intros F P [H|H]; split; try exact F; [left | now right].
  exists t'. split; assumption.
Qed.

Lemma stream_session_graceful_shutdown_quiet_session now w :
  quiet_session (channel_private w)
    (snd (fst (stream_session_graceful_shutdown now w)))
    (fst (fst (stream_session_graceful_shutdown now w))).
Proof.
  unfold stream_session_graceful_shutdown.
  destruct (channel_private w) as [t|] eqn:EP;
    [|split; [constructor | exact EP]].
  unfold pointee. cbn [audio_pipe_ptr set_tp_graceful_shutdown].
  destruct (audio_pipe_ptr t); [destruct (pipe w)|]; cbn;
    (split; [constructor|]); left;
    exists (set_tp_graceful_shutdown true t); split; reflexivity.
Qed.

Lemma eventCallback_quiet_session event message now read_codec w :
  event <> MESSAGE ->
  quiet_session (channel_private w)
    (snd (eventCallback event message now read_codec w))
    (fst (eventCallback event message now read_codec w)).
Proof.
  intros NM. unfold eventCallback.
  destruct (channel_private w) as [t|] eqn:EP;
    [|split; [constructor | exact EP]].
  destruct event; [| | | | | |contradiction].
  - (* CONNECT_SUCCESS *)
    destruct (pipe w) as [ap|].
    + set (ap2 := set_m_ob_audio_buffer _ _).
      pose proof (addEventBuffer_host_events (JText "") ap2) as O.
      destruct (addEventBuffer (JText "") ap2) as [[ap3 e] b].
      cbn [fst snd] in *.
      eapply quiet_session_report; [| |left; reflexivity];
        [rewrite host_events_cons, O; connection_event | reflexivity].
    + eapply quiet_session_report; [| |left; reflexivity];
        [connection_event | reflexivity].
  - (* CONNECT_FAIL *)
    cbv zeta.
    destruct (audio_pipe_ptr t) eqn:PT; destruct (channel_closing t);
      cbn [fst snd].
    + eapply quiet_session_report; [| |left; reflexivity];
        [connection_event | reflexivity].
    + eapply (quiet_session_report t _ _ t);
        [connection_event | reflexivity
        | right; apply stream_session_cleanup_private].
    + eapply (quiet_session_report t _ _ t);
        [connection_event | reflexivity | left; exact EP].
    + eapply (quiet_session_report t _ _ t);
        [connection_event | reflexivity
        | right; apply stream_session_cleanup_private].
  - (* CONNECTION_DROPPED *)
    destruct (channel_closing t); cbn [fst snd].
    + eapply quiet_session_report; [| |left; reflexivity];
        [connection_event | reflexivity].
    + eapply (quiet_session_report t _ _ t);
        [connection_event | reflexivity
        | right; apply stream_session_cleanup_private].
  - (* CONNECTION_CLOSED_GRACEFULLY *)
    destruct (channel_closing t); cbn [fst snd].
    + eapply quiet_session_report; [| |left; reflexivity];
        [constructor | reflexivity].
    + eapply (quiet_session_report t _ _ t);
        [constructor | reflexivity
        | right; apply stream_session_cleanup_private].
  - (* CONNECTION_TIMEOUT *)
    set (t1 := set_stream_termination_reason _ t).
    set (w0 := set_channel_private (Some t1) w).
    pose proof (stream_session_graceful_shutdown_quiet_session now w0) as T.
    destruct (stream_session_graceful_shutdown now w0) as [[w1 e] s].
    cbn [fst snd] in *.
    assert (T0 : quiet_session (Some t)
                   [response_handler EVENT_CONNECT_TIMEOUT
                      (members [("streamId", stream_id t);
                                ("reason", message)])] w0).
    { eapply quiet_session_report; [| |left; reflexivity];
        [connection_event | reflexivity]. }
    exact (quiet_session_trans _ _ _ _ _ T0 T).
  - (* CONNECTION_DEGRADED *)
    eapply (quiet_session_report t _ _ t);
      [connection_event | reflexivity | left; exact EP].
Qed.

Lemma no_message_host_events effs :
  Forall no_message effs -> host_events effs = [].
Proof.
  induction 1 as [|x l H F IH]; [reflexivity|].
  destruct x; cbn in H |- *; try contradiction; exact IH.
Qed.

Lemma react_quiet_session effs now read_codec :
  Forall no_message effs ->
  forall w,
    quiet_session (channel_private w) (snd (react effs now read_codec w))
      (fst (react effs now read_codec w)).
Proof.
  induction effs as [|x rest IH]; intros H w.
  - apply quiet_session_same.
  - pose proof (Forall_inv H) as HX. pose proof (Forall_inv_tail H) as HR.
    assert (D : forall w0 : world,
               channel_private w0 = channel_private w ->
               host_events [x] = [] ->
               quiet_session (channel_private w)
                 (x :: snd (react rest now read_codec w0))
                 (fst (react rest now read_codec w0))).
    { intros w0 E0 X0. pose proof (IH HR w0) as T.
      change (x :: snd (react rest now read_codec w0))
        with ([x] ++ snd (react rest now read_codec w0)).
      eapply quiet_session_trans; [|exact T].
      apply quiet_session_silent; [exact X0 | exact E0]. }
    destruct x; cbn [react]; cbn in HX; try contradiction;
      try (specialize (D w eq_refl eq_refl);
           destruct (react rest now read_codec w); exact D).
    + (* notify *)
      assert (NM : e <> MESSAGE) by (intros ->; exact HX).
      pose proof (eventCallback_quiet_session e message now read_codec w NM)
        as T1.
      destruct (eventCallback e message now read_codec w) as [w1 e1].
      cbn [fst snd] in T1.
      pose proof (IH HR w1) as T2.
      destruct (react rest now read_codec w1) as [w2 e2]. cbn [fst snd] in *.
      change (notify e message :: e1 ++ e2)
        with ([notify e message] ++ e1 ++ e2).
      eapply quiet_session_trans; [apply quiet_session_same|].
      exact (quiet_session_trans _ _ _ _ _ T1 T2).
    + (* delete_ap *)
      specialize (D (set_pipe None w) eq_refl eq_refl).
      destruct (react rest now read_codec (set_pipe None w)). exact D.
Qed.

Ltac no_messages := repeat constructor; cbn; auto.

Lemma lws_callback_no_message ev ap :
  m_is_bidirectional ap = 0 ->
  Forall no_message (snd (fst (lws_callback ev ap))).
Proof.
  intros B.
  destruct ev; cbn [lws_callback].
  - unfold on_event_wait_cancelled, processPendingConnects,
      processPendingDisconnects, processPendingWrites, connect_client.
    repeat break_if; no_messages.
  - unfold on_client_connection_error, find_pending,
      findAndRemovePendingConnect, findAndRemovePendingReconnect,
      schedule_reconnect.
    repeat break_if; no_messages.
  - unfold on_client_established, find_pending,
      findAndRemovePendingConnect, findAndRemovePendingReconnect.
    repeat break_if; no_messages.
  - unfold on_client_closed. repeat break_if; no_messages.
  - unfold on_client_writeable, send_stop, send_start, getEventData.
    cbn [generate_json_data_event].
    assert (M : forall locked a,
               Forall no_message (snd (fst (send_media locked a)))).
    { intros lk a. unfold send_media.
      destruct (if needsBothTracks a && m_switch a then m_ob_audio_buffer a
                else m_audio_buffer a) as [b|]; [|constructor].
      destruct lk; [|constructor].
      cbn [negb generate_json_data_event].
      destruct (Buffer_read b) as [b' [d|]].
      - destruct (len d =? 0); unfold flip_switch; repeat break_if;
          no_messages.
      - unfold flip_switch; repeat break_if; no_messages. }
    destruct (isGracefulShutdown ap && _); [no_messages|].
    destruct (isGracefulShutdown ap && allBuffersAreEmpty ap
              && negb (m_lastMsgSent ap)); [no_messages|].
    destruct (negb (m_firstMsgSent ap)); [no_messages|].
    destruct (m_events ap) as [|data rest].
    + cbn [is_empty_text negb String.eqb].
      destruct (state_eqb (m_state ap) LWS_CLIENT_DISCONNECTING);
        [no_messages | apply M].
    + destruct (negb (is_empty_text data)).
      * destruct short_write; no_messages.
      * destruct (state_eqb (m_state (set_m_events rest ap))
                    LWS_CLIENT_DISCONNECTING); [no_messages | apply M].
  - unfold on_client_receive. rewrite B. cbn. constructor.
  - unfold reconnect. no_messages.
  - unfold connect, addPendingConnect. no_messages.
  - unfold close, addPendingDisconnect. repeat break_if; no_messages.
  - unfold graceful_shutdown. no_messages.
  - unfold addEventBuffer, addPendingWrite. repeat break_if; no_messages.
Qed.

Lemma capture_write_no_message use_ob src ap :
  Forall no_message (snd (fst (capture_write use_ob src ap))).
Proof.
  unfold capture_write.
  destruct (if use_ob then _ else _) as [bb|]; [|constructor].
  destruct (Buffer_write bb src) as [b1 ok].
  destruct (above_threshold b1), ok; no_messages.
Qed.

Lemma frame_loop_quiet_session frames use_ob resample now :
  forall w ok,
    quiet_session (channel_private w)
      (snd (fst (frame_loop frames use_ob resample now w ok)))
      (fst (fst (frame_loop frames use_ob resample now w ok))).
Proof.
  induction frames as [|frame more IH]; intros w ok.
  - apply quiet_session_same.
  - cbn [frame_loop].
    destruct (cng frame); [apply quiet_session_same|].
    destruct (datalen frame =? 0); [apply IH|].
    destruct (pipe w) as [ap|]; [|apply quiet_session_same].
    set (src := if resample then _ else _).
    pose proof (capture_write_no_message use_ob src ap) as O.
    destruct (capture_write use_ob src ap) as [[ap1 notes] ok1].
    cbn [fst snd] in O.
    pose proof (react_quiet_session notes now None O
                  (set_pipe (Some ap1) w)) as T1.
    destruct (react notes now None (set_pipe (Some ap1) w)) as [w1 e1].
    cbn [fst snd] in T1.
    specialize (IH w1 ok1).
    destruct (frame_loop more use_ob resample now w1 ok1) as [[w2 e2] r].
    cbn [fst snd] in *.
    exact (quiet_session_trans _ _ _ _ _ T1 IH).
Qed.

Lemma stream_frame_quiet_session inbound_bug frames trylock now w :
  quiet_session (channel_private w)
    (snd (stream_frame inbound_bug frames trylock now w))
    (fst (stream_frame inbound_bug frames trylock now w)).
Proof.
  unfold stream_frame.
  destruct (channel_private w) as [t|] eqn:EP;
    [|split; [constructor | exact EP]].
  rewrite <- EP.
  destruct (audio_paused t || tp_graceful_shutdown t || negb (mutex t));
    [apply quiet_session_same|].
  destruct (negb trylock); [apply quiet_session_same|].
  destruct (pointee t (pipe w)) as [ap|]; [|apply quiet_session_same].
  destruct (negb (state_eqb (getLwsState ap) LWS_CLIENT_CONNECTED));
    [apply quiet_session_same|].
  set (use_ob := needsBothTracks ap && negb inbound_bug).
  set (resample := if use_ob then _ else _).
  pose proof (frame_loop_quiet_session frames use_ob resample now w true)
    as T.
  destruct (frame_loop frames use_ob resample now w true) as [[w1 e] ok].
  cbn [fst snd] in T.
  destruct ok; [|exact T].
  destruct (pipe w1) as [ap1|]; [|exact T].
  cbn [addPendingWrite fst snd].
  eapply quiet_session_trans; [exact T|].
  apply quiet_session_silent; reflexivity.
Qed.

Lemma step_bidirectional a e b :
  step a e b -> m_is_bidirectional b = m_is_bidirectional a.
Proof.
  induction 1; try reflexivity.
  - congruence.
  - destruct ev; cbn [lws_callback].
    + unfold on_event_wait_cancelled, processPendingConnects,
        processPendingDisconnects, processPendingWrites, connect_client.
      repeat break_if; reflexivity.
    + unfold on_client_connection_error, find_pending,
        findAndRemovePendingConnect, findAndRemovePendingReconnect.
      repeat break_if; reflexivity.
    + unfold on_client_established, find_pending,
        findAndRemovePendingConnect, findAndRemovePendingReconnect.
      repeat break_if; reflexivity.
    + unfold on_client_closed. repeat break_if; reflexivity.
    + unfold on_client_writeable, send_stop, send_start, getEventData.
      cbn [generate_json_data_event].
      assert (M : forall locked a,
                 m_is_bidirectional (fst (fst (send_media locked a)))
                 = m_is_bidirectional a).
      { intros lk a. unfold send_media.
        destruct (if needsBothTracks a && m_switch a
                  then m_ob_audio_buffer a else m_audio_buffer a) as [b|];
          [|reflexivity].
        destruct lk; [|reflexivity].
        cbn [negb generate_json_data_event].
        destruct (Buffer_read b) as [b' [d|]].
        - destruct (len d =? 0); unfold flip_switch; repeat break_if;
            reflexivity.
        - unfold flip_switch; repeat break_if; reflexivity. }
      destruct (isGracefulShutdown ap && _); [reflexivity|].
      destruct (isGracefulShutdown ap && allBuffersAreEmpty ap
                && negb (m_lastMsgSent ap)); [reflexivity|].
      destruct (negb (m_firstMsgSent ap)); [reflexivity|].
      destruct (m_events ap) as [|data rest].
      * cbn [is_empty_text negb String.eqb].
        destruct (state_eqb (m_state ap) LWS_CLIENT_DISCONNECTING);
          [reflexivity | apply M].
      * destruct (negb (is_empty_text data)).
        -- destruct short_write; reflexivity.
        -- destruct (state_eqb (m_state (set_m_events rest ap))
                       LWS_CLIENT_DISCONNECTING);
             [reflexivity | now rewrite M].
    + unfold on_client_receive. repeat break_if; reflexivity.
    + reflexivity.
    + reflexivity.
    + unfold close, addPendingDisconnect. repeat break_if; reflexivity.
    + reflexivity.
    + unfold addEventBuffer, addPendingWrite. repeat break_if; reflexivity.
  - unfold addEventBuffer, addPendingWrite. repeat break_if; reflexivity.
  - unfold addEventBuffer, addPendingWrite. repeat break_if; reflexivity.
  - unfold addEventBuffer, addPendingWrite. cbn.
    repeat break_if; reflexivity.
  - unfold addEventBuffer, addPendingWrite. repeat break_if; reflexivity.
  - unfold close, addPendingDisconnect. repeat break_if; reflexivity.
  - unfold capture_write.
    destruct (if use_ob then _ else _) as [bb|]; [|reflexivity].
    destruct (Buffer_write bb src) as [b1 ok].
    destruct use_ob; reflexivity.
Qed.

Lemma playback_fields_buffer t t' :
  playback_fields t' = playback_fields t -> write_buffer t' = write_buffer t.
Proof. unfold playback_fields. now intros [= _ E _ _ _ _]. Qed.

Lemma run_action_quiet_session a w :
  (forall t, channel_private w = Some t -> write_buffer t = None) ->
  (forall ap, pipe w = Some ap -> m_is_bidirectional ap = 0) ->
  quiet_session (channel_private w) (snd (run_action a w))
    (fst (run_action a w)).
Proof.
  intros HW HB.
  destruct a; cbn [run_action].
  - (* transport *)
    destruct (pipe w) as [ap|] eqn:EP; [|apply quiet_session_same].
    pose proof (lws_callback_no_message ev ap (HB ap eq_refl)) as O.
    destruct (lws_callback ev ap) as [[ap1 effs] r]. cbn [fst snd] in O.
    exact (react_quiet_session effs now read_codec O
             (set_pipe (Some ap1) w)).
  - (* replace_frame *)
    destruct (channel_private w) as [t|] eqn:EP;
      [|split; [constructor | exact EP]].
    unfold write_replace. rewrite (HW t eq_refl). cbn [fst snd].
    split; [constructor|]. left. exists t. split; reflexivity.
  - (* capture *)
    apply stream_frame_quiet_session.
  - (* cmd_send_text *)
    unfold stream_session_send_text.
    destruct (channel_private w) as [t|] eqn:EP;
      [|split; [constructor | exact EP]].
    rewrite <- EP.
    destruct (pointee t (pipe w)) as [ap|]; [|apply quiet_session_same].
    destruct text as [txt|]; [|apply quiet_session_same].
    pose proof (addEventBuffer_host_events (JText txt) ap) as O.
    destruct (addEventBuffer (JText txt) ap) as [[ap1 e] b].
    cbn [fst snd] in *.
    apply quiet_session_silent; [exact O | reflexivity].
  - (* cmd_graceful_shutdown *)
    pose proof (stream_session_graceful_shutdown_quiet_session now w) as T.
    destruct (stream_session_graceful_shutdown now w) as [[w1 e] s].
    exact T.
  - (* cmd_pauseresume *)
    unfold stream_session_pauseresume.
    destruct (channel_private w) as [t|] eqn:EP;
      [|split; [constructor | exact EP]].
    cbn [fst snd].
    eapply quiet_session_report; [constructor | | left; reflexivity].
    reflexivity.
  - (* cmd_stop *)
    unfold stream_ws_close_connection.
    destruct (channel_private w) as [t|] eqn:EP;
      [|split; [constructor | exact EP]].
    destruct (pointee t (pipe w)) as [ap|];
      [|rewrite <- EP; apply quiet_session_same].
    unfold close, addPendingDisconnect. break_if; cbn;
      (split; [constructor|]); left;
      exists (set_channel_closing true t); split; reflexivity.
Qed.

Lemma run_quiet_session acts :
  forall w,
    (forall t, channel_private w = Some t -> write_buffer t = None) ->
    (forall ap, pipe w = Some ap -> m_is_bidirectional ap = 0) ->
    quiet_session (channel_private w) (snd (run acts w)) (fst (run acts w)).
Proof.
  induction acts as [|a rest IH]; intros w HW HB.
  - apply quiet_session_same.
  - cbn [run].
    pose proof (run_action_quiet_session a w HW HB) as T1.
    pose proof (run_action_tracks a w) as P1.
    destruct (run_action a w) as [w1 e1]. cbn [fst snd] in T1, P1.
    assert (HW1 : forall t, channel_private w1 = Some t ->
                            write_buffer t = None).
    { intros t1 E1. destruct T1 as [_ K].
      destruct (channel_private w) as [t|] eqn:EP; [|congruence].
      destruct K as [(t' & E' & F')|E']; [|congruence].
      rewrite E1 in E'. injection E' as <-.
      rewrite (playback_fields_buffer _ _ F'). now apply HW. }
    assert (HB1 : forall ap, pipe w1 = Some ap -> m_is_bidirectional ap = 0).
    { intros ap1 E1. unfold tracks in P1.
      destruct (pipe w) as [ap|] eqn:EP.
      - destruct P1 as (ap' & S & [K|K]); [|congruence].
        rewrite E1 in K. injection K as <-.
        rewrite (step_bidirectional _ _ _ S). now apply HB.
      - destruct P1 as [_ K]. congruence. }
    specialize (IH w1 HW1 HB1).
    destruct (run rest w1) as [w2 e2]. cbn [fst snd] in *.
    exact (quiet_session_trans _ _ _ _ _ T1 IH).
Qed.

(** X22.  A session that is not bidirectional ignores what the peer sends.
    In every run of a session started with is_bidirectional = 0, whatever
    arrives on the socket, nothing is stored for playback, no checkpoint is
    taken, no frame of the call is altered by inbound audio, and the only
    events reported to the host are those of the connection. *)
Theorem unidirectional_session_ignores_peer
    (now : Z) (session_id sid : string) (codec : streaming_codec_t)
    (sampling desiredSampling channels secs : Z) (track : string)
    (metadata : string) (acts : list action) :
  let r :=
    run acts
      (stream_data_init now session_id sid codec sampling desiredSampling
         channels secs track 0 metadata) in
  Forall (fun x => In (fst x) link_events) (host_events (snd r))
  /\ (forall t,
        channel_private (fst r) = Some t ->
        write_buffer t = None
        /\ stream_input_received t = 0
        /\ stream_input_played t = 0
        /\ checkpoints t = []
        /\ invalid_stream_input_notified t = false
        /\ forall rframe p, write_replace rframe t p = (t, p, rframe, [])).
Proof.
  cbv zeta.
  set (w0 := stream_data_init now session_id sid codec sampling
               desiredSampling channels secs track 0 metadata).
  destruct (run_quiet_session acts w0) as [F K].
  - intros t [= <-]. reflexivity.
  - intros ap [= <-]. reflexivity.
  - split; [exact F|]. intros t E. cbn in K.
    destruct K as [(t' & E' & P)|E']; [|congruence].
    rewrite E in E'. injection E' as <-.
    unfold playback_fields in P. cbn in P.
    injection P as _ P1 P2 P3 P4 P5.
    repeat split; try assumption.
    intros rframe p. unfold write_replace. now rewrite P1.
Qed.

(** ** The two tracks *)

Lemma both_step_outbound (cur : Z) (ap : AudioPipe) (x : list byte)
    (inbound outbound : list (list byte)) :
  streaming_both true ap inbound (x :: outbound) ->
  media_tracks (wire (snd (fst (on_client_writeable cur true false ap))))
  = [("outbound"%string, base64.base64_encode x)]
  /\ streaming_both false (fst (fst (on_client_writeable cur true false ap)))
       inbound outbound.
Proof.
  intros (HN & HW & (bi & EI & HI & CI) & (bo & EO & HO & CO) & HG & HF
          & HE & HS).
  destruct (Buffer_read_holds bo x outbound CO HO) as (R & H1 & C1 & _).
  unfold on_client_writeable, isGracefulShutdown.
  rewrite HG. cbn [andb]. rewrite HF. cbn [negb].
  unfold getEventData. rewrite HE.
  cbn [is_empty_text String.eqb negb]. rewrite HS. cbn [state_eqb].
  unfold send_media. rewrite HN, HW. cbn [andb]. rewrite EO. cbn [negb].
  cbn [generate_json_data_event].
  destruct (Buffer_read bo) as [b1 r]. cbn [fst snd] in *. subst r.
  assert (LX : len x = chunk_size_bytes_ bo)
    by (destruct HO as [_ F]; exact (Forall_inv F)).
  replace (len x =? 0) with false by (symmetry; apply Z.eqb_neq; lia).
  unfold flip_switch, needsBothTracks in *. cbn. rewrite HN. cbn.
  split; [reflexivity|].
  unfold streaming_both, needsBothTracks. cbn. rewrite HW. cbn.
  refine (conj HN (conj eq_refl (conj _ (conj _
            (conj HG (conj HF (conj HE HS))))))).
  - exists bi. split; [exact EI|]. split; [exact HI | exact CI].
  - exists b1. split; [reflexivity|]. split; [exact H1 | lia].
Qed.

Lemma both_step_inbound (cur : Z) (ap : AudioPipe) (x : list byte)
    (inbound outbound : list (list byte)) :
  streaming_both false ap (x :: inbound) outbound ->
  media_tracks (wire (snd (fst (on_client_writeable cur true false ap))))
  = [("inbound"%string, base64.base64_encode x)]
  /\ streaming_both true (fst (fst (on_client_writeable cur true false ap)))
       inbound outbound.
Proof.
  intros (HN & HW & (bi & EI & HI & CI) & (bo & EO & HO & CO) & HG & HF
          & HE & HS).
  destruct (Buffer_read_holds bi x inbound CI HI) as (R & H1 & C1 & _).
  unfold on_client_writeable, isGracefulShutdown.
  rewrite HG. cbn [andb]. rewrite HF. cbn [negb].
  unfold getEventData. rewrite HE.
  cbn [is_empty_text String.eqb negb]. rewrite HS. cbn [state_eqb].
  unfold send_media. rewrite HN, HW. cbn [andb]. rewrite EI. cbn [negb].
  cbn [generate_json_data_event].
  destruct (Buffer_read bi) as [b1 r]. cbn [fst snd] in *. subst r.
  assert (LX : len x = chunk_size_bytes_ bi)
    by (destruct HI as [_ F]; exact (Forall_inv F)).
  replace (len x =? 0) with false by (symmetry; apply Z.eqb_neq; lia).
  unfold flip_switch, needsBothTracks in *. cbn. rewrite HN. cbn.
  split; [reflexivity|].
  unfold streaming_both, needsBothTracks. cbn. rewrite HW. cbn.
  refine (conj HN (conj eq_refl (conj _ (conj _
            (conj HG (conj HF (conj HE HS))))))).
  - exists b1. split; [reflexivity|]. split; [exact H1 | lia].
  - exists bo. split; [exact EO|]. split; [exact HO | exact CO].
Qed.

Lemma media_tracks_app (a b : list json_msg) :
  media_tracks (a ++ b) = media_tracks a ++ media_tracks b.
Proof. unfold media_tracks. apply flat_map_app. Qed.

(** X23.  The two tracks take turns.  On an object that streams both
    tracks and holds as many chunks of each, the writable callbacks send
    one chunk of the outbound track, then one of the inbound track, and so
    on, each track in the order captured: neither track waits for the other
    to be drained. *)
Theorem both_tracks_take_turns
    (cur : Z) (pairs : list (list byte * list byte)) (ap : AudioPipe) :
  streaming_both true ap (map fst pairs) (map snd pairs) ->
  media_tracks
    (wire (snd (run_pipe
                  (repeat (LWS_CALLBACK_CLIENT_WRITEABLE cur true false)
                     (2 * List.length pairs)) ap)))
  = flat_map
      (fun p =>
         [("outbound"%string, base64.base64_encode (snd p));
          ("inbound"%string, base64.base64_encode (fst p))]) pairs.
Proof.
  revert ap. induction pairs as [|[a b] rest IH]; intros ap ST.
  - reflexivity.
  - cbn [map fst snd] in ST.
    replace (2 * List.length ((a, b) :: rest))%nat
      with (S (S (2 * List.length rest))) by (cbn [List.length]; lia).
    change (repeat (LWS_CALLBACK_CLIENT_WRITEABLE cur true false)
              (S (S (2 * List.length rest))))
      with (LWS_CALLBACK_CLIENT_WRITEABLE cur true false
            :: LWS_CALLBACK_CLIENT_WRITEABLE cur true false
            :: repeat (LWS_CALLBACK_CLIENT_WRITEABLE cur true false)
                 (2 * List.length rest)).
    rewrite !run_pipe_cons. cbn [lws_callback fst snd].
    destruct (both_step_outbound cur ap b (a :: map fst rest)
                (map snd rest) ST) as [W1 ST1].
    set (ap1 := fst (fst (on_client_writeable cur true false ap))) in *.
    destruct (both_step_inbound cur ap1 a (map fst rest) (map snd rest) ST1)
      as [W2 ST2].
    set (ap2 := fst (fst (on_client_writeable cur true false ap1))) in *.
    rewrite !wire_app, !media_tracks_app, W1, W2, (IH ap2 ST2).
    reflexivity.
Qed.

End Host.

(** ** Closed examples *)

Local Abbreviation example_run :=
  (run example_ulaw_to_linear example_linear_to_ulaw example_resampler
     example_cJSON_Parse 32767 (-32767)).


(** C2, counterexample.  The checkpoint stands at position 400; the first
    frame of 320 bytes fires it, when 320 bytes have been played. *)
Lemma checkpoint_fires_a_frame_early :
  option_map checkpoints
    (channel_private
       (fst (example_run (example_connected ++ example_playback)
               example_session)))
  = Some [mk_checkpoint 400 "greeting"]
  /\ host_events
       (snd (example_run [replace_frame example_frame]
               (fst (example_run (example_connected ++ example_playback)
                       example_session))))
     = [played_event "stream" (mk_checkpoint 400 "greeting")]
  /\ option_map stream_input_played
       (channel_private
          (fst (example_run
                  (example_connected ++ example_playback
                   ++ [replace_frame example_frame])
                  example_session)))
     = Some 320.
Proof. repeat split; vm_compute; reflexivity. Qed.

(** C4, counterexample.  A media.play of contentType audio/x-mulaw and
    sampleRate 44100: its 160 bytes are decoded and stored as 320 bytes, and
    no incorrectPayload is made. *)
Lemma mulaw_at_44100_is_stored :
  let w :=
    fst (example_run
           (example_connected
            ++ [transport
                  (LWS_CALLBACK_CLIENT_RECEIVE false example_play_mulaw) 0
                  (Some 8000)])
           example_session) in
  option_map stream_input_received (channel_private w) = Some 320
  /\ option_map (fun t => option_map switch_buffer.inuse (write_buffer t))
       (channel_private w) = Some (Some 320)
  /\ option_map invalid_stream_input_notified (channel_private w)
     = Some false
  /\ option_map (fun ap => existsb is_incorrect_payload (m_events ap))
       (pipe w) = Some false
  /\ option_map getSequenceNumber (pipe w) = Some 1.
Proof. repeat split; vm_compute; reflexivity. Qed.

(** C9, on the session above: a captured frame goes out as one media
    message of 320 bytes. *)
Lemma media_frame_size_example :
  example_session = mk_world (Some example_context) (Some example_pipe)
  /\ count_msg is_media
       (wire (snd (example_run (example_connected ++ example_capture)
                     example_session))) = 1
  /\ Forall (media_payload_is 320)
       (wire (snd (example_run (example_connected ++ example_capture)
                     example_session))).
Proof.
  split; [reflexivity|]. split; [vm_compute; reflexivity|].
  exact (proj2 (proj2
           (media_frame_size example_ulaw_to_linear example_linear_to_ulaw
              example_resampler example_cJSON_Parse 32767 (-32767)
              0 "call" "stream" L16 8000 8000 1 2 "inbound" 1 ""
              (example_connected ++ example_capture)
              ltac:(lia) ltac:(vm_compute; reflexivity)))).
Defined.

(** C10, on the fresh objects of the session above, which are not
    Connected. *)
Lemma enqueue_when_not_connected_example :
  m_state example_pipe = LWS_CLIENT_IDLE
  /\ addEventBuffer (JText "hello") example_pipe = (example_pipe, [], false)
  /\ stream_ws_send_played_event "greeting" example_context
       (Some example_pipe)
     = (Some (increaseSequenceNumber example_pipe), [],
        SWITCH_STATUS_SUCCESS)
  /\ stream_session_send_text (Some "hello") example_session
     = (example_session, [], SWITCH_STATUS_SUCCESS).
Proof.
  pose proof (enqueue_when_not_connected example_pipe example_context
                example_session ltac:(discriminate)) as (A & B & _ & _ & C).
  split; [reflexivity|]. split; [exact (A (JText "hello"))|].
  split; [exact (B "greeting" eq_refl)|].
  exact (C (Some "hello") eq_refl eq_refl).
Defined.


(** C8, with the bounds of the specification: 30000 and 10000 mix to
    32767, their opposites to -32767, and 1000 and 2000 to 3000. *)
Lemma mix_saturates_example :
  mix_sample 32767 (-32767) 30000 10000 = 32767
  /\ mix_sample 32767 (-32767) (-30000) (-10000) = -32767
  /\ mix_sample 32767 (-32767) 1000 2000 = 3000
  /\ int16_at
       (mix_frame 32767 (-32767) (bytes_of_int16 30000)
          (bytes_of_int16 10000) 1) 0
     = 32767.
Proof.
  pose proof (mix_saturates example_ulaw_to_linear example_linear_to_ulaw
                32767 (-32767) (bytes_of_int16 30000) (bytes_of_int16 10000)
                1 0 30000 10000
                ltac:(lia) ltac:(lia) ltac:(lia) ltac:(lia) ltac:(lia)
                ltac:(lia)) as (A & _ & _ & B & _).
  pose proof (mix_saturates example_ulaw_to_linear example_linear_to_ulaw
                32767 (-32767) [] [] 1 0 (-30000) (-10000)
                ltac:(lia) ltac:(lia) ltac:(lia) ltac:(lia) ltac:(lia)
                ltac:(lia)) as (A' & _).
  pose proof (mix_saturates example_ulaw_to_linear example_linear_to_ulaw
                32767 (-32767) [] [] 1 0 1000 2000
                ltac:(lia) ltac:(lia) ltac:(lia) ltac:(lia) ltac:(lia)
                ltac:(lia)) as (_ & _ & A'' & _).
  split; [exact A|]. split; [exact A'|]. split; [apply A''; lia|].
  exact B.
Defined.

(** C6, on a fresh object whose buffer holds two chunks: the first chunk
    captured fills it to one half, which is above three tenths, and the
    notification is made; the counter goes to 2. *)
Lemma degradation_at_three_fill_levels_example :
  snd (fst (capture_write false (example_audio 320) example_small_pipe))
  = [notify CONNECTION_DEGRADED ""]
  /\ option_map degradation_notification_sent_
       (m_audio_buffer
          (fst (fst (capture_write false (example_audio 320)
                       example_small_pipe))))
     = Some 2
  /\ 3 * 1 * 640 <= 10 * 320.
Proof.
  pose proof (degradation_at_three_fill_levels 0 "call" "stream" 640
                "inbound" "" L16 8000 1 [] example_small_pipe false
                (example_audio 320) (Buffer_new 0 640 320 20)
                ltac:(lia) (step_refl example_small_pipe) eq_refl)
    as (_ & _ & _ & E & _ & A & _ & _).
  cbv zeta in E, A.
  destruct (A ltac:(vm_compute; reflexivity)) as (_ & L & B).
  split; [rewrite E; vm_compute; reflexivity|].
  split; [rewrite B; reflexivity | exact L].
Defined.

(** ** Closed examples: the ring buffer *)

(** X1, an instance: two frames of 320 bytes through a buffer of 640. *)
Lemma ring_buffer_fifo_example :
  snd (Buffer_writes (Buffer_new 0 640 320 20)
         [example_audio 320; example_audio 320]) = true
  /\ snd (Buffer_reads 2
            (fst (Buffer_writes (Buffer_new 0 640 320 20)
                    [example_audio 320; example_audio 320])))
     = map (fun d => bytes_at d 320) [example_audio 320; example_audio 320]
  /\ switch_buffer.data
       (freeswitch_buffer_
          (fst (Buffer_reads 2
                  (fst (Buffer_writes (Buffer_new 0 640 320 20)
                          [example_audio 320; example_audio 320])))))
     = []
  /\ snd (Buffer_read
            (fst (Buffer_reads 2
                    (fst (Buffer_writes (Buffer_new 0 640 320 20)
                            [example_audio 320; example_audio 320])))))
     = None.
Proof.
  apply (ring_buffer_fifo 0 640 320 20
           [example_audio 320; example_audio 320]).
  - lia.
  - lia.
  - vm_compute. discriminate.
Defined.

(** X2, an instance: a fresh buffer of 640 bytes with chunks of 320. *)
Lemma write_refused_when_full_example :
  (snd (Buffer_write (Buffer_new 0 640 320 20) (example_audio 320)) = true
   <-> current_usage_bytes_ (Buffer_new 0 640 320 20)
       + chunk_size_bytes_ (Buffer_new 0 640 320 20)
       <= switch_buffer.max_len
            (freeswitch_buffer_ (Buffer_new 0 640 320 20)))
  /\ (snd (Buffer_write (Buffer_new 0 640 320 20) (example_audio 320))
      = false ->
      fst (Buffer_write (Buffer_new 0 640 320 20) (example_audio 320))
      = Buffer_new 0 640 320 20)
  /\ (snd (Buffer_write (Buffer_new 0 640 320 20) (example_audio 320))
      = true ->
      current_usage_bytes_
        (fst (Buffer_write (Buffer_new 0 640 320 20) (example_audio 320)))
      = current_usage_bytes_ (Buffer_new 0 640 320 20)
        + chunk_size_bytes_ (Buffer_new 0 640 320 20)).
Proof.
  apply (write_refused_when_full (Buffer_new 0 640 320 20)
           (example_audio 320)).
  - apply buffer_ok_new. lia.
  - vm_compute. reflexivity.
Defined.

(** X3, an instance: the object of C6's example after one captured chunk;
    its buffer holds 320 of 640 bytes. *)
Lemma ring_buffers_accounted_example :
  m_audio_buffer
    (fst (fst (capture_write false (example_audio 320) example_small_pipe)))
  = Some (fst (Buffer_write
                 (set_degradation (Buffer_new 0 640 320 20) 2)
                 (example_audio 320)))
  /\ current_usage_bytes_
       (fst (Buffer_write (set_degradation (Buffer_new 0 640 320 20) 2)
               (example_audio 320)))
     = 320
  /\ (320 | 320).
Proof.
  assert (E : m_audio_buffer
                (fst (fst (capture_write false (example_audio 320)
                             example_small_pipe)))
              = Some (fst (Buffer_write
                             (set_degradation (Buffer_new 0 640 320 20) 2)
                             (example_audio 320))))
    by (vm_compute; reflexivity).
  pose proof (ring_buffers_accounted 0 "call" "stream" 640 "inbound" ""
                L16 8000 1 _ _ _ ltac:(lia)
                (step_capture false (example_audio 320) example_small_pipe)
                (or_introl E))
    as (U & D & _ & _).
  split; [exact E|]. split; [vm_compute; reflexivity|].
  replace (chunk_size_bytes_
             (fst (Buffer_write
                     (set_degradation (Buffer_new 0 640 320 20) 2)
                     (example_audio 320)))) with 320 in D
    by (vm_compute; reflexivity).
  replace (current_usage_bytes_
             (fst (Buffer_write
                     (set_degradation (Buffer_new 0 640 320 20) 2)
                     (example_audio 320)))) with 320 in D
    by (vm_compute; reflexivity).
  exact D.
Defined.

(** ** Closed examples: the session *)

(** X7, with the example tables: three bytes decode to six and come back;
    the byte 7f, which expands to zero like ff, does not. *)
Lemma g711u_round_trip_example :
  g711u_encode example_linear_to_ulaw
    (g711u_decode example_ulaw_to_linear [x00; x55; xff])
  = [x00; x55; xff]
  /\ len (g711u_decode example_ulaw_to_linear [x00; x55; xff]) = 6
  /\ g711u_encode example_linear_to_ulaw
       (g711u_decode example_ulaw_to_linear [x7f])
     = [xff].
Proof.
  pose proof (g711u_lengths_and_round_trip example_ulaw_to_linear
                example_linear_to_ulaw example_resampler
                [x00; x55; xff] []) as (L & _ & _ & R).
  split; [|split; [rewrite L; reflexivity | vm_compute; reflexivity]].
  apply R. repeat constructor; vm_compute; congruence.
Defined.

(** X8, on the example session: two captured frames go out as the chunks
    1 and 2 of the inbound track, stamped 20 and 40 ms after the time the
    buffer was made. *)
Lemma media_chunks_numbered_example :
  let sent :=
    media_of "inbound"
      (wire (snd (example_run
                    (example_connected ++ example_capture ++ example_capture)
                    example_session))) in
  sent = [(1, "20000"%string); (2, "40000"%string)]
  /\ sent = expected_media 0 (List.length sent).
Proof.
  cbv zeta. split; [vm_compute; reflexivity|].
  exact (proj1
           (media_chunks_numbered example_ulaw_to_linear
              example_linear_to_ulaw example_resampler example_cJSON_Parse
              32767 (-32767) 0 "call" "stream" L16 8000 8000 1 2 "inbound"
              1 "" (example_connected ++ example_capture ++ example_capture)
              "inbound" ltac:(lia) ltac:(vm_compute; reflexivity))).
Defined.

(** X9, on the example session: of the 400 bytes received, 320 were
    played with the first frame and 80 wait. *)
Lemma inbound_audio_accounted_example :
  exists t wb,
    channel_private
      (fst (example_run
              (example_connected ++ example_playback
               ++ [replace_frame example_frame]) example_session))
    = Some t
    /\ write_buffer t = Some wb
    /\ stream_input_received t = 400
    /\ stream_input_played t = 320
    /\ switch_buffer.inuse wb = 80
    /\ uint32 (stream_input_played t + switch_buffer.inuse wb)
       = stream_input_received t.
Proof.
  eexists. eexists.
  split; [vm_compute; reflexivity|].
  split; [vm_compute; reflexivity|].
  split; [reflexivity|]. split; [reflexivity|]. split; [reflexivity|].
  refine (proj1
            (inbound_audio_accounted example_ulaw_to_linear
               example_linear_to_ulaw example_resampler example_cJSON_Parse
               32767 (-32767) 0 "call" "stream" L16 8000 8000 1 2 "inbound"
               1 ""
               (example_connected ++ example_playback
                ++ [replace_frame example_frame]) _ _ _ _));
    vm_compute; reflexivity.
Defined.

(** X11, on a context that holds 400 bytes and a checkpoint: after
    media.clear the next frame passes untouched and nothing is reported. *)
Lemma clear_stops_playback_example :
  let t :=
    set_checkpoints [mk_checkpoint 400 "greeting"]
      (storePayload example_ulaw_to_linear example_resampler
         (example_audio 400) L16 8000 8000 example_context) in
  let w1 :=
    fst (eventCallback example_ulaw_to_linear example_resampler
           example_clear_parse MESSAGE example_clear 0 None
           (mk_world (Some t) (Some example_pipe))) in
  option_map switch_buffer.inuse (write_buffer t) = Some 400
  /\ run example_ulaw_to_linear example_linear_to_ulaw example_resampler
       example_clear_parse 32767 (-32767)
       (map replace_frame [example_frame]) w1
     = (w1, []).
Proof.
  cbv zeta. split; [vm_compute; reflexivity|].
  destruct (clear_stops_playback example_ulaw_to_linear
              example_linear_to_ulaw example_resampler example_clear_parse
              32767 (-32767) example_clear 0 None
              (set_checkpoints [mk_checkpoint 400 "greeting"]
                 (storePayload example_ulaw_to_linear example_resampler
                    (example_audio 400) L16 8000 8000 example_context))
              example_pipe
              {| j_event := Some "media.clear"%string;
                 j_media := None;
                 j_name := None |}
              [example_frame])
    as (t1 & ap1 & _ & _ & _ & _ & _ & _ & _ & R & _);
    [vm_compute; reflexivity | reflexivity
    | repeat constructor | exact R].
Defined.

(** X13, on an object whose buffer of 640 bytes holds two chunks of 320:
    the third captured frame overflows it. *)
Lemma overflow_starts_graceful_shutdown_example :
  let b :=
    fst (Buffer_write
           (fst (Buffer_write (Buffer_new 0 640 320 20) (example_audio 320)))
           (example_audio 320)) in
  let ap :=
    set_m_audio_buffer (Some b)
      (set_m_state LWS_CLIENT_CONNECTED example_small_pipe) in
  let r :=
    stream_frame example_ulaw_to_linear example_linear_to_ulaw
      example_resampler example_cJSON_Parse true [example_frame] true 7
      (mk_world (Some example_context) (Some ap)) in
  current_usage_bytes_ b = 640
  /\ option_map tp_graceful_shutdown (channel_private (fst r)) = Some true
  /\ option_map m_gracefulShutdown_at (pipe (fst r)) = Some 7
  /\ In (EVENT_CONNECT_TIMEOUT,
         members [("streamId", "stream"); ("reason", "")]%string)
       (host_events (snd r)).
Proof.
  cbv zeta.
  destruct (overflow_starts_graceful_shutdown example_ulaw_to_linear
              example_linear_to_ulaw example_resampler example_cJSON_Parse
              true example_frame 7 example_context
              (set_m_audio_buffer
                 (Some (fst (Buffer_write
                               (fst (Buffer_write (Buffer_new 0 640 320 20)
                                       (example_audio 320)))
                               (example_audio 320))))
                 (set_m_state LWS_CLIENT_CONNECTED example_small_pipe))
              (fst (Buffer_write
                      (fst (Buffer_write (Buffer_new 0 640 320 20)
                              (example_audio 320)))
                      (example_audio 320))))
    as (t' & ap' & b' & E & G & _ & _ & A & _ & _ & H & _);
    try (vm_compute; reflexivity); [vm_compute; discriminate|].
  split; [vm_compute; reflexivity|].
  rewrite E. cbn [channel_private pipe option_map].
  rewrite G, A. split; [reflexivity|]. split; [reflexivity|]. exact H.
Defined.

(** X14, on the example session: a frame captured while paused. *)
Lemma pause_drops_captures_example :
  example_run
    ([cmd_pauseresume true] ++ [capture true [example_frame] true 0]
     ++ [cmd_pauseresume false]) example_session
  = (example_session, []).
Proof.
  apply (pause_drops_captures example_ulaw_to_linear example_linear_to_ulaw
           example_resampler example_cJSON_Parse 32767 (-32767)
           example_session example_context
           [capture true [example_frame] true 0]); reflexivity.
Defined.

(** X15, on the example session after a graceful shutdown and the close
    of the socket, which cleans the context up. *)
Lemma destroyed_session_is_silent_example :
  let w :=
    fst (example_run
           (example_connected
            ++ [cmd_graceful_shutdown 1;
                transport LWS_CALLBACK_CLIENT_CLOSED 2 None])
           example_session) in
  channel_private w = None
  /\ host_events
       (snd (example_run (example_capture ++ [cmd_send_text (Some "hello")])
               w)) = [].
Proof.
  cbv zeta.
  assert (E : channel_private
                (fst (example_run
                        (example_connected
                         ++ [cmd_graceful_shutdown 1;
                             transport LWS_CALLBACK_CLIENT_CLOSED 2 None])
                        example_session))
              = None) by (vm_compute; reflexivity).
  split; [exact E|].
  exact (proj1 (proj2
           (destroyed_session_is_silent example_ulaw_to_linear
              example_linear_to_ulaw example_resampler example_cJSON_Parse
              32767 (-32767) _
              (example_capture ++ [cmd_send_text (Some "hello")]) E))).
Defined.

(** X16, on the example objects: after the stop command a refused
    connection arms no timer. *)
Lemma no_retry_after_stop_example :
  exists ap1,
    pipe (fst (stream_ws_close_connection
                 (mk_world (Some example_context) (Some example_pipe))))
    = Some ap1
    /\ count is_schedule
         (snd (run_pipe
                 [call_connect; LWS_CALLBACK_EVENT_WAIT_CANCELLED (Some 1);
                  LWS_CALLBACK_CLIENT_CONNECTION_ERROR 1 "refused"] ap1))
       = 0.
Proof.
  destruct (no_retry_after_stop example_context example_pipe
              [call_connect; LWS_CALLBACK_EVENT_WAIT_CANCELLED (Some 1);
               LWS_CALLBACK_CLIENT_CONNECTION_ERROR 1 "refused"]
              eq_refl ltac:(repeat constructor))
    as (ap1 & E & _ & C & _).
  exists ap1. split; [exact E | exact C].
Defined.



(** X19, on the example objects: the 400 bytes of the example message are
    mixed into a frame of 400 bytes. *)
Lemma received_audio_is_mixed_example :
  exists t1 t2,
    fst (example_run
           [transport (LWS_CALLBACK_CLIENT_RECEIVE false example_play_l16) 0
              (Some 8000)]
           (mk_world (Some example_context) (Some example_pipe)))
    = mk_world (Some t1) (Some example_pipe)
    /\ stream_input_received t1 = 400
    /\ write_replace 32767 (-32767)
         (mk_frame (example_audio 400) 400 200 false) t1 (Some example_pipe)
       = (t2, Some example_pipe,
          mk_frame
            (mix_frame 32767 (-32767) (example_audio 400) (example_audio 400)
               200)
            400 200 false, [])
    /\ stream_input_played t2 = 400.
Proof.
  destruct (received_audio_is_mixed example_ulaw_to_linear
              example_linear_to_ulaw example_resampler example_cJSON_Parse
              32767 (-32767) example_play_l16 (example_audio 400) 8000 0
              example_context example_pipe (switch_buffer.create_dynamic 0)
              (mk_frame (example_audio 400) 400 200 false))
    as (t1 & t2 & E & R & W & P & _).
  - vm_compute. discriminate.
  - reflexivity.
  - reflexivity.
  - reflexivity.
  - reflexivity.
  - left. reflexivity.
  - vm_compute. reflexivity.
  - vm_compute. discriminate.
  - vm_compute. reflexivity.
  - exists t1, t2. split; [exact E|]. split; [rewrite R; reflexivity|].
    split; [exact W|]. rewrite P. reflexivity.
Defined.

(** X20, on an object whose buffer holds a chunk of zero bytes and then a
    chunk of bytes ff, asked to shut down at second 1: three writable
    callbacks at second 2 send the two chunks in that order, then stop. *)
Lemma graceful_shutdown_drains_example :
  let b :=
    fst (Buffer_writes (Buffer_new 0 640 320 20)
           [example_audio 320; repeat xff 320]) in
  let ap :=
    set_m_audio_buffer (Some b)
      (fst (graceful_shutdown 1
              (set_m_firstMsgSent true
                 (set_m_state LWS_CLIENT_CONNECTED example_small_pipe)))) in
  exists msgs,
    wire (snd (run_pipe
                 (repeat (LWS_CALLBACK_CLIENT_WRITEABLE 2 true false) 3) ap))
    = msgs ++ [JStop 2 "stream" "call" None]
    /\ media_payloads msgs
       = [base64.base64_encode (example_audio 320);
          base64.base64_encode (repeat xff 320)].
Proof.
  cbv zeta.
  destruct (Buffer_writes_holds [example_audio 320; repeat xff 320]
              (Buffer_new 0 640 320 20) []
              (buffer_ok_new 0 640 320 20 ltac:(lia)))
    as (_ & H & C & OK);
    [vm_compute; reflexivity | split; [reflexivity | constructor]
    | vm_compute; discriminate |].
  destruct (graceful_shutdown_drains 2
              [bytes_at (example_audio 320) 320; bytes_at (repeat xff 320) 320]
              (set_m_audio_buffer
                 (Some (fst (Buffer_writes (Buffer_new 0 640 320 20)
                               [example_audio 320; repeat xff 320])))
                 (fst (graceful_shutdown 1
                         (set_m_firstMsgSent true
                            (set_m_state LWS_CLIENT_CONNECTED
                               example_small_pipe)))))
              (fst (Buffer_writes (Buffer_new 0 640 320 20)
                      [example_audio 320; repeat xff 320])))
    as (msgs & W & _ & P & _).
  - refine (conj eq_refl (conj eq_refl (conj eq_refl (conj H (conj OK
             (conj _ (conj eq_refl (conj _ (conj eq_refl (conj eq_refl
             (conj eq_refl eq_refl))))))))))).
    + rewrite C. reflexivity.
    + reflexivity.
  - exists msgs. split; [exact W | exact P].
Defined.

(** X23, on an object of both tracks that holds a chunk of zero bytes on
    the inbound track and a chunk of bytes ff on the outbound one: the
    outbound chunk goes first. *)
Lemma both_tracks_take_turns_example :
  let bi :=
    fst (Buffer_write (Buffer_new 0 640 320 20) (example_audio 320)) in
  let bo :=
    fst (Buffer_write (Buffer_new 0 640 320 20) (repeat xff 320)) in
  let ap :=
    set_m_ob_audio_buffer (Some bo)
      (set_m_audio_buffer (Some bi)
         (set_m_firstMsgSent true
            (set_m_state LWS_CLIENT_CONNECTED
               (AudioPipe_new 0 "call" "stream" 640 "both" "" L16 8000 1))))
  in
  media_tracks
    (wire (snd (run_pipe
                  (repeat (LWS_CALLBACK_CLIENT_WRITEABLE 0 true false) 2)
                  ap)))
  = [("outbound"%string, base64.base64_encode (repeat xff 320));
     ("inbound"%string, base64.base64_encode (example_audio 320))].
Proof.
  cbv zeta.
  apply (both_tracks_take_turns 0 [(example_audio 320, repeat xff 320)]).
  refine (conj eq_refl (conj eq_refl (conj _ (conj _
            (conj eq_refl (conj eq_refl (conj eq_refl eq_refl))))))).
  - eexists. split; [reflexivity|].
    split; [|reflexivity].
    split; [vm_compute; reflexivity|].
    constructor; [vm_compute; reflexivity | constructor].
  - eexists. split; [reflexivity|].
    split; [|reflexivity].
    split; [vm_compute; reflexivity|].
    constructor; [vm_compute; reflexivity | constructor].
Defined.
